(** * A segregated-list, best-fit dynamic memory allocator (mm.c)

    Shallow embedding of [mm.c] and verification of its specification.

    The C code works on raw memory: every header, footer and free-list
    link is a 64-bit little-endian word read or written through a
    [char*].  The embedding keeps that view: the heap is a byte map, a
    word access reads or writes eight bytes, an access outside the region
    handed out by the heap provider is a fault, and all [size_t] and
    pointer arithmetic wraps modulo 2^64. *)

From Stdlib Require Import ZArith List Lia Bool.
From coqutil Require Import Byte Word.LittleEndianList Z.bitblast.
Import ListNotations.
Local Open Scope Z_scope.

(** ** Machine words *)

Definition WORD_MAX : Z := 2 ^ 64.

(** Reduction of a mathematical integer to a [size_t] / pointer value. *)
Definition wrap (x : Z) : Z := x mod WORD_MAX.

(** ** Constants of mm.c *)

Definition ALIGNMENT : Z := 16.
Definition WSIZE : Z := 8.
Definition DSIZE : Z := 16.
Definition CHUNKSIZE : Z := Z.shiftl 1 12.
Definition SEGLIST_CLASSES : Z := 12.
Definition NULL : Z := 0.

(** ** The heap provider and the machine state

    [memlib.c] is not part of the sources; the record holds what its
    interface exposes (start, break and limit of the region) next to the
    byte contents and the two global pointers of mm.c. *)

Record state : Type := mkState {
  mem_bytes : Z -> byte;
  mem_start_brk : Z;
  mem_brk : Z;
  mem_max_addr : Z;
  heap_listp : Z;
  seg_listp : Z
}.

Definition set_bytes (s : state) (m : Z -> byte) : state :=
  mkState m (mem_start_brk s) (mem_brk s) (mem_max_addr s) (heap_listp s) (seg_listp s).
Definition set_brk (s : state) (b : Z) : state :=
  mkState (mem_bytes s) (mem_start_brk s) b (mem_max_addr s) (heap_listp s) (seg_listp s).
Definition set_heap_listp (s : state) (p : Z) : state :=
  mkState (mem_bytes s) (mem_start_brk s) (mem_brk s) (mem_max_addr s) p (seg_listp s).
Definition set_seg_listp (s : state) (p : Z) : state :=
  mkState (mem_bytes s) (mem_start_brk s) (mem_brk s) (mem_max_addr s) (heap_listp s) p.

(** ** Outcomes and the state monad of the embedding *)

Inductive outcome (A : Type) : Type :=
| Ok (a : A) (s : state)
| Fault
| Diverge.
Arguments Ok {A} a s.
Arguments Fault {A}.
Arguments Diverge {A}.

Definition M (A : Type) : Type := state -> outcome A.

Definition ret {A} (a : A) : M A := fun s => Ok a s.
Definition bind {A B} (c : M A) (k : A -> M B) : M B :=
  fun s => match c s with
           | Ok a s' => k a s'
           | Fault => Fault
           | Diverge => Diverge
           end.

Notation "x <- c ;; k" := (bind c (fun x => k))
  (at level 61, c at next level, right associativity).
Notation "c ;;; k" := (bind c (fun _ => k))
  (at level 61, right associativity).

(** ** Byte-level memory *)

Definition load_bytes (n : nat) (m : Z -> byte) (a : Z) : list byte :=
  map (fun i => m (a + Z.of_nat i)) (seq 0 n).

Definition store_bytes (m : Z -> byte) (a : Z) (bs : list byte) : Z -> byte :=
  fun x => if (a <=? x) && (x <? a + Z.of_nat (length bs))
           then nth (Z.to_nat (x - a)) bs Byte.x00
           else m x.

Definition load8 (m : Z -> byte) (a : Z) : Z := le_combine (load_bytes 8 m a).
Definition store8 (m : Z -> byte) (a : Z) (v : Z) : Z -> byte :=
  store_bytes m a (le_split 8 v).

(** [n] bytes starting at [a] lie inside the region owned by the allocator. *)
Definition in_heap_range (s : state) (a n : Z) : bool :=
  (mem_start_brk s <=? a) && (a + n <=? mem_brk s).

(** Modelled from the spec: the heap provider's [grow(n)] ([mem_sbrk] of the
    absent memlib.c).  It advances the region by [n] bytes and returns the
    start of the new bytes; it refuses, returning the sentinel [(void * )-1],
    when the limit would be passed. *)
Definition mem_sbrk (incr : Z) : M Z :=
  fun s => if mem_brk s + incr <=? mem_max_addr s
           then Ok (mem_brk s) (set_brk s (mem_brk s + incr))
           else Ok (wrap (-1)) s.

(** Modelled from the spec: the bulk copy primitive ([memcpy]). *)
Definition memcpy (dst src n : Z) : M unit :=
  fun s => if in_heap_range s dst n && in_heap_range s src n
           then Ok tt (set_bytes s (store_bytes (mem_bytes s) dst
                                      (load_bytes (Z.to_nat n) (mem_bytes s) src)))
           else Fault.

(** Modelled from the spec: the bulk fill primitive ([memset]). *)
Definition memset (dst : Z) (c : byte) (n : Z) : M unit :=
  fun s => if in_heap_range s dst n
           then Ok tt (set_bytes s (store_bytes (mem_bytes s) dst
                                      (repeat c (Z.to_nat n))))
           else Fault.

(** ** Helper functions of mm.c *)

Definition PACK (size alloc : Z) : Z := Z.lor size alloc.

Definition GET (p : Z) : M Z :=
  fun s => if in_heap_range s p 8 then Ok (load8 (mem_bytes s) p) s else Fault.

Definition PUT (p val : Z) : M unit :=
  fun s => if in_heap_range s p 8
           then Ok tt (set_bytes s (store8 (mem_bytes s) p val))
           else Fault.

(** [~0x7] converted to [size_t]. *)
Definition SIZE_MASK : Z := wrap (Z.lnot 7).

Definition GET_SIZE (p : Z) : M Z := w <- GET p ;; ret (Z.land w SIZE_MASK).
Definition GET_ALLOC (p : Z) : M Z := w <- GET p ;; ret (Z.land w 1).
Definition HDRP (bp : Z) : Z := wrap (bp - WSIZE).
Definition FTRP (bp : Z) : M Z :=
  sz <- GET_SIZE (HDRP bp) ;; ret (wrap (wrap (bp + sz) - DSIZE)).
Definition NEXT_BLKP (bp : Z) : M Z :=
  sz <- GET_SIZE (wrap (bp - WSIZE)) ;; ret (wrap (bp + sz)).
Definition PREV_BLKP (bp : Z) : M Z :=
  sz <- GET_SIZE (wrap (bp - DSIZE)) ;; ret (wrap (bp - sz)).
Definition PREV_ALLOC (p : Z) : M Z := w <- GET p ;; ret (Z.land w 2).
Definition PUT_ADDR (p val : Z) : M unit := PUT p val.
Definition NEXT_FREE_ADDR (bp : Z) : Z := bp.
Definition PREV_FREE_ADDR (bp : Z) : Z := wrap (bp + WSIZE).

Definition get_segclass_ind (size : Z) : Z :=
  if size <=? 32 then 0
  else if size <=? 64 then 1
  else if size <=? 128 then 2
  else if size <=? 256 then 3
  else if size <=? 512 then 4
  else if size <=? 1024 then 5
  else if size <=? 2048 then 6
  else if size <=? 4096 then 7
  else if size <=? 8192 then 8
  else if size <=? 16384 then 9
  else if size <=? 32768 then 10
  else 11.

Definition align (x : Z) : Z :=
  wrap (ALIGNMENT * (wrap (wrap (x + ALIGNMENT) - 1) / ALIGNMENT)).

(** Address of the root slot of bucket [ind]. *)
Definition class_slot (s : state) (ind : Z) : Z := wrap (seg_listp s + ind * WSIZE).
Definition get_seg_listp : M Z := fun s => Ok (seg_listp s) s.

Definition seglist_add (bp size : Z) : M unit :=
  let ind := get_segclass_ind size in
  seg <- get_seg_listp ;;
  let class := wrap (seg + ind * WSIZE) in
  first_blk <- GET class ;;
  if negb (first_blk =? NULL) then
    PUT_ADDR class bp ;;;
    PUT_ADDR (NEXT_FREE_ADDR bp) first_blk ;;;
    PUT_ADDR (PREV_FREE_ADDR bp) NULL ;;;
    PUT_ADDR (PREV_FREE_ADDR first_blk) bp
  else
    PUT_ADDR class bp ;;;
    PUT_ADDR (NEXT_FREE_ADDR bp) NULL ;;;
    PUT_ADDR (PREV_FREE_ADDR bp) NULL.

Definition seglist_delete (bp size : Z) : M unit :=
  let ind := get_segclass_ind size in
  seg <- get_seg_listp ;;
  next <- GET (NEXT_FREE_ADDR bp) ;;
  prev <- GET (PREV_FREE_ADDR bp) ;;
  if negb (next =? NULL) && (prev =? NULL) then
    PUT_ADDR (wrap (seg + ind * WSIZE)) next ;;;
    PUT_ADDR (PREV_FREE_ADDR next) NULL
  else if (next =? NULL) && negb (prev =? NULL) then
    PUT_ADDR (NEXT_FREE_ADDR prev) NULL
  else if negb (next =? NULL) && negb (prev =? NULL) then
    PUT_ADDR (PREV_FREE_ADDR next) prev ;;;
    PUT_ADDR (NEXT_FREE_ADDR prev) next
  else
    PUT_ADDR (wrap (seg + ind * WSIZE)) NULL.

Definition coalesce (bp : Z) : M Z :=
  prev_alloc <- PREV_ALLOC (HDRP bp) ;;
  nb <- NEXT_BLKP bp ;;
  next_alloc <- GET_ALLOC (HDRP nb) ;;
  size <- GET_SIZE (HDRP bp) ;;
  if negb (prev_alloc =? 0) && negb (next_alloc =? 0) then
    ret bp
  else if negb (prev_alloc =? 0) && (next_alloc =? 0) then
    seglist_delete bp size ;;;
    nb <- NEXT_BLKP bp ;;
    nsz <- GET_SIZE (HDRP nb) ;;
    seglist_delete nb nsz ;;;
    nb <- NEXT_BLKP bp ;;
    nsz <- GET_SIZE (HDRP nb) ;;
    let size := wrap (size + nsz) in
    PUT (HDRP bp) (PACK size prev_alloc) ;;;
    ft <- FTRP bp ;;
    h <- GET (HDRP bp) ;;
    PUT ft h ;;;
    seglist_add bp size ;;;
    ret bp
  else if (prev_alloc =? 0) && negb (next_alloc =? 0) then
    seglist_delete bp size ;;;
    pb <- PREV_BLKP bp ;;
    psz <- GET_SIZE (HDRP pb) ;;
    seglist_delete pb psz ;;;
    pb <- PREV_BLKP bp ;;
    psz <- GET_SIZE (HDRP pb) ;;
    let size := wrap (size + psz) in
    pb <- PREV_BLKP bp ;;
    ppa <- PREV_ALLOC (HDRP pb) ;;
    PUT (HDRP pb) (PACK size ppa) ;;;
    pb <- PREV_BLKP bp ;;
    ft <- FTRP pb ;;
    h <- GET (HDRP pb) ;;
    PUT ft h ;;;
    pb <- PREV_BLKP bp ;;
    seglist_add pb size ;;;
    pb <- PREV_BLKP bp ;;
    ret pb
  else
    seglist_delete bp size ;;;
    pb <- PREV_BLKP bp ;;
    psz <- GET_SIZE (HDRP pb) ;;
    seglist_delete pb psz ;;;
    nb <- NEXT_BLKP bp ;;
    nsz <- GET_SIZE (HDRP nb) ;;
    seglist_delete nb nsz ;;;
    pb <- PREV_BLKP bp ;;
    psz <- GET_SIZE (HDRP pb) ;;
    nb <- NEXT_BLKP bp ;;
    nsz <- GET_SIZE (HDRP nb) ;;
    let size := wrap (size + wrap (psz + nsz)) in
    pb <- PREV_BLKP bp ;;
    ppa <- PREV_ALLOC (HDRP pb) ;;
    PUT (HDRP pb) (PACK size ppa) ;;;
    pb <- PREV_BLKP bp ;;
    ft <- FTRP pb ;;
    h <- GET (HDRP pb) ;;
    PUT ft h ;;;
    pb <- PREV_BLKP bp ;;
    seglist_add pb size ;;;
    pb <- PREV_BLKP bp ;;
    ret pb.

Definition extend_heap (words : Z) : M Z :=
  let size := align words in
  bp <- mem_sbrk size ;;
  if bp =? wrap (-1) then ret NULL
  else
    pa <- PREV_ALLOC (HDRP bp) ;;
    PUT (HDRP bp) (PACK size pa) ;;;
    ft <- FTRP bp ;;
    h <- GET (HDRP bp) ;;
    PUT ft h ;;;
    seglist_add bp size ;;;
    nb <- NEXT_BLKP bp ;;
    PUT (HDRP nb) (PACK 0 1) ;;;
    coalesce bp.

(** The [while (curr)] loop of [seglist_search]; [fuel] bounds the number of
    iterations, and running out of it stands for a walk that never ends. *)
Fixpoint seglist_search_loop (fuel : nat) (size curr best diff : Z) : M Z :=
  match fuel with
  | O => fun _ => Diverge
  | S fuel' =>
      if curr =? NULL then ret best
      else
        csz <- GET_SIZE (HDRP curr) ;;
        if size <=? csz then
          if (best =? NULL) || (wrap (csz - size) <? diff) then
            let diff' := wrap (csz - size) in
            if diff' =? 0 then ret curr
            else
              nxt <- GET (NEXT_FREE_ADDR curr) ;;
              seglist_search_loop fuel' size nxt curr diff'
          else
            nxt <- GET (NEXT_FREE_ADDR curr) ;;
            seglist_search_loop fuel' size nxt best diff
        else
          nxt <- GET (NEXT_FREE_ADDR curr) ;;
          seglist_search_loop fuel' size nxt best diff
  end.

Definition seglist_search (fuel : nat) (list size : Z) : M Z :=
  seg <- get_seg_listp ;;
  curr <- GET (wrap (seg + list * WSIZE)) ;;
  seglist_search_loop fuel size curr NULL 0.

(** The [for (i = ind; i < SEGLIST_CLASSES; i++)] loop of [find_fit], with
    [n] the number of buckets still to visit. *)
Fixpoint find_fit_loop (fuel : nat) (n : nat) (i asize : Z) : M Z :=
  match n with
  | O => ret NULL
  | S n' =>
      bp <- seglist_search fuel i asize ;;
      if negb (bp =? NULL) then ret bp
      else find_fit_loop fuel n' (i + 1) asize
  end.

Definition find_fit (fuel : nat) (asize : Z) : M Z :=
  let ind := get_segclass_ind asize in
  find_fit_loop fuel (Z.to_nat (SEGLIST_CLASSES - ind)) ind asize.

Definition place (bp asize : Z) : M unit :=
  csize <- GET_SIZE (HDRP bp) ;;
  if 2 * DSIZE <=? wrap (csize - asize) then
    seglist_delete bp csize ;;;
    pa <- PREV_ALLOC (HDRP bp) ;;
    PUT (HDRP bp) (PACK asize (PACK pa 1)) ;;;
    bp' <- NEXT_BLKP bp ;;
    PUT (HDRP bp') (PACK (wrap (csize - asize)) 2) ;;;
    ft <- FTRP bp' ;;
    PUT ft (PACK (wrap (csize - asize)) 2) ;;;
    seglist_add bp' (wrap (csize - asize))
  else
    seglist_delete bp csize ;;;
    pa <- PREV_ALLOC (HDRP bp) ;;
    PUT (HDRP bp) (PACK csize (PACK pa 1)) ;;;
    nb <- NEXT_BLKP bp ;;
    nb' <- NEXT_BLKP bp ;;
    w <- GET (HDRP nb') ;;
    PUT (HDRP nb) (PACK w 2).

(** ** The public surface of mm.c *)

(** The [for] loop of [mm_init] that clears the bucket roots. *)
Fixpoint init_classes (n : nat) (i : Z) : M unit :=
  match n with
  | O => ret tt
  | S n' =>
      seg <- get_seg_listp ;;
      PUT_ADDR (wrap (seg + i * WSIZE)) NULL ;;;
      init_classes n' (i + 1)
  end.

Definition mm_init : M bool :=
  seg <- mem_sbrk (SEGLIST_CLASSES * WSIZE) ;;
  (fun s => Ok tt (set_seg_listp s seg)) ;;;
  if seg =? wrap (-1) then ret false
  else
    init_classes (Z.to_nat SEGLIST_CLASSES) 0 ;;;
    hl <- mem_sbrk (4 * WSIZE) ;;
    (fun s => Ok tt (set_heap_listp s hl)) ;;;
    if hl =? wrap (-1) then ret false
    else
      PUT hl 0 ;;;
      PUT (wrap (hl + 1 * WSIZE)) (PACK DSIZE 1) ;;;
      PUT (wrap (hl + 2 * WSIZE)) (PACK DSIZE 1) ;;;
      PUT (wrap (hl + 3 * WSIZE)) (PACK 0 (PACK 2 1)) ;;;
      (fun s => Ok tt (set_heap_listp s (wrap (hl + 4 * WSIZE)))) ;;;
      bp <- extend_heap (CHUNKSIZE / WSIZE) ;;
      if bp =? NULL then ret false else ret true.

Section WithFuel.

(** Bound on the length of any free-list walk. *)
Variable fuel : nat.

Definition malloc (size : Z) : M Z :=
  if size <=? 0 then ret NULL
  else
    let asize := align (wrap (size + DSIZE)) in
    bp <- find_fit fuel asize ;;
    if negb (bp =? NULL) then
      place bp asize ;;; ret bp
    else
      bp <- extend_heap asize ;;
      if bp =? NULL then ret NULL
      else place bp asize ;;; ret bp.

Definition free (ptr : Z) : M unit :=
  if ptr =? NULL then ret tt
  else
    size <- GET_SIZE (HDRP ptr) ;;
    pa <- PREV_ALLOC (HDRP ptr) ;;
    PUT (HDRP ptr) (PACK size pa) ;;;
    ft <- FTRP ptr ;;
    h <- GET (HDRP ptr) ;;
    PUT ft h ;;;
    nb <- NEXT_BLKP ptr ;;
    nb1 <- NEXT_BLKP ptr ;;
    nsz <- GET_SIZE (HDRP nb1) ;;
    nb2 <- NEXT_BLKP ptr ;;
    nal <- GET_ALLOC (HDRP nb2) ;;
    PUT (HDRP nb) (PACK nsz nal) ;;;
    seglist_add ptr size ;;;
    coalesce ptr ;;;
    ret tt.

Definition realloc (oldptr size : Z) : M Z :=
  size_old <- GET_SIZE (HDRP oldptr) ;;
  if oldptr =? NULL then malloc size
  else if size =? 0 then
    free oldptr ;;; ret NULL
  else
    ptr <- malloc (align size) ;;
    if ptr =? NULL then ret ptr
    else
      (if size <? size_old then memcpy ptr oldptr size
       else memcpy ptr oldptr size_old) ;;;
      free oldptr ;;;
      ret ptr.

Definition calloc (nmemb size : Z) : M Z :=
  let size := wrap (size * nmemb) in
  ptr <- malloc size ;;
  if negb (ptr =? NULL) then
    memset ptr Byte.x00 size ;;; ret ptr
  else ret ptr.

End WithFuel.

(** [mm_checkheap] in the build of the sources: [DEBUG] is not defined (its
    [#define] is commented out), so the body between [#ifdef DEBUG] and
    [#endif] is not compiled and only [return true] remains. *)
Definition mm_checkheap (lineno : Z) : M bool := ret true.

(** ** Reading the heap: blocks in address order *)

Definition word_at (s : state) (a : Z) : Z := load8 (mem_bytes s) a.

(** Header word, size, allocation bit and previous-allocation bit of the
    block whose payload starts at [bp]. *)
Definition hdr (s : state) (bp : Z) : Z := word_at s (bp - WSIZE).
Definition bsize (s : state) (bp : Z) : Z := Z.land (hdr s bp) SIZE_MASK.
Definition balloc (s : state) (bp : Z) : Z := Z.land (hdr s bp) 1.
Definition bprev (s : state) (bp : Z) : Z := Z.land (hdr s bp) 2.

(** The payload addresses met by the implicit-list traversal: it starts at
    [heap_listp] and steps by the size found in each header, stopping at a
    header of size 0. *)
Inductive reach (s : state) : Z -> Prop :=
| reach_first : reach s (heap_listp s)
| reach_next (a : Z) : reach s a -> bsize s a <> 0 -> reach s (a + bsize s a).

Definition is_block (s : state) (a : Z) : Prop := reach s a /\ bsize s a <> 0.
Definition is_free_block (s : state) (a : Z) : Prop := is_block s a /\ balloc s a = 0.
Definition is_alloc_block (s : state) (a : Z) : Prop := is_block s a /\ balloc s a = 1.

(** No two free blocks are adjacent in address order. *)
Definition no_adjacent_free (s : state) : Prop :=
  forall a, is_free_block s a -> balloc s (a + bsize s a) = 1.

(** The same traversal as a function, for at most [n] blocks:
    (payload address, size, allocation bit) of each block. *)
Fixpoint heap_walk (n : nat) (s : state) (a : Z) : list (Z * Z * Z) :=
  match n with
  | O => []
  | S n' => if bsize s a =? 0 then []
            else (a, bsize s a, balloc s a) :: heap_walk n' s (a + bsize s a)
  end.

(** The provider's region lies inside the 64-bit address space. *)
Definition sane (s : state) : Prop :=
  0 <= mem_start_brk s /\ mem_brk s < WORD_MAX.

(** Two eight-byte words do not overlap. *)
Definition word_disjoint (a b : Z) : Prop := a + 8 <= b \/ b + 8 <= a.

(** Same provider bounds and global pointers. *)
Definition same_frame (s s' : state) : Prop :=
  mem_start_brk s' = mem_start_brk s /\ mem_brk s' = mem_brk s /\
  mem_max_addr s' = mem_max_addr s /\ heap_listp s' = heap_listp s /\
  seg_listp s' = seg_listp s.

(** The words that [seglist_delete bp size] rewires, read off its four
    branches. *)
Definition unlink_writes (s : state) (bp size : Z) : list Z :=
  let next := word_at s bp in
  let prev := word_at s (bp + WSIZE) in
  let slot := class_slot s (get_segclass_ind size) in
  if negb (next =? NULL) && (prev =? NULL) then [slot; next + WSIZE]
  else if (next =? NULL) && negb (prev =? NULL) then [prev]
  else if negb (next =? NULL) && negb (prev =? NULL) then [next + WSIZE; prev]
  else [slot].

(** ** Representation of the free lists *)

(** State after the eight-byte store of [v] at [p]. *)
Definition put (s : state) (p v : Z) : state :=
  set_bytes s (store8 (mem_bytes s) p v).

(** [dseg s head prev l tl]: starting from the pointer [head], the next links
    run through the blocks [l] in order and end with the pointer [tl]; the
    prev link of each block holds its predecessor, [prev] for the first. *)
Fixpoint dseg (s : state) (head prev : Z) (l : list Z) (tl : Z) : Prop :=
  match l with
  | [] => head = tl
  | x :: l' =>
      head = x /\ x <> NULL /\ word_at s (x + 8) = prev /\
      dseg s (word_at s x) x l' tl
  end.

(** Address of the root slot of bucket [i] when the index array does not wrap. *)
Definition slot_addr (s : state) (i : Z) : Z := seg_listp s + 8 * i.

Definition upd_fl (fl : Z -> list Z) (c : Z) (l : list Z) : Z -> list Z :=
  fun i => if i =? c then l else fl i.

(** Where the allocator keeps its data: index array at the start of the
    region, prologue and first block 128 bytes later. *)
Record env_ok (s : state) : Prop := {
  env_lo : 0 <= mem_start_brk s;
  env_align : mem_start_brk s mod 16 = 0;
  env_seg : seg_listp s = mem_start_brk s;
  env_hl : heap_listp s = mem_start_brk s + 128;
  env_brk : heap_listp s <= mem_brk s;
  env_max : mem_brk s <= mem_max_addr s;
  env_top : mem_max_addr s < WORD_MAX
}.

(** The twelve buckets [fl 0 .. fl 11] are well-formed doubly linked lists. *)
Record lists_ok (s : state) (fl : Z -> list Z) : Prop := {
  lk_dll : forall i, 0 <= i < 12 ->
             dseg s (word_at s (slot_addr s i)) NULL (fl i) NULL;
  lk_nodup : forall i, NoDup (fl i);
  lk_loc : forall i x, In x (fl i) ->
             0 <= i < 12 /\ heap_listp s <= x /\ x + 16 <= mem_brk s /\ x mod 16 = 0;
  lk_disj : forall i j x, In x (fl i) -> In x (fl j) -> i = j
}.

(** Bytes that hold free-list data: the index array and the two link words
    of every listed block. *)
Definition link_area (s : state) (fl : Z -> list Z) (x : Z) : Prop :=
  (seg_listp s <= x < seg_listp s + 96) \/
  (exists i y, In y (fl i) /\ y <= x < y + 16).

(** ** Representation of the implicit block list

    [blk a] says that a block with payload address [a] is part of the heap;
    sizes and flags are read from the headers in memory.  The epilogue sits
    at [mem_brk s]. *)
Record heap_ok (s : state) (blk : Z -> Prop) : Prop := {
  hk_env : env_ok s;
  hk_blk : forall a, blk a ->
             heap_listp s <= a /\ a mod 16 = 0 /\ 32 <= bsize s a /\
             bsize s a mod 16 = 0 /\ a + bsize s a <= mem_brk s;
  hk_next : forall a, blk a -> blk (a + bsize s a) \/ a + bsize s a = mem_brk s;
  hk_order : forall a b, blk a -> blk b -> a < b -> a + bsize s a <= b;
  hk_first : blk (heap_listp s) \/ heap_listp s = mem_brk s;
  hk_first_prev : bprev s (heap_listp s) = 2;
  hk_pred : forall a, blk a \/ a = mem_brk s -> a <> heap_listp s ->
              exists p, blk p /\ p + bsize s p = a;
  hk_epi : bsize s (mem_brk s) = 0 /\ balloc s (mem_brk s) = 1;
  hk_prev_bit : forall a, blk a -> bprev s (a + bsize s a) = 2 * balloc s a;
  hk_footer : forall a, blk a -> balloc s a = 0 ->
                Z.land (word_at s (a + bsize s a - 16)) SIZE_MASK = bsize s a
}.

(** Every free block is in the bucket of its size class, and the buckets
    hold nothing else. *)
Definition fl_match (s : state) (blk : Z -> Prop) (fl : Z -> list Z) : Prop :=
  forall i a, In a (fl i) <->
              (blk a /\ balloc s a = 0 /\ get_segclass_ind (bsize s a) = i).

(** Immediate coalescing, on the abstract block set. *)
Definition no_adj (s : state) (blk : Z -> Prop) : Prop :=
  forall a, blk a -> balloc s a = 0 -> balloc s (a + bsize s a) = 1.

(** The invariant of the allocator, for a given block set and buckets. *)
Record INV (s : state) (blk : Z -> Prop) (fl : Z -> list Z) : Prop := {
  inv_heap : heap_ok s blk;
  inv_lists : lists_ok s fl;
  inv_match : fl_match s blk fl;
  inv_adj : no_adj s blk
}.

Definition Inv (s : state) : Prop := exists blk fl, INV s blk fl.

(** Allocated blocks outside [ex] stay allocated, with their size and the
    contents of their payload. *)
Definition keeps (ex : Z -> Prop) (s : state) (blk : Z -> Prop)
           (s' : state) (blk' : Z -> Prop) : Prop :=
  forall a, blk a -> balloc s a = 1 -> ~ ex a ->
            blk' a /\ balloc s' a = 1 /\ bsize s' a = bsize s a /\
            forall x, a <= x < a + bsize s a - 8 -> mem_bytes s' x = mem_bytes s x.

Definition nothing : Z -> Prop := fun _ => False.
Definition only (p : Z) : Z -> Prop := fun a => a = p.

(** Partial correctness with a termination clause: the computation does not
    fault, a result satisfies [P], and it can only run out of fuel when
    [small] holds. *)
Definition triple {A} (small : Prop) (o : outcome A) (P : A -> state -> Prop) : Prop :=
  match o with
  | Ok a s' => P a s'
  | Fault => False
  | Diverge => small
  end.

(** ** Specification of the free-list search *)

(** The size class in the words of the specification, [class(s) = 0 if
    s <= 32, 1 if s <= 64, ..., i if s <= 32 * 2^i, ..., 11 otherwise]: the
    first [i] from 0 to 10 with [s <= 32 * 2^i], and 11 when there is none.
    It is compared with [get_segclass_ind], the table of mm.c. *)
Fixpoint class_scan (n : nat) (i s : Z) : Z :=
  match n with
  | O => i
  | S n' => if s <=? 32 * 2 ^ i then i else class_scan n' (i + 1) s
  end.

Definition class_of_spec (s : Z) : Z := class_scan 11 0 s.

(** Bucket [i] is the null-terminated list [l], and the header and next
    link of each of its blocks can be read. *)
Definition bucket_ok (s : state) (i : Z) (l : list Z) : Prop :=
  dseg s (word_at s (slot_addr s i)) NULL l NULL /\
  forall x, In x l -> mem_start_brk s + 8 <= x /\ x + 8 <= mem_brk s.

Definition no_fit (s : state) (asize : Z) (l : list Z) : Prop :=
  forall x, In x l -> bsize s x < asize.

(** [r] is a block of [l] that fits [asize] with the least slack. *)
Definition best_fit_in (s : state) (asize : Z) (l : list Z) (r : Z) : Prop :=
  In r l /\ asize <= bsize s r /\
  forall x, In x l -> asize <= bsize s x -> bsize s r <= bsize s x.

(** What the search has found so far: nothing, or the best among [seen]. *)
Definition best_so_far (s : state) (asize : Z) (seen : list Z) (best : Z) : Prop :=
  (best = NULL /\ no_fit s asize seen) \/ (best <> NULL /\ best_fit_in s asize seen best).

(** ** Growth of the region *)

(** The provider may have advanced the break; its bounds and the two global
    pointers are otherwise the same. *)
Definition grows (s s' : state) : Prop :=
  mem_start_brk s' = mem_start_brk s /\ mem_brk s <= mem_brk s' /\
  mem_max_addr s' = mem_max_addr s /\ heap_listp s' = heap_listp s /\
  seg_listp s' = seg_listp s.

(** ** Clients of the allocator

    A client issues the four public calls and writes bytes into the blocks
    it holds.  What it holds is its own bookkeeping: the addresses it was
    given, each with the size it asked for. *)

Inductive request : Type :=
| Malloc (size : Z)
| Free (ptr : Z)
| Realloc (ptr size : Z)
| Calloc (nmemb size : Z)
| Poke (x : Z) (b : byte).

(** The provider before [mm_init], as mm.c expects it: an empty region
    inside the address space that starts on a 16-byte boundary (mm.c adds
    multiples of 16 to the start of the region and never aligns it). *)
Definition fresh (s : state) : Prop :=
  0 <= mem_start_brk s /\ mem_start_brk s mod 16 = 0 /\
  mem_brk s = mem_start_brk s /\ mem_brk s <= mem_max_addr s /\
  mem_max_addr s < WORD_MAX.

(** A one-byte store by the client; outside the region it is a fault. *)
Definition poke (x : Z) (b : byte) : M unit :=
  fun s => if in_heap_range s x 1
           then Ok tt (set_bytes s (fun y => if y =? x then b else mem_bytes s y))
           else Fault.

Definition size_t_b (n : Z) : bool := (0 <=? n) && (n <? WORD_MAX).

Definition held_b (live : list (Z * Z)) (p : Z) : bool :=
  existsb (fun e => fst e =? p) live.

Definition owns_b (live : list (Z * Z)) (x : Z) : bool :=
  existsb (fun e => (fst e <=? x) && (x <? fst e + snd e)) live.

Definition drop (p : Z) (live : list (Z * Z)) : list (Z * Z) :=
  filter (fun e => negb (fst e =? p)) live.

Definition gain (r n : Z) (live : list (Z * Z)) : list (Z * Z) :=
  if r =? NULL then live else (r, n) :: live.

Definition through {A} (o : outcome A) (f : A -> state -> state * list (Z * Z)) :
  option (state * list (Z * Z)) :=
  match o with
  | Ok a s' => Some (f a s')
  | Fault | Diverge => None
  end.

(** A request of a client that respects the interface: sizes are [size_t]
    values, [free] and [realloc] get null or an address the client holds,
    and a byte is written only inside a held block, within the size that
    was asked for. *)
Definition legal_b (live : list (Z * Z)) (rq : request) : bool :=
  match rq with
  | Malloc n => size_t_b n
  | Free p => (p =? NULL) || held_b live p
  | Realloc p n => size_t_b n && ((p =? NULL) || held_b live p)
  | Calloc nmemb size => size_t_b nmemb && size_t_b size
  | Poke x _ => owns_b live x
  end.

(** [realloc] with a null old pointer. *)
Definition null_resize (rq : request) : bool :=
  match rq with
  | Realloc p _ => p =? NULL
  | _ => false
  end.

(** One legal request: the call on the allocator's state, and the update of
    the client's bookkeeping.  [None] when the request is not legal or the
    call does not return. *)
Definition serve (fuel : nat) (rq : request) (st : state * list (Z * Z)) :
  option (state * list (Z * Z)) :=
  let s := fst st in
  let live := snd st in
  if legal_b live rq then
    match rq with
    | Malloc n => through (malloc fuel n s) (fun r s' => (s', gain r n live))
    | Free p => through (free p s) (fun _ s' => (s', drop p live))
    | Realloc p n =>
        through (realloc fuel p n s)
          (fun r s' => (s', if n =? 0 then drop p live
                            else if r =? NULL then live
                                 else (r, n) :: drop p live))
    | Calloc nmemb size =>
        through (calloc fuel nmemb size s)
          (fun r s' => (s', gain r (nmemb * size) live))
    | Poke x b => through (poke x b s) (fun _ s' => (s', live))
    end
  else None.

(** Largest request for which [malloc]'s [align(size + DSIZE)] does not
    wrap around. *)
Definition MAX_REQUEST : Z := WORD_MAX - 32.

Definition bounded (rq : request) : Prop :=
  match rq with
  | Malloc n => n <= MAX_REQUEST
  | Realloc _ n => n <= MAX_REQUEST
  | Calloc nmemb size => nmemb * size <= MAX_REQUEST
  | Free _ | Poke _ _ => True
  end.

Definition any_request (rq : request) : Prop := True.

(** States a client can bring about after a successful [mm_init], with
    requests that satisfy [ok]. *)
Inductive reachable (ok : request -> Prop) : state * list (Z * Z) -> Prop :=
| after_init (s0 s : state) :
    fresh s0 -> mm_init s0 = Ok true s -> reachable ok (s, [])
| after_request (st st' : state * list (Z * Z)) (rq : request) (fuel : nat) :
    reachable ok st -> ok rq -> serve fuel rq st = Some st' -> reachable ok st'.

(** The invariant together with the client's bookkeeping: every address
    held is an allocated block with room for the size asked for. *)
Definition Linv (s : state) (live : list (Z * Z)) : Prop :=
  exists blk fl,
    INV s blk fl /\
    forall p n, In (p, n) live ->
                blk p /\ balloc s p = 1 /\ 0 <= n <= bsize s p - 8.

(** Fuel that outlasts every free-list walk of the heap. *)
Definition enough (fuel : nat) (s : state) : Prop :=
  (mem_brk s - heap_listp s) / 16 < Z.of_nat fuel.

(** ** A concrete heap, for examples *)

Definition fresh0 : state :=
  mkState (fun _ => Byte.x00) 4096 4096 (4096 + 65536) 0 0.

Definition started (s : state) : state :=
  match mm_init s with
  | Ok _ s' => s'
  | Fault | Diverge => s
  end.

Definition heap0 : state := started fresh0.

(** The state after a list of requests, skipping those that are not served. *)
Definition served (fuel : nat) (rqs : list request) (st : state * list (Z * Z)) :
  state * list (Z * Z) :=
  fold_left (fun st rq => match serve fuel rq st with
                          | Some st' => st'
                          | None => st
                          end) rqs st.

(** Result of a call, null when there is none. *)
Definition result (o : outcome Z) : Z :=
  match o with
  | Ok r _ => r
  | Fault | Diverge => NULL
  end.

Definition state_after {A} (o : outcome A) (s : state) : state :=
  match o with
  | Ok _ s' => s'
  | Fault | Diverge => s
  end.

(** Client histories on the concrete heap.  The first block of [heap0] has
    its payload at 4224. *)

(** One small block held. *)
Definition trace_one : state * list (Z * Z) :=
  served 10 [Malloc 16] (heap0, []).

(** A free block of the smallest size in front of an allocated block. *)
Definition trace_hole : state * list (Z * Z) :=
  served 10 [Malloc 16; Malloc 16; Free 4224] (heap0, []).

(** A request so large that [size + DSIZE] wraps around, then the release of
    the block that was handed out. *)
Definition trace_wrap_free : state * list (Z * Z) :=
  served 10 [Malloc (2 ^ 64 - 8); Free 4224] (heap0, []).

(** A request whose adjusted size wraps around to 0: the block handed out
    stays on its free list, and the client, writing into what it was given,
    overwrites the next-link (bytes 4224 and 4225, making it 4264) and a
    word that then reads as the header of a block of size 32 (byte 4256). *)
Definition trace_wrap_poke : state * list (Z * Z) :=
  served 10 [Malloc (2 ^ 64 - 16); Poke 4224 Byte.xa8; Poke 4225 Byte.x10;
             Poke 4256 Byte.x20] (heap0, []).

(** Three small blocks at 4224, 4256 and 4288; the first is freed and byte 8
    of the third is set. *)
Definition trace_three : state * list (Z * Z) :=
  served 10 [Malloc 16; Malloc 16; Malloc 16; Free 4224; Poke 4296 Byte.xff]
         (heap0, []).

(** Free blocks of sizes 128, 96 and 80 at 4224, 4384 and 4512, all of
    class 2 and released in the order 80, 96, 128, a free block of size 48
    at 4624 in class 1 and one of size 32 at 4704 in class 0, with
    allocated blocks of size 32 between them. *)
Definition trace_class2 : state * list (Z * Z) :=
  served 10 [Malloc 112; Malloc 16; Malloc 80; Malloc 16; Malloc 64; Malloc 16;
             Malloc 32; Malloc 16; Free 4624; Free 4512; Free 4384; Free 4224]
         (heap0, []).

(** A block of size 48 at 4224 whose byte 20 was set to 0xff before the
    block was released, in front of an allocated block. *)
Definition trace_refill : state * list (Z * Z) :=
  served 10 [Malloc 24; Malloc 16; Poke 4244 Byte.xff; Free 4224] (heap0, []).

Definition returned {A} (o : outcome A) : bool :=
  match o with
  | Ok _ _ => true
  | Fault | Diverge => false
  end.

(** ** The debugging helpers of mm.c *)

(** Modelled from the spec: the provider's [low()] and [high()], the
    inclusive bounds of the region ([mem_heap_lo] and [mem_heap_hi] of the
    absent memlib.c; mm.c also writes them [mm_heap_lo] and [mm_heap_hi]). *)
Definition mem_heap_lo : M Z := fun s => Ok (mem_start_brk s) s.
Definition mem_heap_hi : M Z := fun s => Ok (wrap (mem_brk s - 1)) s.

Definition get_heap_listp : M Z := fun s => Ok (heap_listp s) s.


(** [aligned]: [align(ip) == ip]. *)
Definition aligned (p : Z) : bool := align p =? p.

(** ** mm_checkheap with DEBUG defined

    The body between [#ifdef DEBUG] and [#endif].  The calls of
    [dbg_printf] only print and are left out; each loop gets the fuel
    bound of the free-list walks. *)

(** Invariant 1, the [while (curr)] loop over one free list: every block is
    counted, and an allocated one ends the check.  The result is the
    verdict and [seg_free_ct]. *)
Fixpoint check_freelist_marked (fuel : nat) (curr ct : Z) : M (bool * Z) :=
  match fuel with
  | O => fun _ => Diverge
  | S fuel' =>
      if curr =? NULL then ret (true, ct)
      else
        let ct := wrap (ct + 1) in
        al <- GET_ALLOC (HDRP curr) ;;
        if negb (al =? 0) then ret (false, ct)
        else
          nxt <- GET (NEXT_FREE_ADDR curr) ;;
          check_freelist_marked fuel' nxt ct
  end.

(** Invariant 1, the [for] loop over the classes, [n] classes to go. *)
Fixpoint check_seglist_marked (fuel : nat) (n : nat) (i ct : Z) : M (bool * Z) :=
  match n with
  | O => ret (true, ct)
  | S n' =>
      seg <- get_seg_listp ;;
      curr <- GET (wrap (seg + i * WSIZE)) ;;
      r <- check_freelist_marked fuel curr ct ;;
      if fst r then check_seglist_marked fuel n' (i + 1) (snd r)
      else ret r
  end.

(** Invariant 2, the walk over the heap that counts the free blocks. *)
Fixpoint count_heap_free (fuel : nat) (bp ct : Z) : M Z :=
  match fuel with
  | O => fun _ => Diverge
  | S fuel' =>
      if bp =? NULL then ret ct
      else
        sz <- GET_SIZE (HDRP bp) ;;
        if sz =? 0 then ret ct
        else
          al <- GET_ALLOC (HDRP bp) ;;
          let ct := if al =? 0 then wrap (ct + 1) else ct in
          nb <- NEXT_BLKP bp ;;
          count_heap_free fuel' nb ct
  end.

(** Invariant 3, one free list: sizes are not zero and the pointers lie
    between the bounds of the region. *)
Fixpoint check_freelist_valid (fuel : nat) (curr : Z) : M bool :=
  match fuel with
  | O => fun _ => Diverge
  | S fuel' =>
      if curr =? NULL then ret true
      else
        sz <- GET_SIZE (HDRP curr) ;;
        if sz =? 0 then ret false
        else
          hi <- mem_heap_hi ;;
          if hi <? curr then ret false
          else
            lo <- mem_heap_lo ;;
            if curr <? lo then ret false
            else
              nxt <- GET (NEXT_FREE_ADDR curr) ;;
              check_freelist_valid fuel' nxt
  end.

Fixpoint check_seglist_valid (fuel : nat) (n : nat) (i : Z) : M bool :=
  match n with
  | O => ret true
  | S n' =>
      seg <- get_seg_listp ;;
      curr <- GET (wrap (seg + i * WSIZE)) ;;
      ok <- check_freelist_valid fuel curr ;;
      if ok then check_seglist_valid fuel n' (i + 1) else ret false
  end.

(** Invariant 4, the walk that compares the end of each allocated block
    with the start of the next block. *)
Fixpoint check_no_overlap (fuel : nat) (bp : Z) : M bool :=
  match fuel with
  | O => fun _ => Diverge
  | S fuel' =>
      if bp =? NULL then ret true
      else
        sz <- GET_SIZE (HDRP bp) ;;
        if sz =? 0 then ret true
        else
          al <- GET_ALLOC (HDRP bp) ;;
          if negb (al =? 0) then
            size <- GET_SIZE (HDRP bp) ;;
            nb <- NEXT_BLKP bp ;;
            if nb <=? wrap (wrap (bp + size) - WSIZE) then ret false
            else
              nb' <- NEXT_BLKP bp ;;
              check_no_overlap fuel' nb'
          else
            nb' <- NEXT_BLKP bp ;;
            check_no_overlap fuel' nb'
  end.

(** Invariant 5, the walk that compares each block pointer with the bounds
    of the region. *)
Fixpoint check_heap_pointers (fuel : nat) (bp : Z) : M bool :=
  match fuel with
  | O => fun _ => Diverge
  | S fuel' =>
      if bp =? NULL then ret true
      else
        sz <- GET_SIZE (HDRP bp) ;;
        if sz =? 0 then ret true
        else if bp =? NULL then ret false
        else
          hi <- mem_heap_hi ;;
          if hi <? bp then ret false
          else
            lo <- mem_heap_lo ;;
            if bp <? lo then ret false
            else
              nb <- NEXT_BLKP bp ;;
              check_heap_pointers fuel' nb
  end.

Definition mm_checkheap_debug (fuel : nat) (lineno : Z) : M bool :=
  r <- check_seglist_marked fuel (Z.to_nat SEGLIST_CLASSES) 0 0 ;;
  if negb (fst r) then ret false
  else
    let seg_free_ct := snd r in
    bp1 <- get_heap_listp ;;
    heap_free_ct <- count_heap_free fuel bp1 0 ;;
    if negb (heap_free_ct =? seg_free_ct) then ret false
    else
      ok3 <- check_seglist_valid fuel (Z.to_nat SEGLIST_CLASSES) 0 ;;
      if negb ok3 then ret false
      else
        bp2 <- get_heap_listp ;;
        ok4 <- check_no_overlap fuel bp2 ;;
        if negb ok4 then ret false
        else
          bp3 <- get_heap_listp ;;
          ok5 <- check_heap_pointers fuel bp3 ;;
          if negb ok5 then ret false else ret true.

(** ** The blocks of the heap as a list *)

(** [chain s a l e]: the blocks [l] follow one another from [a] up to [e],
    each starting where the size in the header of the one before ends. *)
Fixpoint chain (s : state) (a : Z) (l : list Z) (e : Z) : Prop :=
  match l with
  | [] => a = e
  | x :: l' => x = a /\ chain s (a + bsize s a) l' e
  end.

(** The blocks of the [n] buckets from class [i] on, one bucket after the
    other. *)
Fixpoint buckets_from (fl : Z -> list Z) (n : nat) (i : Z) : list Z :=
  match n with
  | O => []
  | S n' => fl i ++ buckets_from fl n' (i + 1)
  end.

(** The free blocks among [l]. *)
Definition free_of (s : state) (l : list Z) : list Z :=
  filter (fun a => balloc s a =? 0) l.

(** Some heaps reached on the concrete region. *)
Definition trace_two_freed : state * list (Z * Z) :=
  served 10 [Malloc 16; Malloc 100; Malloc 16; Free 4256] (heap0, []).


(** A computation that leaves the state as it found it. *)
Definition reads {A} (c : M A) : Prop :=
  forall s r s', c s = Ok r s' -> s' = s.

(** [nseg s head l]: following the next-links from [head] one meets the
    blocks [l] and then null. *)
Fixpoint nseg (s : state) (head : Z) (l : list Z) : Prop :=
  match l with
  | [] => head = NULL
  | x :: l' => head = x /\ x <> NULL /\ nseg s (word_at s x) l'
  end.

(** A heap of one block whose header claims a size that reaches the end of
    the address space. *)
Definition heap_huge_size : state :=
  state_after (PUT (HDRP 4224) (PACK (2 ^ 64 - 4224) 1) heap0) heap0.

(** * Proofs *)

(** ** Words and bit fields *)

Lemma WORD_MAX_eq : WORD_MAX = 18446744073709551616.
Proof. reflexivity. Qed.

Lemma wrap_small (x : Z) : 0 <= x < WORD_MAX -> wrap x = x.
Proof. intros; unfold wrap; apply Z.mod_small; assumption. Qed.

Lemma wrap_range (x : Z) : 0 <= wrap x < WORD_MAX.
Proof. unfold wrap; apply Z.mod_pos_bound; reflexivity. Qed.

Lemma SIZE_MASK_eq : SIZE_MASK = WORD_MAX - 8.
Proof. reflexivity. Qed.

Ltac bits_fin :=
  repeat (rewrite ?Z.land_spec, ?Z.lor_spec, ?Z.testbit_ones_nonneg by lia);
  repeat match goal with
         | |- context [?a <? ?b] => destruct (Z.ltb_spec a b); try lia
         end;
  repeat match goal with
         | |- context [Z.testbit ?k ?l] => rewrite (Z.testbit_neg_r k l) by lia
         end;
  cbn [negb andb orb];
  rewrite ?andb_true_r, ?andb_false_r, ?orb_false_r, ?orb_true_r; auto.

Lemma land_mask (w : Z) : 0 <= w < WORD_MAX -> Z.land w SIZE_MASK = 8 * (w / 8).
Proof.
  intros Hw.
  replace (8 * (w / 8)) with (Z.shiftl (Z.shiftr (Z.land w (Z.ones 64)) 3) 3).
  - change SIZE_MASK with (Z.land (Z.lnot (Z.ones 3)) (Z.ones 64)).
    Z.bitblast; bits_fin.
  - rewrite Z.land_ones, Z.shiftr_div_pow2, Z.shiftl_mul_pow2 by lia.
    rewrite Z.mod_small by (rewrite WORD_MAX_eq in Hw; lia).
    change (2 ^ 3) with 8. lia.
Qed.

Lemma wrap_lor (a b : Z) :
  0 <= a < WORD_MAX -> 0 <= b < WORD_MAX -> wrap (Z.lor a b) = Z.lor a b.
Proof.
  intros Ha Hb. unfold wrap. change WORD_MAX with (2 ^ 64) in *.
  rewrite <- Z.land_ones, Z.land_lor_distr_l, !Z.land_ones by lia.
  rewrite !Z.mod_small by assumption. reflexivity.
Qed.

Lemma lor_range (a b : Z) :
  0 <= a < WORD_MAX -> 0 <= b < WORD_MAX -> 0 <= Z.lor a b < WORD_MAX.
Proof. intros Ha Hb. rewrite <- (wrap_lor a b Ha Hb). apply wrap_range. Qed.

Lemma land_range (a b : Z) : 0 <= a -> 0 <= b -> 0 <= Z.land a b <= a.
Proof.
  intros Ha Hb. split; [apply Z.land_nonneg; auto|].
  destruct (Z.eq_dec a 0) as [->|Hn]; [rewrite Z.land_0_l; lia|].
  assert (Z.land a b = a - Z.ldiff a b).
  { pose proof (Z.add_lor_land (Z.land a b) (Z.ldiff a b)) as E.
    rewrite Z.lor_comm, Z.lor_ldiff_and in E.
    assert (Z0 : Z.land (Z.land a b) (Z.ldiff a b) = 0).
    { Z.bitblast. }
    lia. }
  pose proof (proj2 (Z.ldiff_nonneg a b) (or_introl Ha)). lia.
Qed.

(** Size, allocation bit and previous-allocation bit of a header word. *)

Lemma size_of_multiple (sz : Z) :
  0 <= sz < WORD_MAX -> sz mod 8 = 0 -> Z.land sz SIZE_MASK = sz.
Proof.
  intros Hr Hm. rewrite land_mask by assumption.
  pose proof (Z.div_mod sz 8). lia.
Qed.

Lemma low_of_multiple (sz f : Z) :
  0 <= sz -> sz mod 8 = 0 -> 0 <= f < 8 -> Z.land sz f = 0.
Proof.
  intros Hs Hm Hf.
  replace sz with (Z.shiftl (sz / 8) 3)
    by (rewrite Z.shiftl_mul_pow2 by lia; change (2 ^ 3) with 8;
        pose proof (Z.div_mod sz 8); lia).
  replace f with (Z.land f (Z.ones 3))
    by (rewrite Z.land_ones by lia; apply Z.mod_small; change (2 ^ 3) with 8; lia).
  Z.bitblast; bits_fin.
Qed.

Lemma flag_size (f : Z) : 0 <= f < 8 -> Z.land f SIZE_MASK = 0.
Proof.
  intros Hf. rewrite land_mask by (rewrite WORD_MAX_eq; lia).
  rewrite Z.div_small by lia. reflexivity.
Qed.

Lemma pack_size (sz f : Z) :
  0 <= sz < WORD_MAX -> sz mod 8 = 0 -> 0 <= f < 8 ->
  Z.land (PACK sz f) SIZE_MASK = sz.
Proof.
  intros. unfold PACK.
  rewrite Z.land_lor_distr_l, size_of_multiple, flag_size by assumption.
  apply Z.lor_0_r.
Qed.

Lemma pack_low (sz f k : Z) :
  0 <= sz -> sz mod 8 = 0 -> 0 <= k < 8 ->
  Z.land (PACK sz f) k = Z.land f k.
Proof.
  intros. unfold PACK.
  rewrite Z.land_lor_distr_l, (low_of_multiple sz k) by assumption.
  apply Z.lor_0_l.
Qed.

Lemma pack_range (sz f : Z) :
  0 <= sz < WORD_MAX -> 0 <= f < 8 -> 0 <= PACK sz f < WORD_MAX.
Proof.
  intros. apply lor_range; [assumption|rewrite WORD_MAX_eq; lia].
Qed.

Lemma land_1_cases (w : Z) : Z.land w 1 = 0 \/ Z.land w 1 = 1.
Proof.
  assert (E : Z.land w 1 = w mod 2) by (apply (Z.land_ones w 1); lia).
  pose proof (Z.mod_pos_bound w 2). lia.
Qed.

Lemma land_2_cases (w : Z) : Z.land w 2 = 0 \/ Z.land w 2 = 2.
Proof.
  assert (E : Z.land w 2 = Z.land (w mod 4) 2).
  { replace (w mod 4) with (Z.land w 3) by (apply (Z.land_ones w 2); lia).
    rewrite <- Z.land_assoc. reflexivity. }
  rewrite E. pose proof (Z.mod_pos_bound w 4).
  assert (C : w mod 4 = 0 \/ w mod 4 = 1 \/ w mod 4 = 2 \/ w mod 4 = 3) by lia.
  destruct C as [-> | [-> | [-> | ->]]]; cbn; auto.
Qed.

(** ** Bytes and words in memory *)

Lemma store_bytes_outside (m : Z -> byte) (a : Z) (bs : list byte) (x : Z) :
  x < a \/ a + Z.of_nat (length bs) <= x -> store_bytes m a bs x = m x.
Proof.
  intros H. unfold store_bytes.
  destruct (Z.leb_spec a x), (Z.ltb_spec x (a + Z.of_nat (length bs)));
    simpl; try reflexivity; lia.
Qed.

Lemma store_bytes_inside (m : Z -> byte) (a : Z) (bs : list byte) (x : Z) :
  a <= x < a + Z.of_nat (length bs) ->
  store_bytes m a bs x = nth (Z.to_nat (x - a)) bs Byte.x00.
Proof.
  intros H. unfold store_bytes.
  destruct (Z.leb_spec a x), (Z.ltb_spec x (a + Z.of_nat (length bs)));
    simpl; try reflexivity; lia.
Qed.

Lemma load_bytes_ext (n : nat) (m m' : Z -> byte) (a : Z) :
  (forall x, a <= x < a + Z.of_nat n -> m' x = m x) ->
  load_bytes n m' a = load_bytes n m a.
Proof.
  intros H. unfold load_bytes. apply map_ext_in.
  intros i Hi. apply in_seq in Hi. apply H. lia.
Qed.

Lemma load_bytes_length (n : nat) (m : Z -> byte) (a : Z) :
  length (load_bytes n m a) = n.
Proof. unfold load_bytes. rewrite length_map, length_seq. reflexivity. Qed.

Lemma load_bytes_nth (n : nat) (m : Z -> byte) (a : Z) (i : nat) :
  (i < n)%nat -> nth i (load_bytes n m a) Byte.x00 = m (a + Z.of_nat i).
Proof.
  intros Hi. unfold load_bytes.
  rewrite (nth_indep _ Byte.x00 (m (a + Z.of_nat 0)))
    by (rewrite length_map, length_seq; assumption).
  rewrite (map_nth (fun i => m (a + Z.of_nat i)) (seq 0 n) 0%nat i).
  rewrite seq_nth by assumption. reflexivity.
Qed.

Lemma load_store_bytes_same (m : Z -> byte) (a : Z) (bs : list byte) :
  load_bytes (length bs) (store_bytes m a bs) a = bs.
Proof.
  apply nth_ext with (d := Byte.x00) (d' := Byte.x00).
  - apply load_bytes_length.
  - intros i Hi. rewrite load_bytes_length in Hi.
    rewrite load_bytes_nth by assumption.
    rewrite store_bytes_inside by lia.
    f_equal. lia.
Qed.

Lemma load8_range (m : Z -> byte) (a : Z) : 0 <= load8 m a < WORD_MAX.
Proof.
  unfold load8. pose proof (le_combine_bound (load_bytes 8 m a)) as H.
  rewrite load_bytes_length in H. exact H.
Qed.

Lemma load8_ext (m m' : Z -> byte) (a : Z) :
  (forall x, a <= x < a + 8 -> m' x = m x) -> load8 m' a = load8 m a.
Proof.
  intros H. unfold load8. f_equal. apply load_bytes_ext. exact H.
Qed.

Lemma load8_store8_same (m : Z -> byte) (a v : Z) :
  load8 (store8 m a v) a = wrap v.
Proof.
  unfold load8, store8.
  pose proof (load_store_bytes_same m a (le_split 8 v)) as H.
  rewrite length_le_split in H. rewrite H.
  rewrite le_combine_split. reflexivity.
Qed.

Lemma store8_outside (m : Z -> byte) (a v x : Z) :
  x < a \/ a + 8 <= x -> store8 m a v x = m x.
Proof.
  intros H. unfold store8. apply store_bytes_outside.
  rewrite length_le_split. exact H.
Qed.

Lemma load8_store8_other (m : Z -> byte) (a v b : Z) :
  b + 8 <= a \/ a + 8 <= b -> load8 (store8 m a v) b = load8 m b.
Proof.
  intros H. apply load8_ext. intros x Hx. apply store8_outside. lia.
Qed.

(** ** Running the monad *)

Lemma bind_ok {A B} (c : M A) (k : A -> M B) (s s1 : state) (a : A) :
  c s = Ok a s1 -> bind c k s = k a s1.
Proof. intros H. unfold bind. rewrite H. reflexivity. Qed.

Lemma bind_assoc {A B C} (c : M A) (f : A -> M B) (g : B -> M C) (s : state) :
  bind (bind c f) g s = bind c (fun x => bind (f x) g) s.
Proof. unfold bind. destruct (c s); reflexivity. Qed.

Lemma ret_bind {A B} (a : A) (k : A -> M B) (s : state) :
  bind (ret a) k s = k a s.
Proof. reflexivity. Qed.

Lemma in_heap_range_true (s : state) (a n : Z) :
  mem_start_brk s <= a -> a + n <= mem_brk s -> in_heap_range s a n = true.
Proof.
  intros H1 H2. unfold in_heap_range.
  apply andb_true_intro; split; apply Z.leb_le; assumption.
Qed.

Lemma in_heap_range_inv (s : state) (a n : Z) :
  in_heap_range s a n = true -> mem_start_brk s <= a /\ a + n <= mem_brk s.
Proof.
  unfold in_heap_range. intros H. apply andb_prop in H. destruct H as [H1 H2].
  apply Z.leb_le in H1. apply Z.leb_le in H2. auto.
Qed.

Lemma in_heap_range_false (s : state) (a n : Z) :
  mem_brk s < a + n -> in_heap_range s a n = false.
Proof.
  intros H. unfold in_heap_range. apply andb_false_intro2. apply Z.leb_gt. exact H.
Qed.

Lemma GET_bind {B} (p : Z) (k : Z -> M B) (s : state) :
  in_heap_range s p 8 = true ->
  bind (GET p) k s = k (word_at s p) s.
Proof. intros H. unfold bind, GET. rewrite H. reflexivity. Qed.

Lemma PUT_bind {B} (p v : Z) (k : unit -> M B) (s : state) :
  in_heap_range s p 8 = true ->
  bind (PUT p v) k s = k tt (set_bytes s (store8 (mem_bytes s) p v)).
Proof. intros H. unfold bind, PUT. rewrite H. reflexivity. Qed.

Lemma GET_fault_bind {B} (p : Z) (k : Z -> M B) (s : state) :
  in_heap_range s p 8 = false -> bind (GET p) k s = Fault.
Proof. intros H. unfold bind, GET. rewrite H. reflexivity. Qed.

Lemma PUT_ok (p v : Z) (s : state) :
  in_heap_range s p 8 = true ->
  PUT p v s = Ok tt (set_bytes s (store8 (mem_bytes s) p v)).
Proof. intros H. unfold PUT. rewrite H. reflexivity. Qed.

Lemma word_at_put_same (s : state) (p v : Z) :
  word_at (set_bytes s (store8 (mem_bytes s) p v)) p = wrap v.
Proof. unfold word_at. cbn. apply load8_store8_same. Qed.

Lemma word_at_put_other (s : state) (p v a : Z) :
  word_disjoint a p ->
  word_at (set_bytes s (store8 (mem_bytes s) p v)) a = word_at s a.
Proof. unfold word_at, word_disjoint. cbn. intros H. apply load8_store8_other. lia. Qed.

Lemma word_at_range (s : state) (a : Z) : 0 <= word_at s a < WORD_MAX.
Proof. apply load8_range. Qed.

(** ** C10: the heap checker of the production build *)

(** C10. Compiled without DEBUG, [mm_checkheap lineno] returns true in every
    heap state and for every line hint, and leaves the state as it is; this
    includes states that break the heap invariants, such as one whose
    traversal meets a free block followed by a free block. *)
Theorem mm_checkheap_always_true :
  (forall (s : state) (lineno : Z), mm_checkheap lineno s = Ok true s) /\
  (exists s : state, ~ no_adjacent_free s /\
                     forall lineno, mm_checkheap lineno s = Ok true s).
Proof.
  split; [reflexivity|].
  exists (mkState (store8 (store8 (fun _ => Byte.x00) 8 32) 40 32) 0 80 80 16 0).
  split; [|reflexivity].
  intros H. specialize (H 16).
  assert (F : is_free_block
                (mkState (store8 (store8 (fun _ => Byte.x00) 8 32) 40 32) 0 80 80 16 0) 16).
  { split; [split|]; [apply reach_first | vm_compute; discriminate | vm_compute; reflexivity]. }
  specialize (H F). vm_compute in H. discriminate.
Qed.

(** ** C2: resize with a null old pointer *)

(** The header of a null payload pointer lies at 2^64 - 8, outside every
    region inside the address space. *)
Lemma header_of_null_faults {B} (k : Z -> M B) (s : state) :
  mem_brk s < WORD_MAX -> bind (GET_SIZE (HDRP NULL)) k s = Fault.
Proof.
  intros H. unfold GET_SIZE.
  rewrite bind_assoc. apply GET_fault_bind.
  apply in_heap_range_false. change (HDRP NULL) with (WORD_MAX - 8). lia.
Qed.

(** C2. [realloc] reads the header of [oldptr] before it tests [oldptr]
    against null: with a null old pointer the read is at address 2^64 - 8,
    outside the heap, so the call faults in every state instead of behaving
    as [malloc size]. *)
Theorem realloc_null_reads_header (fuel : nat) (s : state) (size : Z) :
  mem_brk s < WORD_MAX -> realloc fuel NULL size s = Fault.
Proof.
  intros H. unfold realloc.
  apply header_of_null_faults. exact H.
Qed.

(** ** C6: unlinking the only element of a bucket *)

Lemma same_frame_refl (s : state) : same_frame s s.
Proof. repeat split. Qed.

Lemma same_frame_set_bytes (s : state) (m : Z -> byte) : same_frame s (set_bytes s m).
Proof. repeat split. Qed.

Lemma same_frame_trans (s1 s2 s3 : state) :
  same_frame s1 s2 -> same_frame s2 s3 -> same_frame s1 s3.
Proof.
  unfold same_frame. intros (A1 & A2 & A3 & A4 & A5) (B1 & B2 & B3 & B4 & B5).
  repeat split; congruence.
Qed.

(** C6. If the next and prev links of [bp] are both null, [seglist_delete bp
    size] writes null into the root slot of the bucket of [size] and nothing
    else: every byte outside that slot keeps its value, so every other bucket
    root and the links of every free block are unchanged. *)
Theorem seglist_delete_sole_element (s : state) (bp size : Z) :
  sane s ->
  in_heap_range s bp 16 = true ->
  in_heap_range s (seg_listp s) (SEGLIST_CLASSES * WSIZE) = true ->
  word_at s bp = NULL ->
  word_at s (bp + WSIZE) = NULL ->
  let slot := class_slot s (get_segclass_ind size) in
  exists s',
    seglist_delete bp size s = Ok tt s' /\
    same_frame s s' /\
    word_at s' slot = NULL /\
    (forall x, x < slot \/ slot + 8 <= x -> mem_bytes s' x = mem_bytes s x) /\
    (forall j, 0 <= j < SEGLIST_CLASSES -> j <> get_segclass_ind size ->
               word_at s' (class_slot s j) = word_at s (class_slot s j)) /\
    (forall b, word_disjoint b slot -> word_at s' b = word_at s b).
Proof.
  intros [Hlo Hhi] Hbp Hseg Hnext Hprev slot.
  apply in_heap_range_inv in Hbp. apply in_heap_range_inv in Hseg.
  unfold SEGLIST_CLASSES, WSIZE in *.
  assert (Hc : 0 <= get_segclass_ind size < 12).
  { unfold get_segclass_ind.
    repeat match goal with |- context [if ?c then _ else _] => destruct c end; lia. }
  assert (Hslot : slot = seg_listp s + get_segclass_ind size * 8).
  { unfold slot, class_slot, WSIZE. apply wrap_small. lia. }
  assert (Hslotj : forall j, 0 <= j < 12 -> class_slot s j = seg_listp s + j * 8).
  { intros j Hj. unfold class_slot, WSIZE. apply wrap_small. lia. }
  exists (set_bytes s (store8 (mem_bytes s) slot NULL)).
  split; [|split; [|split; [|split; [|split]]]].
  - unfold seglist_delete, get_seg_listp, NEXT_FREE_ADDR, PREV_FREE_ADDR, PUT_ADDR, WSIZE.
    unfold bind at 1.
    rewrite GET_bind by (apply in_heap_range_true; lia).
    rewrite (wrap_small (bp + 8)) by lia.
    rewrite GET_bind by (apply in_heap_range_true; lia).
    unfold WSIZE in Hprev. rewrite Hnext, Hprev. cbn [NULL Z.eqb negb andb].
    fold (class_slot s (get_segclass_ind size)). fold slot.
    apply PUT_ok. apply in_heap_range_true; lia.
  - apply same_frame_set_bytes.
  - rewrite word_at_put_same. reflexivity.
  - intros x Hx. cbn. apply store8_outside. exact Hx.
  - intros j Hj Hne. apply word_at_put_other. unfold word_disjoint.
    rewrite Hslotj, Hslot by assumption. lia.
  - intros b Hb. apply word_at_put_other. exact Hb.
Qed.

(** ** What [seglist_delete] leaves alone *)

Lemma get_segclass_ind_range (size : Z) : 0 <= get_segclass_ind size < 12.
Proof.
  unfold get_segclass_ind.
  repeat match goal with |- context [if ?c then _ else _] => destruct c end; lia.
Qed.

Lemma in_heap_range_set_bytes (s : state) (m : Z -> byte) (a n : Z) :
  in_heap_range (set_bytes s m) a n = in_heap_range s a n.
Proof. reflexivity. Qed.

Lemma seglist_delete_frame (s : state) (bp size : Z) :
  sane s ->
  in_heap_range s bp 16 = true ->
  (forall w, In w (unlink_writes s bp size) -> in_heap_range s w 8 = true) ->
  exists s',
    seglist_delete bp size s = Ok tt s' /\
    same_frame s s' /\
    (forall a, (forall w, In w (unlink_writes s bp size) -> word_disjoint a w) ->
               word_at s' a = word_at s a) /\
    (forall x, (forall w, In w (unlink_writes s bp size) -> x < w \/ w + 8 <= x) ->
               mem_bytes s' x = mem_bytes s x).
Proof.
  intros [Hlo Hhi] Hbp Hw.
  apply in_heap_range_inv in Hbp.
  pose proof (get_segclass_ind_range size) as Hc.
  pose proof (word_at_range s bp) as Rn.
  pose proof (word_at_range s (bp + 8)) as Rp.
  unfold seglist_delete, get_seg_listp, NEXT_FREE_ADDR, PREV_FREE_ADDR, PUT_ADDR.
  unfold unlink_writes in *. unfold WSIZE in *.
  unfold bind at 1.
  rewrite GET_bind by (apply in_heap_range_true; lia).
  rewrite (wrap_small (bp + 8)) by lia.
  rewrite GET_bind by (apply in_heap_range_true; lia).
  fold (class_slot s (get_segclass_ind size)) in *.
  set (next := word_at s bp) in *. set (prev := word_at s (bp + 8)) in *.
  set (slot := class_slot s (get_segclass_ind size)) in *.
  destruct (negb (next =? NULL) && (prev =? NULL)) eqn:C1.
  { pose proof (Hw slot (or_introl eq_refl)) as H1.
    pose proof (Hw (next + 8) (or_intror (or_introl eq_refl))) as H2.
    pose proof (in_heap_range_inv _ _ _ H2) as H2'.
    rewrite PUT_bind by exact H1.
    rewrite (wrap_small (next + 8)) by lia.
    rewrite PUT_ok by exact H2.
    eexists; split; [reflexivity|]. split; [repeat split|]. split.
    - intros a Ha. rewrite word_at_put_other by (apply Ha; simpl; auto).
      apply word_at_put_other. apply Ha; simpl; auto.
    - intros x Hx. cbn. rewrite store8_outside by (apply Hx; simpl; auto).
      apply store8_outside. apply Hx; simpl; auto. }
  destruct ((next =? NULL) && negb (prev =? NULL)) eqn:C2.
  { pose proof (Hw prev (or_introl eq_refl)) as H1.
    rewrite PUT_ok by exact H1.
    eexists; split; [reflexivity|]. split; [repeat split|]. split.
    - intros a Ha. apply word_at_put_other. apply Ha; simpl; auto.
    - intros x Hx. cbn. apply store8_outside. apply Hx; simpl; auto. }
  destruct (negb (next =? NULL) && negb (prev =? NULL)) eqn:C3.
  { pose proof (Hw (next + 8) (or_introl eq_refl)) as H1.
    pose proof (Hw prev (or_intror (or_introl eq_refl))) as H2.
    pose proof (in_heap_range_inv _ _ _ H1) as H1'.
    rewrite (wrap_small (next + 8)) by lia.
    rewrite PUT_bind by exact H1.
    rewrite PUT_ok by exact H2.
    eexists; split; [reflexivity|]. split; [repeat split|]. split.
    - intros a Ha. rewrite word_at_put_other by (apply Ha; simpl; auto).
      apply word_at_put_other. apply Ha; simpl; auto.
    - intros x Hx. cbn. rewrite store8_outside by (apply Hx; simpl; auto).
      apply store8_outside. apply Hx; simpl; auto. }
  { pose proof (Hw slot (or_introl eq_refl)) as H1.
    rewrite PUT_ok by exact H1.
    eexists; split; [reflexivity|]. split; [repeat split|]. split.
    - intros a Ha. apply word_at_put_other. apply Ha; simpl; auto.
    - intros x Hx. cbn. apply store8_outside. apply Hx; simpl; auto. }
Qed.

(** ** C7: placing without a split *)

Lemma hsize_facts (w : Z) :
  0 <= w < WORD_MAX ->
  0 <= Z.land w SIZE_MASK <= w /\ Z.land w SIZE_MASK mod 8 = 0.
Proof.
  intros Hw. rewrite land_mask by assumption.
  pose proof (Z.div_mod w 8). pose proof (Z.mod_pos_bound w 8).
  split; [lia|]. rewrite Z.mul_comm. apply Z.mod_mul. lia.
Qed.

Lemma bsize_facts (s : state) (bp : Z) :
  0 <= bsize s bp < WORD_MAX /\ bsize s bp mod 8 = 0.
Proof.
  unfold bsize, hdr. pose proof (word_at_range s (bp - WSIZE)) as R.
  destruct (hsize_facts _ R). split; [lia|assumption].
Qed.

Lemma lor_2_prev (w : Z) : Z.land (Z.lor w 2) 2 = 2.
Proof.
  rewrite Z.land_lor_distr_l. destruct (land_2_cases w) as [-> | ->]; reflexivity.
Qed.

Lemma lor_2_size (w : Z) : Z.land (Z.lor w 2) SIZE_MASK = Z.land w SIZE_MASK.
Proof. rewrite Z.land_lor_distr_l. change (Z.land 2 SIZE_MASK) with 0. apply Z.lor_0_r. Qed.

Lemma lor_2_alloc (w : Z) : Z.land (Z.lor w 2) 1 = Z.land w 1.
Proof. rewrite Z.land_lor_distr_l. change (Z.land 2 1) with 0. apply Z.lor_0_r. Qed.

(** C7. When [place bp asize] takes the branch without a split, the header of
    the block that follows [bp] ends with its prev-alloc bit set, and with
    the size field and the alloc bit it had before the call.  The free-list
    words that the unlinking rewires are required to lie in the heap and to
    be distinct from the two headers involved, as they are in a heap whose
    free-list links live inside free blocks. *)
Theorem place_no_split_next_header (s : state) (bp asize : Z) :
  sane s ->
  wrap (bsize s bp - asize) < 2 * DSIZE ->
  0 < bsize s bp ->
  in_heap_range s (bp - WSIZE) 24 = true ->
  in_heap_range s (bp + bsize s bp - WSIZE) 8 = true ->
  (forall w, In w (unlink_writes s bp (bsize s bp)) ->
             in_heap_range s w 8 = true /\
             word_disjoint (bp - WSIZE) w /\
             word_disjoint (bp + bsize s bp - WSIZE) w) ->
  exists s',
    place bp asize s = Ok tt s' /\
    same_frame s s' /\
    bprev s' (bp + bsize s bp) = 2 /\
    bsize s' (bp + bsize s bp) = bsize s (bp + bsize s bp) /\
    balloc s' (bp + bsize s bp) = balloc s (bp + bsize s bp).
Proof.
  intros Hsane Hns Hpos Hbp Hnb Hw.
  pose proof Hsane as [Hlo Hhi].
  apply in_heap_range_inv in Hbp. apply in_heap_range_inv in Hnb.
  destruct (bsize_facts s bp) as [Rc Mc].
  set (csize := bsize s bp) in *.
  unfold WSIZE, DSIZE in *.
  assert (H8 : 8 <= csize) by (pose proof (Z.div_mod csize 8); lia).
  destruct (seglist_delete_frame s bp csize Hsane) as (s1 & E1 & F1 & W1 & _).
  { apply in_heap_range_true; lia. }
  { intros w Hin. apply (Hw w Hin). }
  destruct F1 as (Flo & Fbrk & Fmax & Fhl & Fseg).
  assert (Hh1 : word_at s1 (bp - 8) = hdr s bp).
  { apply W1. intros w Hin. apply (Hw w Hin). }
  assert (Hn1 : word_at s1 (bp + csize - 8) = hdr s (bp + csize)).
  { apply W1. intros w Hin. apply (Hw w Hin). }
  unfold place, GET_SIZE, PREV_ALLOC, NEXT_BLKP, HDRP, WSIZE, DSIZE.
  rewrite (wrap_small (bp - 8)) by lia.
  rewrite !bind_assoc.
  rewrite GET_bind by (apply in_heap_range_true; lia).
  rewrite ret_bind.
  change (Z.land (word_at s (bp - 8)) SIZE_MASK) with csize.
  replace (2 * 16 <=? wrap (csize - asize)) with false by (symmetry; apply Z.leb_gt; lia).
  cbv iota.
  rewrite (bind_ok _ _ _ _ _ E1).
  rewrite !bind_assoc.
  rewrite GET_bind by (apply in_heap_range_true; lia).
  rewrite ret_bind, Hh1.
  set (fl := PACK (Z.land (hdr s bp) 2) 1).
  assert (Hfl : 0 <= fl < 8).
  { unfold fl, PACK. destruct (land_2_cases (hdr s bp)) as [-> | ->]; cbn; lia. }
  rewrite PUT_bind by (apply in_heap_range_true; lia).
  set (s2 := set_bytes s1 _).
  assert (Hh2 : word_at s2 (bp - 8) = PACK csize fl).
  { unfold s2. rewrite word_at_put_same. apply wrap_small. apply pack_range; lia. }
  assert (Hn2 : word_at s2 (bp + csize - 8) = hdr s (bp + csize)).
  { unfold s2. rewrite word_at_put_other by (unfold word_disjoint; lia). exact Hn1. }
  assert (R2 : forall a, in_heap_range s2 a 8 = in_heap_range s a 8).
  { intros a. unfold s2. rewrite in_heap_range_set_bytes.
    unfold in_heap_range. rewrite Flo, Fbrk. reflexivity. }
  unfold GET_SIZE.
  rewrite !bind_assoc.
  rewrite GET_bind by (rewrite R2; apply in_heap_range_true; lia).
  rewrite !ret_bind, Hh2, pack_size by (try assumption; lia).
  rewrite !bind_assoc.
  rewrite GET_bind by (rewrite R2; apply in_heap_range_true; lia).
  rewrite !ret_bind, Hh2, pack_size by (try assumption; lia).
  rewrite (wrap_small (bp + csize)) by lia.
  rewrite (wrap_small (bp + csize - 8)) by lia.
  rewrite GET_bind by (rewrite R2; apply in_heap_range_true; lia).
  rewrite Hn2.
  rewrite PUT_ok by (rewrite R2; apply in_heap_range_true; lia).
  eexists; split; [reflexivity|].
  pose proof (word_at_range s (bp + csize - 8)) as Rn.
  assert (Hfin : hdr (set_bytes s2 (store8 (mem_bytes s2) (bp + csize - 8)
                                      (PACK (hdr s (bp + csize)) 2))) (bp + csize)
                 = Z.lor (hdr s (bp + csize)) 2).
  { unfold hdr at 1. unfold WSIZE. rewrite word_at_put_same.
    apply wrap_lor; [exact Rn | rewrite WORD_MAX_eq; lia]. }
  split; [|split; [|split]].
  - unfold same_frame, s2. cbn. auto.
  - unfold bprev. rewrite Hfin. apply lor_2_prev.
  - unfold bsize at 1 2. rewrite Hfin. apply lor_2_size.
  - unfold balloc. rewrite Hfin. apply lor_2_alloc.
Qed.

(** ** Stores and what they leave alone *)

Ltac zlia := Z.div_mod_to_equations; lia.

Lemma PUT_put {B} (p v : Z) (k : unit -> M B) (s : state) :
  in_heap_range s p 8 = true -> bind (PUT p v) k s = k tt (put s p v).
Proof. apply PUT_bind. Qed.

Lemma PUT_put_ok (p v : Z) (s : state) :
  in_heap_range s p 8 = true -> PUT p v s = Ok tt (put s p v).
Proof. apply PUT_ok. Qed.

Lemma put_word_same (s : state) (p v : Z) :
  0 <= v < WORD_MAX -> word_at (put s p v) p = v.
Proof. intros H. unfold put. rewrite word_at_put_same. apply wrap_small. exact H. Qed.

Lemma put_word_other (s : state) (p v a : Z) :
  a + 8 <= p \/ p + 8 <= a -> word_at (put s p v) a = word_at s a.
Proof. intros H. apply word_at_put_other. exact H. Qed.

Lemma put_bytes_other (s : state) (p v x : Z) :
  x < p \/ p + 8 <= x -> mem_bytes (put s p v) x = mem_bytes s x.
Proof. intros H. unfold put. cbn. apply store8_outside. exact H. Qed.

(** Reads through a stack of stores. *)
Ltac wordlia := pose proof WORD_MAX_eq; lia.
Ltac rdw :=
  repeat first [ rewrite put_word_same by wordlia
               | rewrite put_word_other by lia ].

Lemma put_frame (s : state) (p v : Z) : same_frame s (put s p v).
Proof. repeat split. Qed.

Lemma put_in_heap_range (s : state) (p v a n : Z) :
  in_heap_range (put s p v) a n = in_heap_range s a n.
Proof. reflexivity. Qed.

Lemma put_slot_addr (s : state) (p v i : Z) : slot_addr (put s p v) i = slot_addr s i.
Proof. reflexivity. Qed.

Lemma same_frame_in_heap_range (s s' : state) (a n : Z) :
  same_frame s s' -> in_heap_range s' a n = in_heap_range s a n.
Proof.
  intros (A1 & A2 & _). unfold in_heap_range. rewrite A1, A2. reflexivity.
Qed.

Lemma hdr_ext (s s' : state) (a : Z) :
  word_at s' (a - 8) = word_at s (a - 8) ->
  hdr s' a = hdr s a /\ bsize s' a = bsize s a /\
  balloc s' a = balloc s a /\ bprev s' a = bprev s a.
Proof.
  intros H. unfold bsize, balloc, bprev, hdr, WSIZE. rewrite H. auto.
Qed.

Lemma word_at_ext (s s' : state) (a : Z) :
  (forall x, a <= x < a + 8 -> mem_bytes s' x = mem_bytes s x) ->
  word_at s' a = word_at s a.
Proof. intros H. unfold word_at. apply load8_ext. exact H. Qed.

(** ** Doubly linked segments *)

Lemma dseg_ext (s s' : state) (l : list Z) :
  (forall x, In x l -> word_at s' x = word_at s x /\
                       word_at s' (x + 8) = word_at s (x + 8)) ->
  forall h p t, dseg s h p l t -> dseg s' h p l t.
Proof.
  induction l as [|x l IH]; intros Hx h p t H; simpl in *; [exact H|].
  destruct H as (H1 & H2 & H3 & H4).
  destruct (Hx x (or_introl eq_refl)) as [E1 E2].
  rewrite E1, E2. repeat split; try assumption.
  apply IH; [|exact H4]. intros y Hy. apply Hx. right. exact Hy.
Qed.

Lemma last_cons_indep (x : Z) (l : list Z) (d d' : Z) :
  last (x :: l) d = last (x :: l) d'.
Proof.
  revert x. induction l as [|y l IH]; intros x; [reflexivity|].
  change (last (y :: l) d = last (y :: l) d'). apply IH.
Qed.

Lemma dseg_app (s : state) (l1 l2 : list Z) :
  forall h p t,
    dseg s h p (l1 ++ l2) t <->
    exists m, dseg s h p l1 m /\ dseg s m (last l1 p) l2 t.
Proof.
  induction l1 as [|x l1 IH]; intros h p t; simpl.
  - split.
    + intros H. exists h. split; [reflexivity|exact H].
    + intros (m & -> & H). exact H.
  - split.
    + intros (H1 & H2 & H3 & H4). apply IH in H4. destruct H4 as (m & Ha & Hb).
      exists m. split; [repeat split; assumption|].
      destruct l1 as [|z l1]; [exact Hb|].
      change (dseg s m (last (z :: l1) p) l2 t).
      rewrite (last_cons_indep z l1 p x). exact Hb.
    + intros (m & (H1 & H2 & H3 & H4) & Hb).
      repeat split; try assumption. apply IH. exists m. split; [exact H4|].
      destruct l1 as [|z l1]; [exact Hb|].
      rewrite (last_cons_indep z l1 x p). exact Hb.
Qed.

Lemma dseg_head (s : state) (l : list Z) (h p t : Z) :
  dseg s h p l t -> h = hd t l.
Proof. destruct l; simpl; [auto | intros (H & _); exact H]. Qed.

Lemma dseg_nonnull (s : state) (l : list Z) :
  forall h p t, dseg s h p l t -> forall x, In x l -> x <> NULL.
Proof.
  induction l as [|y l IH]; intros h p t H x Hx; simpl in *; [contradiction|].
  destruct H as (_ & H2 & _ & H4). destruct Hx as [<- | Hx]; [exact H2|].
  eapply IH; eassumption.
Qed.

(** ** Insertion into a bucket *)

Lemma get_seg_listp_bind {B} (k : Z -> M B) (s : state) :
  bind get_seg_listp k s = k (seg_listp s) s.
Proof. reflexivity. Qed.

Lemma class_slot_addr (s : state) (i : Z) :
  env_ok s -> 0 <= i < 12 -> wrap (seg_listp s + i * WSIZE) = slot_addr s i.
Proof.
  intros E Hi. destruct E. unfold slot_addr, WSIZE.
  rewrite wrap_small; [lia|]. lia.
Qed.

Lemma upd_fl_same (fl : Z -> list Z) (c : Z) (l : list Z) : upd_fl fl c l c = l.
Proof. unfold upd_fl. rewrite Z.eqb_refl. reflexivity. Qed.

Lemma upd_fl_other (fl : Z -> list Z) (c i : Z) (l : list Z) :
  i <> c -> upd_fl fl c l i = fl i.
Proof. intros H. unfold upd_fl. destruct (Z.eqb_spec i c); [contradiction|reflexivity]. Qed.

Lemma not_link_area_slot (s : state) (fl : Z -> list Z) (x i : Z) :
  0 <= i < 12 -> ~ link_area s fl x ->
  x < slot_addr s i \/ slot_addr s i + 8 <= x.
Proof.
  intros Hi H. unfold slot_addr.
  destruct (Z_lt_le_dec x (seg_listp s + 8 * i)); [auto|].
  destruct (Z_lt_le_dec x (seg_listp s + 8 * i + 8)); [|auto].
  exfalso. apply H. left. lia.
Qed.

Lemma not_link_area_elem (s : state) (fl : Z -> list Z) (x i y : Z) :
  In y (fl i) -> ~ link_area s fl x -> x < y \/ y + 16 <= x.
Proof.
  intros Hy H.
  destruct (Z_lt_le_dec x y); [auto|].
  destruct (Z_lt_le_dec x (y + 16)); [|auto].
  exfalso. apply H. right. exists i, y. split; [exact Hy|lia].
Qed.

Lemma seglist_add_spec (s : state) (fl : Z -> list Z) (bp size : Z) :
  env_ok s -> lists_ok s fl ->
  heap_listp s <= bp -> bp + 16 <= mem_brk s -> bp mod 16 = 0 ->
  (forall i, ~ In bp (fl i)) ->
  let c := get_segclass_ind size in
  let fl' := upd_fl fl c (bp :: fl c) in
  exists s',
    seglist_add bp size s = Ok tt s' /\ same_frame s s' /\
    lists_ok s' fl' /\
    (forall x, ~ link_area s fl' x -> mem_bytes s' x = mem_bytes s x).
Proof.
  intros E L Hlo Hhi Hal Hnew c fl'.
  pose proof (get_segclass_ind_range size) as Hc. fold c in Hc.
  pose proof E as [E1 E2 E3 E4 E5 E6 E7].
  pose proof L as [L1 L2 L3 L4].
  unfold seglist_add, PUT_ADDR, NEXT_FREE_ADDR, PREV_FREE_ADDR.
  rewrite get_seg_listp_bind. fold c.
  rewrite (class_slot_addr s c E Hc).
  assert (Hslot : forall i, 0 <= i < 12 ->
                    mem_start_brk s <= slot_addr s i /\ slot_addr s i + 8 <= heap_listp s).
  { intros i Hi. unfold slot_addr. lia. }
  pose proof (Hslot c Hc) as Hsc.
  rewrite GET_bind by (apply in_heap_range_true; lia).
  pose proof (L1 c Hc) as D. unfold NULL in *.
  assert (Hbp8 : wrap (bp + WSIZE) = bp + 8).
  { unfold WSIZE. apply wrap_small. lia. }
  rewrite Hbp8.
  (* elements of other cells are away from [bp] *)
  assert (Hsep : forall i y, In y (fl i) -> y + 16 <= bp \/ bp + 16 <= y).
  { intros i y Hy. destruct (L3 i y Hy) as (_ & _ & _ & Hm).
    assert (y <> bp) by (intros ->; exact (Hnew i Hy)). zlia. }
  destruct (fl c) as [|x rest] eqn:Efl; simpl in D.
  - (* empty bucket *)
    rewrite D. cbn [Z.eqb negb].
    rewrite PUT_put by (apply in_heap_range_true; lia).
    rewrite PUT_put by (rewrite !put_in_heap_range; apply in_heap_range_true; lia).
    rewrite PUT_put_ok by (rewrite !put_in_heap_range; apply in_heap_range_true; lia).
    eexists. split; [reflexivity|]. split; [repeat split|]. split.
    + constructor.
      * intros i Hi. rewrite !put_slot_addr.
        destruct (Z.eq_dec i c) as [->|Hne].
        -- unfold fl'. rewrite upd_fl_same. simpl. unfold NULL.
           rdw.
           repeat split; try reflexivity. lia.
        -- unfold fl'. rewrite upd_fl_other by assumption.
           pose proof (Hslot i Hi).
           repeat rewrite put_word_other by (unfold slot_addr in *; lia).
           apply dseg_ext with (s := s); [|apply L1; assumption].
           intros y Hy. pose proof (Hsep i y Hy). destruct (L3 i y Hy) as (_ & ? & _ & _).
           repeat rewrite put_word_other by lia. auto.
      * intros i. unfold fl'. destruct (Z.eq_dec i c) as [->|Hne].
        -- rewrite upd_fl_same. constructor; [intros [] | constructor].
        -- rewrite upd_fl_other by assumption. apply L2.
      * intros i y Hy. cbn. unfold fl' in Hy. destruct (Z.eq_dec i c) as [->|Hne].
        -- rewrite upd_fl_same in Hy. destruct Hy as [<-|[]]. repeat split; try lia; assumption.
        -- rewrite upd_fl_other in Hy by assumption. apply (L3 i y Hy).
      * intros i j y Hi Hj. unfold fl' in Hi, Hj.
        destruct (Z.eq_dec i c) as [->|Hni], (Z.eq_dec j c) as [->|Hnj]; try reflexivity.
        -- rewrite upd_fl_same in Hi. rewrite upd_fl_other in Hj by assumption.
           destruct Hi as [<-|[]]. exfalso. exact (Hnew j Hj).
        -- rewrite upd_fl_same in Hj. rewrite upd_fl_other in Hi by assumption.
           destruct Hj as [<-|[]]. exfalso. exact (Hnew i Hi).
        -- rewrite upd_fl_other in Hi, Hj by assumption. exact (L4 i j y Hi Hj).
    + intros y Hy.
      pose proof (not_link_area_slot s fl' y c Hc Hy).
      assert (Hin : In bp (fl' c)) by (unfold fl'; rewrite upd_fl_same; left; reflexivity).
      pose proof (not_link_area_elem s fl' y c bp Hin Hy).
      repeat rewrite put_bytes_other by lia. reflexivity.
  - (* bucket with first element [x] *)
    destruct D as (D1 & D2 & D3 & D4).
    assert (Hx : In x (fl c)) by (rewrite Efl; left; reflexivity).
    destruct (L3 c x Hx) as (_ & Hx1 & Hx2 & Hx3).
    pose proof (Hsep c x Hx) as Hxs.
    rewrite D1.
    replace (negb (x =? 0)) with true
      by (symmetry; apply negb_true_iff; apply Z.eqb_neq; exact D2).
    assert (Hx8 : wrap (x + WSIZE) = x + 8).
    { unfold WSIZE. apply wrap_small. lia. }
    rewrite Hx8.
    rewrite PUT_put by (apply in_heap_range_true; lia).
    rewrite PUT_put by (rewrite !put_in_heap_range; apply in_heap_range_true; lia).
    rewrite PUT_put by (rewrite !put_in_heap_range; apply in_heap_range_true; lia).
    rewrite PUT_put_ok by (rewrite !put_in_heap_range; apply in_heap_range_true; lia).
    assert (Hrest : forall y, In y rest -> y + 16 <= x \/ x + 16 <= y).
    { intros y Hy. assert (Hy' : In y (fl c)) by (rewrite Efl; right; exact Hy).
      destruct (L3 c y Hy') as (_ & _ & _ & Hm).
      pose proof (L2 c) as N. rewrite Efl in N.
      apply NoDup_cons_iff in N. destruct N as [Nx _].
      assert (y <> x) by (intros ->; contradiction). zlia. }
    eexists. split; [reflexivity|]. split; [repeat split|]. split.
    + constructor.
      * intros i Hi. rewrite !put_slot_addr.
        destruct (Z.eq_dec i c) as [->|Hne].
        -- unfold fl'. rewrite upd_fl_same. simpl. unfold NULL.
           rdw.
           repeat split; try reflexivity; try assumption; try lia.
           apply dseg_ext with (s := s); [|exact D4].
           intros y Hy. pose proof (Hrest y Hy).
           assert (Hy' : In y (fl c)) by (rewrite Efl; right; exact Hy).
           pose proof (Hsep c y Hy'). destruct (L3 c y Hy') as (_ & ? & _ & _).
           repeat rewrite put_word_other by lia. auto.
        -- unfold fl'. rewrite upd_fl_other by assumption.
           pose proof (Hslot i Hi).
           repeat rewrite put_word_other by (unfold slot_addr in *; lia).
           apply dseg_ext with (s := s); [|apply L1; assumption].
           intros y Hy. pose proof (Hsep i y Hy). destruct (L3 i y Hy) as (_ & ? & _ & Hm).
           assert (y <> x) by (intros ->; apply Hne; exact (L4 i c x Hy Hx)).
           assert (y + 16 <= x \/ x + 16 <= y) by zlia.
           repeat rewrite put_word_other by lia. auto.
      * intros i. unfold fl'. destruct (Z.eq_dec i c) as [->|Hne].
        -- rewrite upd_fl_same. constructor; [rewrite <- Efl; apply Hnew|].
           rewrite <- Efl. apply L2.
        -- rewrite upd_fl_other by assumption. apply L2.
      * intros i y Hy. cbn. unfold fl' in Hy. destruct (Z.eq_dec i c) as [->|Hne].
        -- rewrite upd_fl_same in Hy. destruct Hy as [<-|Hy].
           ++ repeat split; try lia; assumption.
           ++ apply (L3 c y). rewrite Efl. exact Hy.
        -- rewrite upd_fl_other in Hy by assumption. apply (L3 i y Hy).
      * intros i j y Hi Hj. unfold fl' in Hi, Hj.
        destruct (Z.eq_dec i c) as [->|Hni], (Z.eq_dec j c) as [->|Hnj]; try reflexivity.
        -- rewrite upd_fl_same in Hi. rewrite upd_fl_other in Hj by assumption.
           destruct Hi as [<-|Hi]; [exfalso; exact (Hnew j Hj)|].
           apply (L4 c j y); [rewrite Efl; exact Hi | exact Hj].
        -- rewrite upd_fl_same in Hj. rewrite upd_fl_other in Hi by assumption.
           destruct Hj as [<-|Hj]; [exfalso; exact (Hnew i Hi)|].
           apply (L4 i c y); [exact Hi | rewrite Efl; exact Hj].
        -- rewrite upd_fl_other in Hi, Hj by assumption. exact (L4 i j y Hi Hj).
    + intros y Hy.
      pose proof (not_link_area_slot s fl' y c Hc Hy).
      assert (Hin : In bp (fl' c)) by (unfold fl'; rewrite upd_fl_same; left; reflexivity).
      pose proof (not_link_area_elem s fl' y c bp Hin Hy).
      assert (Hin2 : In x (fl' c)) by (unfold fl'; rewrite upd_fl_same; right; left; reflexivity).
      pose proof (not_link_area_elem s fl' y c x Hin2 Hy).
      repeat rewrite put_bytes_other by lia. reflexivity.
Qed.

(** ** Removal from a bucket *)

Lemma sep16 (x y : Z) :
  x mod 16 = 0 -> y mod 16 = 0 -> x <> y -> x + 16 <= y \/ y + 16 <= x.
Proof. intros. zlia. Qed.

Lemma NoDup_app_inv (l1 l2 : list Z) :
  NoDup (l1 ++ l2) ->
  NoDup l1 /\ NoDup l2 /\ (forall x, In x l1 -> In x l2 -> False).
Proof.
  induction l1 as [|a l1 IH]; simpl; intros H.
  - split; [constructor|]. split; [exact H|]. intros x [].
  - apply NoDup_cons_iff in H. destruct H as [Ha H].
    destruct (IH H) as (N1 & N2 & N3).
    split; [|split; [exact N2|]].
    + constructor; [|exact N1]. intros Hin. apply Ha. apply in_or_app. auto.
    + intros x [<- | Hx] Hx2.
      * apply Ha. apply in_or_app. auto.
      * exact (N3 x Hx Hx2).
Qed.

(** The effect of unlinking on the representation, whatever the order of the
    two stores: the pointer to [bp] now holds the successor of [bp], and the
    prev link of that successor holds the predecessor of [bp]. *)
Lemma unlink_lists_ok (s s' : state) (fl : Z -> list Z) (c bp : Z) (l1 l2 : list Z) :
  env_ok s -> lists_ok s fl -> 0 <= c < 12 ->
  fl c = l1 ++ bp :: l2 ->
  same_frame s s' ->
  let A1 := match l1 with [] => slot_addr s c | _ => last l1 0 end in
  word_at s' A1 = hd 0 l2 ->
  (forall n r, l2 = n :: r -> word_at s' (n + 8) = last l1 0) ->
  (forall w, word_disjoint w A1 ->
             (forall n r, l2 = n :: r -> word_disjoint w (n + 8)) ->
             word_at s' w = word_at s w) ->
  lists_ok s' (upd_fl fl c (l1 ++ l2)).
Proof.
  intros E L Hc Efl F A1 HA1 HA2 Hfr.
  pose proof E as [E1 E2 E3 E4 E5 E6 E7].
  pose proof L as [L1 L2 L3 L4].
  destruct F as (F1 & F2 & F3 & F4 & F5).
  assert (Hslot : forall i, 0 <= i < 12 ->
                    mem_start_brk s <= slot_addr s i /\ slot_addr s i + 8 <= heap_listp s).
  { intros i Hi. unfold slot_addr. lia. }
  assert (Hslot' : forall i, slot_addr s' i = slot_addr s i).
  { intros i. unfold slot_addr. rewrite F5. reflexivity. }
  pose proof (L2 c) as N. rewrite Efl in N.
  pose proof (NoDup_remove_2 _ _ _ N) as Nbp.
  pose proof (NoDup_remove_1 _ _ _ N) as N'.
  destruct (NoDup_app_inv _ _ N') as (N1 & N2 & N12).
  assert (Hin : forall y, In y (l1 ++ l2) -> In y (fl c)).
  { intros y Hy. rewrite Efl. apply in_app_or in Hy. apply in_or_app.
    destruct Hy; [left|right; right]; assumption. }
  assert (Hloc : forall y, In y (l1 ++ l2) ->
                   heap_listp s <= y /\ y + 16 <= mem_brk s /\ y mod 16 = 0).
  { intros y Hy. destruct (L3 c y (Hin y Hy)) as (_ & ? & ? & ?). auto. }
  (* the two rewired words belong to elements of the bucket, or to its root *)
  assert (HA1loc : A1 = slot_addr s c /\ l1 = [] \/
                   In A1 l1 /\ l1 <> [] /\ A1 = last l1 0).
  { unfold A1. destruct l1 as [|a l1]; [left; auto|right].
    split; [|split; [discriminate|reflexivity]].
    destruct (exists_last (l := a :: l1)) as (l0 & p & ->); [discriminate|].
    rewrite last_last. apply in_or_app. right. left. reflexivity. }
  assert (Hother : forall i y, In y (fl i) -> ~ In y (l1 ++ l2) ->
                     word_at s' y = word_at s y /\ word_at s' (y + 8) = word_at s (y + 8)).
  { intros i y Hy Hny. destruct (L3 i y Hy) as (Hi & Hy1 & Hy2 & Hy3).
    assert (Hd : forall z, In z (l1 ++ l2) -> y + 16 <= z \/ z + 16 <= y).
    { intros z Hz. destruct (Hloc z Hz) as (_ & _ & Hz3).
      apply sep16; try assumption. intros ->. contradiction. }
    split; apply Hfr; unfold word_disjoint.
    - destruct HA1loc as [[-> _] | [Hl _]].
      + pose proof (Hslot c Hc). lia.
      + pose proof (Hd A1 (in_or_app _ _ _ (or_introl Hl))). lia.
    - intros n r ->. pose proof (Hd n (in_elt _ _ _)). lia.
    - destruct HA1loc as [[-> _] | [Hl _]].
      + pose proof (Hslot c Hc). lia.
      + pose proof (Hd A1 (in_or_app _ _ _ (or_introl Hl))). lia.
    - intros n r ->. pose proof (Hd n (in_elt _ _ _)). lia. }
  constructor.
  - intros i Hi. rewrite Hslot'.
    destruct (Z.eq_dec i c) as [->|Hne].
    + rewrite upd_fl_same.
      pose proof (L1 c Hc) as D. rewrite Efl in D.
      apply dseg_app in D. destruct D as (m & Da & Db).
      simpl in Db. destruct Db as (-> & Hbp0 & Hprev & Db).
      (* the part after [bp] *)
      assert (D2 : dseg s' (hd 0 l2) (last l1 0) l2 0).
      { destruct l2 as [|n r]; [reflexivity|].
        simpl in Db. destruct Db as (Hn & Hn0 & Hnp & Db).
        simpl. split; [reflexivity|]. split; [exact Hn0|].
        split; [apply (HA2 n r eq_refl)|].
        assert (Hnin : In n (l1 ++ n :: r)) by (apply in_or_app; right; left; reflexivity).
        destruct (Hloc n Hnin) as (Hn1 & Hn2 & Hn3).
        assert (En : word_at s' n = word_at s n).
        { apply Hfr; unfold word_disjoint.
          - destruct HA1loc as [[-> _] | [Hl _]].
            + pose proof (Hslot c Hc). lia.
            + destruct (Hloc A1 (in_or_app _ _ _ (or_introl Hl))) as (_ & _ & Ha3).
              assert (A1 <> n) by (intros ->; apply (N12 n Hl); left; reflexivity).
              pose proof (sep16 _ _ Ha3 Hn3 H). lia.
          - intros n' r' Heq. inversion Heq; subst. lia. }
        rewrite En. apply dseg_ext with (s := s); [|exact Db].
        intros y Hy.
        assert (Hyin : In y (l1 ++ n :: r)) by (apply in_or_app; right; right; exact Hy).
        destruct (Hloc y Hyin) as (Hy1 & Hy2 & Hy3).
        assert (Hyn : y <> n).
        { intros ->. apply NoDup_cons_iff in N2. destruct N2 as [N2 _]. contradiction. }
        pose proof (sep16 _ _ Hy3 Hn3 Hyn).
        split; apply Hfr; unfold word_disjoint.
        - destruct HA1loc as [[-> _] | [Hl _]].
          + pose proof (Hslot c Hc). lia.
          + destruct (Hloc A1 (in_or_app _ _ _ (or_introl Hl))) as (_ & _ & Ha3).
            assert (A1 <> y) by (intros ->; apply (N12 y Hl); right; exact Hy).
            pose proof (sep16 _ _ Ha3 Hy3 H0). lia.
        - intros n' r' Heq. inversion Heq; subst. lia.
        - destruct HA1loc as [[-> _] | [Hl _]].
          + pose proof (Hslot c Hc). lia.
          + destruct (Hloc A1 (in_or_app _ _ _ (or_introl Hl))) as (_ & _ & Ha3).
            assert (A1 <> y) by (intros ->; apply (N12 y Hl); right; exact Hy).
            pose proof (sep16 _ _ Ha3 Hy3 H0). lia.
        - intros n' r' Heq. inversion Heq; subst. lia. }
      destruct l1 as [|a l1].
      * (* [bp] was the first element *)
        simpl in *. unfold A1 in HA1. rewrite HA1. exact D2.
      * destruct (exists_last (l := a :: l1)) as (l0 & p & El1); [discriminate|].
        assert (HA1p : A1 = p) by (unfold A1; rewrite El1; apply last_last).
        clearbody A1. rewrite El1 in *. clear El1.
        rewrite last_last in *.
        apply dseg_app in Da. destruct Da as (m & Da & Dp).
        simpl in Dp. destruct Dp as (-> & Hp0 & Hpp & Hpn).
        assert (Hpin : In p ((l0 ++ [p]) ++ l2)).
        { apply in_or_app. left. apply in_or_app. right. left. reflexivity. }
        destruct (Hloc p Hpin) as (Hp1 & Hp2 & Hp3).
        apply NoDup_app_inv in N1. destruct N1 as (N0 & _ & N0p).
        assert (Hroot : word_at s' (slot_addr s c) = word_at s (slot_addr s c)).
        { apply Hfr; unfold word_disjoint.
          - rewrite HA1p. pose proof (Hslot c Hc). lia.
          - intros n r ->.
            destruct (Hloc n (in_elt _ _ _)) as (? & _).
            pose proof (Hslot c Hc). lia. }
        rewrite Hroot, <- app_assoc. apply dseg_app. exists p. split.
        -- apply dseg_ext with (s := s); [|exact Da].
           intros y Hy.
           assert (Hyin : In y ((l0 ++ [p]) ++ l2)).
           { apply in_or_app. left. apply in_or_app. left. exact Hy. }
           destruct (Hloc y Hyin) as (Hy1 & Hy2 & Hy3).
           assert (Hyp : y <> p) by (intros ->; apply (N0p p Hy); left; reflexivity).
           pose proof (sep16 _ _ Hy3 Hp3 Hyp).
           assert (Hyn : forall n r, l2 = n :: r -> y + 16 <= n \/ n + 16 <= y).
           { intros n r ->.
             destruct (Hloc n (in_elt _ _ _)) as (_ & _ & Hn3).
             apply sep16; try assumption. intros ->.
             apply (N12 n); [apply in_or_app; left; exact Hy | left; reflexivity]. }
           split; apply Hfr; unfold word_disjoint; rewrite ?HA1p; try lia;
             intros n r Heq; pose proof (Hyn n r Heq); lia.
        -- simpl. split; [reflexivity|]. split; [exact Hp0|]. split.
           ++ rewrite <- Hpp. apply Hfr; unfold word_disjoint; rewrite ?HA1p; try lia.
              intros n r ->.
              destruct (Hloc n (in_elt _ _ _)) as (_ & _ & Hn3).
              assert (p <> n).
              { intros ->. apply (N12 n); [apply in_or_app; right|]; left; reflexivity. }
              pose proof (sep16 _ _ Hp3 Hn3 H). lia.
           ++ rewrite HA1p in HA1. rewrite HA1. exact D2.
    + rewrite upd_fl_other by assumption.
      assert (Hroot : word_at s' (slot_addr s i) = word_at s (slot_addr s i)).
      { apply Hfr; unfold word_disjoint.
        - destruct HA1loc as [[-> _] | [Hl _]].
          + unfold slot_addr. lia.
          + destruct (Hloc A1 (in_or_app _ _ _ (or_introl Hl))) as (? & _).
            pose proof (Hslot i Hi). lia.
        - intros n r ->.
          destruct (Hloc n (in_elt _ _ _)) as (? & _).
          pose proof (Hslot i Hi). lia. }
      rewrite Hroot. apply dseg_ext with (s := s); [|apply L1; assumption].
      intros y Hy. apply (Hother i y Hy).
      intros Hy2. apply Hne. exact (L4 i c y Hy (Hin y Hy2)).
  - intros i. destruct (Z.eq_dec i c) as [->|Hne].
    + rewrite upd_fl_same. exact N'.
    + rewrite upd_fl_other by assumption. apply L2.
  - intros i y Hy. rewrite F2, F4. destruct (Z.eq_dec i c) as [->|Hne].
    + rewrite upd_fl_same in Hy. apply (L3 c y (Hin y Hy)).
    + rewrite upd_fl_other in Hy by assumption. apply (L3 i y Hy).
  - intros i j y Hi Hj.
    destruct (Z.eq_dec i c) as [->|Hni], (Z.eq_dec j c) as [->|Hnj]; try reflexivity.
    + rewrite upd_fl_same in Hi. rewrite upd_fl_other in Hj by assumption.
      exact (L4 c j y (Hin y Hi) Hj).
    + rewrite upd_fl_same in Hj. rewrite upd_fl_other in Hi by assumption.
      exact (L4 i c y Hi (Hin y Hj)).
    + rewrite upd_fl_other in Hi, Hj by assumption. exact (L4 i j y Hi Hj).
Qed.

Lemma remove_middle (bp : Z) (l1 l2 : list Z) :
  NoDup (l1 ++ bp :: l2) -> remove Z.eq_dec bp (l1 ++ bp :: l2) = l1 ++ l2.
Proof.
  intros N. pose proof (NoDup_remove_2 _ _ _ N) as Nbp.
  rewrite remove_app, remove_cons.
  rewrite !notin_remove; [reflexivity| |];
    intros H; apply Nbp; apply in_or_app; auto.
Qed.

Lemma last_in (l : list Z) (d : Z) : l <> [] -> In (last l d) l.
Proof.
  intros H. destruct (exists_last H) as (l0 & p & ->).
  rewrite last_last. apply in_or_app. right. left. reflexivity.
Qed.

Lemma seglist_delete_spec (s : state) (fl : Z -> list Z) (bp size : Z) :
  env_ok s -> lists_ok s fl ->
  let c := get_segclass_ind size in
  In bp (fl c) ->
  exists s',
    seglist_delete bp size s = Ok tt s' /\ same_frame s s' /\
    lists_ok s' (upd_fl fl c (remove Z.eq_dec bp (fl c))) /\
    (forall x, ~ link_area s fl x -> mem_bytes s' x = mem_bytes s x).
Proof.
  intros E L c Hbp.
  pose proof (get_segclass_ind_range size) as Hc. fold c in Hc.
  pose proof E as [E1 E2 E3 E4 E5 E6 E7].
  pose proof L as [L1 L2 L3 L4].
  destruct (in_split _ _ Hbp) as (l1 & l2 & Efl).
  pose proof (L2 c) as N. rewrite Efl in N.
  rewrite Efl. rewrite (remove_middle bp l1 l2 N).
  assert (Hslot : forall i, 0 <= i < 12 ->
                    mem_start_brk s <= slot_addr s i /\ slot_addr s i + 8 <= heap_listp s).
  { intros i Hi. unfold slot_addr. lia. }
  pose proof (Hslot c Hc) as Hsc.
  destruct (L3 c bp Hbp) as (_ & Hb1 & Hb2 & Hb3).
  pose proof (L1 c Hc) as D. rewrite Efl in D.
  apply dseg_app in D. destruct D as (m & Da & Db).
  simpl in Db. destruct Db as (-> & Hbp0 & Hprev & Db).
  pose proof (dseg_head _ _ _ _ _ Db) as Hnext. unfold NULL in *.
  assert (Hin1 : forall y, In y l1 -> In y (fl c)).
  { intros y Hy. rewrite Efl. apply in_or_app. auto. }
  assert (Hin2 : forall y, In y l2 -> In y (fl c)).
  { intros y Hy. rewrite Efl. apply in_or_app. right. right. exact Hy. }
  assert (Hnz2 : forall n r, l2 = n :: r -> n <> 0 /\ heap_listp s <= n /\ n + 16 <= mem_brk s).
  { intros n r ->. split.
    - apply (dseg_nonnull _ _ _ _ _ Db). left. reflexivity.
    - destruct (L3 c n (Hin2 n (or_introl eq_refl))) as (_ & ? & ? & _). auto. }
  assert (Hnz1 : l1 <> [] -> last l1 0 <> 0 /\ heap_listp s <= last l1 0 /\
                              last l1 0 + 16 <= mem_brk s /\ In (last l1 0) (fl c)).
  { intros Hne. pose proof (last_in l1 0 Hne) as Hl. split.
    - apply (dseg_nonnull _ _ _ _ _ Da). exact Hl.
    - destruct (L3 c _ (Hin1 _ Hl)) as (_ & ? & ? & _). auto. }
  assert (Hnp : forall n r, l2 = n :: r -> l1 <> [] ->
                  n + 16 <= last l1 0 \/ last l1 0 + 16 <= n).
  { intros n r -> Hne. pose proof (last_in l1 0 Hne) as Hl.
    destruct (L3 c _ (Hin1 _ Hl)) as (_ & _ & _ & Hm1).
    destruct (L3 c n (Hin2 n (or_introl eq_refl))) as (_ & _ & _ & Hm2).
    apply sep16; try assumption. intros Heq.
    pose proof (NoDup_remove_1 _ _ _ N) as N'.
    destruct (NoDup_app_inv _ _ N') as (_ & _ & N12).
    apply (N12 n); [rewrite Heq; exact Hl | left; reflexivity]. }
  unfold seglist_delete, PUT_ADDR, NEXT_FREE_ADDR, PREV_FREE_ADDR, NULL.
  rewrite get_seg_listp_bind. fold c.
  rewrite (class_slot_addr s c E Hc).
  rewrite GET_bind by (apply in_heap_range_true; lia).
  replace (wrap (bp + WSIZE)) with (bp + 8) by (unfold WSIZE; rewrite wrap_small; lia).
  rewrite GET_bind by (apply in_heap_range_true; lia).
  rewrite Hprev, Hnext.
  destruct l1 as [|a l1'] eqn:El1; destruct l2 as [|n r] eqn:El2.
  - (* only element *)
    cbn [last hd]. cbn [Z.eqb negb andb].
    rewrite PUT_put_ok by (apply in_heap_range_true; lia).
    eexists. split; [reflexivity|]. split; [apply put_frame|]. split.
    + eapply unlink_lists_ok with (bp := bp) (l1 := []) (l2 := []);
        try eassumption; try apply put_frame.
      * simpl. rdw. reflexivity.
      * intros n r Hd. discriminate.
      * intros w Hw _. unfold word_disjoint in Hw. rdw. reflexivity.
    + intros x Hx. pose proof (not_link_area_slot s fl x c Hc Hx).
      rewrite put_bytes_other by lia. reflexivity.
  - (* first element, with a successor *)
    destruct (Hnz2 n r eq_refl) as (Hn0 & Hn1 & Hn2).
    cbn [last hd].
    replace (n =? 0) with false by (symmetry; apply Z.eqb_neq; exact Hn0).
    cbn [Z.eqb negb andb].
    replace (wrap (n + WSIZE)) with (n + 8) by (unfold WSIZE; rewrite wrap_small; lia).
    rewrite PUT_put by (apply in_heap_range_true; lia).
    rewrite PUT_put_ok by (rewrite ?put_in_heap_range; apply in_heap_range_true; lia).
    eexists. split; [reflexivity|]. split; [repeat split|]. split.
    + eapply unlink_lists_ok with (bp := bp) (l1 := []) (l2 := n :: r);
        try eassumption; try (repeat split).
      * simpl. rdw. reflexivity.
      * intros n' r' Hd. inversion Hd; subst. simpl. rdw. reflexivity.
      * intros w Hw Hw2. specialize (Hw2 n r eq_refl).
        unfold word_disjoint in *. rdw. reflexivity.
    + intros x Hx. pose proof (not_link_area_slot s fl x c Hc Hx).
      pose proof (not_link_area_elem s fl x c n (Hin2 n (or_introl eq_refl)) Hx).
      rewrite !put_bytes_other by lia. reflexivity.
  - (* last element, with a predecessor *)
    destruct Hnz1 as (Hp0 & Hp1 & Hp2 & Hpin); [discriminate|].
    set (p := last (a :: l1') 0) in *.
    cbn [hd].
    replace (p =? 0) with false by (symmetry; apply Z.eqb_neq; exact Hp0).
    cbn [Z.eqb negb andb].
    rewrite PUT_put_ok by (apply in_heap_range_true; lia).
    eexists. split; [reflexivity|]. split; [apply put_frame|]. split.
    + eapply unlink_lists_ok with (bp := bp) (l1 := a :: l1') (l2 := []);
        try eassumption; try apply put_frame.
      * fold p. cbn [hd]. rdw. reflexivity.
      * intros n r Hd. discriminate.
      * fold p. intros w Hw _. unfold word_disjoint in Hw. rdw. reflexivity.
    + intros x Hx.
      pose proof (not_link_area_elem s fl x c p Hpin Hx).
      rewrite put_bytes_other by lia. reflexivity.
  - (* in the middle *)
    destruct (Hnz2 n r eq_refl) as (Hn0 & Hn1 & Hn2).
    destruct Hnz1 as (Hp0 & Hp1 & Hp2 & Hpin); [discriminate|].
    pose proof (Hnp n r eq_refl) as Hsep. specialize (Hsep ltac:(discriminate)).
    set (p := last (a :: l1') 0) in *.
    cbn [hd].
    replace (p =? 0) with false by (symmetry; apply Z.eqb_neq; exact Hp0).
    replace (n =? 0) with false by (symmetry; apply Z.eqb_neq; exact Hn0).
    cbn [Z.eqb negb andb].
    replace (wrap (n + WSIZE)) with (n + 8) by (unfold WSIZE; rewrite wrap_small; lia).
    rewrite PUT_put by (apply in_heap_range_true; lia).
    rewrite PUT_put_ok by (rewrite ?put_in_heap_range; apply in_heap_range_true; lia).
    eexists. split; [reflexivity|]. split; [repeat split|]. split.
    + eapply unlink_lists_ok with (bp := bp) (l1 := a :: l1') (l2 := n :: r);
        try eassumption; try (repeat split).
      * fold p. cbn [hd]. rdw. reflexivity.
      * fold p. intros n' r' Hd. inversion Hd; subst. rdw. reflexivity.
      * fold p. intros w Hw Hw2. specialize (Hw2 n r eq_refl).
        unfold word_disjoint in *. rdw. reflexivity.
    + intros x Hx.
      pose proof (not_link_area_elem s fl x c p Hpin Hx).
      pose proof (not_link_area_elem s fl x c n (Hin2 n (or_introl eq_refl)) Hx).
      rewrite !put_bytes_other by lia. reflexivity.
Qed.

(** ** The best-fit search *)

Lemma triple_bind {A B} (small : Prop) (c : M A) (k : A -> M B) (s : state)
      (Q : A -> state -> Prop) (P : B -> state -> Prop) :
  triple small (c s) Q ->
  (forall a s1, Q a s1 -> triple small (k a s1) P) ->
  triple small (bind c k s) P.
Proof.
  unfold triple, bind. intros H1 H2.
  destruct (c s); [apply H2; exact H1 | contradiction | exact H1].
Qed.

Lemma triple_weaken {A} (small small' : Prop) (o : outcome A) (P Q : A -> state -> Prop) :
  triple small o P -> (small -> small') -> (forall a s, P a s -> Q a s) ->
  triple small' o Q.
Proof. unfold triple. intros H1 H2 H3. destruct o; auto. Qed.

Lemma triple_ok {A} (small : Prop) (o : outcome A) (P : A -> state -> Prop) :
  triple small o P -> ~ small -> exists a s', o = Ok a s' /\ P a s'.
Proof.
  unfold triple. destruct o; intros H Hn; [eauto | contradiction | contradiction].
Qed.

Lemma GET_SIZE_bind {B} (p : Z) (k : Z -> M B) (s : state) :
  in_heap_range s p 8 = true ->
  bind (GET_SIZE p) k s = k (Z.land (word_at s p) SIZE_MASK) s.
Proof. intros H. unfold GET_SIZE. rewrite bind_assoc, GET_bind by exact H. reflexivity. Qed.

Lemma GET_ALLOC_bind {B} (p : Z) (k : Z -> M B) (s : state) :
  in_heap_range s p 8 = true ->
  bind (GET_ALLOC p) k s = k (Z.land (word_at s p) 1) s.
Proof. intros H. unfold GET_ALLOC. rewrite bind_assoc, GET_bind by exact H. reflexivity. Qed.

Lemma PREV_ALLOC_bind {B} (p : Z) (k : Z -> M B) (s : state) :
  in_heap_range s p 8 = true ->
  bind (PREV_ALLOC p) k s = k (Z.land (word_at s p) 2) s.
Proof. intros H. unfold PREV_ALLOC. rewrite bind_assoc, GET_bind by exact H. reflexivity. Qed.

Lemma seglist_search_loop_spec (s : state) (size : Z) :
  sane s -> 0 <= size < WORD_MAX ->
  forall (l seen : list Z) (fuel : nat) (curr prevn best diff : Z),
    dseg s curr prevn l NULL ->
    (forall x, In x l -> mem_start_brk s + 8 <= x /\ x + 8 <= mem_brk s) ->
    best_so_far s size seen best ->
    (best <> NULL -> diff = bsize s best - size) ->
    triple (fuel <= length l)%nat
           (seglist_search_loop fuel size curr best diff s)
           (fun r s' => s' = s /\ best_so_far s size (seen ++ l) r).
Proof.
  intros [Hlo Hhi] Hsize.
  induction l as [|x l IH]; intros seen fuel curr prevn best diff D Hrd Hbest Hdiff.
  - simpl in D. subst curr. rewrite app_nil_r.
    destruct fuel as [|fuel]; simpl; [lia|]. auto.
  - simpl in D. destruct D as (-> & Hx0 & _ & D).
    destruct (Hrd x (or_introl eq_refl)) as [Hx1 Hx2].
    assert (Hrd' : forall y, In y l -> mem_start_brk s + 8 <= y /\ y + 8 <= mem_brk s).
    { intros y Hy. apply Hrd. right. exact Hy. }
    destruct fuel as [|fuel]; [simpl; lia|].
    cbn [seglist_search_loop].
    replace (x =? NULL) with false by (symmetry; apply Z.eqb_neq; exact Hx0).
    unfold HDRP, NEXT_FREE_ADDR, WSIZE.
    rewrite (wrap_small (x - 8)) by lia.
    rewrite GET_SIZE_bind by (apply in_heap_range_true; lia).
    change (Z.land (word_at s (x - 8)) SIZE_MASK) with (bsize s x).
    destruct (bsize_facts s x) as [Rx _].
    assert (Happ : forall r, best_so_far s size ((seen ++ [x]) ++ l) r ->
                             best_so_far s size (seen ++ x :: l) r).
    { intros r. rewrite <- app_assoc. auto. }
    assert (Hsmall : (fuel <= length l)%nat -> (S fuel <= length (x :: l))%nat).
    { simpl. lia. }
    destruct (Z.leb_spec size (bsize s x)) as [Hfit|Hnofit].
    + destruct ((best =? NULL) || (wrap (bsize s x - size) <? diff)) eqn:Hc.
      * (* [x] becomes the best block *)
        rewrite (wrap_small (bsize s x - size)) in * by lia.
        assert (Hnew : best_so_far s size (seen ++ [x]) x).
        { right. split; [exact Hx0|]. split; [apply in_or_app; right; left; reflexivity|].
          split; [exact Hfit|]. intros y Hy Hyfit.
          apply in_app_or in Hy. destruct Hy as [Hy|[<-|[]]]; [|lia].
          destruct Hbest as [[_ Hno]|[Hb0 (Hb1 & Hb2 & Hb3)]].
          - specialize (Hno y Hy). lia.
          - apply orb_true_iff in Hc. destruct Hc as [Hc|Hc].
            + apply Z.eqb_eq in Hc. contradiction.
            + apply Z.ltb_lt in Hc. rewrite (Hdiff Hb0) in Hc.
              specialize (Hb3 y Hy Hyfit). lia. }
        destruct (Z.eqb_spec (bsize s x - size) 0) as [Hz|Hnz].
        -- simpl. split; [reflexivity|].
           right. split; [exact Hx0|]. split; [apply in_or_app; right; left; reflexivity|].
           split; [exact Hfit|]. intros y _ Hyfit. lia.
        -- rewrite GET_bind by (apply in_heap_range_true; lia).
           eapply triple_weaken; [apply (IH (seen ++ [x]) fuel _ x x (bsize s x - size) D Hrd' Hnew)| |].
           ++ intros _. reflexivity.
           ++ exact Hsmall.
           ++ intros r s' [-> Hr]. split; [reflexivity|]. apply Happ. exact Hr.
      * (* the best block so far stays *)
        apply orb_false_iff in Hc. destruct Hc as [Hc1 Hc2].
        apply Z.eqb_neq in Hc1. apply Z.ltb_ge in Hc2.
        rewrite (wrap_small (bsize s x - size)) in * by lia.
        assert (Hnew : best_so_far s size (seen ++ [x]) best).
        { destruct Hbest as [[Hb _]|[Hb0 (Hb1 & Hb2 & Hb3)]]; [contradiction|].
          right. split; [exact Hb0|]. split; [apply in_or_app; left; exact Hb1|].
          split; [exact Hb2|]. intros y Hy Hyfit.
          apply in_app_or in Hy. destruct Hy as [Hy|[<-|[]]].
          - apply Hb3; assumption.
          - rewrite (Hdiff Hb0) in Hc2. lia. }
        rewrite GET_bind by (apply in_heap_range_true; lia).
        eapply triple_weaken; [apply (IH (seen ++ [x]) fuel _ x best diff D Hrd' Hnew Hdiff)| |].
        -- exact Hsmall.
        -- intros r s' [-> Hr]. split; [reflexivity|]. apply Happ. exact Hr.
    + (* [x] is too small *)
      assert (Hnew : best_so_far s size (seen ++ [x]) best).
      { destruct Hbest as [[Hb Hno]|[Hb0 (Hb1 & Hb2 & Hb3)]].
        - left. split; [exact Hb|]. intros y Hy.
          apply in_app_or in Hy. destruct Hy as [Hy|[<-|[]]]; [apply Hno; exact Hy|lia].
        - right. split; [exact Hb0|]. split; [apply in_or_app; left; exact Hb1|].
          split; [exact Hb2|]. intros y Hy Hyfit.
          apply in_app_or in Hy. destruct Hy as [Hy|[<-|[]]]; [apply Hb3; assumption|lia]. }
      rewrite GET_bind by (apply in_heap_range_true; lia).
      eapply triple_weaken; [apply (IH (seen ++ [x]) fuel _ x best diff D Hrd' Hnew Hdiff)| |].
      * exact Hsmall.
      * intros r s' [-> Hr]. split; [reflexivity|]. apply Happ. exact Hr.
Qed.

Lemma seglist_search_spec (s : state) (fuel : nat) (i size : Z) (l : list Z) :
  sane s -> 0 <= size < WORD_MAX -> 0 <= i < 12 ->
  in_heap_range s (seg_listp s) 96 = true ->
  bucket_ok s i l ->
  triple (fuel <= length l)%nat
         (seglist_search fuel i size s)
         (fun r s' => s' = s /\ best_so_far s size l r).
Proof.
  intros Hs Hsize Hi Hseg [D Hrd].
  pose proof Hs as [Hlo Hhi]. apply in_heap_range_inv in Hseg.
  unfold seglist_search. rewrite get_seg_listp_bind.
  unfold WSIZE. rewrite wrap_small by lia.
  replace (seg_listp s + i * 8) with (slot_addr s i) by (unfold slot_addr; lia).
  rewrite GET_bind by (apply in_heap_range_true; unfold slot_addr; lia).
  apply (seglist_search_loop_spec s size Hs Hsize l [] fuel _ NULL NULL 0 D Hrd).
  - left. split; [reflexivity|]. intros x [].
  - intros H. contradiction.
Qed.

Lemma best_so_far_null (s : state) (size : Z) (l : list Z) :
  best_so_far s size l NULL -> no_fit s size l.
Proof. intros [[_ H]|[H _]]; [exact H|contradiction]. Qed.

Lemma best_so_far_fit (s : state) (size r : Z) (l : list Z) :
  best_so_far s size l r -> r <> NULL -> best_fit_in s size l r.
Proof. intros [[H _]|[_ H]] Hr; [contradiction|exact H]. Qed.

Lemma no_fit_best (s : state) (size r : Z) (l : list Z) :
  no_fit s size l -> best_so_far s size l r -> r = NULL.
Proof.
  intros Hno [[H _]|[_ (H1 & H2 & _)]]; [exact H|].
  specialize (Hno r H1). lia.
Qed.

(** Exact behaviour of the bucket loop: the buckets before [j] are visited and
    give nothing, and nothing is asked of the buckets after [j]. *)
Lemma find_fit_loop_exact (s : state) (fuel : nat) (asize : Z) (L : Z -> list Z) :
  sane s -> 0 <= asize < WORD_MAX ->
  in_heap_range s (seg_listp s) 96 = true ->
  forall (n : nat) (i j : Z),
    0 <= i -> i <= j -> j <= i + Z.of_nat n -> i + Z.of_nat n <= 12 ->
    (forall k, i <= k < j ->
               bucket_ok s k (L k) /\ (length (L k) < fuel)%nat /\ no_fit s asize (L k)) ->
    (j = i + Z.of_nat n -> find_fit_loop fuel n i asize s = Ok NULL s) /\
    (j < i + Z.of_nat n ->
     bucket_ok s j (L j) -> (length (L j) < fuel)%nat -> ~ no_fit s asize (L j) ->
     exists r, find_fit_loop fuel n i asize s = Ok r s /\ best_fit_in s asize (L j) r).
Proof.
  intros Hs Hsize Hseg.
  induction n as [|n IH]; intros i j Hi Hij Hjn Hn12 Hbefore.
  - split; [reflexivity|]. lia.
  - cbn [find_fit_loop].
    replace (i + Z.of_nat (S n)) with (i + 1 + Z.of_nat n) in * by lia.
    destruct (Z.eq_dec i j) as [<-|Hne].
    + split; [lia|]. intros _ Hb Hf Hfit.
      pose proof (seglist_search_spec s fuel i asize (L i) Hs Hsize ltac:(lia) Hseg Hb) as T.
      apply triple_ok in T; [|lia]. destruct T as (r & s' & E & -> & Hr).
      rewrite (bind_ok _ _ _ _ _ E).
      assert (Hr0 : r <> NULL).
      { intros ->. apply Hfit. apply (best_so_far_null _ _ _ Hr). }
      replace (r =? NULL) with false by (symmetry; apply Z.eqb_neq; exact Hr0).
      simpl. exists r. split; [reflexivity|]. apply best_so_far_fit; assumption.
    + destruct (Hbefore i ltac:(lia)) as (Hb & Hf & Hno).
      pose proof (seglist_search_spec s fuel i asize (L i) Hs Hsize ltac:(lia) Hseg Hb) as T.
      apply triple_ok in T; [|lia]. destruct T as (r & s' & E & -> & Hr).
      rewrite (bind_ok _ _ _ _ _ E).
      rewrite (no_fit_best _ _ _ _ Hno Hr). cbn [NULL Z.eqb negb].
      apply (IH (i + 1) j); try lia.
      intros k Hk. apply Hbefore. lia.
Qed.

(** ** C4: find_fit *)

(** The table of mm.c computes the class of the specification. *)
Lemma get_segclass_ind_class_of_spec (size : Z) :
  get_segclass_ind size = class_of_spec size.
Proof.
  unfold get_segclass_ind, class_of_spec. cbn [class_scan Z.add Pos.add Pos.succ].
  change (32 * 2 ^ 0) with 32. change (32 * 2 ^ 1) with 64.
  change (32 * 2 ^ 2) with 128. change (32 * 2 ^ 3) with 256.
  change (32 * 2 ^ 4) with 512. change (32 * 2 ^ 5) with 1024.
  change (32 * 2 ^ 6) with 2048. change (32 * 2 ^ 7) with 4096.
  change (32 * 2 ^ 8) with 8192. change (32 * 2 ^ 9) with 16384.
  change (32 * 2 ^ 10) with 32768. reflexivity.
Qed.

(** C4. [find_fit asize] visits the buckets from [class(asize)] upwards,
    [class] being the size class of the specification (0 up to 32, i up to
    32 * 2^i, 11 above 32768).  If none of them holds a block of size at
    least [asize] it returns null.  Otherwise, with [j] the lowest such
    bucket that holds a fit, it returns a block of bucket [j] of size at
    least [asize] whose size is the least among the fits of that bucket;
    the buckets after [j] are not looked at, so nothing is assumed of them.
    Buckets are null-terminated lists of readable blocks, shorter than the
    fuel. *)
Theorem find_fit_best_fit (s : state) (fuel : nat) (asize : Z) (L : Z -> list Z) :
  sane s -> 0 <= asize < WORD_MAX ->
  in_heap_range s (seg_listp s) 96 = true ->
  let c := class_of_spec asize in
  ((forall k, c <= k < 12 ->
              bucket_ok s k (L k) /\ (length (L k) < fuel)%nat /\ no_fit s asize (L k)) ->
   find_fit fuel asize s = Ok NULL s) /\
  (forall j, c <= j < 12 ->
     (forall k, c <= k < j ->
                bucket_ok s k (L k) /\ (length (L k) < fuel)%nat /\ no_fit s asize (L k)) ->
     bucket_ok s j (L j) -> (length (L j) < fuel)%nat ->
     (exists x, In x (L j) /\ asize <= bsize s x) ->
     exists r, find_fit fuel asize s = Ok r s /\ In r (L j) /\ asize <= bsize s r /\
               forall x, In x (L j) -> asize <= bsize s x -> bsize s r <= bsize s x).
Proof.
  intros Hs Hsize Hseg c.
  pose proof (get_segclass_ind_range asize) as Hc.
  assert (Ec : get_segclass_ind asize = c) by apply get_segclass_ind_class_of_spec.
  unfold find_fit. rewrite Ec in *. unfold SEGLIST_CLASSES.
  split.
  - intros Hall.
    apply (find_fit_loop_exact s fuel asize L Hs Hsize Hseg
             (Z.to_nat (12 - c)) c 12); try lia. exact Hall.
  - intros j Hj Hbefore Hb Hf (x & Hx & Hxfit).
    destruct (find_fit_loop_exact s fuel asize L Hs Hsize Hseg
                (Z.to_nat (12 - c)) c j ltac:(lia) ltac:(lia) ltac:(lia) ltac:(lia) Hbefore)
      as [_ H].
    destruct H as (r & E & Hr); try assumption; try lia.
    + intros Hno. specialize (Hno x Hx). lia.
    + exists r. split; [exact E|]. exact Hr.
Qed.

(** ** Geometry of the implicit block list *)

Section HeapFacts.

Variables (s : state) (blk : Z -> Prop).
Hypothesis H : heap_ok s blk.

Lemma blk_pair (a b : Z) :
  blk a -> blk b -> a = b \/ a + bsize s a <= b \/ b + bsize s b <= a.
Proof.
  intros Ha Hb. destruct (Z.lt_trichotomy a b) as [L|[L|L]].
  - right. left. apply (hk_order s blk H); assumption.
  - left. exact L.
  - right. right. apply (hk_order s blk H); assumption.
Qed.

Lemma brk_not_blk : ~ blk (mem_brk s).
Proof.
  intros Hb. destruct (hk_blk s blk H _ Hb) as (_ & _ & ? & _ & ?).
  destruct (hk_epi s blk H). lia.
Qed.

Lemma blk_lt_brk (a : Z) : blk a -> a + 32 <= mem_brk s.
Proof. intros Ha. destruct (hk_blk s blk H _ Ha) as (_ & _ & ? & _ & ?). lia. Qed.

Lemma node_bounds (a : Z) :
  blk a \/ a = mem_brk s -> heap_listp s <= a <= mem_brk s /\ a mod 16 = 0.
Proof.
  intros [Ha| ->].
  - destruct (hk_blk s blk H _ Ha) as (? & ? & ? & _ & ?). split; [lia|assumption].
  - destruct (hk_env s blk H) as [? ? ? Ehl ? ? ?]. split; [lia|].
    destruct (Z.eq_dec (mem_brk s) (heap_listp s)) as [E|E].
    + rewrite E, Ehl. zlia.
    + destruct (hk_pred s blk H (mem_brk s) (or_intror eq_refl) E) as (p & Hp & <-).
      destruct (hk_blk s blk H _ Hp) as (_ & ? & _ & ? & _). zlia.
Qed.

Lemma node_order (a b : Z) :
  blk a -> blk b \/ b = mem_brk s -> a < b -> a + bsize s a <= b.
Proof.
  intros Ha [Hb| ->] L.
  - apply (hk_order s blk H); assumption.
  - destruct (hk_blk s blk H _ Ha) as (_ & _ & _ & _ & ?). assumption.
Qed.

(** The successor of a block is met later by no other block. *)
Lemma next_unique (a b : Z) :
  blk a -> blk b -> a + bsize s a = b + bsize s b -> a = b.
Proof.
  intros Ha Hb E.
  destruct (hk_blk s blk H _ Ha) as (_ & _ & ? & _).
  destruct (hk_blk s blk H _ Hb) as (_ & _ & ? & _).
  destruct (blk_pair a b Ha Hb) as [?|[?|?]]; [assumption|lia|lia].
Qed.

Lemma header_readable (a : Z) :
  blk a \/ a = mem_brk s ->
  wrap (a - 8) = a - 8 /\ in_heap_range s (a - 8) 8 = true.
Proof.
  intros Ha. destruct (node_bounds a Ha) as [? _]. destruct (hk_env s blk H).
  split; [apply wrap_small; lia | apply in_heap_range_true; lia].
Qed.

(** The traversal meets exactly the blocks of [blk] and the epilogue. *)
Lemma reach_node (a : Z) : reach s a -> blk a \/ a = mem_brk s.
Proof.
  induction 1 as [|a _ IH Hsz].
  - apply (hk_first s blk H).
  - destruct IH as [Ha| ->].
    + apply (hk_next s blk H). exact Ha.
    + destruct (hk_epi s blk H). contradiction.
Qed.

Lemma blk_reach (a : Z) : blk a -> reach s a.
Proof.
  assert (G : forall n, 0 <= n -> forall a, blk a -> a - heap_listp s <= n -> reach s a).
  { intros n Hn. pattern n. apply Zlt_0_ind; [|exact Hn].
    clear n Hn. intros n IH Hn b Hb Hle.
    destruct (Z.eq_dec b (heap_listp s)) as [->|Hne]; [apply reach_first|].
    destruct (hk_pred s blk H b (or_introl Hb) Hne) as (p & Hp & <-).
    destruct (hk_blk s blk H _ Hp) as (? & _ & ? & _).
    apply reach_next; [|lia].
    apply (IH (p - heap_listp s)); try lia. exact Hp. }
  intros Ha. destruct (hk_blk s blk H _ Ha) as (? & _).
  apply (G (a - heap_listp s)); try lia. exact Ha.
Qed.

Lemma is_block_blk (a : Z) : is_block s a <-> blk a.
Proof.
  split.
  - intros [R Hz]. destruct (reach_node a R) as [Ha| ->]; [exact Ha|].
    destruct (hk_epi s blk H). contradiction.
  - intros Ha. split; [apply blk_reach; exact Ha|].
    destruct (hk_blk s blk H _ Ha) as (_ & _ & ? & _). lia.
Qed.

End HeapFacts.

Lemma Inv_no_adjacent_free (s : state) : Inv s -> no_adjacent_free s.
Proof.
  intros (blk & fl & [H _ _ N]) a [Hb Hf].
  apply N; [|exact Hf]. apply (is_block_blk s blk H). exact Hb.
Qed.

(** ** Rewriting a zone of the block list

    Every operation of the allocator rewrites the blocks between two
    boundaries [zl] and [zr] of the old list and leaves the rest alone, up to
    the prev-alloc bit in the header at [zr].  The lemma reduces the
    well-formedness of the new list to that of the new blocks of the zone. *)
Lemma heap_ok_zone (s s' : state) (blk blk' : Z -> Prop) (zl zr : Z) :
  heap_ok s blk -> same_frame s s' ->
  blk zl -> (blk zr \/ zr = mem_brk s) -> zl < zr ->
  (forall a, a < zl \/ zr <= a -> (blk' a <-> blk a)) ->
  (forall a, blk a \/ a = mem_brk s -> a < zl \/ zr < a ->
             word_at s' (a - 8) = word_at s (a - 8)) ->
  (forall a, blk a -> balloc s a = 0 -> a < zl \/ zr <= a ->
             word_at s' (a + bsize s a - 16) = word_at s (a + bsize s a - 16)) ->
  bsize s' zr = bsize s zr -> balloc s' zr = balloc s zr ->
  blk' zl -> bprev s' zl = bprev s zl ->
  (forall a, blk' a -> zl <= a < zr ->
             a mod 16 = 0 /\ 32 <= bsize s' a /\ bsize s' a mod 16 = 0 /\
             a + bsize s' a <= zr /\
             (blk' (a + bsize s' a) \/ a + bsize s' a = zr) /\
             bprev s' (a + bsize s' a) = 2 * balloc s' a /\
             (balloc s' a = 0 ->
              Z.land (word_at s' (a + bsize s' a - 16)) SIZE_MASK = bsize s' a)) ->
  (forall a b, blk' a -> blk' b -> zl <= a -> a < b -> b < zr -> a + bsize s' a <= b) ->
  (forall a, blk' a -> zl < a < zr -> exists p, blk' p /\ zl <= p /\ p + bsize s' p = a) ->
  (exists p, blk' p /\ zl <= p < zr /\ p + bsize s' p = zr) ->
  heap_ok s' blk'.
Proof.
  intros H F Hzl Hzr Hlt Z1 Z2 Z3 Z4s Z4a Hzl' Zp Z5 Zord Zpred Zlast.
  pose proof F as (F1 & F2 & F3 & F4 & F5).
  pose proof (hk_env s blk H) as E.
  pose proof (node_order s blk H zl zr Hzl Hzr Hlt) as Hzlr.
  destruct (hk_blk s blk H zl Hzl) as (Hzl1 & Hzl2 & Hzl3 & Hzl4 & Hzl5).
  destruct (node_bounds s blk H zr Hzr) as [Hzr1 Hzr2].
  assert (Hhdr : forall a, blk a \/ a = mem_brk s -> a < zl \/ zr < a ->
                   bsize s' a = bsize s a /\ balloc s' a = balloc s a /\
                   bprev s' a = bprev s a /\ hdr s' a = hdr s a).
  { intros a Ha Ho. destruct (hdr_ext s s' a (Z2 a Ha Ho)) as (? & ? & ? & ?). auto. }
  assert (Hout : forall a, blk a \/ a = mem_brk s -> a < zl \/ zr <= a ->
                   bsize s' a = bsize s a /\ balloc s' a = balloc s a).
  { intros a Ha Ho. destruct (Z.eq_dec a zr) as [->|Hne]; [auto|].
    destruct (Hhdr a Ha ltac:(lia)) as (? & ? & _). auto. }
  assert (Hold : forall a, blk a -> a < zl -> a + bsize s a <= zl).
  { intros a Ha L. apply (hk_order s blk H); assumption. }
  assert (Hold2 : forall a, blk a -> zr < a -> zr + 32 <= a).
  { intros a Ha L. destruct Hzr as [Hzr| ->].
    - destruct (hk_blk s blk H zr Hzr) as (_ & _ & ? & _).
      pose proof (hk_order s blk H zr a Hzr Ha L). lia.
    - pose proof (blk_lt_brk s blk H a Ha). lia. }
  assert (Hin : forall a, blk' a -> (zl <= a < zr) \/ (blk a /\ (a < zl \/ zr <= a))).
  { intros a Ha. destruct (Z_lt_le_dec a zl); [right|].
    - split; [apply Z1; auto|auto].
    - destruct (Z_lt_le_dec a zr); [left; lia|right].
      split; [apply Z1; auto|auto]. }
  constructor.
  - destruct E. constructor; try rewrite ?F1, ?F2, ?F3, ?F4, ?F5; assumption.
  - intros a Ha. rewrite F2, F4. destruct (Hin a Ha) as [Hz|[Hb Ho]].
    + destruct (Z5 a Ha Hz) as (? & ? & ? & ? & _). repeat split; try assumption; lia.
    + destruct (Hout a (or_introl Hb) Ho) as [-> _]. apply (hk_blk s blk H a Hb).
  - intros a Ha. rewrite F2. destruct (Hin a Ha) as [Hz|[Hb Ho]].
    + destruct (Z5 a Ha Hz) as (_ & _ & _ & _ & [Hn|Hn] & _); [left; exact Hn|].
      rewrite Hn. destruct Hzr as [Hzr|Hzr]; [left|right; exact Hzr].
      apply Z1; [lia|exact Hzr].
    + destruct (Hout a (or_introl Hb) Ho) as [-> _].
      destruct (hk_next s blk H a Hb) as [Hn|Hn]; [|right; exact Hn].
      destruct Ho as [Ho|Ho].
      * pose proof (Hold a Hb Ho). left.
        destruct (Z.eq_dec (a + bsize s a) zl) as [->|Hne]; [exact Hzl'|].
        apply Z1; [left; lia|exact Hn].
      * left. apply Z1; [|exact Hn].
        right. destruct (hk_blk s blk H a Hb) as (_ & _ & ? & _). lia.
  - intros a b Ha Hb L.
    destruct (Hin a Ha) as [Hza|[Hba Hoa]], (Hin b Hb) as [Hzb|[Hbb Hob]].
    + apply Zord; try assumption; lia.
    + destruct (Z5 a Ha Hza) as (_ & _ & _ & ? & _). lia.
    + destruct (Hout a (or_introl Hba) Hoa) as [-> _].
      destruct Hoa as [Hoa|Hoa]; [pose proof (Hold a Hba Hoa); lia|lia].
    + destruct (Hout a (or_introl Hba) Hoa) as [-> _].
      apply (hk_order s blk H); assumption.
  - rewrite F2, F4. destruct (hk_first s blk H) as [Hf|Hf]; [left|].
    + destruct (Z.eq_dec (heap_listp s) zl) as [->|Hne]; [exact Hzl'|].
      apply Z1; [left; lia|exact Hf].
    + exfalso. pose proof (blk_lt_brk s blk H zl Hzl). lia.
  - rewrite F4. destruct (Z.eq_dec (heap_listp s) zl) as [Heq|Hne].
    + rewrite Heq, Zp, <- Heq. apply (hk_first_prev s blk H).
    + destruct (hk_first s blk H) as [Hf|Hf].
      * destruct (Hhdr _ (or_introl Hf) ltac:(lia)) as (_ & _ & -> & _).
        apply (hk_first_prev s blk H).
      * exfalso. pose proof (blk_lt_brk s blk H zl Hzl). lia.
  - rewrite F2, F4. intros a Ha Hne.
    assert (Ha' : (zl < a < zr) \/ a = zl \/ a = zr \/
                  ((blk a \/ a = mem_brk s) /\ (a < zl \/ zr < a))).
    { destruct Ha as [Ha| ->].
      - destruct (Hin a Ha) as [Hz|[Hb Ho]]; [lia|].
        destruct (Z.eq_dec a zr); [auto|]. right. right. right. split; [auto|lia].
      - destruct Hzr as [Hzr|Hzr]; [|auto].
        pose proof (blk_lt_brk s blk H zr Hzr). right. right. right. split; [auto|lia]. }
    destruct Ha' as [Hz|[->|[->|[Hb Ho]]]].
    + destruct Ha as [Ha| ->].
      * destruct (Zpred a Ha Hz) as (p & Hp & _ & Hpe). exists p. auto.
      * exfalso. lia.
    + destruct (hk_pred s blk H zl (or_introl Hzl) Hne) as (p & Hp & Hpe).
      destruct (hk_blk s blk H p Hp) as (_ & _ & ? & _).
      exists p. split; [apply Z1; [left; lia|exact Hp]|].
      destruct (Hout p (or_introl Hp) ltac:(lia)) as [-> _]. exact Hpe.
    + destruct Zlast as (p & Hp & _ & Hpe). exists p. auto.
    + assert (Hne' : a <> heap_listp s) by exact Hne.
      destruct (hk_pred s blk H a Hb Hne') as (p & Hp & Hpe).
      destruct (hk_blk s blk H p Hp) as (_ & _ & ? & _).
      assert (Hpo : p < zl \/ zr <= p).
      { destruct (Z_lt_le_dec p zl); [auto|].
        destruct (Z_lt_le_dec p zr); [|auto].
        exfalso. pose proof (node_order s blk H p zr Hp Hzr l0). lia. }
      exists p. split; [apply Z1; assumption|].
      destruct (Hout p (or_introl Hp) Hpo) as [-> _]. exact Hpe.
  - rewrite F2. destruct (hk_epi s blk H) as [He1 He2].
    destruct (Hout (mem_brk s) (or_intror eq_refl)) as [-> ->]; [|auto].
    right. destruct Hzr as [Hzr|Hzr]; [|lia].
    pose proof (blk_lt_brk s blk H zr Hzr). lia.
  - intros a Ha. destruct (Hin a Ha) as [Hz|[Hb Ho]].
    + destruct (Z5 a Ha Hz) as (_ & _ & _ & _ & _ & ? & _). assumption.
    + destruct (Hout a (or_introl Hb) Ho) as [Es Ea]. rewrite Es, Ea.
      rewrite <- (hk_prev_bit s blk H a Hb).
      destruct (hk_blk s blk H a Hb) as (_ & _ & ? & _).
      destruct Ho as [Ho|Ho].
      * pose proof (Hold a Hb Ho).
        destruct (Z.eq_dec (a + bsize s a) zl) as [->|Hne2]; [exact Zp|].
        destruct (Hhdr (a + bsize s a) (hk_next s blk H a Hb) ltac:(lia)) as (_ & _ & ? & _).
        assumption.
      * destruct (Hhdr (a + bsize s a) (hk_next s blk H a Hb) ltac:(lia)) as (_ & _ & ? & _).
        assumption.
  - intros a Ha Hf. destruct (Hin a Ha) as [Hz|[Hb Ho]].
    + destruct (Z5 a Ha Hz) as (_ & _ & _ & _ & _ & _ & Hft). apply Hft. exact Hf.
    + destruct (Hout a (or_introl Hb) Ho) as [Es Ea]. rewrite Ea in Hf.
      rewrite Es, (Z3 a Hb Hf Ho). apply (hk_footer s blk H a Hb Hf).
Qed.

(** ** Free-list words and block metadata do not overlap *)

Section LinkGeometry.

Variables (s : state) (blk : Z -> Prop) (fl : Z -> list Z).
Hypothesis H : heap_ok s blk.
Hypothesis Hlisted : forall i y, In y (fl i) -> blk y.

Lemma link_vs_header (x a : Z) :
  link_area s fl x -> blk a \/ a = mem_brk s -> x < a - 8 \/ a <= x.
Proof.
  intros L Ha. destruct (node_bounds s blk H a Ha) as [Hb _].
  destruct (hk_env s blk H).
  destruct L as [L|(i & y & Hy & L)]; [lia|].
  pose proof (Hlisted i y Hy) as Hby.
  destruct (hk_blk s blk H y Hby) as (_ & _ & ? & _ & ?).
  destruct Ha as [Ha| ->]; [|lia].
  destruct (blk_pair s blk H a y Ha Hby) as [->|[?|?]]; try lia.
  destruct (hk_blk s blk H a Ha) as (_ & _ & ? & _). lia.
Qed.

Lemma link_vs_footer (x a : Z) :
  link_area s fl x -> blk a ->
  x < a + bsize s a - 16 \/ a + bsize s a - 8 <= x.
Proof.
  intros L Ha. destruct (hk_blk s blk H a Ha) as (? & _ & ? & _ & ?).
  destruct (hk_env s blk H).
  destruct L as [L|(i & y & Hy & L)]; [lia|].
  pose proof (Hlisted i y Hy) as Hby.
  destruct (hk_blk s blk H y Hby) as (_ & _ & ? & _ & ?).
  destruct (blk_pair s blk H a y Ha Hby) as [->|[?|?]]; lia.
Qed.

Lemma link_vs_block (x a : Z) :
  link_area s fl x -> blk a -> (forall i, ~ In a (fl i)) ->
  x < a - 8 \/ a + bsize s a - 8 <= x.
Proof.
  intros L Ha Hn. destruct (hk_blk s blk H a Ha) as (? & _ & ? & _ & ?).
  destruct (hk_env s blk H).
  destruct L as [L|(i & y & Hy & L)]; [lia|].
  pose proof (Hlisted i y Hy) as Hby.
  destruct (hk_blk s blk H y Hby) as (_ & _ & ? & _ & ?).
  destruct (blk_pair s blk H a y Ha Hby) as [->|[?|?]]; try lia.
  exfalso. exact (Hn i Hy).
Qed.

End LinkGeometry.

Lemma heap_ok_frame (s s' : state) (blk : Z -> Prop) :
  heap_ok s blk -> same_frame s s' ->
  (forall a, blk a \/ a = mem_brk s -> word_at s' (a - 8) = word_at s (a - 8)) ->
  (forall a, blk a -> balloc s a = 0 ->
             word_at s' (a + bsize s a - 16) = word_at s (a + bsize s a - 16)) ->
  heap_ok s' blk.
Proof.
  intros H F Hh Hf.
  pose proof F as (F1 & F2 & F3 & F4 & F5).
  assert (Hhdr : forall a, blk a \/ a = mem_brk s ->
                   bsize s' a = bsize s a /\ balloc s' a = balloc s a /\
                   bprev s' a = bprev s a).
  { intros a Ha. destruct (hdr_ext s s' a (Hh a Ha)) as (? & ? & ? & ?). auto. }
  constructor.
  - destruct (hk_env s blk H). constructor; try rewrite ?F1, ?F2, ?F3, ?F4, ?F5; assumption.
  - intros a Ha. rewrite F2, F4. destruct (Hhdr a (or_introl Ha)) as (-> & _).
    apply (hk_blk s blk H a Ha).
  - intros a Ha. rewrite F2. destruct (Hhdr a (or_introl Ha)) as (-> & _).
    apply (hk_next s blk H a Ha).
  - intros a b Ha Hb. destruct (Hhdr a (or_introl Ha)) as (-> & _).
    apply (hk_order s blk H a b Ha Hb).
  - rewrite F2, F4. apply (hk_first s blk H).
  - rewrite F4. destruct (Hhdr (heap_listp s)) as (_ & _ & ->).
    + destruct (hk_first s blk H); auto.
    + apply (hk_first_prev s blk H).
  - rewrite F2, F4. intros a Ha Hne.
    destruct (hk_pred s blk H a Ha Hne) as (p & Hp & Hpe).
    exists p. split; [exact Hp|]. destruct (Hhdr p (or_introl Hp)) as (-> & _). exact Hpe.
  - rewrite F2. destruct (Hhdr (mem_brk s) (or_intror eq_refl)) as (-> & -> & _).
    apply (hk_epi s blk H).
  - intros a Ha. destruct (Hhdr a (or_introl Ha)) as (-> & -> & _).
    destruct (Hhdr (a + bsize s a) (hk_next s blk H a Ha)) as (_ & _ & ->).
    apply (hk_prev_bit s blk H a Ha).
  - intros a Ha Hfree. destruct (Hhdr a (or_introl Ha)) as (Es & Ea & _).
    rewrite Ea in Hfree. rewrite Es, (Hf a Ha Hfree).
    apply (hk_footer s blk H a Ha Hfree).
Qed.

(** Stores into free-list words keep the block list. *)
Lemma heap_ok_links (s s' : state) (blk : Z -> Prop) (fl : Z -> list Z) :
  heap_ok s blk -> same_frame s s' ->
  (forall i y, In y (fl i) -> blk y) ->
  (forall x, ~ link_area s fl x -> mem_bytes s' x = mem_bytes s x) ->
  heap_ok s' blk /\
  (forall a, blk a \/ a = mem_brk s -> hdr s' a = hdr s a) /\
  (forall a, blk a -> word_at s' (a + bsize s a - 16) = word_at s (a + bsize s a - 16)).
Proof.
  intros H F Hl Hfr.
  assert (Hh : forall a, blk a \/ a = mem_brk s -> word_at s' (a - 8) = word_at s (a - 8)).
  { intros a Ha. apply word_at_ext. intros x Hx. apply Hfr. intros L.
    pose proof (link_vs_header s blk fl H Hl x a L Ha). lia. }
  assert (Hf : forall a, blk a ->
                 word_at s' (a + bsize s a - 16) = word_at s (a + bsize s a - 16)).
  { intros a Ha. apply word_at_ext. intros x Hx. apply Hfr. intros L.
    pose proof (link_vs_footer s blk fl H Hl x a L Ha). lia. }
  split; [|split; [|exact Hf]].
  - apply (heap_ok_frame s s' blk H F Hh). intros a Ha _. apply Hf. exact Ha.
  - intros a Ha. unfold hdr, WSIZE. apply Hh. exact Ha.
Qed.

Lemma lists_ok_frame (s s' : state) (fl : Z -> list Z) :
  lists_ok s fl -> same_frame s s' ->
  (forall x, link_area s fl x -> mem_bytes s' x = mem_bytes s x) ->
  lists_ok s' fl.
Proof.
  intros [L1 L2 L3 L4] (F1 & F2 & F3 & F4 & F5) Hfr.
  constructor.
  - intros i Hi.
    assert (Hs : slot_addr s' i = slot_addr s i) by (unfold slot_addr; rewrite F5; reflexivity).
    rewrite Hs.
    assert (Hr : word_at s' (slot_addr s i) = word_at s (slot_addr s i)).
    { apply word_at_ext. intros x Hx. apply Hfr. left. unfold slot_addr in Hx. lia. }
    rewrite Hr. apply dseg_ext with (s := s); [|apply L1; exact Hi].
    intros y Hy. split; apply word_at_ext; intros x Hx; apply Hfr; right;
      exists i, y; (split; [exact Hy|lia]).
  - exact L2.
  - intros i x Hx. rewrite F2, F4. apply (L3 i x Hx).
  - exact L4.
Qed.

Lemma link_area_frame (s s' : state) (fl : Z -> list Z) (x : Z) :
  same_frame s s' -> link_area s' fl x <-> link_area s fl x.
Proof.
  intros (F1 & F2 & F3 & F4 & F5). unfold link_area. rewrite F5. reflexivity.
Qed.

(** ** Headers under stores *)

Lemma hdr_put_other (s : state) (p v a : Z) :
  a <= p \/ p + 8 <= a - 8 ->
  hdr (put s p v) a = hdr s a /\ bsize (put s p v) a = bsize s a /\
  balloc (put s p v) a = balloc s a /\ bprev (put s p v) a = bprev s a.
Proof. intros H. apply hdr_ext. apply put_word_other. lia. Qed.

Lemma bsize_put_other (s : state) (p v a : Z) :
  a <= p \/ p + 8 <= a - 8 -> bsize (put s p v) a = bsize s a.
Proof. intros H. apply (hdr_put_other s p v a H). Qed.

Lemma balloc_put_other (s : state) (p v a : Z) :
  a <= p \/ p + 8 <= a - 8 -> balloc (put s p v) a = balloc s a.
Proof. intros H. apply (hdr_put_other s p v a H). Qed.

Lemma bprev_put_other (s : state) (p v a : Z) :
  a <= p \/ p + 8 <= a - 8 -> bprev (put s p v) a = bprev s a.
Proof. intros H. apply (hdr_put_other s p v a H). Qed.

Lemma hdr_put_same (s : state) (a v : Z) :
  0 <= v < WORD_MAX -> hdr (put s (a - 8) v) a = v.
Proof. intros H. unfold hdr, WSIZE. apply put_word_same. exact H. Qed.

Lemma bsize_put_pack (s : state) (a sz f : Z) :
  0 <= sz < WORD_MAX -> sz mod 8 = 0 -> 0 <= f < 8 ->
  bsize (put s (a - 8) (PACK sz f)) a = sz.
Proof.
  intros. unfold bsize. rewrite hdr_put_same by (apply pack_range; assumption).
  apply pack_size; assumption.
Qed.

Lemma balloc_put_pack (s : state) (a sz f : Z) :
  0 <= sz < WORD_MAX -> sz mod 8 = 0 -> 0 <= f < 8 ->
  balloc (put s (a - 8) (PACK sz f)) a = Z.land f 1.
Proof.
  intros. unfold balloc. rewrite hdr_put_same by (apply pack_range; assumption).
  apply pack_low; lia.
Qed.

Lemma bprev_put_pack (s : state) (a sz f : Z) :
  0 <= sz < WORD_MAX -> sz mod 8 = 0 -> 0 <= f < 8 ->
  bprev (put s (a - 8) (PACK sz f)) a = Z.land f 2.
Proof.
  intros. unfold bprev. rewrite hdr_put_same by (apply pack_range; assumption).
  apply pack_low; lia.
Qed.

Lemma balloc_cases (s : state) (a : Z) : balloc s a = 0 \/ balloc s a = 1.
Proof. apply land_1_cases. Qed.

Lemma bprev_cases (s : state) (a : Z) : bprev s a = 0 \/ bprev s a = 2.
Proof. apply land_2_cases. Qed.

(** ** Address computations of the helpers *)

Lemma HDRP_eq (bp : Z) : 8 <= bp < WORD_MAX -> HDRP bp = bp - 8.
Proof. intros H. unfold HDRP, WSIZE. apply wrap_small. lia. Qed.

Lemma NEXT_BLKP_bind {B} (bp : Z) (k : Z -> M B) (s : state) :
  8 <= bp -> bp + bsize s bp < WORD_MAX ->
  in_heap_range s (bp - 8) 8 = true ->
  bind (NEXT_BLKP bp) k s = k (bp + bsize s bp) s.
Proof.
  intros H1 H2 H3. destruct (bsize_facts s bp) as [R _].
  unfold NEXT_BLKP, WSIZE. rewrite bind_assoc.
  rewrite (wrap_small (bp - 8)) by lia.
  rewrite GET_SIZE_bind by exact H3. rewrite ret_bind.
  change (Z.land (word_at s (bp - 8)) SIZE_MASK) with (bsize s bp).
  rewrite wrap_small by lia. reflexivity.
Qed.

Lemma FTRP_bind {B} (bp : Z) (k : Z -> M B) (s : state) :
  8 <= bp -> 16 <= bsize s bp -> bp + bsize s bp < WORD_MAX ->
  in_heap_range s (bp - 8) 8 = true ->
  bind (FTRP bp) k s = k (bp + bsize s bp - 16) s.
Proof.
  intros H1 H2 H3 H4.
  unfold FTRP, DSIZE. rewrite bind_assoc.
  rewrite HDRP_eq by (destruct (bsize_facts s bp); lia).
  rewrite GET_SIZE_bind by exact H4. rewrite ret_bind.
  change (Z.land (word_at s (bp - 8)) SIZE_MASK) with (bsize s bp).
  rewrite (wrap_small (bp + bsize s bp)) by lia.
  rewrite wrap_small by lia. reflexivity.
Qed.

Lemma PREV_BLKP_bind {B} (bp : Z) (k : Z -> M B) (s : state) :
  16 <= bp < WORD_MAX ->
  Z.land (word_at s (bp - 16)) SIZE_MASK <= bp ->
  in_heap_range s (bp - 16) 8 = true ->
  bind (PREV_BLKP bp) k s = k (bp - Z.land (word_at s (bp - 16)) SIZE_MASK) s.
Proof.
  intros H1 H2 H3.
  pose proof (word_at_range s (bp - 16)) as R. destruct (hsize_facts _ R) as [R2 _].
  unfold PREV_BLKP, DSIZE. rewrite bind_assoc.
  rewrite (wrap_small (bp - 16)) by lia.
  rewrite GET_SIZE_bind by exact H3. rewrite ret_bind.
  rewrite wrap_small by lia. reflexivity.
Qed.

Lemma GET_SIZE_hdr {B} (bp : Z) (k : Z -> M B) (s : state) :
  8 <= bp < WORD_MAX -> in_heap_range s (bp - 8) 8 = true ->
  bind (GET_SIZE (HDRP bp)) k s = k (bsize s bp) s.
Proof. intros H1 H2. rewrite HDRP_eq by exact H1. apply GET_SIZE_bind. exact H2. Qed.

Lemma GET_ALLOC_hdr {B} (bp : Z) (k : Z -> M B) (s : state) :
  8 <= bp < WORD_MAX -> in_heap_range s (bp - 8) 8 = true ->
  bind (GET_ALLOC (HDRP bp)) k s = k (balloc s bp) s.
Proof. intros H1 H2. rewrite HDRP_eq by exact H1. apply GET_ALLOC_bind. exact H2. Qed.

Lemma PREV_ALLOC_hdr {B} (bp : Z) (k : Z -> M B) (s : state) :
  8 <= bp < WORD_MAX -> in_heap_range s (bp - 8) 8 = true ->
  bind (PREV_ALLOC (HDRP bp)) k s = k (bprev s bp) s.
Proof. intros H1 H2. rewrite HDRP_eq by exact H1. apply PREV_ALLOC_bind. exact H2. Qed.

Lemma GET_hdr {B} (bp : Z) (k : Z -> M B) (s : state) :
  8 <= bp < WORD_MAX -> in_heap_range s (bp - 8) 8 = true ->
  bind (GET (HDRP bp)) k s = k (hdr s bp) s.
Proof. intros H1 H2. rewrite HDRP_eq by exact H1. apply GET_bind. exact H2. Qed.

Lemma PUT_hdr {B} (bp v : Z) (k : unit -> M B) (s : state) :
  8 <= bp < WORD_MAX -> in_heap_range s (bp - 8) 8 = true ->
  bind (PUT (HDRP bp) v) k s = k tt (put s (bp - 8) v).
Proof. intros H1 H2. rewrite HDRP_eq by exact H1. apply PUT_put. exact H2. Qed.

(** Flags written by the allocator. *)
Lemma pack_flag_alloc (pa : Z) :
  pa = 0 \/ pa = 2 ->
  0 <= PACK pa 1 < 8 /\ Z.land (PACK pa 1) 1 = 1 /\ Z.land (PACK pa 1) 2 = pa.
Proof. intros [-> | ->]; cbn; lia. Qed.

Lemma fl_match_listed (s : state) (blk : Z -> Prop) (fl : Z -> list Z) :
  fl_match s blk fl -> forall i y, In y (fl i) -> blk y.
Proof. intros M i y Hy. apply (M i y). exact Hy. Qed.

(** ** Facts about one store, with the new state kept abstract *)

Lemma put_facts (s : state) (p v : Z) :
  same_frame s (put s p v) /\
  (forall w, w + 8 <= p \/ p + 8 <= w -> word_at (put s p v) w = word_at s w) /\
  (forall x, x < p \/ p + 8 <= x -> mem_bytes (put s p v) x = mem_bytes s x) /\
  (forall a, a <= p \/ p + 8 <= a - 8 ->
             hdr (put s p v) a = hdr s a /\ bsize (put s p v) a = bsize s a /\
             balloc (put s p v) a = balloc s a /\ bprev (put s p v) a = bprev s a) /\
  word_at (put s p v) p = wrap v.
Proof.
  split; [apply put_frame|]. split; [intros; apply put_word_other; assumption|].
  split; [intros; apply put_bytes_other; assumption|].
  split; [intros; apply hdr_put_other; assumption|].
  apply word_at_put_same.
Qed.

Lemma in_fl_add (fl : Z -> list Z) (c x i a : Z) :
  In a (upd_fl fl c (x :: fl c) i) <-> (a = x /\ i = c) \/ In a (fl i).
Proof.
  destruct (Z.eq_dec i c) as [->|Hne].
  - rewrite upd_fl_same. simpl. split.
    + intros [<-|Hin]; auto.
    + intros [[-> _]|Hin]; auto.
  - rewrite upd_fl_other by assumption. split; [auto|].
    intros [[_ Hi]|Hin]; [contradiction|assumption].
Qed.

Lemma in_fl_remove (fl : Z -> list Z) (c x i a : Z) :
  In a (upd_fl fl c (remove Z.eq_dec x (fl c)) i) <-> In a (fl i) /\ ~ (i = c /\ a = x).
Proof.
  destruct (Z.eq_dec i c) as [->|Hne].
  - rewrite upd_fl_same. split.
    + intros Hin. apply in_remove in Hin. destruct Hin as [Hin Hn].
      split; [exact Hin|]. intros [_ Heq]. contradiction.
    + intros [Hin Hn]. apply in_in_remove; [|exact Hin]. intros ->. apply Hn. auto.
  - rewrite upd_fl_other by assumption. split; [|intros [Hin _]; exact Hin].
    intros Hin. split; [exact Hin|]. intros [Hi _]. contradiction.
Qed.

(** A node other than [bp] lies before the block [bp] or after it. *)
Lemma single_zone (s : state) (blk : Z -> Prop) (bp a : Z) :
  heap_ok s blk -> blk bp -> blk a \/ a = mem_brk s -> a <> bp ->
  (blk a /\ a + bsize s a <= bp) \/ bp + bsize s bp <= a.
Proof.
  intros H Hbp Ha Hne. destruct Ha as [Ha| ->].
  - destruct (blk_pair s blk H a bp Ha Hbp) as [?|[?|?]]; [contradiction|auto|auto].
  - right. destruct (hk_blk s blk H bp Hbp) as (_ & _ & _ & _ & ?). assumption.
Qed.

(** ** Placing a request in a free block *)

(** Name the state after the next store and keep only what it guarantees. *)
Ltac step_put sn F W B Hh V :=
  match goal with
  | |- context [put ?s ?p ?v] =>
      pose proof (put_facts s p v) as (F & W & B & Hh & V);
      let E := fresh "E" in
      remember (put s p v) as sn eqn:E in *; clear E
  end.

Ltac inh := apply in_heap_range_true; lia.

Lemma same_frame_sym (s s' : state) : same_frame s s' -> same_frame s' s.
Proof. intros (A & B & C & D & E). repeat split; auto. Qed.

Lemma place_split_full (s : state) (blk : Z -> Prop) (fl : Z -> list Z) (bp asize : Z) :
  INV s blk fl -> blk bp -> balloc s bp = 0 ->
  32 <= asize -> asize mod 16 = 0 -> asize + 32 <= bsize s bp ->
  exists s' blk' fl',
    place bp asize s = Ok tt s' /\ same_frame s s' /\ INV s' blk' fl' /\
    blk' bp /\ balloc s' bp = 1 /\ bsize s' bp = asize /\
    keeps nothing s blk s' blk' /\
    blk' (bp + asize) /\ bsize s' (bp + asize) = bsize s bp - asize /\
    balloc s' (bp + asize) = 0.
Proof.
  intros [H L M N] Hbp Hfree Ha32 Ha16 Hsplit.
  pose proof (hk_env s blk H) as [E1 E2 E3 E4 E5 E6 E7].
  destruct (hk_blk s blk H bp Hbp) as (Hb1 & Hb2 & Hb3 & Hb4 & Hb5).
  pose proof (hk_next s blk H bp Hbp) as Hnb.
  pose proof (N bp Hbp Hfree) as Hnb_alloc.
  pose proof (hk_prev_bit s blk H bp Hbp) as Hnb_prev.
  rewrite Hfree in Hnb_prev.
  remember (bsize s bp) as csize eqn:Ecs.
  remember (csize - asize) as rsz eqn:Ersz.
  remember (bp + asize) as rem eqn:Erem.
  remember (bp + csize) as nb eqn:Enb.
  pose proof (fl_match_listed s blk fl M) as Hlisted.
  assert (Hin : In bp (fl (get_segclass_ind csize))).
  { apply M. rewrite Ecs. auto. }
  (* unlink bp *)
  destruct (seglist_delete_spec s fl bp csize (hk_env s blk H) L Hin)
    as (s1 & X1 & F1 & L1 & B1).
  set (fl1 := upd_fl fl (get_segclass_ind csize)
                (remove Z.eq_dec bp (fl (get_segclass_ind csize)))) in *.
  destruct (heap_ok_links s s1 blk fl H F1 Hlisted B1) as (H1 & Hh1 & Hf1).
  pose proof F1 as (F1a & F1b & F1c & F1d & F1e).
  assert (T1 : forall a, blk a \/ a = mem_brk s ->
                 bsize s1 a = bsize s a /\ balloc s1 a = balloc s a /\ bprev s1 a = bprev s a).
  { intros a Ha. unfold bsize, balloc, bprev. rewrite (Hh1 a Ha). auto. }
  destruct (T1 bp (or_introl Hbp)) as (T1s & T1a & T1p).
  unfold place.
  rewrite GET_SIZE_hdr by (try inh; lia). rewrite <- Ecs.
  rewrite (wrap_small (csize - asize)) by lia. rewrite <- Ersz.
  replace (2 * DSIZE <=? rsz) with true by (symmetry; apply Z.leb_le; unfold DSIZE; lia).
  rewrite (bind_ok _ _ _ _ _ X1).
  rewrite PREV_ALLOC_hdr by (try inh; lia). rewrite T1p.
  set (pa := bprev s bp).
  destruct (pack_flag_alloc pa (bprev_cases s bp)) as (Hfl & Hfl1 & Hfl2).
  rewrite PUT_hdr by (try inh; lia).
  assert (V2s : bsize (put s1 (bp - 8) (PACK asize (PACK pa 1))) bp = asize)
    by (apply bsize_put_pack; zlia).
  assert (V2a : balloc (put s1 (bp - 8) (PACK asize (PACK pa 1))) bp = 1)
    by (rewrite balloc_put_pack by zlia; exact Hfl1).
  assert (V2p : bprev (put s1 (bp - 8) (PACK asize (PACK pa 1))) bp = pa)
    by (rewrite bprev_put_pack by zlia; exact Hfl2).
  step_put s2 F2 W2 B2 Hh2 V2.
  pose proof F2 as (F2a & F2b & F2c & F2d & F2e).
  rewrite NEXT_BLKP_bind by (rewrite ?V2s; try inh; lia).
  rewrite V2s. rewrite <- Erem.
  rewrite PUT_hdr by (try inh; lia).
  assert (V3s : bsize (put s2 (rem - 8) (PACK rsz 2)) rem = rsz)
    by (apply bsize_put_pack; zlia).
  assert (V3a : balloc (put s2 (rem - 8) (PACK rsz 2)) rem = 0)
    by (rewrite balloc_put_pack by zlia; reflexivity).
  assert (V3p : bprev (put s2 (rem - 8) (PACK rsz 2)) rem = 2)
    by (rewrite bprev_put_pack by zlia; reflexivity).
  step_put s3 F3 W3 B3 Hh3 V3.
  pose proof F3 as (F3a & F3b & F3c & F3d & F3e).
  rewrite FTRP_bind by (rewrite ?V3s; try inh; lia).
  rewrite V3s.
  replace (rem + rsz - 16) with (nb - 16) by lia.
  rewrite PUT_put by inh.
  step_put s4 F4 W4 B4 Hh4 V4.
  pose proof F4 as (F4a & F4b & F4c & F4d & F4e).
  (* header table of s4 *)
  assert (T4bp : bsize s4 bp = asize /\ balloc s4 bp = 1 /\ bprev s4 bp = pa).
  { destruct (Hh4 bp ltac:(lia)) as (_ & -> & -> & ->).
    destruct (Hh3 bp ltac:(lia)) as (_ & -> & -> & ->). auto. }
  assert (T4rem : bsize s4 rem = rsz /\ balloc s4 rem = 0 /\ bprev s4 rem = 2).
  { destruct (Hh4 rem ltac:(lia)) as (_ & -> & -> & ->). auto. }
  assert (T4 : forall a, blk a \/ a = mem_brk s -> a <> bp ->
                 word_at s4 (a - 8) = word_at s1 (a - 8)).
  { intros a Ha Hne.
    destruct (single_zone s blk bp a H Hbp Ha Hne) as [[Hba Hlt]|Hgt];
      [destruct (hk_blk s blk H a Hba) as (_ & _ & ? & _)|];
            rewrite W4, W3, W2 by lia; reflexivity. }
  assert (T4f : forall a, blk a -> a <> bp ->
                  word_at s4 (a + bsize s a - 16) = word_at s1 (a + bsize s a - 16)).
  { intros a Ha Hne.
    destruct (hk_blk s blk H a Ha) as (_ & _ & ? & _).
    destruct (single_zone s blk bp a H Hbp (or_introl Ha) Hne) as [[Hba Hlt]|Hgt];
            rewrite W4, W3, W2 by lia; reflexivity. }
  assert (T4h : forall a, blk a \/ a = mem_brk s -> a <> bp ->
                  bsize s4 a = bsize s a /\ balloc s4 a = balloc s a /\ bprev s4 a = bprev s a).
  { intros a Ha Hne. destruct (T1 a Ha) as (<- & <- & <-).
    destruct (hdr_ext s1 s4 a (T4 a Ha Hne)) as (_ & ? & ? & ?). auto. }
  set (blk' := fun a => blk a \/ a = rem).
  assert (Hrem_new : ~ blk rem).
  { intros Hr. destruct (blk_pair s blk H bp rem Hbp Hr) as [?|[?|?]];
      try lia.
    destruct (hk_blk s blk H _ Hr) as (_ & _ & ? & _). lia. }
  assert (Hnb_ne : nb <> bp) by lia.
  assert (F14 : same_frame s1 s4).
  { apply (same_frame_trans s1 s2 s4 F2). apply (same_frame_trans s2 s3 s4 F3 F4). }
  assert (H4 : heap_ok s4 blk').
  { apply (heap_ok_zone s1 s4 blk blk' bp nb H1 F14 Hbp).
    - rewrite F1b. exact Hnb.
    - lia.
    - intros a Ha. unfold blk'. split; [|auto].
      intros [Hb|Hr]; [exact Hb|]. lia.
    - intros a Ha Ho. rewrite F1b in Ha. apply T4; [exact Ha|lia].
    - intros a Ha _ Ho. destruct (T1 a (or_introl Ha)) as (-> & _).
      apply T4f; [exact Ha|lia].
    - destruct (T4h nb Hnb Hnb_ne) as (-> & _). destruct (T1 nb Hnb) as (-> & _). reflexivity.
    - destruct (T4h nb Hnb Hnb_ne) as (_ & -> & _). destruct (T1 nb Hnb) as (_ & -> & _).
      reflexivity.
    - left. exact Hbp.
    - destruct T4bp as (_ & _ & ->). rewrite T1p. reflexivity.
    - intros a Ha Hz.
      assert (Hc : a = bp \/ a = rem).
      { destruct Ha as [Ha|Ha]; [|auto]. left.
        destruct (blk_pair s blk H a bp Ha Hbp) as [?|[?|?]];           try lia.
        destruct (hk_blk s blk H a Ha) as (_ & _ & ? & _). lia. }
      destruct Hc as [-> | ->].
      + destruct T4bp as (-> & -> & _). rewrite <- Erem.
        destruct T4rem as (_ & _ & ->).
        split; [assumption|]. split; [lia|]. split; [assumption|]. split; [lia|].
        split; [left; right; reflexivity|]. split; [reflexivity|].
        intros Hc. discriminate.
      + destruct T4rem as (-> & -> & _).
        replace (rem + rsz) with nb by lia.
        destruct (T4h nb Hnb Hnb_ne) as (_ & _ & ->).
        split; [zlia|]. split; [lia|]. split; [zlia|]. split; [lia|].
        split; [right; reflexivity|]. split; [rewrite Hnb_prev; reflexivity|].
        intros _. rewrite V4. rewrite wrap_small by (apply pack_range; lia).
          apply pack_size; zlia.
    - intros a b Ha Hb Hza Hab Hbz.
      assert (Hca : a = bp \/ a = rem).
      { destruct Ha as [Ha|Ha]; [|auto]. left.
        destruct (blk_pair s blk H a bp Ha Hbp) as [?|[?|?]];           try lia.
        destruct (hk_blk s blk H a Ha) as (_ & _ & ? & _). lia. }
      assert (Hcb : b = bp \/ b = rem).
      { destruct Hb as [Hb|Hb]; [|auto]. left.
        destruct (blk_pair s blk H b bp Hb Hbp) as [?|[?|?]];           try lia.
        destruct (hk_blk s blk H b Hb) as (_ & _ & ? & _). lia. }
      destruct T4bp as (Tb & _). destruct T4rem as (Tr & _).
      destruct Hca as [-> | ->], Hcb as [-> | ->]; rewrite ?Tb, ?Tr; lia.
    - intros a Ha Hz. exists bp. split; [left; exact Hbp|]. split; [lia|].
      destruct T4bp as (-> & _).
      destruct Ha as [Ha|Ha]; [|lia].
      exfalso. destruct (blk_pair s blk H a bp Ha Hbp) as [?|[?|?]];         try lia.
      destruct (hk_blk s blk H a Ha) as (_ & _ & ? & _). lia.
    - exists rem. split; [right; reflexivity|]. split; [lia|].
      destruct T4rem as (-> & _). lia. }
  (* the buckets are untouched by the three stores *)
  remember (get_segclass_ind csize) as c eqn:Ec.
  assert (Hmem1 : forall i y, In y (fl1 i) <-> In y (fl i) /\ y <> bp).
  { intros i y. unfold fl1. rewrite in_fl_remove. split.
    - intros [Hy Hn]. split; [exact Hy|]. intros ->. apply Hn. split; [|reflexivity].
      apply (M i bp) in Hy. destruct Hy as (_ & _ & <-). rewrite Ec, Ecs. reflexivity.
    - intros [Hy Hn]. split; [exact Hy|]. intros [_ ->]. contradiction. }
  assert (Hlisted1 : forall i y, In y (fl1 i) -> blk y).
  { intros i y Hy. apply Hmem1 in Hy. apply (Hlisted i y). apply Hy. }
  assert (Hbp1 : forall i, ~ In bp (fl1 i)).
  { intros i Hy. apply Hmem1 in Hy. destruct Hy as [_ Hy]. contradiction. }
  assert (L4 : lists_ok s4 fl1).
  { apply (lists_ok_frame s1 s4 fl1 L1 F14). intros x Hx.
    pose proof (link_vs_block s1 blk fl1 H1 Hlisted1 x bp Hx Hbp Hbp1) as Hg.
    rewrite T1s in Hg.
    rewrite B4, B3, B2 by lia. reflexivity. }
  assert (Hrem1 : forall i, ~ In rem (fl1 i)).
  { intros i Hy. apply Hrem_new. apply (Hlisted1 i rem Hy). }
  destruct (seglist_add_spec s4 fl1 rem rsz (hk_env s4 blk' H4) L4)
    as (s5 & X5 & F5 & L5 & B5); try assumption; try zlia.
  remember (get_segclass_ind rsz) as c' eqn:Ec'.
  remember (upd_fl fl1 c' (rem :: fl1 c')) as fl5 eqn:Efl5.
  assert (Hfl5 : forall i y, In y (fl5 i) <-> (y = rem /\ i = c') \/ (In y (fl i) /\ y <> bp)).
  { intros i y. rewrite Efl5, in_fl_add, Hmem1. reflexivity. }
  assert (Hlisted5 : forall i y, In y (fl5 i) -> blk' y).
  { intros i y Hy. apply Hfl5 in Hy. destruct Hy as [[-> _]|[Hy _]].
    - right. reflexivity.
    - left. apply (Hlisted i y Hy). }
  destruct (heap_ok_links s4 s5 blk' fl5 H4 F5 Hlisted5 B5) as (H5 & Hh5 & _).
  assert (Hbrk4 : mem_brk s4 = mem_brk s) by lia.
  assert (T5 : forall a, blk' a \/ a = mem_brk s ->
                 bsize s5 a = bsize s4 a /\ balloc s5 a = balloc s4 a /\
                 bprev s5 a = bprev s4 a).
  { intros a Ha. rewrite <- Hbrk4 in Ha. unfold bsize, balloc, bprev.
    rewrite (Hh5 a Ha). auto. }
  assert (T : forall a, blk a \/ a = mem_brk s -> a <> bp ->
                bsize s5 a = bsize s a /\ balloc s5 a = balloc s a /\ bprev s5 a = bprev s a).
  { intros a Ha Hne. destruct (T4h a Ha Hne) as (<- & <- & <-).
    apply T5. destruct Ha as [Ha|Ha]; [left; left; exact Ha|right; exact Ha]. }
  assert (Tbp : bsize s5 bp = asize /\ balloc s5 bp = 1).
  { destruct (T5 bp (or_introl (or_introl Hbp))) as (-> & -> & _).
    destruct T4bp as (-> & -> & _). auto. }
  assert (Trem : bsize s5 rem = rsz /\ balloc s5 rem = 0).
  { destruct (T5 rem (or_introl (or_intror eq_refl))) as (-> & -> & _).
    destruct T4rem as (-> & -> & _). auto. }
  assert (Hrem_bp : rem <> bp) by lia.
  assert (Halloc_notin : forall a i, blk a -> balloc s a = 1 -> ~ In a (fl i)).
  { intros a i Ha Hal Hy. apply (M i a) in Hy. destruct Hy as (_ & Hy & _). lia. }
  exists s5, blk', fl5.
  split; [exact X5|].
  split; [apply (same_frame_trans s s1 s5 F1); apply (same_frame_trans s1 s4 s5 F14 F5)|].
  split; [constructor|].
  - exact H5.
  - exact L5.
  - (* every free block is listed *)
    intros i a. rewrite Hfl5. split.
    + intros [[-> ->]|[Hy Hne]].
      * destruct Trem as (-> & ->). split; [right; reflexivity|].
        split; [reflexivity | symmetry; exact Ec'].
      * apply (M i a) in Hy. destruct Hy as (Ha & Hal & Hcl).
        destruct (T a (or_introl Ha) Hne) as (-> & -> & _).
        split; [left; exact Ha|]. split; assumption.
    + intros (Ha & Hal & Hcl). destruct Ha as [Ha| ->].
      * assert (Hne : a <> bp).
        { intros ->. destruct Tbp as (_ & Tb). lia. }
        right. split; [|exact Hne].
        destruct (T a (or_introl Ha) Hne) as (Es & Ea & _).
        rewrite Es in Hcl. rewrite Ea in Hal. apply (M i a). auto.
      * left. split; [reflexivity|]. destruct Trem as (Es & _).
        rewrite Es in Hcl. rewrite Ec'. symmetry. exact Hcl.
  - (* no two adjacent free blocks *)
    intros a Ha Hal. destruct Ha as [Ha| ->].
    + assert (Hne : a <> bp).
      { intros ->. destruct Tbp as (_ & Tb). lia. }
      destruct (T a (or_introl Ha) Hne) as (Es & Ea & _).
      rewrite Es. rewrite Ea in Hal.
      destruct (Z.eq_dec (a + bsize s a) bp) as [->|Hne2]; [apply Tbp|].
      destruct (T (a + bsize s a) (hk_next s blk H a Ha) Hne2) as (_ & -> & _).
      apply (N a Ha Hal).
    + destruct Trem as (-> & _).
      replace (rem + rsz) with nb by lia.
      destruct (T nb Hnb Hnb_ne) as (_ & -> & _). exact Hnb_alloc.
  - split; [left; exact Hbp|]. split; [apply Tbp|]. split; [apply Tbp|].
    split; [|split; [right; reflexivity|exact Trem]].
    intros a Ha Hal _.
    assert (Hne : a <> bp) by (intros ->; lia).
    destruct (T a (or_introl Ha) Hne) as (Es & Ea & _).
    split; [left; exact Ha|]. split; [lia|]. split; [exact Es|].
    intros x Hx.
    destruct (hk_blk s blk H a Ha) as (_ & _ & ? & _).
    assert (G1 : ~ link_area s fl x).
    { intros Lx.
      pose proof (link_vs_block s blk fl H Hlisted x a Lx Ha
                    (fun i => Halloc_notin a i Ha Hal)). lia. }
    assert (G5 : ~ link_area s4 fl5 x).
    { intros Lx.
      assert (Hn5 : forall i, ~ In a (fl5 i)).
      { intros i Hy. apply Hfl5 in Hy. destruct Hy as [[-> _]|[Hy _]].
        - exact (Hrem_new Ha).
        - exact (Halloc_notin a i Ha Hal Hy). }
      pose proof (link_vs_block s4 blk' fl5 H4 Hlisted5 x a Lx (or_introl Ha) Hn5) as Hg.
      destruct (T4h a (or_introl Ha) Hne) as (Eq4 & _). rewrite Eq4 in Hg. lia. }
    rewrite (B5 x G5).
    destruct (single_zone s blk bp a H Hbp (or_introl Ha) Hne) as [[_ Hlt]|Hgt];
      rewrite B4, B3, B2 by lia; apply (B1 x G1).
Qed.

Lemma place_split_spec (s : state) (blk : Z -> Prop) (fl : Z -> list Z) (bp asize : Z) :
  INV s blk fl -> blk bp -> balloc s bp = 0 ->
  32 <= asize -> asize mod 16 = 0 -> asize + 32 <= bsize s bp ->
  exists s' blk' fl',
    place bp asize s = Ok tt s' /\ same_frame s s' /\ INV s' blk' fl' /\
    blk' bp /\ balloc s' bp = 1 /\ bsize s' bp = asize /\
    keeps nothing s blk s' blk'.
Proof.
  intros I Hbp Hfree H32 H16 Hsp.
  destruct (place_split_full s blk fl bp asize I Hbp Hfree H32 H16 Hsp)
    as (s' & blk' & fl' & X & F & I' & Hb & Ha & Hs & K & _).
  exists s', blk', fl'. auto 10.
Qed.

(** ** List operations inside a well-formed heap *)

Lemma keeps_trans (ex : Z -> Prop) (s s1 s2 : state) (blk blk1 blk2 : Z -> Prop) :
  keeps ex s blk s1 blk1 -> keeps ex s1 blk1 s2 blk2 -> keeps ex s blk s2 blk2.
Proof.
  intros K1 K2 a Ha Hal Hex.
  destruct (K1 a Ha Hal Hex) as (Ha1 & Hal1 & Hs1 & Hb1).
  destruct (K2 a Ha1 Hal1 Hex) as (Ha2 & Hal2 & Hs2 & Hb2).
  split; [exact Ha2|]. split; [exact Hal2|]. split; [congruence|].
  intros x Hx. rewrite Hb2 by (rewrite Hs1; exact Hx). apply Hb1. exact Hx.
Qed.

Lemma keeps_weaken (ex ex' : Z -> Prop) (s s1 : state) (blk blk1 : Z -> Prop) :
  (forall a, ex a -> ex' a) -> keeps ex s blk s1 blk1 -> keeps ex' s blk s1 blk1.
Proof.
  intros Hw K a Ha Hal Hex. apply K; try assumption. intros He. apply Hex. apply Hw. exact He.
Qed.

(** Stores into free-list words keep the allocated blocks. *)
Lemma keeps_links (s s1 : state) (blk : Z -> Prop) (fl : Z -> list Z) :
  heap_ok s blk ->
  (forall i y, In y (fl i) -> blk y /\ balloc s y = 0) ->
  (forall a, blk a \/ a = mem_brk s -> hdr s1 a = hdr s a) ->
  (forall x, ~ link_area s fl x -> mem_bytes s1 x = mem_bytes s x) ->
  keeps nothing s blk s1 blk.
Proof.
  intros H Hl Hh Hb a Ha Hal _.
  split; [exact Ha|]. unfold balloc, bsize. rewrite (Hh a (or_introl Ha)).
  split; [exact Hal|]. split; [reflexivity|].
  intros x Hx. apply Hb. intros Lx.
  assert (Hn : forall i, ~ In a (fl i)).
  { intros i Hy. destruct (Hl i a Hy) as [_ Hf]. lia. }
  pose proof (link_vs_block s blk fl H (fun i y Hy => proj1 (Hl i y Hy)) x a Lx Ha Hn) as Hg.
  fold (bsize s a) in Hx. lia.
Qed.

Lemma delete_step (s : state) (blk : Z -> Prop) (fl : Z -> list Z) (bp size : Z) :
  heap_ok s blk -> lists_ok s fl ->
  (forall i y, In y (fl i) -> blk y /\ balloc s y = 0) ->
  In bp (fl (get_segclass_ind size)) ->
  exists s1 fl1,
    seglist_delete bp size s = Ok tt s1 /\ same_frame s s1 /\
    heap_ok s1 blk /\ lists_ok s1 fl1 /\
    (forall i y, In y (fl1 i) <-> In y (fl i) /\ y <> bp) /\
    (forall a, blk a \/ a = mem_brk s -> hdr s1 a = hdr s a) /\
    (forall a, blk a -> word_at s1 (a + bsize s a - 16) = word_at s (a + bsize s a - 16)) /\
    keeps nothing s blk s1 blk.
Proof.
  intros H L Hl Hin.
  destruct (seglist_delete_spec s fl bp size (hk_env s blk H) L Hin)
    as (s1 & X1 & F1 & L1 & B1).
  destruct (heap_ok_links s s1 blk fl H F1 (fun i y Hy => proj1 (Hl i y Hy)) B1)
    as (H1 & Hh1 & Hf1).
  eexists s1, _. split; [exact X1|]. split; [exact F1|]. split; [exact H1|].
  split; [exact L1|]. split; [|split; [exact Hh1|split; [exact Hf1|]]].
  - intros i y. rewrite in_fl_remove. split.
    + intros [Hy Hn]. split; [exact Hy|]. intros ->. apply Hn. split; [|reflexivity].
      apply (lk_disj s fl L i _ bp Hy Hin).
    + intros [Hy Hn]. split; [exact Hy|]. intros [_ ->]. contradiction.
  - apply (keeps_links s s1 blk fl H Hl Hh1 B1).
Qed.

Lemma add_step (s : state) (blk : Z -> Prop) (fl : Z -> list Z) (bp size : Z) :
  heap_ok s blk -> lists_ok s fl ->
  (forall i y, In y (fl i) -> blk y /\ balloc s y = 0) ->
  blk bp -> balloc s bp = 0 -> (forall i, ~ In bp (fl i)) ->
  exists s1 fl1,
    seglist_add bp size s = Ok tt s1 /\ same_frame s s1 /\
    heap_ok s1 blk /\ lists_ok s1 fl1 /\
    (forall i y, In y (fl1 i) <-> (y = bp /\ i = get_segclass_ind size) \/ In y (fl i)) /\
    (forall a, blk a \/ a = mem_brk s -> hdr s1 a = hdr s a) /\
    keeps nothing s blk s1 blk /\
    (forall x, ~ link_area s fl1 x -> mem_bytes s1 x = mem_bytes s x).
Proof.
  intros H L Hl Hbp Hfree Hnew.
  destruct (hk_blk s blk H bp Hbp) as (Hb1 & Hb2 & Hb3 & Hb4 & Hb5).
  destruct (seglist_add_spec s fl bp size (hk_env s blk H) L)
    as (s1 & X1 & F1 & L1 & B1); try assumption; try lia.
  remember (upd_fl fl (get_segclass_ind size) (bp :: fl (get_segclass_ind size))) as fl1 eqn:Efl1.
  assert (Hmem : forall i y, In y (fl1 i) <-> (y = bp /\ i = get_segclass_ind size) \/ In y (fl i)).
  { intros i y. rewrite Efl1. apply in_fl_add. }
  assert (Hl1 : forall i y, In y (fl1 i) -> blk y /\ balloc s y = 0).
  { intros i y Hy. apply Hmem in Hy. destruct Hy as [[-> _]|Hy]; [auto|apply (Hl i y Hy)]. }
  destruct (heap_ok_links s s1 blk fl1 H F1 (fun i y Hy => proj1 (Hl1 i y Hy)) B1)
    as (H1 & Hh1 & Hf1).
  exists s1, fl1. split; [exact X1|]. split; [exact F1|]. split; [exact H1|].
  split; [exact L1|]. split; [exact Hmem|]. split; [exact Hh1|].
  split; [apply (keeps_links s s1 blk fl1 H Hl1 Hh1 B1) | exact B1].
Qed.

Lemma hdr_same_fields (s s1 : state) (a : Z) :
  hdr s1 a = hdr s a ->
  bsize s1 a = bsize s a /\ balloc s1 a = balloc s a /\ bprev s1 a = bprev s a.
Proof. intros E. unfold bsize, balloc, bprev. rewrite E. auto. Qed.

(** ** Merging a run of free blocks

    The three merging branches of [coalesce] end in the same way: the blocks
    between [zl] and [zr], all free and already unlinked, become one free
    block by a new header at [zl], a matching footer before [zr], and an
    insertion into the bucket of the merged size. *)
Lemma merge_zone (s : state) (blk : Z -> Prop) (fl : Z -> list Z) (zl zr : Z) :
  heap_ok s blk -> lists_ok s fl ->
  blk zl -> (blk zr \/ zr = mem_brk s) -> zl < zr ->
  (forall a, blk a -> zl <= a < zr -> balloc s a = 0) ->
  (forall i y, In y (fl i) <->
               blk y /\ balloc s y = 0 /\ get_segclass_ind (bsize s y) = i /\
               (y < zl \/ zr <= y)) ->
  balloc s zr = 1 ->
  (forall a, blk a -> balloc s a = 0 -> a < zl \/ zr <= a ->
             balloc s (a + bsize s a) = 1) ->
  let v := PACK (zr - zl) (bprev s zl) in
  let blk' := fun a => blk a /\ (a <= zl \/ zr <= a) in
  exists s3 fl3,
    seglist_add zl (zr - zl) (put (put s (zl - 8) v) (zr - 16) v) = Ok tt s3 /\
    same_frame s s3 /\ INV s3 blk' fl3 /\
    blk' zl /\ balloc s3 zl = 0 /\ bsize s3 zl = zr - zl /\
    keeps nothing s blk s3 blk' /\
    (forall x, zl + 16 <= x < zr - 16 -> mem_bytes s3 x = mem_bytes s x).
Proof.
  intros H L Hzl Hzr Hlt Hzfree M Hzra N v blk'.
  pose proof (hk_env s blk H) as [E1 E2 E3 E4 E5 E6 E7].
  destruct (hk_blk s blk H zl Hzl) as (Hl1 & Hl2 & Hl3 & Hl4 & Hl5).
  destruct (node_bounds s blk H zr Hzr) as [Hr1 Hr2].
  pose proof (node_order s blk H zl zr Hzl Hzr Hlt) as Hzlr.
  remember (zr - zl) as msz eqn:Emsz.
  assert (Hm16 : msz mod 16 = 0) by zlia.
  assert (Hf : 0 <= bprev s zl < 8) by (destruct (bprev_cases s zl) as [-> | ->]; lia).
  assert (Hfa : Z.land (bprev s zl) 1 = 0) by (destruct (bprev_cases s zl) as [-> | ->]; reflexivity).
  assert (Hfp : Z.land (bprev s zl) 2 = bprev s zl)
    by (destruct (bprev_cases s zl) as [-> | ->]; reflexivity).
  assert (Hv : 0 <= v < WORD_MAX) by (apply pack_range; lia).
  assert (Hvs : Z.land v SIZE_MASK = msz) by (apply pack_size; zlia).
  (* the predecessor of [zr] is a free block of the zone *)
  assert (Hzr_prev : bprev s zr = 0).
  { destruct (hk_pred s blk H zr Hzr ltac:(lia)) as (p & Hp & Hpe).
    destruct (hk_blk s blk H p Hp) as (_ & _ & ? & _).
    assert (zl <= p).
    { destruct (Z_lt_le_dec p zl) as [Hc|]; [|assumption].
      pose proof (hk_order s blk H p zl Hp Hzl Hc). lia. }
    pose proof (hk_prev_bit s blk H p Hp) as Hpb. rewrite Hpe in Hpb.
    rewrite (Hzfree p Hp ltac:(lia)) in Hpb. exact Hpb. }
  (* first store: the header of the merged block *)
  assert (V1s : bsize (put s (zl - 8) v) zl = msz) by (apply bsize_put_pack; zlia).
  assert (V1a : balloc (put s (zl - 8) v) zl = 0)
    by (unfold v; rewrite balloc_put_pack by zlia; exact Hfa).
  assert (V1p : bprev (put s (zl - 8) v) zl = bprev s zl)
    by (unfold v; rewrite bprev_put_pack by zlia; exact Hfp).
  destruct (put_facts s (zl - 8) v) as (F1 & W1 & B1 & Hh1 & _).
  remember (put s (zl - 8) v) as s1 eqn:Es1. clear Es1.
  (* second store: its footer *)
  destruct (put_facts s1 (zr - 16) v) as (F2 & W2 & B2 & Hh2 & V2).
  remember (put s1 (zr - 16) v) as s2 eqn:Es2. clear Es2.
  rewrite (wrap_small v Hv) in V2.
  pose proof (same_frame_trans s s1 s2 F1 F2) as F02.
  pose proof F02 as (F2a & F2b & F2c & F2d & F2e).
  assert (Tzl : bsize s2 zl = msz /\ balloc s2 zl = 0 /\ bprev s2 zl = bprev s zl).
  { destruct (Hh2 zl ltac:(lia)) as (_ & -> & -> & ->). auto. }
  assert (Geo : forall a, blk a \/ a = mem_brk s -> a < zl \/ zr <= a ->
                  (blk a /\ a + bsize s a <= zl) \/ zr <= a).
  { intros a Ha [Hc|Hc]; [left|right; exact Hc].
    destruct Ha as [Ha| ->]; [|lia].
    split; [exact Ha|]. apply (hk_order s blk H a zl Ha Hzl Hc). }
  assert (Tout : forall a, blk a \/ a = mem_brk s -> a < zl \/ zr <= a ->
                   word_at s2 (a - 8) = word_at s (a - 8)).
  { intros a Ha Ho. destruct (Geo a Ha Ho) as [[Hba Hle]|Hge].
    - destruct (hk_blk s blk H a Hba) as (_ & _ & ? & _).
      rewrite W2, W1 by lia. reflexivity.
    - rewrite W2, W1 by lia. reflexivity. }
  assert (Toutf : forall a, blk a -> a < zl \/ zr <= a ->
                    word_at s2 (a + bsize s a - 16) = word_at s (a + bsize s a - 16)).
  { intros a Ha Ho. destruct (hk_blk s blk H a Ha) as (_ & _ & ? & _).
    destruct (Geo a (or_introl Ha) Ho) as [[Hba Hle]|Hge];
      rewrite W2, W1 by lia; reflexivity. }
  assert (Th : forall a, blk a \/ a = mem_brk s -> a < zl \/ zr <= a ->
                 bsize s2 a = bsize s a /\ balloc s2 a = balloc s a /\ bprev s2 a = bprev s a).
  { intros a Ha Ho. destruct (hdr_ext s s2 a (Tout a Ha Ho)) as (_ & ? & ? & ?). auto. }
  assert (H2 : heap_ok s2 blk').
  { apply (heap_ok_zone s s2 blk blk' zl zr H F02 Hzl Hzr Hlt).
    - intros a Ha. unfold blk'. split; [intros [Hb _]; exact Hb|].
      intros Hb. split; [exact Hb|lia].
    - intros a Ha Ho. apply Tout; [exact Ha|lia].
    - intros a Ha _ Ho. apply Toutf; assumption.
    - apply (Th zr Hzr). lia.
    - apply (Th zr Hzr). lia.
    - split; [exact Hzl|lia].
    - apply Tzl.
    - intros a [Ha Hc] Hz. assert (a = zl) by lia. subst a.
      destruct Tzl as (-> & -> & _).
      replace (zl + msz) with zr by lia.
      destruct (Th zr Hzr ltac:(lia)) as (_ & _ & ->).
      split; [assumption|]. split; [lia|]. split; [assumption|]. split; [lia|].
      split; [right; reflexivity|]. split; [rewrite Hzr_prev; reflexivity|].
      intros _. rewrite V2. exact Hvs.
    - intros a b [Ha Hca] [Hb Hcb] Hza Hab Hbz. lia.
    - intros a [Ha Hc] Hz. lia.
    - exists zl. split; [split; [exact Hzl|lia]|]. split; [lia|].
      destruct Tzl as (-> & _). lia. }
  assert (Hlisted : forall i y, In y (fl i) -> blk' y /\ balloc s2 y = 0).
  { intros i y Hy. apply M in Hy. destruct Hy as (Hb & Hal & _ & Ho).
    split; [split; [exact Hb|lia]|].
    destruct (Th y (or_introl Hb) Ho) as (_ & -> & _). exact Hal. }
  assert (L2 : lists_ok s2 fl).
  { apply (lists_ok_frame s s2 fl L F02). intros x Lx.
    assert (x < zl - 8 \/ zr - 8 <= x); [|rewrite B2, B1 by lia; reflexivity].
    destruct Lx as [Lx|(i & y & Hy & Lx)]; [lia|].
    apply M in Hy. destruct Hy as (Hb & _ & _ & Ho).
    destruct (hk_blk s blk H y Hb) as (_ & _ & ? & _).
    destruct (Geo y (or_introl Hb) Ho) as [[_ Hle]|Hge]; lia. }
  assert (Hzl_new : forall i, ~ In zl (fl i)).
  { intros i Hy. apply M in Hy. lia. }
  destruct (add_step s2 blk' fl zl msz H2 L2 Hlisted)
    as (s3 & fl3 & X3 & F3 & H3 & L3 & Hmem & Hh3 & K3 & B3);
    [split; [exact Hzl|lia] | apply Tzl | exact Hzl_new |].
  assert (T3 : forall a, blk' a \/ a = mem_brk s ->
                 bsize s3 a = bsize s2 a /\ balloc s3 a = balloc s2 a /\ bprev s3 a = bprev s2 a).
  { intros a Ha. apply hdr_same_fields. apply Hh3. rewrite F2b. exact Ha. }
  assert (T : forall a, blk a \/ a = mem_brk s -> a < zl \/ zr <= a ->
                bsize s3 a = bsize s a /\ balloc s3 a = balloc s a /\ bprev s3 a = bprev s a).
  { intros a Ha Ho. destruct (Th a Ha Ho) as (<- & <- & <-). apply T3.
    destruct Ha as [Ha|Ha]; [left; split; [exact Ha|lia]|right; exact Ha]. }
  assert (Tz3 : bsize s3 zl = msz /\ balloc s3 zl = 0).
  { destruct (T3 zl (or_introl (conj Hzl (or_introl (Z.le_refl zl))))) as (-> & -> & _).
    destruct Tzl as (-> & -> & _). auto. }
  exists s3, fl3. split; [exact X3|].
  split; [apply (same_frame_trans s s2 s3 F02 F3)|].
  split; [constructor|].
  - exact H3.
  - exact L3.
  - intros i a. rewrite Hmem. split.
    + intros [[-> ->]|Hy].
      * destruct Tz3 as (-> & ->). split; [split; [exact Hzl|lia]|]. auto.
      * apply M in Hy. destruct Hy as (Hb & Hal & Hcl & Ho).
        destruct (T a (or_introl Hb) Ho) as (-> & -> & _).
        split; [split; [exact Hb|lia]|]. auto.
    + intros ([Hb Hc] & Hal & Hcl).
      destruct (Z.eq_dec a zl) as [->|Hne].
      * left. split; [reflexivity|]. destruct Tz3 as (Es & _). rewrite Es in Hcl. auto.
      * right. apply M.
        destruct (T a (or_introl Hb) ltac:(lia)) as (Es & Ea & _).
        rewrite Es in Hcl. rewrite Ea in Hal. repeat split; try assumption. lia.
  - intros a [Hb Hc] Hal.
    destruct (Z.eq_dec a zl) as [->|Hne].
    + destruct Tz3 as (-> & _). replace (zl + msz) with zr by lia.
      destruct (T zr Hzr ltac:(lia)) as (_ & -> & _). exact Hzra.
    + assert (Ho : a < zl \/ zr <= a) by lia.
      destruct (T a (or_introl Hb) Ho) as (Es & Ea & _).
      rewrite Es. rewrite Ea in Hal.
      pose proof (N a Hb Hal Ho) as Hn.
      pose proof (hk_next s blk H a Hb) as Hnode.
      destruct (hk_blk s blk H a Hb) as (_ & _ & ? & _).
      assert (Hno : a + bsize s a < zl \/ zr <= a + bsize s a).
      { destruct (Geo a (or_introl Hb) Ho) as [[_ Hle]|Hge]; [|lia].
        destruct (Z.eq_dec (a + bsize s a) zl) as [Heq|]; [|lia].
        rewrite Heq in Hn. rewrite (Hzfree zl Hzl ltac:(lia)) in Hn. discriminate. }
      destruct (T _ Hnode Hno) as (_ & -> & _). exact Hn.
  - split; [split; [exact Hzl|lia]|]. split; [apply Tz3|]. split; [apply Tz3|].
    split; [|intros x Hx; rewrite B3; [rewrite B2, B1 by lia; reflexivity|];
             intros [Lx|(i & y & Hy & Lx)]; [lia|];
             apply Hmem in Hy; destruct Hy as [[-> _]|Hy]; [lia|];
             apply M in Hy; destruct Hy as (Hb & _ & _ & Ho);
             destruct (hk_blk s blk H y Hb) as (_ & _ & ? & _);
             destruct (Geo y (or_introl Hb) Ho) as [[_ Hle]|Hge]; lia].
    apply (keeps_trans nothing s s2 s3 blk blk' blk'); [|exact K3].
    intros a Ha Hal _.
    assert (Ho : a < zl \/ zr <= a).
    { destruct (Z_lt_le_dec a zl); [auto|]. destruct (Z_lt_le_dec a zr); [|auto].
      rewrite (Hzfree a Ha ltac:(lia)) in Hal. discriminate. }
    destruct (Th a (or_introl Ha) Ho) as (Es & Ea & _).
    split; [split; [exact Ha|lia]|]. split; [lia|]. split; [exact Es|].
    intros x Hx.
    destruct (Geo a (or_introl Ha) Ho) as [[_ Hle]|Hge];
      rewrite B2, B1 by lia; reflexivity.
Qed.

(** ** Coalescing *)

Lemma blk_between (s : state) (blk : Z -> Prop) (a b : Z) :
  heap_ok s blk -> blk a -> blk b -> a <= b -> b < a + bsize s a -> b = a.
Proof.
  intros H Ha Hb L1 L2.
  destruct (hk_blk s blk H b Hb) as (_ & _ & ? & _).
  destruct (blk_pair s blk H a b Ha Hb) as [?|[?|?]]; lia.
Qed.

(** A cleared prev-alloc bit leads to a free predecessor, whose size is in
    the word before the header. *)
Lemma pred_free (s : state) (blk : Z -> Prop) (bp : Z) :
  heap_ok s blk -> blk bp -> bprev s bp = 0 ->
  exists pb, blk pb /\ pb + bsize s pb = bp /\ balloc s pb = 0 /\
             Z.land (word_at s (bp - 16)) SIZE_MASK = bsize s pb.
Proof.
  intros H Hbp Hp.
  assert (Hne : bp <> heap_listp s).
  { intros ->. rewrite (hk_first_prev s blk H) in Hp. discriminate. }
  destruct (hk_pred s blk H bp (or_introl Hbp) Hne) as (pb & Hpb & Hpe).
  pose proof (hk_prev_bit s blk H pb Hpb) as Hbit. rewrite Hpe, Hp in Hbit.
  assert (Hpf : balloc s pb = 0) by lia.
  exists pb. split; [exact Hpb|]. split; [exact Hpe|]. split; [exact Hpf|].
  rewrite <- Hpe. apply (hk_footer s blk H pb Hpb Hpf).
Qed.

Lemma epilogue_not_free (s : state) (blk : Z -> Prop) (a : Z) :
  heap_ok s blk -> blk a \/ a = mem_brk s -> balloc s a = 0 -> blk a.
Proof.
  intros H [Ha| ->] Hf; [exact Ha|].
  destruct (hk_epi s blk H) as [_ He]. rewrite He in Hf. discriminate.
Qed.

(** Both neighbours allocated: nothing to do. *)
Lemma coalesce_case1 (s : state) (blk : Z -> Prop) (fl : Z -> list Z) (bp : Z) :
  heap_ok s blk -> lists_ok s fl -> fl_match s blk fl ->
  blk bp -> balloc s bp = 0 ->
  (forall a, blk a -> balloc s a = 0 -> a <> bp -> a + bsize s a <> bp ->
             balloc s (a + bsize s a) = 1) ->
  bprev s bp = 2 -> balloc s (bp + bsize s bp) = 1 ->
  INV s blk fl.
Proof.
  intros H L M Hbp Hfree Hex Hp Hn. constructor; try assumption.
  intros a Ha Hal.
  destruct (Z.eq_dec a bp) as [->|Hne]; [exact Hn|].
  apply Hex; try assumption.
  intros Heq. pose proof (hk_prev_bit s blk H a Ha) as Hbit.
  rewrite Heq, Hp, Hal in Hbit. discriminate.
Qed.

(** Merging after the blocks of the zone have been unlinked, with the facts
    about the zone stated in the state [s] from before the unlinking. *)
Lemma merge_from (s sd : state) (blk : Z -> Prop) (fl fld : Z -> list Z) (zl zr : Z) :
  heap_ok s blk -> fl_match s blk fl ->
  (forall a, blk a -> balloc s a = 0 -> a < zl \/ zr <= a ->
             balloc s (a + bsize s a) = 1) ->
  (forall a, blk a -> zl <= a < zr -> balloc s a = 0) ->
  blk zl -> (blk zr \/ zr = mem_brk s) -> zl < zr -> balloc s zr = 1 ->
  same_frame s sd -> heap_ok sd blk -> lists_ok sd fld ->
  (forall a, blk a \/ a = mem_brk s -> hdr sd a = hdr s a) ->
  (forall i y, In y (fld i) <-> In y (fl i) /\ (y < zl \/ zr <= y)) ->
  keeps nothing s blk sd blk ->
  let v := PACK (zr - zl) (bprev s zl) in
  let blk' := fun a => blk a /\ (a <= zl \/ zr <= a) in
  exists s3 fl3,
    seglist_add zl (zr - zl) (put (put sd (zl - 8) v) (zr - 16) v) = Ok tt s3 /\
    same_frame s s3 /\ INV s3 blk' fl3 /\
    blk' zl /\ balloc s3 zl = 0 /\ bsize s3 zl = zr - zl /\
    keeps nothing s blk s3 blk' /\
    (forall x, zl + 16 <= x < zr - 16 -> mem_bytes s3 x = mem_bytes sd x).
Proof.
  intros H M N Hzfree Hzl Hzr Hlt Hzra F Hd Ld Hh Hmem K v blk'.
  pose proof F as (Fa & Fb & Fc & Fd & Fe).
  assert (T : forall a, blk a \/ a = mem_brk s ->
                bsize sd a = bsize s a /\ balloc sd a = balloc s a /\ bprev sd a = bprev s a).
  { intros a Ha. apply hdr_same_fields. apply Hh. exact Ha. }
  assert (Hzr' : blk zr \/ zr = mem_brk sd) by (rewrite Fb; exact Hzr).
  destruct (merge_zone sd blk fld zl zr Hd Ld Hzl Hzr' Hlt)
    as (s3 & fl3 & X3 & F3 & I3 & Hb3 & Ha3 & Hs3 & K3 & B3).
  - intros a Ha Hz. destruct (T a (or_introl Ha)) as (_ & -> & _). apply Hzfree; assumption.
  - intros i y. rewrite Hmem. split.
    + intros [Hy Ho]. apply M in Hy. destruct Hy as (Hb & Hal & Hcl).
      destruct (T y (or_introl Hb)) as (-> & -> & _). auto.
    + intros (Hb & Hal & Hcl & Ho).
      destruct (T y (or_introl Hb)) as (Es & Ea & _). rewrite Es in Hcl. rewrite Ea in Hal.
      split; [apply M; auto|exact Ho].
  - destruct (T zr Hzr) as (_ & -> & _). exact Hzra.
  - intros a Ha Hal Ho. destruct (T a (or_introl Ha)) as (Es & Ea & _).
    rewrite Es. rewrite Ea in Hal.
    destruct (T _ (hk_next s blk H a Ha)) as (_ & -> & _). apply N; assumption.
  - destruct (T zl (or_introl Hzl)) as (_ & _ & Ep). rewrite Ep in X3.
    exists s3, fl3. split; [exact X3|].
    split; [apply (same_frame_trans s sd s3 F F3)|].
    split; [exact I3|]. split; [exact Hb3|]. split; [exact Ha3|]. split; [exact Hs3|].
    split; [|exact B3].
    apply (keeps_trans nothing s sd s3 blk blk blk' K K3).
Qed.

(** Running the tail shared by the merging branches: header, footer,
    insertion. *)
Lemma merge_exec {B} (sd : state) (zl zr pa : Z) (c : M B) :
  8 <= zl -> zl + 16 <= zr -> zr < WORD_MAX -> (zr - zl) mod 8 = 0 ->
  pa = 0 \/ pa = 2 ->
  in_heap_range sd (zl - 8) 8 = true -> in_heap_range sd (zr - 16) 8 = true ->
  (PUT (HDRP zl) (PACK (zr - zl) pa) ;;;
   ft <- FTRP zl ;;
   h <- GET (HDRP zl) ;;
   PUT ft h ;;;
   c) sd =
  c (put (put sd (zl - 8) (PACK (zr - zl) pa)) (zr - 16) (PACK (zr - zl) pa)).
Proof.
  intros H1 H2 H3 H4 Hpa R1 R2.
  assert (Hf : 0 <= pa < 8) by (destruct Hpa as [-> | ->]; lia).
  rewrite PUT_hdr by (try assumption; lia).
  assert (Vs : bsize (put sd (zl - 8) (PACK (zr - zl) pa)) zl = zr - zl)
    by (apply bsize_put_pack; lia).
  rewrite FTRP_bind by (rewrite ?Vs; try (rewrite put_in_heap_range; assumption); lia).
  rewrite Vs. replace (zl + (zr - zl) - 16) with (zr - 16) by lia.
  rewrite GET_hdr by (try (rewrite put_in_heap_range; assumption); lia).
  rewrite hdr_put_same by (apply pack_range; lia).
  rewrite PUT_put by (rewrite put_in_heap_range; assumption).
  reflexivity.
Qed.

Lemma merge_exec_prev {B} (sd : state) (bp pb zr pa psz : Z) (k : Z -> M B) :
  8 <= pb -> pb + psz = bp -> 32 <= psz -> bp + 8 <= zr - 16 -> zr < WORD_MAX ->
  (zr - pb) mod 8 = 0 -> pa = 0 \/ pa = 2 ->
  Z.land (word_at sd (bp - 16)) SIZE_MASK = psz ->
  in_heap_range sd (pb - 8) 8 = true -> in_heap_range sd (zr - 16) 8 = true ->
  in_heap_range sd (bp - 16) 8 = true ->
  (PUT (HDRP pb) (PACK (zr - pb) pa) ;;;
   pb1 <- PREV_BLKP bp ;;
   ft <- FTRP pb1 ;;
   h <- GET (HDRP pb1) ;;
   PUT ft h ;;;
   pb2 <- PREV_BLKP bp ;;
   k pb2) sd =
  k pb (put (put sd (pb - 8) (PACK (zr - pb) pa)) (zr - 16) (PACK (zr - pb) pa)).
Proof.
  intros H1 Hpe Hps H2 H3 H4 Hpa Hft R1 R2 R3.
  assert (Hf : 0 <= pa < 8) by (destruct Hpa as [-> | ->]; lia).
  rewrite PUT_hdr by (try assumption; lia).
  assert (Vs : bsize (put sd (pb - 8) (PACK (zr - pb) pa)) pb = zr - pb)
    by (apply bsize_put_pack; lia).
  assert (W1 : word_at (put sd (pb - 8) (PACK (zr - pb) pa)) (bp - 16) = word_at sd (bp - 16))
    by (apply put_word_other; lia).
  rewrite PREV_BLKP_bind
    by (rewrite ?W1, ?Hft; try (rewrite put_in_heap_range; assumption); lia).
  rewrite W1, Hft. replace (bp - psz) with pb by lia.
  rewrite FTRP_bind by (rewrite ?Vs; try (rewrite put_in_heap_range; assumption); lia).
  rewrite Vs. replace (pb + (zr - pb) - 16) with (zr - 16) by lia.
  rewrite GET_hdr by (try (rewrite put_in_heap_range; assumption); lia).
  rewrite hdr_put_same by (apply pack_range; lia).
  rewrite PUT_put by (rewrite put_in_heap_range; assumption).
  assert (W2 : word_at (put (put sd (pb - 8) (PACK (zr - pb) pa)) (zr - 16)
                          (PACK (zr - pb) pa)) (bp - 16) = word_at sd (bp - 16))
    by (rewrite put_word_other by lia; exact W1).
  rewrite PREV_BLKP_bind
    by (rewrite ?W2, ?Hft; try (rewrite !put_in_heap_range; assumption); lia).
  rewrite W2, Hft. replace (bp - psz) with pb by lia.
  reflexivity.
Qed.

Lemma coalesce_full (s : state) (blk : Z -> Prop) (fl : Z -> list Z) (bp : Z) :
  heap_ok s blk -> lists_ok s fl -> fl_match s blk fl ->
  blk bp -> balloc s bp = 0 ->
  (forall a, blk a -> balloc s a = 0 -> a <> bp -> a + bsize s a <> bp ->
             balloc s (a + bsize s a) = 1) ->
  exists r s' blk' fl',
    coalesce bp s = Ok r s' /\ same_frame s s' /\ INV s' blk' fl' /\
    blk' r /\ balloc s' r = 0 /\ r <= bp /\ bp + bsize s bp <= r + bsize s' r /\
    keeps nothing s blk s' blk' /\
    (bprev s bp <> 2 -> r < bp).
Proof.
  intros H L M Hbp Hfree Hex.
  pose proof (hk_env s blk H) as [E1 E2 E3 E4 E5 E6 E7].
  destruct (hk_blk s blk H bp Hbp) as (Hb1 & Hb2 & Hb3 & Hb4 & Hb5).
  pose proof (hk_next s blk H bp Hbp) as Hnb.
  remember (bsize s bp) as size eqn:Esize.
  remember (bp + size) as nb eqn:Enb.
  destruct (node_bounds s blk H nb Hnb) as [Hnb1 Hnb2].
  assert (Hlf : forall i y, In y (fl i) -> blk y /\ balloc s y = 0).
  { intros i y Hy. apply M in Hy. destruct Hy as (? & ? & _). auto. }
  assert (Hinbp : In bp (fl (get_segclass_ind size))).
  { apply M. rewrite Esize. auto. }
  unfold coalesce.
  rewrite PREV_ALLOC_hdr by (try inh; lia).
  rewrite NEXT_BLKP_bind by (rewrite <- ?Esize; try inh; lia).
  rewrite <- Esize, <- Enb.
  rewrite GET_ALLOC_hdr by (try inh; lia).
  rewrite GET_SIZE_hdr by (try inh; lia). rewrite <- Esize.
  destruct (bprev_cases s bp) as [Hp|Hp], (balloc_cases s nb) as [Hn|Hn];
    rewrite Hp, Hn; cbn [Z.eqb negb andb].
  - (* previous and next blocks free *)
    destruct (pred_free s blk bp H Hbp Hp) as (pb & Hpb & Hpe & Hpf & Hfoot).
    pose proof (epilogue_not_free s blk nb H Hnb Hn) as Hnbb.
    destruct (hk_blk s blk H pb Hpb) as (Hq1 & Hq2 & Hq3 & Hq4 & Hq5).
    destruct (hk_blk s blk H nb Hnbb) as (Hn1 & Hn2 & Hn3 & Hn4 & Hn5).
    remember (bsize s pb) as psz eqn:Epsz.
    remember (bsize s nb) as nsz eqn:Ensz.
    pose proof (hk_next s blk H nb Hnbb) as Hnn. rewrite <- Ensz in Hnn.
    remember (nb + nsz) as nn eqn:Enn.
    (* unlink bp *)
    destruct (delete_step s blk fl bp size H L Hlf Hinbp)
      as (s1 & fl1 & X1 & F1 & H1 & L1 & Hm1 & Hh1 & Hf1 & K1).
    pose proof F1 as (F1a & F1b & F1c & F1d & F1e).
    assert (T1 : forall a, blk a \/ a = mem_brk s ->
                   bsize s1 a = bsize s a /\ balloc s1 a = balloc s a /\ bprev s1 a = bprev s a).
    { intros a Ha. apply hdr_same_fields. apply Hh1. exact Ha. }
    assert (W1 : word_at s1 (bp - 16) = word_at s (bp - 16)).
    { pose proof (Hf1 pb Hpb) as Hw. rewrite <- Epsz in Hw.
      replace (pb + psz - 16) with (bp - 16) in Hw by lia. exact Hw. }
    rewrite (bind_ok _ _ _ _ _ X1).
    rewrite PREV_BLKP_bind by (rewrite ?W1, ?Hfoot; try inh; lia).
    rewrite W1, Hfoot. replace (bp - psz) with pb by lia.
    rewrite GET_SIZE_hdr by (try inh; lia).
    destruct (T1 pb (or_introl Hpb)) as (-> & _). rewrite <- Epsz.
    (* unlink the previous block *)
    assert (Hlf1 : forall i y, In y (fl1 i) -> blk y /\ balloc s1 y = 0).
    { intros i y Hy. apply Hm1 in Hy. destruct Hy as [Hy _].
      destruct (Hlf i y Hy) as [Hb Hal]. split; [exact Hb|].
      destruct (T1 y (or_introl Hb)) as (_ & -> & _). exact Hal. }
    assert (Hinpb : In pb (fl1 (get_segclass_ind psz))).
    { apply Hm1. split; [|lia]. apply M. rewrite Epsz. auto. }
    destruct (delete_step s1 blk fl1 pb psz H1 L1 Hlf1 Hinpb)
      as (s2 & fl2 & X2 & F2 & H2 & L2 & Hm2 & Hh2 & Hf2 & K2).
    pose proof F2 as (F2a & F2b & F2c & F2d & F2e).
    assert (T2 : forall a, blk a \/ a = mem_brk s ->
                   bsize s2 a = bsize s a /\ balloc s2 a = balloc s a /\ bprev s2 a = bprev s a).
    { intros a Ha. destruct (T1 a Ha) as (<- & <- & <-).
      apply hdr_same_fields. apply Hh2. rewrite F1b. exact Ha. }
    rewrite (bind_ok _ _ _ _ _ X2).
    assert (Eb2 : bsize s2 bp = size) by (rewrite Esize; apply (T2 bp (or_introl Hbp))).
    rewrite NEXT_BLKP_bind by (rewrite ?Eb2; try inh; lia).
    rewrite Eb2, <- Enb.
    rewrite GET_SIZE_hdr by (try inh; lia).
    destruct (T2 nb (or_introl Hnbb)) as (-> & _). rewrite <- Ensz.
    (* unlink the next block *)
    assert (Hlf2 : forall i y, In y (fl2 i) -> blk y /\ balloc s2 y = 0).
    { intros i y Hy. apply Hm2 in Hy. destruct Hy as [Hy _].
      apply Hm1 in Hy. destruct Hy as [Hy _].
      destruct (Hlf i y Hy) as [Hb Hal]. split; [exact Hb|].
      destruct (T2 y (or_introl Hb)) as (_ & -> & _). exact Hal. }
    assert (Hinnb : In nb (fl2 (get_segclass_ind nsz))).
    { apply Hm2. split; [|lia]. apply Hm1. split; [|lia]. apply M. rewrite Ensz. auto. }
    destruct (delete_step s2 blk fl2 nb nsz H2 L2 Hlf2 Hinnb)
      as (s3 & fl3 & X3 & F3 & H3 & L3 & Hm3 & Hh3 & Hf3 & K3).
    pose proof F3 as (F3a & F3b & F3c & F3d & F3e).
    assert (T3 : forall a, blk a \/ a = mem_brk s ->
                   bsize s3 a = bsize s a /\ balloc s3 a = balloc s a /\ bprev s3 a = bprev s a).
    { intros a Ha. destruct (T2 a Ha) as (<- & <- & <-).
      apply hdr_same_fields. apply Hh3. rewrite F2b, F1b. exact Ha. }
    assert (W3 : word_at s3 (bp - 16) = word_at s (bp - 16)).
    { rewrite <- W1.
      pose proof (Hf3 pb Hpb) as Hw3. pose proof (Hf2 pb Hpb) as Hw2.
      destruct (T2 pb (or_introl Hpb)) as (Eq2 & _).
      destruct (T1 pb (or_introl Hpb)) as (Eq1 & _).
      rewrite Eq2 in Hw3. rewrite Eq1 in Hw2. rewrite <- Epsz in Hw2, Hw3.
      replace (pb + psz - 16) with (bp - 16) in Hw2, Hw3 by lia. congruence. }
    rewrite (bind_ok _ _ _ _ _ X3).
    rewrite PREV_BLKP_bind by (rewrite ?W3, ?Hfoot; try inh; lia).
    rewrite W3, Hfoot. replace (bp - psz) with pb by lia.
    rewrite GET_SIZE_hdr by (try inh; lia).
    destruct (T3 pb (or_introl Hpb)) as (-> & _ & Eppa). rewrite <- Epsz.
    assert (Eb3 : bsize s3 bp = size) by (rewrite Esize; apply (T3 bp (or_introl Hbp))).
    rewrite NEXT_BLKP_bind by (rewrite ?Eb3; try inh; lia).
    rewrite Eb3, <- Enb.
    rewrite GET_SIZE_hdr by (try inh; lia).
    destruct (T3 nb (or_introl Hnbb)) as (-> & _). rewrite <- Ensz.
    destruct (node_bounds s blk H nn Hnn) as [Hnn1 Hnn2].
    rewrite (wrap_small (psz + nsz)) by lia.
    rewrite (wrap_small (size + (psz + nsz))) by lia.
    replace (size + (psz + nsz)) with (nn - pb) by lia.
    rewrite PREV_BLKP_bind by (rewrite ?W3, ?Hfoot; try inh; lia).
    rewrite W3, Hfoot. replace (bp - psz) with pb by lia.
    rewrite PREV_ALLOC_hdr by (try inh; lia). rewrite Eppa.
    rewrite (merge_exec_prev s3 bp pb nn (bprev s pb) psz);
      try (apply bprev_cases); try inh; try lia; try zlia;
      [|rewrite W3; exact Hfoot].
    (* the merged block *)
    destruct (merge_from s s3 blk fl fl3 pb nn H M) as
      (s4 & fl4 & X4 & F4 & I4 & Hb4' & Ha4 & Hs4 & K4 & B4); try assumption; try lia.
    + intros a Ha Hal Ho. apply Hex; try assumption; [lia|].
      intros Heq. pose proof (hk_order s blk H a pb Ha Hpb). 
      destruct (hk_blk s blk H a Ha) as (_ & _ & ? & _).
      destruct Ho as [Ho|Ho]; [|lia].
      specialize (H0 Ho). lia.
    + intros a Ha Hz.
      destruct (Z_lt_le_dec a bp) as [Hc|Hc].
      * rewrite (blk_between s blk pb a H Hpb Ha ltac:(lia) ltac:(lia)). exact Hpf.
      * destruct (Z_lt_le_dec a nb) as [Hc2|Hc2].
        -- rewrite (blk_between s blk bp a H Hbp Ha ltac:(lia) ltac:(lia)). exact Hfree.
        -- rewrite (blk_between s blk nb a H Hnbb Ha ltac:(lia) ltac:(lia)). exact Hn.
    + rewrite Enn, Ensz. apply Hex; try assumption; lia.
    + apply (same_frame_trans s s1 s3 F1). apply (same_frame_trans s1 s2 s3 F2 F3).
    + intros a Ha. unfold hdr, WSIZE.
      pose proof (Hh3 a) as E3'. pose proof (Hh2 a) as E2'. pose proof (Hh1 a Ha) as E1'.
      unfold hdr, WSIZE in *. rewrite E3', E2', E1' by (rewrite ?F2b, ?F1b; exact Ha).
      reflexivity.
    + intros i y. rewrite Hm3, Hm2, Hm1. split.
      * intros [[[Hy Hne1] Hne2] Hne3]. split; [exact Hy|].
        destruct (Hlf i y Hy) as [Hby _].
        destruct (hk_blk s blk H y Hby) as (_ & _ & ? & _).
        destruct (blk_pair s blk H pb y Hpb Hby) as [?|[?|?]]; try lia.
        destruct (blk_pair s blk H nb y Hnbb Hby) as [?|[?|?]]; try lia.
        destruct (blk_pair s blk H bp y Hbp Hby) as [?|[?|?]]; lia.
      * intros [Hy Ho]. repeat split; try assumption; lia.
    + apply (keeps_trans nothing s s1 s3 blk blk blk K1).
      apply (keeps_trans nothing s1 s2 s3 blk blk blk K2 K3).
    + rewrite (bind_ok _ _ _ _ _ X4).
      assert (W4 : word_at s4 (bp - 16) = word_at s (bp - 16)).
      { rewrite <- W3. apply word_at_ext. intros x Hx. apply B4. lia. }
      pose proof F4 as (F4a & F4b & F4c & F4d & F4e).
      rewrite PREV_BLKP_bind by (rewrite ?W4, ?Hfoot; try inh; lia).
      rewrite W4, Hfoot. replace (bp - psz) with pb by lia.
      exists pb, s4, (fun a => blk a /\ (a <= pb \/ nn <= a)), fl4. split; [reflexivity|].
      split; [exact F4|]. split; [exact I4|]. split; [exact Hb4'|].
      split; [exact Ha4|]. split; [lia|]. split; [lia|]. split; [exact K4|].
      intros _. lia.
  - (* previous block free, next block allocated *)
    destruct (pred_free s blk bp H Hbp Hp) as (pb & Hpb & Hpe & Hpf & Hfoot).
    destruct (hk_blk s blk H pb Hpb) as (Hq1 & Hq2 & Hq3 & Hq4 & Hq5).
    remember (bsize s pb) as psz eqn:Epsz.
    destruct (delete_step s blk fl bp size H L Hlf Hinbp)
      as (s1 & fl1 & X1 & F1 & H1 & L1 & Hm1 & Hh1 & Hf1 & K1).
    pose proof F1 as (F1a & F1b & F1c & F1d & F1e).
    assert (T1 : forall a, blk a \/ a = mem_brk s ->
                   bsize s1 a = bsize s a /\ balloc s1 a = balloc s a /\ bprev s1 a = bprev s a).
    { intros a Ha. apply hdr_same_fields. apply Hh1. exact Ha. }
    assert (W1 : word_at s1 (bp - 16) = word_at s (bp - 16)).
    { pose proof (Hf1 pb Hpb) as Hw. rewrite <- Epsz in Hw.
      replace (pb + psz - 16) with (bp - 16) in Hw by lia. exact Hw. }
    rewrite (bind_ok _ _ _ _ _ X1).
    rewrite PREV_BLKP_bind by (rewrite ?W1, ?Hfoot; try inh; lia).
    rewrite W1, Hfoot. replace (bp - psz) with pb by lia.
    rewrite GET_SIZE_hdr by (try inh; lia).
    destruct (T1 pb (or_introl Hpb)) as (-> & _). rewrite <- Epsz.
    assert (Hlf1 : forall i y, In y (fl1 i) -> blk y /\ balloc s1 y = 0).
    { intros i y Hy. apply Hm1 in Hy. destruct Hy as [Hy _].
      destruct (Hlf i y Hy) as [Hb Hal]. split; [exact Hb|].
      destruct (T1 y (or_introl Hb)) as (_ & -> & _). exact Hal. }
    assert (Hinpb : In pb (fl1 (get_segclass_ind psz))).
    { apply Hm1. split; [|lia]. apply M. rewrite Epsz. auto. }
    destruct (delete_step s1 blk fl1 pb psz H1 L1 Hlf1 Hinpb)
      as (s2 & fl2 & X2 & F2 & H2 & L2 & Hm2 & Hh2 & Hf2 & K2).
    pose proof F2 as (F2a & F2b & F2c & F2d & F2e).
    assert (T2 : forall a, blk a \/ a = mem_brk s ->
                   bsize s2 a = bsize s a /\ balloc s2 a = balloc s a /\ bprev s2 a = bprev s a).
    { intros a Ha. destruct (T1 a Ha) as (<- & <- & <-).
      apply hdr_same_fields. apply Hh2. rewrite F1b. exact Ha. }
    assert (W2 : word_at s2 (bp - 16) = word_at s (bp - 16)).
    { rewrite <- W1. pose proof (Hf2 pb Hpb) as Hw2.
      destruct (T1 pb (or_introl Hpb)) as (Eq1 & _).
      rewrite Eq1 in Hw2. rewrite <- Epsz in Hw2.
      replace (pb + psz - 16) with (bp - 16) in Hw2 by lia. exact Hw2. }
    rewrite (bind_ok _ _ _ _ _ X2).
    rewrite PREV_BLKP_bind by (rewrite ?W2, ?Hfoot; try inh; lia).
    rewrite W2, Hfoot. replace (bp - psz) with pb by lia.
    rewrite GET_SIZE_hdr by (try inh; lia).
    destruct (T2 pb (or_introl Hpb)) as (-> & _ & Eppa). rewrite <- Epsz.
    rewrite (wrap_small (size + psz)) by lia.
    replace (size + psz) with (nb - pb) by lia.
    rewrite PREV_BLKP_bind by (rewrite ?W2, ?Hfoot; try inh; lia).
    rewrite W2, Hfoot. replace (bp - psz) with pb by lia.
    rewrite PREV_ALLOC_hdr by (try inh; lia). rewrite Eppa.
    rewrite (merge_exec_prev s2 bp pb nb (bprev s pb) psz);
      try (apply bprev_cases); try inh; try lia; try zlia;
      [|rewrite W2; exact Hfoot].
    destruct (merge_from s s2 blk fl fl2 pb nb H M) as
      (s4 & fl4 & X4 & F4 & I4 & Hb4' & Ha4 & Hs4 & K4 & B4); try assumption; try lia.
    + intros a Ha Hal Ho. apply Hex; try assumption; [lia|].
      intros Heq. pose proof (hk_order s blk H a pb Ha Hpb) as Ho2.
      destruct (hk_blk s blk H a Ha) as (_ & _ & ? & _).
      destruct Ho as [Ho|Ho]; [|lia].
      specialize (Ho2 Ho). lia.
    + intros a Ha Hz.
      destruct (Z_lt_le_dec a bp) as [Hc|Hc].
      * rewrite (blk_between s blk pb a H Hpb Ha ltac:(lia) ltac:(lia)). exact Hpf.
      * rewrite (blk_between s blk bp a H Hbp Ha ltac:(lia) ltac:(lia)). exact Hfree.
    + apply (same_frame_trans s s1 s2 F1 F2).
    + intros a Ha. unfold hdr, WSIZE.
      pose proof (Hh2 a) as E2'. pose proof (Hh1 a Ha) as E1'.
      unfold hdr, WSIZE in *. rewrite E2', E1' by (rewrite ?F1b; exact Ha).
      reflexivity.
    + intros i y. rewrite Hm2, Hm1. split.
      * intros [[Hy Hne1] Hne2]. split; [exact Hy|].
        destruct (Hlf i y Hy) as [Hby _].
        destruct (hk_blk s blk H y Hby) as (_ & _ & ? & _).
        destruct (blk_pair s blk H pb y Hpb Hby) as [?|[?|?]]; try lia.
        destruct (blk_pair s blk H bp y Hbp Hby) as [?|[?|?]]; lia.
      * intros [Hy Ho]. repeat split; try assumption; lia.
    + apply (keeps_trans nothing s s1 s2 blk blk blk K1 K2).
    + rewrite (bind_ok _ _ _ _ _ X4).
      assert (W4 : word_at s4 (bp - 16) = word_at s (bp - 16)).
      { rewrite <- W2. apply word_at_ext. intros x Hx. apply B4. lia. }
      pose proof F4 as (F4a & F4b & F4c & F4d & F4e).
      rewrite PREV_BLKP_bind by (rewrite ?W4, ?Hfoot; try inh; lia).
      rewrite W4, Hfoot. replace (bp - psz) with pb by lia.
      exists pb, s4, (fun a => blk a /\ (a <= pb \/ nb <= a)), fl4. split; [reflexivity|].
      split; [exact F4|]. split; [exact I4|]. split; [exact Hb4'|].
      split; [exact Ha4|]. split; [lia|]. split; [lia|]. split; [exact K4|].
      intros _. lia.
  - (* previous block allocated, next block free *)
    pose proof (epilogue_not_free s blk nb H Hnb Hn) as Hnbb.
    destruct (hk_blk s blk H nb Hnbb) as (Hn1 & Hn2 & Hn3 & Hn4 & Hn5).
    remember (bsize s nb) as nsz eqn:Ensz.
    pose proof (hk_next s blk H nb Hnbb) as Hnn. rewrite <- Ensz in Hnn.
    remember (nb + nsz) as nn eqn:Enn.
    destruct (node_bounds s blk H nn Hnn) as [Hnn1 Hnn2].
    destruct (delete_step s blk fl bp size H L Hlf Hinbp)
      as (s1 & fl1 & X1 & F1 & H1 & L1 & Hm1 & Hh1 & Hf1 & K1).
    pose proof F1 as (F1a & F1b & F1c & F1d & F1e).
    assert (T1 : forall a, blk a \/ a = mem_brk s ->
                   bsize s1 a = bsize s a /\ balloc s1 a = balloc s a /\ bprev s1 a = bprev s a).
    { intros a Ha. apply hdr_same_fields. apply Hh1. exact Ha. }
    rewrite (bind_ok _ _ _ _ _ X1).
    assert (Eb1 : bsize s1 bp = size) by (rewrite Esize; apply (T1 bp (or_introl Hbp))).
    rewrite NEXT_BLKP_bind by (rewrite ?Eb1; try inh; lia).
    rewrite Eb1, <- Enb.
    rewrite GET_SIZE_hdr by (try inh; lia).
    destruct (T1 nb (or_introl Hnbb)) as (-> & _). rewrite <- Ensz.
    assert (Hlf1 : forall i y, In y (fl1 i) -> blk y /\ balloc s1 y = 0).
    { intros i y Hy. apply Hm1 in Hy. destruct Hy as [Hy _].
      destruct (Hlf i y Hy) as [Hb Hal]. split; [exact Hb|].
      destruct (T1 y (or_introl Hb)) as (_ & -> & _). exact Hal. }
    assert (Hinnb : In nb (fl1 (get_segclass_ind nsz))).
    { apply Hm1. split; [|lia]. apply M. rewrite Ensz. auto. }
    destruct (delete_step s1 blk fl1 nb nsz H1 L1 Hlf1 Hinnb)
      as (s2 & fl2 & X2 & F2 & H2 & L2 & Hm2 & Hh2 & Hf2 & K2).
    pose proof F2 as (F2a & F2b & F2c & F2d & F2e).
    assert (T2 : forall a, blk a \/ a = mem_brk s ->
                   bsize s2 a = bsize s a /\ balloc s2 a = balloc s a /\ bprev s2 a = bprev s a).
    { intros a Ha. destruct (T1 a Ha) as (<- & <- & <-).
      apply hdr_same_fields. apply Hh2. rewrite F1b. exact Ha. }
    rewrite (bind_ok _ _ _ _ _ X2).
    assert (Eb2 : bsize s2 bp = size) by (rewrite Esize; apply (T2 bp (or_introl Hbp))).
    rewrite NEXT_BLKP_bind by (rewrite ?Eb2; try inh; lia).
    rewrite Eb2, <- Enb.
    rewrite GET_SIZE_hdr by (try inh; lia).
    destruct (T2 nb (or_introl Hnbb)) as (-> & _). rewrite <- Ensz.
    rewrite (wrap_small (size + nsz)) by lia.
    replace (size + nsz) with (nn - bp) by lia.
    rewrite (merge_exec s2 bp nn 2); try inh; try lia; try zlia.
    destruct (merge_from s s2 blk fl fl2 bp nn H M) as
      (s4 & fl4 & X4 & F4 & I4 & Hb4' & Ha4 & Hs4 & K4 & B4); try assumption; try lia.
    + intros a Ha Hal Ho. apply Hex; try assumption; [lia|].
      intros Heq. pose proof (hk_prev_bit s blk H a Ha) as Hbit.
      rewrite Heq, Hp, Hal in Hbit. discriminate.
    + intros a Ha Hz.
      destruct (Z_lt_le_dec a nb) as [Hc|Hc].
      * rewrite (blk_between s blk bp a H Hbp Ha ltac:(lia) ltac:(lia)). exact Hfree.
      * rewrite (blk_between s blk nb a H Hnbb Ha ltac:(lia) ltac:(lia)). exact Hn.
    + rewrite Enn, Ensz. apply Hex; try assumption; lia.
    + apply (same_frame_trans s s1 s2 F1 F2).
    + intros a Ha. unfold hdr, WSIZE.
      pose proof (Hh2 a) as E2'. pose proof (Hh1 a Ha) as E1'.
      unfold hdr, WSIZE in *. rewrite E2', E1' by (rewrite ?F1b; exact Ha).
      reflexivity.
    + intros i y. rewrite Hm2, Hm1. split.
      * intros [[Hy Hne1] Hne2]. split; [exact Hy|].
        destruct (Hlf i y Hy) as [Hby _].
        destruct (hk_blk s blk H y Hby) as (_ & _ & ? & _).
        destruct (blk_pair s blk H nb y Hnbb Hby) as [?|[?|?]]; try lia.
        destruct (blk_pair s blk H bp y Hbp Hby) as [?|[?|?]]; lia.
      * intros [Hy Ho]. repeat split; try assumption; lia.
    + apply (keeps_trans nothing s s1 s2 blk blk blk K1 K2).
    + rewrite Hp in X4. rewrite (bind_ok _ _ _ _ _ X4).
      exists bp, s4, (fun a => blk a /\ (a <= bp \/ nn <= a)), fl4. split; [reflexivity|].
      split; [exact F4|]. split; [exact I4|]. split; [exact Hb4'|].
      split; [exact Ha4|]. split; [lia|]. split; [lia|]. split; [exact K4|].
      intros Hc. lia.
  - (* both neighbours allocated *)
    exists bp, s, blk, fl. split; [reflexivity|]. split; [apply same_frame_refl|].
    split; [apply (coalesce_case1 s blk fl bp); try assumption;
            rewrite <- Esize, <- Enb; exact Hn|].
    split; [exact Hbp|]. split; [exact Hfree|]. split; [lia|]. split; [lia|].
    split; [intros a Ha Hal _; repeat split; auto|].
    intros Hc. lia.
Qed.

Lemma coalesce_spec (s : state) (blk : Z -> Prop) (fl : Z -> list Z) (bp : Z) :
  heap_ok s blk -> lists_ok s fl -> fl_match s blk fl ->
  blk bp -> balloc s bp = 0 ->
  (forall a, blk a -> balloc s a = 0 -> a <> bp -> a + bsize s a <> bp ->
             balloc s (a + bsize s a) = 1) ->
  exists r s' blk' fl',
    coalesce bp s = Ok r s' /\ same_frame s s' /\ INV s' blk' fl' /\
    blk' r /\ balloc s' r = 0 /\ r <= bp /\ bp + bsize s bp <= r + bsize s' r /\
    keeps nothing s blk s' blk'.
Proof.
  intros H L M Hbp Hfree Hex.
  destruct (coalesce_full s blk fl bp H L M Hbp Hfree Hex)
    as (r & s' & blk' & fl' & X & F & I & Hr & Hf & Hle & Hcov & K & _).
  exists r, s', blk', fl'. auto 10.
Qed.

(** ** Placing without a split *)

Lemma place_nosplit_spec (s : state) (blk : Z -> Prop) (fl : Z -> list Z) (bp asize : Z) :
  INV s blk fl -> blk bp -> balloc s bp = 0 ->
  0 <= asize <= bsize s bp -> bsize s bp < asize + 32 ->
  exists s' fl',
    place bp asize s = Ok tt s' /\ same_frame s s' /\ INV s' blk fl' /\
    balloc s' bp = 1 /\ bsize s' bp = bsize s bp /\
    keeps nothing s blk s' blk.
Proof.
  intros [H L M N] Hbp Hfree Hfit Hns.
  pose proof (hk_env s blk H) as [E1 E2 E3 E4 E5 E6 E7].
  destruct (hk_blk s blk H bp Hbp) as (Hb1 & Hb2 & Hb3 & Hb4 & Hb5).
  pose proof (hk_next s blk H bp Hbp) as Hnb.
  pose proof (N bp Hbp Hfree) as Hnb_alloc.
  remember (bsize s bp) as csize eqn:Ecs.
  remember (bp + csize) as nb eqn:Enb.
  destruct (node_bounds s blk H nb Hnb) as [Hnb1 Hnb2].
  assert (Hlf : forall i y, In y (fl i) -> blk y /\ balloc s y = 0).
  { intros i y Hy. apply M in Hy. destruct Hy as (? & ? & _). auto. }
  assert (Hin : In bp (fl (get_segclass_ind csize))).
  { apply M. rewrite Ecs. auto. }
  destruct (delete_step s blk fl bp csize H L Hlf Hin)
    as (s1 & fl1 & X1 & F1 & H1 & L1 & Hm1 & Hh1 & Hf1 & K1).
  pose proof F1 as (F1a & F1b & F1c & F1d & F1e).
  assert (T1 : forall a, blk a \/ a = mem_brk s ->
                 bsize s1 a = bsize s a /\ balloc s1 a = balloc s a /\ bprev s1 a = bprev s a).
  { intros a Ha. apply hdr_same_fields. apply Hh1. exact Ha. }
  destruct (T1 bp (or_introl Hbp)) as (T1s & T1a & T1p).
  unfold place.
  rewrite GET_SIZE_hdr by (try inh; lia). rewrite <- Ecs.
  rewrite (wrap_small (csize - asize)) by lia.
  replace (2 * DSIZE <=? csize - asize) with false
    by (symmetry; apply Z.leb_gt; unfold DSIZE; lia).
  rewrite (bind_ok _ _ _ _ _ X1).
  rewrite PREV_ALLOC_hdr by (try inh; lia). rewrite T1p.
  remember (bprev s bp) as pa eqn:Epa.
  assert (Hpa : pa = 0 \/ pa = 2) by (rewrite Epa; apply bprev_cases).
  destruct (pack_flag_alloc pa Hpa) as (Hfl & Hfl1 & Hfl2).
  rewrite PUT_hdr by (try inh; lia).
  assert (V2s : bsize (put s1 (bp - 8) (PACK csize (PACK pa 1))) bp = csize)
    by (apply bsize_put_pack; zlia).
  assert (V2a : balloc (put s1 (bp - 8) (PACK csize (PACK pa 1))) bp = 1)
    by (rewrite balloc_put_pack by zlia; exact Hfl1).
  assert (V2p : bprev (put s1 (bp - 8) (PACK csize (PACK pa 1))) bp = pa)
    by (rewrite bprev_put_pack by zlia; exact Hfl2).
  step_put s2 F2 W2 B2 Hh2 V2.
  pose proof F2 as (F2a & F2b & F2c & F2d & F2e).
  rewrite NEXT_BLKP_bind by (rewrite ?V2s; try inh; lia).
  rewrite NEXT_BLKP_bind by (rewrite ?V2s; try inh; lia).
  rewrite V2s, <- Enb.
  rewrite GET_hdr by (try inh; lia).
  assert (Hw : hdr s2 nb = hdr s nb).
  { destruct (Hh2 nb ltac:(lia)) as (-> & _). apply Hh1. exact Hnb. }
  rewrite Hw.
  rewrite HDRP_eq by lia. rewrite PUT_put_ok by inh.
  assert (V3 : hdr (put s2 (nb - 8) (PACK (hdr s nb) 2)) nb = Z.lor (hdr s nb) 2).
  { rewrite hdr_put_same; [reflexivity|].
    apply lor_range; [apply word_at_range | rewrite WORD_MAX_eq; lia]. }
  step_put s3 F3 W3 B3 Hh3 V3'.
  pose proof F3 as (F3a & F3b & F3c & F3d & F3e).
  assert (Tnb : bsize s3 nb = bsize s nb /\ balloc s3 nb = balloc s nb /\ bprev s3 nb = 2).
  { unfold bsize, balloc, bprev. rewrite V3.
    rewrite lor_2_size, lor_2_alloc, lor_2_prev. auto. }
  assert (Tbp : bsize s3 bp = csize /\ balloc s3 bp = 1 /\ bprev s3 bp = pa).
  { destruct (Hh3 bp ltac:(lia)) as (_ & -> & -> & ->). auto. }
  assert (T3w : forall a, blk a \/ a = mem_brk s -> a <> bp -> a <> nb ->
                  word_at s3 (a - 8) = word_at s1 (a - 8)).
  { intros a Ha Hne Hne2.
    destruct (node_bounds s blk H a Ha) as [_ Hma].
    destruct (single_zone s blk bp a H Hbp Ha Hne) as [[Hba Hlt]|Hgt];
      [destruct (hk_blk s blk H a Hba) as (_ & _ & ? & _)|];
      rewrite <- ?Ecs in *; rewrite W3, W2 by zlia; reflexivity. }
  assert (T3f : forall a, blk a -> a <> bp ->
                  word_at s3 (a + bsize s a - 16) = word_at s1 (a + bsize s a - 16)).
  { intros a Ha Hne. destruct (hk_blk s blk H a Ha) as (_ & _ & ? & _).
    destruct (single_zone s blk bp a H Hbp (or_introl Ha) Hne) as [[Hba Hlt]|Hgt];
      rewrite <- ?Ecs in *; rewrite W3, W2 by lia; reflexivity. }
  assert (T3 : forall a, blk a \/ a = mem_brk s -> a <> bp ->
                 bsize s3 a = bsize s a /\ balloc s3 a = balloc s a).
  { intros a Ha Hne. destruct (Z.eq_dec a nb) as [->|Hne2]; [split; apply Tnb|].
    destruct (T1 a Ha) as (<- & <- & _).
    destruct (hdr_ext s1 s3 a (T3w a Ha Hne Hne2)) as (_ & ? & ? & _). auto. }
  pose proof (same_frame_trans s1 s2 s3 F2 F3) as F13.
  assert (H3 : heap_ok s3 blk).
  { apply (heap_ok_zone s1 s3 blk blk bp nb H1 F13 Hbp).
    - rewrite F1b. exact Hnb.
    - lia.
    - intros a _. reflexivity.
    - intros a Ha Ho. rewrite F1b in Ha. apply T3w; [exact Ha|lia|lia].
    - intros a Ha _ Ho. destruct (T1 a (or_introl Ha)) as (-> & _).
      apply T3f; [exact Ha|lia].
    - destruct Tnb as (-> & _). destruct (T1 nb Hnb) as (-> & _). reflexivity.
    - destruct Tnb as (_ & -> & _). destruct (T1 nb Hnb) as (_ & -> & _). reflexivity.
    - exact Hbp.
    - destruct Tbp as (_ & _ & ->). rewrite T1p. reflexivity.
    - intros a Ha Hz.
      assert (a = bp) by (apply (blk_between s blk bp a H Hbp Ha); lia). subst a.
      destruct Tbp as (-> & -> & _). rewrite <- Enb.
      destruct Tnb as (_ & _ & ->).
      split; [assumption|]. split; [lia|]. split; [assumption|]. split; [lia|].
      split; [right; reflexivity|]. split; [reflexivity|].
      intros Hc. discriminate.
    - intros a b Ha Hb Hza Hab Hbz.
      assert (a = bp) by (apply (blk_between s blk bp a H Hbp Ha); lia).
      assert (b = bp) by (apply (blk_between s blk bp b H Hbp Hb); lia). lia.
    - intros a Ha Hz.
      assert (a = bp) by (apply (blk_between s blk bp a H Hbp Ha); lia). lia.
    - exists bp. split; [exact Hbp|]. split; [lia|]. destruct Tbp as (-> & _). lia. }
  assert (Hlisted1 : forall i y, In y (fl1 i) -> blk y).
  { intros i y Hy. apply Hm1 in Hy. apply (Hlf i y). apply Hy. }
  assert (Hbp1 : forall i, ~ In bp (fl1 i)).
  { intros i Hy. apply Hm1 in Hy. destruct Hy as [_ Hy]. contradiction. }
  assert (L3 : lists_ok s3 fl1).
  { apply (lists_ok_frame s1 s3 fl1 L1 F13). intros x Hx.
    pose proof (link_vs_block s1 blk fl1 H1 Hlisted1 x bp Hx Hbp Hbp1) as Hg.
    rewrite T1s in Hg.
    assert (Hnb' : blk nb \/ nb = mem_brk s1) by (rewrite F1b; exact Hnb).
    pose proof (link_vs_header s1 blk fl1 H1 Hlisted1 x nb Hx Hnb') as Hg2.
    rewrite B3, B2 by lia. reflexivity. }
  exists s3, fl1. split; [reflexivity|].
  split; [apply (same_frame_trans s s1 s3 F1 F13)|].
  split; [constructor|].
  - exact H3.
  - exact L3.
  - intros i a. rewrite Hm1. split.
    + intros [Hy Hne]. apply M in Hy. destruct Hy as (Ha & Hal & Hcl).
      destruct (T3 a (or_introl Ha) Hne) as (-> & ->). auto.
    + intros (Ha & Hal & Hcl).
      assert (Hne : a <> bp). { intros ->. destruct Tbp as (_ & Tb & _). lia. }
      destruct (T3 a (or_introl Ha) Hne) as (Es & Ea).
      rewrite Es in Hcl. rewrite Ea in Hal. split; [apply M; auto|exact Hne].
  - intros a Ha Hal.
    assert (Hne : a <> bp). { intros ->. destruct Tbp as (_ & Tb & _). lia. }
    destruct (T3 a (or_introl Ha) Hne) as (Es & Ea).
    rewrite Es. rewrite Ea in Hal.
    destruct (Z.eq_dec (a + bsize s a) bp) as [->|Hne2]; [apply Tbp|].
    destruct (T3 _ (hk_next s blk H a Ha) Hne2) as (_ & ->).
    apply (N a Ha Hal).
  - split; [apply Tbp|]. split; [apply Tbp|].
    apply (keeps_trans nothing s s1 s3 blk blk blk K1).
    intros a Ha Hal _.
    assert (Hne : a <> bp). { intros ->. lia. }
    destruct (T1 a (or_introl Ha)) as (Es1 & Ea1 & _).
    destruct (T3 a (or_introl Ha) Hne) as (Es & Ea).
    split; [exact Ha|]. split; [lia|]. split; [lia|].
    intros x Hx. rewrite Es1 in Hx.
    destruct (hk_blk s blk H a Ha) as (_ & _ & ? & _).
    destruct (single_zone s blk bp a H Hbp (or_introl Ha) Hne) as [[_ Hlt]|Hgt];
      rewrite <- ?Ecs in *; rewrite B3, B2 by lia; reflexivity.
Qed.

Lemma place_spec (s : state) (blk : Z -> Prop) (fl : Z -> list Z) (bp asize : Z) :
  INV s blk fl -> blk bp -> balloc s bp = 0 ->
  32 <= asize -> asize mod 16 = 0 -> asize <= bsize s bp ->
  exists s' blk' fl',
    place bp asize s = Ok tt s' /\ same_frame s s' /\ INV s' blk' fl' /\
    blk' bp /\ balloc s' bp = 1 /\ asize <= bsize s' bp /\
    keeps nothing s blk s' blk'.
Proof.
  intros I Hbp Hfree H32 H16 Hfit.
  destruct (Z_lt_le_dec (bsize s bp) (asize + 32)) as [Hns|Hsp].
  - assert (Hr : 0 <= asize <= bsize s bp) by lia.
    destruct (place_nosplit_spec s blk fl bp asize I Hbp Hfree Hr Hns)
      as (s' & fl' & X & F & I' & Ha & Hs & K).
    exists s', blk, fl'.
    split; [exact X|]. split; [exact F|]. split; [exact I'|]. split; [exact Hbp|].
    split; [exact Ha|]. split; [lia|exact K].
  - destruct (place_split_spec s blk fl bp asize I Hbp Hfree H32 H16 Hsp)
      as (s' & blk' & fl' & X & F & I' & Hb & Ha & Hs & K).
    exists s', blk', fl'.
    split; [exact X|]. split; [exact F|]. split; [exact I'|]. split; [exact Hb|].
    split; [exact Ha|]. split; [lia|exact K].
Qed.

(** ** Freeing a block *)

Lemma prev_flag (pa : Z) :
  pa = 0 \/ pa = 2 -> 0 <= pa < 8 /\ Z.land pa 1 = 0 /\ Z.land pa 2 = pa.
Proof. intros [-> | ->]; cbn; lia. Qed.

Lemma alloc_flag (al : Z) :
  al = 0 \/ al = 1 -> 0 <= al < 8 /\ Z.land al 1 = al /\ Z.land al 2 = 0.
Proof. intros [-> | ->]; cbn; lia. Qed.

Lemma free_spec_full (s : state) (blk : Z -> Prop) (fl : Z -> list Z) (p : Z) :
  INV s blk fl -> blk p -> balloc s p = 1 ->
  exists s' blk' fl',
    free p s = Ok tt s' /\ same_frame s s' /\ INV s' blk' fl' /\
    keeps (only p) s blk s' blk' /\
    exists r, blk' r /\ balloc s' r = 0 /\ r <= p /\ p + bsize s p <= r + bsize s' r.
Proof.
  intros [H L M N] Hbp Hal.
  pose proof (hk_env s blk H) as [E1 E2 E3 E4 E5 E6 E7].
  destruct (hk_blk s blk H p Hbp) as (Hb1 & Hb2 & Hb3 & Hb4 & Hb5).
  pose proof (hk_next s blk H p Hbp) as Hnb.
  remember (bsize s p) as size eqn:Ecs.
  remember (p + size) as nb eqn:Enb.
  destruct (node_bounds s blk H nb Hnb) as [Hnb1 Hnb2].
  assert (Hlf : forall i y, In y (fl i) -> blk y /\ balloc s y = 0).
  { intros i y Hy. apply M in Hy. destruct Hy as (? & ? & _). auto. }
  assert (Hnew : forall i, ~ In p (fl i)).
  { intros i Hy. apply Hlf in Hy. lia. }
  remember (bprev s p) as pa eqn:Epa.
  assert (Hpa : pa = 0 \/ pa = 2) by (rewrite Epa; apply bprev_cases).
  destruct (prev_flag pa Hpa) as (Hfl & Hfl1 & Hfl2).
  unfold free.
  replace (p =? NULL) with false by (symmetry; apply Z.eqb_neq; unfold NULL; lia).
  rewrite GET_SIZE_hdr by (try inh; lia). rewrite <- Ecs.
  rewrite PREV_ALLOC_hdr by (try inh; lia). rewrite <- Epa.
  rewrite PUT_hdr by (try inh; lia).
  assert (V1h : hdr (put s (p - 8) (PACK size pa)) p = PACK size pa)
    by (apply hdr_put_same; apply pack_range; lia).
  assert (V1s : bsize (put s (p - 8) (PACK size pa)) p = size)
    by (apply bsize_put_pack; zlia).
  assert (V1a : balloc (put s (p - 8) (PACK size pa)) p = 0)
    by (rewrite balloc_put_pack by zlia; exact Hfl1).
  assert (V1p : bprev (put s (p - 8) (PACK size pa)) p = pa)
    by (rewrite bprev_put_pack by zlia; exact Hfl2).
  step_put s1 F1 W1 B1 Hh1 V1.
  pose proof F1 as (F1a & F1b & F1c & F1d & F1e).
  rewrite FTRP_bind by (rewrite ?V1s; try inh; lia).
  rewrite GET_hdr by (try inh; lia).
  rewrite V1s, V1h, PUT_put by inh.
  assert (V2 : word_at (put s1 (p + size - 16) (PACK size pa)) (p + size - 16) = PACK size pa)
    by (apply put_word_same; apply pack_range; lia).
  step_put s2 F2 W2 B2 Hh2 V2'.
  pose proof F2 as (F2a & F2b & F2c & F2d & F2e).
  destruct (Hh2 p ltac:(lia)) as (_ & T2s & T2a & T2p).
  rewrite V1s in T2s. rewrite V1a in T2a. rewrite V1p in T2p.
  rewrite !NEXT_BLKP_bind by (rewrite ?T2s; try inh; lia).
  rewrite T2s, <- Enb.
  assert (T2n : hdr s2 nb = hdr s nb).
  { destruct (Hh2 nb ltac:(lia)) as (-> & _).
    destruct (Hh1 nb ltac:(lia)) as (-> & _). reflexivity. }
  destruct (hdr_same_fields s s2 nb T2n) as (T2ns & T2na & _).
  rewrite GET_SIZE_hdr by (try inh; lia). rewrite T2ns.
  rewrite NEXT_BLKP_bind by (rewrite ?T2s; try inh; lia).
  rewrite T2s, <- Enb.
  rewrite GET_ALLOC_hdr by (try inh; lia). rewrite T2na.
  destruct (bsize_facts s nb) as [Rn Rn8].
  destruct (alloc_flag (balloc s nb) (balloc_cases s nb)) as (Hal0 & Hal1 & Hal2).
  rewrite PUT_hdr by (try inh; lia).
  assert (V3s : bsize (put s2 (nb - 8) (PACK (bsize s nb) (balloc s nb))) nb = bsize s nb)
    by (apply bsize_put_pack; assumption).
  assert (V3a : balloc (put s2 (nb - 8) (PACK (bsize s nb) (balloc s nb))) nb = balloc s nb)
    by (rewrite balloc_put_pack by assumption; exact Hal1).
  assert (V3p : bprev (put s2 (nb - 8) (PACK (bsize s nb) (balloc s nb))) nb = 0)
    by (rewrite bprev_put_pack by assumption; exact Hal2).
  step_put s3 F3 W3 B3 Hh3 V3.
  pose proof F3 as (F3a & F3b & F3c & F3d & F3e).
  assert (Tbp : bsize s3 p = size /\ balloc s3 p = 0 /\ bprev s3 p = pa).
  { destruct (Hh3 p ltac:(lia)) as (_ & -> & -> & ->). auto. }
  assert (Tft : word_at s3 (p + size - 16) = PACK size pa).
  { rewrite W3 by lia. exact V2. }
  assert (T3w : forall a, blk a \/ a = mem_brk s -> a <> p -> a <> nb ->
                  word_at s3 (a - 8) = word_at s (a - 8)).
  { intros a Ha Hne Hne2.
    destruct (node_bounds s blk H a Ha) as [_ Hma].
    destruct (single_zone s blk p a H Hbp Ha Hne) as [[Hba Hlt]|Hgt];
      [destruct (hk_blk s blk H a Hba) as (_ & _ & ? & _)|];
      rewrite <- ?Ecs in *; rewrite W3, W2, W1 by zlia; reflexivity. }
  assert (T3f : forall a, blk a -> a <> p ->
                  word_at s3 (a + bsize s a - 16) = word_at s (a + bsize s a - 16)).
  { intros a Ha Hne. destruct (hk_blk s blk H a Ha) as (_ & _ & ? & _).
    destruct (single_zone s blk p a H Hbp (or_introl Ha) Hne) as [[Hba Hlt]|Hgt];
      rewrite <- ?Ecs in *; rewrite W3, W2, W1 by lia; reflexivity. }
  assert (T3 : forall a, blk a \/ a = mem_brk s -> a <> p ->
                 bsize s3 a = bsize s a /\ balloc s3 a = balloc s a).
  { intros a Ha Hne. destruct (Z.eq_dec a nb) as [->|Hne2]; [split; assumption|].
    destruct (hdr_ext s s3 a (T3w a Ha Hne Hne2)) as (_ & ? & ? & _). auto. }
  pose proof (same_frame_trans s s1 s2 F1 F2) as F12.
  pose proof (same_frame_trans s s2 s3 F12 F3) as F13.
  assert (H3 : heap_ok s3 blk).
  { apply (heap_ok_zone s s3 blk blk p nb H F13 Hbp Hnb).
    - lia.
    - intros a _. reflexivity.
    - intros a Ha Ho. apply T3w; [exact Ha|lia|lia].
    - intros a Ha _ Ho. apply T3f; [exact Ha|lia].
    - exact V3s.
    - exact V3a.
    - exact Hbp.
    - destruct Tbp as (_ & _ & ->). exact Epa.
    - intros a Ha Hz.
      assert (a = p) by (apply (blk_between s blk p a H Hbp Ha); lia). subst a.
      destruct Tbp as (-> & -> & _). rewrite Tft, <- Enb, V3p.
      split; [assumption|]. split; [lia|]. split; [assumption|]. split; [lia|].
      split; [right; reflexivity|]. split; [reflexivity|].
      intros _. apply pack_size; zlia.
    - intros a b Ha Hb Hza Hab Hbz.
      assert (a = p) by (apply (blk_between s blk p a H Hbp Ha); lia).
      assert (b = p) by (apply (blk_between s blk p b H Hbp Hb); lia). lia.
    - intros a Ha Hz.
      assert (a = p) by (apply (blk_between s blk p a H Hbp Ha); lia). lia.
    - exists p. split; [exact Hbp|]. split; [lia|]. destruct Tbp as (-> & _). lia. }
  assert (Hlisted : forall i y, In y (fl i) -> blk y).
  { intros i y Hy. apply (Hlf i y Hy). }
  assert (Hbytes3 : forall x, x < p - 8 \/ (p <= x < p + size - 16) \/ nb <= x ->
                      mem_bytes s3 x = mem_bytes s x).
  { intros x Hx. rewrite B3, B2, B1 by lia. reflexivity. }
  assert (L3 : lists_ok s3 fl).
  { apply (lists_ok_frame s s3 fl L F13). intros x Hx.
    pose proof (link_vs_block s blk fl H Hlisted x p Hx Hbp Hnew) as Hg.
    pose proof (link_vs_header s blk fl H Hlisted x nb Hx Hnb) as Hg2.
    rewrite <- Ecs in Hg. apply Hbytes3. lia. }
  assert (Hlf3 : forall i y, In y (fl i) -> blk y /\ balloc s3 y = 0).
  { intros i y Hy. destruct (Hlf i y Hy) as [Hy1 Hy2]. split; [exact Hy1|].
    assert (Hne : y <> p) by (intros ->; lia).
    destruct (T3 y (or_introl Hy1) Hne) as (_ & ->). exact Hy2. }
  destruct (add_step s3 blk fl p size H3 L3 Hlf3 Hbp (proj1 (proj2 Tbp)) Hnew)
    as (s4 & fl4 & X4 & F4 & H4 & L4 & Hm4 & Hh4 & K4 & _).
  rewrite (bind_ok _ _ _ _ _ X4).
  assert (T4 : forall a, blk a \/ a = mem_brk s ->
                 bsize s4 a = bsize s3 a /\ balloc s4 a = balloc s3 a /\ bprev s4 a = bprev s3 a).
  { intros a Ha. apply hdr_same_fields. apply Hh4. rewrite F3b, F2b, F1b. exact Ha. }
  assert (M4 : fl_match s4 blk fl4).
  { intros i a. rewrite Hm4. split.
    - intros [[-> ->]|Hy].
      + destruct (T4 p (or_introl Hbp)) as (-> & -> & _).
        destruct Tbp as (-> & -> & _). auto.
      + apply M in Hy. destruct Hy as (Ha & Hfa & Hcl).
        assert (Hne : a <> p) by (intros ->; lia).
        destruct (T4 a (or_introl Ha)) as (-> & -> & _).
        destruct (T3 a (or_introl Ha) Hne) as (-> & ->). auto.
    - intros (Ha & Hfa & Hcl).
      destruct (T4 a (or_introl Ha)) as (Es4 & Ea4 & _).
      rewrite Es4 in Hcl. rewrite Ea4 in Hfa.
      destruct (Z.eq_dec a p) as [->|Hne].
      + left. destruct Tbp as (Tb & _). rewrite Tb in Hcl. auto.
      + right. destruct (T3 a (or_introl Ha) Hne) as (Es3 & Ea3).
        rewrite Es3 in Hcl. rewrite Ea3 in Hfa. apply M. auto. }
  assert (Hfree4 : balloc s4 p = 0).
  { destruct (T4 p (or_introl Hbp)) as (_ & -> & _). apply Tbp. }
  assert (Hadj4 : forall a, blk a -> balloc s4 a = 0 -> a <> p -> a + bsize s4 a <> p ->
                    balloc s4 (a + bsize s4 a) = 1).
  { intros a Ha Hfa Hne Hnx.
    destruct (T4 a (or_introl Ha)) as (Es4 & Ea4 & _).
    destruct (T3 a (or_introl Ha) Hne) as (Es3 & Ea3).
    rewrite Es4, Es3 in *. rewrite Ea4, Ea3 in Hfa.
    destruct (T4 _ (hk_next s blk H a Ha)) as (_ & -> & _).
    destruct (T3 _ (hk_next s blk H a Ha) Hnx) as (_ & ->).
    apply (N a Ha Hfa). }
  destruct (coalesce_spec s4 blk fl4 p H4 L4 M4 Hbp Hfree4 Hadj4)
    as (r & s5 & blk5 & fl5 & X5 & F5 & I5 & Hr5 & Hrf5 & Hrle5 & Hrsz5 & K5).
  rewrite (bind_ok _ _ _ _ _ X5).
  exists s5, blk5, fl5. split; [reflexivity|].
  split; [apply (same_frame_trans s s3 s5 F13); apply (same_frame_trans s3 s4 s5 F4 F5)|].
  split; [exact I5|].
  split; [|exists r; split; [exact Hr5|]; split; [exact Hrf5|]; split; [exact Hrle5|];
           destruct (T4 p (or_introl Hbp)) as (Ep4 & _); destruct Tbp as (Ep3 & _);
           rewrite Ep4, Ep3 in Hrsz5; lia].
  assert (K3 : keeps (only p) s blk s3 blk).
  { intros a Ha Hala Hex. assert (Hne : a <> p) by (intros ->; apply Hex; reflexivity).
    destruct (T3 a (or_introl Ha) Hne) as (Es & Ea).
    split; [exact Ha|]. split; [lia|]. split; [lia|].
    intros x Hx.
    destruct (hk_blk s blk H a Ha) as (_ & _ & ? & _).
    destruct (single_zone s blk p a H Hbp (or_introl Ha) Hne) as [[_ Hlt]|Hgt];
      rewrite <- ?Ecs in *; apply Hbytes3; lia. }
  apply (keeps_trans (only p) s s3 s5 blk blk blk5 K3).
  apply (keeps_weaken nothing (only p)); [intros a []|].
  apply (keeps_trans nothing s3 s4 s5 blk blk blk5 K4 K5).
Qed.

Lemma free_spec (s : state) (blk : Z -> Prop) (fl : Z -> list Z) (p : Z) :
  INV s blk fl -> blk p -> balloc s p = 1 ->
  exists s' blk' fl',
    free p s = Ok tt s' /\ same_frame s s' /\ INV s' blk' fl' /\
    keeps (only p) s blk s' blk'.
Proof.
  intros I Hp Hal.
  destruct (free_spec_full s blk fl p I Hp Hal) as (s' & blk' & fl' & X & F & I' & K & _).
  exists s', blk', fl'. auto.
Qed.

(** ** Rounding up to the alignment *)

Lemma align_up (x : Z) : 0 <= x <= WORD_MAX - 16 -> align x = 16 * ((x + 15) / 16).
Proof.
  intros H. unfold align, ALIGNMENT.
  destruct (Z.eq_dec x (WORD_MAX - 16)) as [->|Hne].
  - vm_compute. reflexivity.
  - rewrite (wrap_small (x + 16)) by lia. rewrite (wrap_small (x + 16 - 1)) by lia.
    replace (x + 16 - 1) with (x + 15) by lia.
    apply wrap_small. zlia.
Qed.

Lemma align_exact (x : Z) : 0 <= x <= WORD_MAX - 16 -> x mod 16 = 0 -> align x = x.
Proof. intros H Hm. rewrite align_up by exact H. zlia. Qed.

Lemma align_facts (x : Z) :
  0 <= x <= WORD_MAX - 16 ->
  x <= align x <= WORD_MAX - 16 /\ align x mod 16 = 0 /\ align x < x + 16.
Proof. intros H. rewrite align_up by exact H. rewrite WORD_MAX_eq in *. zlia. Qed.

(** ** Growing the region *)

Lemma grows_refl (s : state) : grows s s.
Proof. unfold grows. repeat split; lia. Qed.

Lemma grows_trans (s1 s2 s3 : state) : grows s1 s2 -> grows s2 s3 -> grows s1 s3.
Proof.
  intros (A1 & A2 & A3 & A4 & A5) (B1 & B2 & B3 & B4 & B5).
  unfold grows. repeat split; try congruence. lia.
Qed.

Lemma same_frame_grows (s s' : state) : same_frame s s' -> grows s s'.
Proof. intros (A1 & A2 & A3 & A4 & A5). unfold grows. repeat split; try assumption. lia. Qed.

Lemma lists_ok_grow (s s' : state) (fl : Z -> list Z) :
  lists_ok s fl -> grows s s' ->
  (forall x, link_area s fl x -> mem_bytes s' x = mem_bytes s x) ->
  lists_ok s' fl.
Proof.
  intros [L1 L2 L3 L4] (F1 & F2 & F3 & F4 & F5) Hfr.
  constructor.
  - intros i Hi.
    assert (Hs : slot_addr s' i = slot_addr s i) by (unfold slot_addr; rewrite F5; reflexivity).
    rewrite Hs.
    assert (Hr : word_at s' (slot_addr s i) = word_at s (slot_addr s i)).
    { apply word_at_ext. intros x Hx. apply Hfr. left. unfold slot_addr in Hx. lia. }
    rewrite Hr. apply dseg_ext with (s := s); [|apply L1; exact Hi].
    intros y Hy. split; apply word_at_ext; intros x Hx; apply Hfr; right;
      exists i, y; (split; [exact Hy|lia]).
  - exact L2.
  - intros i x Hx. rewrite F4. destruct (L3 i x Hx) as (? & ? & ? & ?).
    repeat split; try assumption; lia.
  - exact L4.
Qed.

(** The block list after the region grew by [size] bytes and the new bytes
    were framed as one free block followed by a fresh epilogue. *)
Lemma heap_ok_extend (s sv : state) (blk : Z -> Prop) (size : Z) :
  heap_ok s blk -> grows s sv ->
  32 <= size -> size mod 16 = 0 ->
  mem_brk sv = mem_brk s + size -> mem_brk sv <= mem_max_addr s ->
  (forall w, w + 8 <= mem_brk s - 8 -> word_at sv w = word_at s w) ->
  bsize sv (mem_brk s) = size -> balloc sv (mem_brk s) = 0 ->
  bprev sv (mem_brk s) = bprev s (mem_brk s) ->
  Z.land (word_at sv (mem_brk s + size - 16)) SIZE_MASK = size ->
  bsize sv (mem_brk sv) = 0 -> balloc sv (mem_brk sv) = 1 -> bprev sv (mem_brk sv) = 0 ->
  heap_ok sv (fun a => blk a \/ a = mem_brk s).
Proof.
  intros H (F1 & F2 & F3 & F4 & F5) H32 H16 Hbrk Hmax Wv Es Ea Ep Eft Ns Na Np.
  pose proof (hk_env s blk H) as [E1 E2 E3 E4 E5 E6 E7].
  remember (mem_brk s) as E eqn:EE.
  assert (HE : E mod 16 = 0).
  { destruct (node_bounds s blk H E) as [_ ?]; [right; exact EE|assumption]. }
  assert (Hlt : forall a, blk a -> a + 32 <= E /\ a + bsize s a <= E).
  { intros a Ha. destruct (hk_blk s blk H a Ha) as (_ & _ & ? & _ & ?). lia. }
  assert (Hhdr : forall a, blk a ->
                   bsize sv a = bsize s a /\ balloc sv a = balloc s a /\
                   bprev sv a = bprev s a).
  { intros a Ha. destruct (Hlt a Ha).
    destruct (hdr_ext s sv a) as (_ & ? & ? & ?); [apply Wv; lia|auto]. }
  assert (Hnot : ~ blk E) by (rewrite EE; apply (brk_not_blk s blk H)).
  constructor.
  - constructor; rewrite ?F1, ?F3, ?F4, ?F5; try assumption; lia.
  - intros a [Ha| ->].
    + destruct (Hhdr a Ha) as (-> & _). rewrite F4.
      destruct (hk_blk s blk H a Ha) as (? & ? & ? & ? & ?).
      repeat split; try assumption; lia.
    + rewrite Es, F4. repeat split; try assumption; lia.
  - intros a [Ha| ->].
    + destruct (Hhdr a Ha) as (-> & _). left.
      destruct (hk_next s blk H a Ha) as [?|?]; [left; assumption|right; lia].
    + rewrite Es. right. lia.
  - intros a b [Ha| ->] [Hb| ->] Hab.
    + destruct (Hhdr a Ha) as (-> & _). apply (hk_order s blk H a b Ha Hb Hab).
    + destruct (Hhdr a Ha) as (-> & _). apply Hlt. exact Ha.
    + destruct (Hlt b Hb). lia.
    + lia.
  - rewrite F4. left. destruct (hk_first s blk H) as [?|?]; [left; assumption|right; lia].
  - rewrite F4. destruct (hk_first s blk H) as [Hb|He].
    + destruct (Hhdr _ Hb) as (_ & _ & ->). apply (hk_first_prev s blk H).
    + rewrite He, <- EE, Ep, EE, <- He. apply (hk_first_prev s blk H).
  - rewrite F4. intros a [[Ha| ->]|Ha] Hne.
    + destruct (hk_pred s blk H a (or_introl Ha) Hne) as (p & Hp & Hpe).
      exists p. split; [left; exact Hp|]. destruct (Hhdr p Hp) as (-> & _). exact Hpe.
    + destruct (hk_pred s blk H E (or_intror EE) Hne) as (p & Hp & Hpe).
      exists p. split; [left; exact Hp|]. destruct (Hhdr p Hp) as (-> & _). exact Hpe.
    + exists E. split; [right; reflexivity|]. rewrite Es. lia.
  - split; assumption.
  - intros a [Ha| ->].
    + destruct (Hhdr a Ha) as (-> & -> & _).
      destruct (hk_next s blk H a Ha) as [Hn|Hn].
      * destruct (Hhdr _ Hn) as (_ & _ & ->). apply (hk_prev_bit s blk H a Ha).
      * rewrite Hn, <- EE, Ep, EE, <- Hn. apply (hk_prev_bit s blk H a Ha).
    + rewrite Es, Ea, <- Hbrk, Np. reflexivity.
  - intros a [Ha| ->] Hfree.
    + destruct (Hhdr a Ha) as (Hs & Hal & _). rewrite Hal in Hfree. rewrite Hs.
      destruct (Hlt a Ha). rewrite Wv by lia.
      apply (hk_footer s blk H a Ha Hfree).
    + rewrite Es. exact Eft.
Qed.

Lemma put_bytes_inside (s s' : state) (p v x : Z) :
  p <= x < p + 8 -> mem_bytes (put s p v) x = mem_bytes (put s' p v) x.
Proof.
  intros H. unfold put, store8. cbn.
  rewrite !store_bytes_inside by (rewrite length_le_split; lia). reflexivity.
Qed.

Lemma epilogue_word : Z.land (wrap (PACK 0 1)) SIZE_MASK = 0 /\
                      Z.land (wrap (PACK 0 1)) 1 = 1 /\ Z.land (wrap (PACK 0 1)) 2 = 0.
Proof. vm_compute. auto. Qed.

(** ** extend_heap *)

Lemma mem_sbrk_bind {B} (n : Z) (k : Z -> M B) (s : state) :
  bind (mem_sbrk n) k s =
  if mem_brk s + n <=? mem_max_addr s
  then k (mem_brk s) (set_brk s (mem_brk s + n))
  else k (wrap (-1)) s.
Proof. unfold bind, mem_sbrk. destruct (mem_brk s + n <=? mem_max_addr s); reflexivity. Qed.

Lemma extend_heap_full (s : state) (blk : Z -> Prop) (fl : Z -> list Z) (size : Z) :
  INV s blk fl -> 32 <= size <= WORD_MAX - 16 -> size mod 16 = 0 ->
  (mem_max_addr s < mem_brk s + size /\ extend_heap size s = Ok NULL s) \/
  (mem_brk s + size <= mem_max_addr s /\
   exists r s' blk' fl',
     extend_heap size s = Ok r s' /\ grows s s' /\ INV s' blk' fl' /\
     blk' r /\ balloc s' r = 0 /\ size <= bsize s' r /\
     keeps nothing s blk s' blk' /\ mem_brk s' = mem_brk s + size /\
     r <= mem_brk s /\ r + bsize s' r = mem_brk s' /\
     (bprev s (mem_brk s) <> 2 -> r < mem_brk s)).
Proof.
  intros [H L M N] Hsz H16.
  pose proof (hk_env s blk H) as [E1 E2 E3 E4 E5 E6 E7].
  remember (mem_brk s) as E eqn:EE.
  assert (HE : E mod 16 = 0).
  { destruct (node_bounds s blk H E) as [_ ?]; [right; exact EE|assumption]. }
  assert (Hnot : ~ blk E) by (rewrite EE; apply (brk_not_blk s blk H)).
  assert (Hlt : forall a, blk a -> heap_listp s <= a /\ a + 32 <= E /\ a + bsize s a <= E).
  { intros a Ha. destruct (hk_blk s blk H a Ha) as (? & _ & ? & _ & ?). lia. }
  assert (Hlf : forall i y, In y (fl i) -> blk y /\ balloc s y = 0).
  { intros i y Hy. apply M in Hy. destruct Hy as (? & ? & _). auto. }
  unfold extend_heap. rewrite align_exact by (assumption || lia).
  rewrite mem_sbrk_bind. rewrite <- EE.
  destruct (Z.leb_spec (E + size) (mem_max_addr s)) as [Hfit|Hno].
  2: { left. split; [lia|]. rewrite Z.eqb_refl. reflexivity. }
  right. split; [exact Hfit|].
  replace (E =? wrap (-1)) with false
    by (symmetry; apply Z.eqb_neq; change (wrap (-1)) with (WORD_MAX - 1); lia).
  remember (E + size) as E' eqn:EE'.
  assert (G0 : grows s (set_brk s E')) by (unfold grows; cbn; repeat split; lia).
  assert (W0 : forall w, word_at (set_brk s E') w = word_at s w) by reflexivity.
  assert (B0 : forall x, mem_bytes (set_brk s E') x = mem_bytes s x) by reflexivity.
  assert (Hb0 : mem_brk (set_brk s E') = E') by reflexivity.
  remember (set_brk s E') as s0 eqn:Es0. clear Es0.
  pose proof G0 as (G0a & _ & G0c & G0d & G0e).
  (* header and footer of the new block *)
  rewrite PREV_ALLOC_hdr by (try inh; lia).
  assert (Ep0 : bprev s0 E = bprev s E).
  { destruct (hdr_ext s s0 E (W0 _)) as (_ & _ & _ & ?). assumption. }
  rewrite Ep0.
  remember (bprev s E) as pa eqn:Epa.
  assert (Hpa : pa = 0 \/ pa = 2) by (rewrite Epa; apply bprev_cases).
  destruct (prev_flag pa Hpa) as (Hfl & Hfl1 & Hfl2).
  rewrite PUT_hdr by (try inh; lia).
  assert (V1h : hdr (put s0 (E - 8) (PACK size pa)) E = PACK size pa)
    by (apply hdr_put_same; apply pack_range; lia).
  assert (V1s : bsize (put s0 (E - 8) (PACK size pa)) E = size)
    by (apply bsize_put_pack; zlia).
  assert (V1a : balloc (put s0 (E - 8) (PACK size pa)) E = 0)
    by (rewrite balloc_put_pack by zlia; exact Hfl1).
  assert (V1p : bprev (put s0 (E - 8) (PACK size pa)) E = pa)
    by (rewrite bprev_put_pack by zlia; exact Hfl2).
  step_put s1 F1 W1 B1 Hh1 V1.
  pose proof F1 as (F1a & F1b & F1c & F1d & F1e).
  rewrite FTRP_bind by (rewrite ?V1s; try inh; lia).
  rewrite GET_hdr by (try inh; lia).
  rewrite V1s, V1h, PUT_put by inh.
  replace (E + size - 16) with (E' - 16) in * by lia.
  assert (V2 : word_at (put s1 (E' - 16) (PACK size pa)) (E' - 16) = PACK size pa)
    by (apply put_word_same; apply pack_range; lia).
  step_put s2 F2 W2 B2 Hh2 V2'.
  pose proof F2 as (F2a & F2b & F2c & F2d & F2e).
  assert (G2 : grows s s2).
  { apply (grows_trans s s0 s2 G0). apply same_frame_grows.
    apply (same_frame_trans s0 s1 s2 F1 F2). }
  assert (Bs2 : forall x, x < E - 8 -> mem_bytes s2 x = mem_bytes s x).
  { intros x Hx. rewrite B2, B1, B0 by lia. reflexivity. }
  assert (T2 : bsize s2 E = size /\ balloc s2 E = 0 /\ bprev s2 E = pa).
  { destruct (Hh2 E ltac:(lia)) as (_ & -> & -> & ->). auto. }
  (* insertion into the free list *)
  assert (Henv2 : env_ok s2).
  { constructor; rewrite ?F2a, ?F2b, ?F2c, ?F2d, ?F2e, ?F1a, ?F1b, ?F1c, ?F1d, ?F1e,
                         ?G0a, ?G0c, ?G0d, ?G0e, ?Hb0; try assumption; lia. }
  assert (Hold : forall x, link_area s fl x -> x < E - 16).
  { intros x [Hx|(i & y & Hy & Hx)]; [lia|].
    destruct (Hlf i y Hy) as [Hby _]. destruct (Hlt y Hby). lia. }
  assert (L2 : lists_ok s2 fl).
  { apply (lists_ok_grow s s2 fl L G2). intros x Hx. apply Bs2.
    pose proof (Hold x Hx). lia. }
  assert (Hnew : forall i, ~ In E (fl i)).
  { intros i Hy. apply Hlf in Hy. destruct Hy. contradiction. }
  destruct (seglist_add_spec s2 fl E size Henv2 L2) as (s3 & X3 & F3 & L3 & B3);
    try assumption; try lia.
  remember (upd_fl fl (get_segclass_ind size) (E :: fl (get_segclass_ind size)))
    as fl3 eqn:Efl3.
  assert (Hmem : forall i y, In y (fl3 i) <->
                             (y = E /\ i = get_segclass_ind size) \/ In y (fl i)).
  { intros i y. rewrite Efl3. apply in_fl_add. }
  clear Efl3.
  rewrite (bind_ok _ _ _ _ _ X3).
  pose proof F3 as (F3a & F3b & F3c & F3d & F3e).
  assert (NL2 : forall x, link_area s2 fl3 x -> link_area s fl x \/ E <= x < E + 16).
  { intros x [Hx|(i & y & Hy & Hx)].
    - left. left. lia.
    - apply Hmem in Hy. destruct Hy as [[-> _]|Hy]; [right; lia|left].
      right. exists i, y. auto. }
  assert (NL : forall x, link_area s2 fl3 x -> x < E - 16 \/ E <= x < E + 16).
  { intros x Hx. apply NL2 in Hx. destruct Hx as [Hx|Hx]; [left; apply Hold; exact Hx|right; exact Hx]. }
  assert (W3 : forall w, (E - 16 <= w /\ w + 8 <= E) \/ E + 16 <= w ->
                 word_at s3 w = word_at s2 w).
  { intros w Hw. apply word_at_ext. intros x Hx. apply B3. intros Hl.
    apply NL in Hl. lia. }
  assert (T3 : bsize s3 E = size).
  { destruct (hdr_ext s2 s3 E) as (_ & -> & _); [apply W3; lia|apply T2]. }
  rewrite NEXT_BLKP_bind by (rewrite ?T3; try inh; lia).
  rewrite T3, <- EE'.
  rewrite PUT_hdr by (try inh; lia).
  (* the same stores with the epilogue written before the links *)
  assert (Hin : forall x, E' - 8 <= x < E' ->
                  mem_bytes (put s3 (E' - 8) (PACK 0 1)) x =
                  mem_bytes (put s2 (E' - 8) (PACK 0 1)) x).
  { intros x Hx. apply put_bytes_inside. lia. }
  pose proof (put_facts s2 (E' - 8) (PACK 0 1)) as (Fv & Wv & Bv & Hhv & Vv).
  remember (put s2 (E' - 8) (PACK 0 1)) as sv eqn:Esv. clear Esv.
  step_put s4 F4 W4 B4 Hh4 V4.
  pose proof F4 as (F4a & F4b & F4c & F4d & F4e).
  pose proof Fv as (Fva & Fvb & Fvc & Fvd & Fve).
  assert (Gv : grows s sv) by (apply (grows_trans s s2 sv G2); apply same_frame_grows; exact Fv).
  assert (Wsv : forall w, w + 8 <= E - 8 -> word_at sv w = word_at s w).
  { intros w Hw. rewrite Wv, W2, W1, W0 by lia. reflexivity. }
  destruct epilogue_word as (Ew1 & Ew2 & Ew3).
  assert (Hv : heap_ok sv (fun a => blk a \/ a = mem_brk s)).
  { apply (heap_ok_extend s sv blk size H Gv);
      rewrite <- ?EE, ?Fvb, ?F2b, ?F1b, ?Hb0; try assumption; try lia.
    - destruct (Hhv E ltac:(lia)) as (_ & -> & _). apply T2.
    - destruct (Hhv E ltac:(lia)) as (_ & _ & -> & _). apply T2.
    - destruct (Hhv E ltac:(lia)) as (_ & _ & _ & ->). rewrite <- Epa. apply T2.
    - replace (E + size - 16) with (E' - 16) by lia.
      rewrite Wv by lia. rewrite V2. apply pack_size; zlia.
    - unfold bsize, hdr, WSIZE. rewrite Vv. exact Ew1.
    - unfold balloc, hdr, WSIZE. rewrite Vv. exact Ew2.
    - unfold bprev, hdr, WSIZE. rewrite Vv. exact Ew3. }
  rewrite <- EE in Hv.
  remember (fun a => blk a \/ a = E) as blk4 eqn:Eblk4.
  assert (Hb4 : forall a, blk4 a <-> blk a \/ a = E) by (intros a; rewrite Eblk4; reflexivity).
  clear Eblk4.
  assert (Hlisted3 : forall i y, In y (fl3 i) -> blk4 y).
  { intros i y Hy. apply Hb4. apply Hmem in Hy.
    destruct Hy as [[-> _]|Hy]; [right; reflexivity|left; apply (Hlf i y Hy)]. }
  assert (Fv4 : same_frame sv s4).
  { apply (same_frame_trans sv s2 s4 (same_frame_sym s2 sv Fv)).
    apply (same_frame_trans s2 s3 s4 F3 F4). }
  assert (Bv4 : forall x, ~ link_area sv fl3 x -> mem_bytes s4 x = mem_bytes sv x).
  { intros x Hx.
    destruct (Z_lt_le_dec x (E' - 8)) as [Hlo|Hhi];
      [|destruct (Z_lt_le_dec x E') as [Hmid|Hup]].
    - rewrite B4, Bv by lia. apply B3. intros Hl. apply Hx.
      apply (link_area_frame s2 sv fl3 x Fv). exact Hl.
    - apply Hin. lia.
    - rewrite B4, Bv by lia. apply B3. intros Hl. apply Hx.
      apply (link_area_frame s2 sv fl3 x Fv). exact Hl. }
  destruct (heap_ok_links sv s4 blk4 fl3 Hv Fv4 Hlisted3 Bv4) as (H4 & Hh4v & _).
  assert (L4 : lists_ok s4 fl3).
  { apply (lists_ok_frame s3 s4 fl3 L3 F4). intros x Hx. apply B4.
    apply (link_area_frame s2 s3 fl3 x F3) in Hx. apply NL in Hx. lia. }
  assert (T4 : forall a, blk a -> bsize s4 a = bsize s a /\ balloc s4 a = balloc s a).
  { intros a Ha. destruct (Hlt a Ha) as (_ & ? & _).
    destruct (hdr_same_fields sv s4 a) as (-> & -> & _);
      [apply Hh4v; left; apply Hb4; left; exact Ha|].
    destruct (hdr_ext s sv a) as (_ & ? & ? & _); [apply Wsv; lia|auto]. }
  assert (T4E : bsize s4 E = size /\ balloc s4 E = 0).
  { destruct (hdr_same_fields sv s4 E) as (-> & -> & _);
      [apply Hh4v; left; apply Hb4; right; reflexivity|].
    destruct (Hhv E ltac:(lia)) as (_ & -> & -> & _). split; apply T2. }
  assert (M4 : fl_match s4 blk4 fl3).
  { intros i a. rewrite Hmem, Hb4. split.
    - intros [[-> ->]|Hy].
      + destruct T4E as (-> & ->). auto.
      + apply M in Hy. destruct Hy as (Ha & Hfa & Hcl).
        destruct (T4 a Ha) as (-> & ->). auto.
    - intros ([Ha| ->] & Hfa & Hcl).
      + right. destruct (T4 a Ha) as (Es4 & Ea4).
        rewrite Es4 in Hcl. rewrite Ea4 in Hfa. apply M. auto.
      + left. destruct T4E as (Tb & _). rewrite Tb in Hcl. auto. }
  assert (Hadj4 : forall a, blk4 a -> balloc s4 a = 0 -> a <> E -> a + bsize s4 a <> E ->
                    balloc s4 (a + bsize s4 a) = 1).
  { intros a Ha Hfa Hne Hnx. apply Hb4 in Ha. destruct Ha as [Ha|Ha]; [|contradiction].
    destruct (T4 a Ha) as (Es4 & Ea4). rewrite Es4 in *. rewrite Ea4 in Hfa.
    destruct (hk_next s blk H a Ha) as [Hn|Hn]; [|lia].
    destruct (T4 _ Hn) as (_ & ->). apply (N a Ha Hfa). }
  assert (HbE : blk4 E) by (apply Hb4; right; reflexivity).
  assert (T4P : bprev s4 E = pa).
  { destruct (hdr_same_fields sv s4 E) as (_ & _ & ->);
      [apply Hh4v; left; apply Hb4; right; reflexivity|].
    destruct (Hhv E ltac:(lia)) as (_ & _ & _ & ->). apply T2. }
  destruct (coalesce_full s4 blk4 fl3 E H4 L4 M4 HbE (proj2 T4E) Hadj4)
    as (r & s5 & blk5 & fl5 & X5 & F5 & I5 & Hr & Hrf & Hrle & Hrsz & K5 & Hlow).
  exists r, s5, blk5, fl5. split; [exact X5|].
  split.
  { apply (grows_trans s sv s5 Gv). apply same_frame_grows.
    apply (same_frame_trans sv s4 s5 Fv4 F5). }
  split; [exact I5|]. split; [exact Hr|]. split; [exact Hrf|].
  split; [destruct T4E as (Tb & _); lia|].
  assert (K4 : keeps nothing s blk s4 blk4).
  { intros a Ha Hal _. destruct (T4 a Ha) as (Es4 & Ea4).
    destruct (Hlt a Ha) as (Hlo & _ & Hhi).
    split; [apply Hb4; left; exact Ha|]. split; [lia|]. split; [exact Es4|].
    intros x Hx. rewrite B4 by lia.
    rewrite B3; [apply Bs2; lia|].
    intros Hl. apply NL2 in Hl. destruct Hl as [Hl'|Hl]; [|lia].
    assert (Hna : forall i, ~ In a (fl i)).
    { intros i Hy. apply Hlf in Hy. lia. }
    pose proof (link_vs_block s blk fl H (fun i y Hy => proj1 (Hlf i y Hy)) x a Hl' Ha Hna).
    lia. }
  split; [apply (keeps_trans nothing s s4 s5 blk blk4 blk5 K4 K5)|].
  assert (Hbrk5 : mem_brk s5 = E') by
    (destruct F5 as (_ & -> & _); rewrite F4b, F3b, F2b, F1b, Hb0; reflexivity).
  split; [lia|]. split; [exact Hrle|].
  split.
  { destruct (hk_blk s5 blk5 (inv_heap _ _ _ I5) r Hr) as (_ & _ & _ & _ & Hend).
    destruct T4E as (Tb & _). lia. }
  intros Hne. apply Hlow. rewrite T4P. exact Hne.
Qed.

Lemma extend_heap_spec (s : state) (blk : Z -> Prop) (fl : Z -> list Z) (size : Z) :
  INV s blk fl -> 32 <= size <= WORD_MAX - 16 -> size mod 16 = 0 ->
  (mem_max_addr s < mem_brk s + size /\ extend_heap size s = Ok NULL s) \/
  (mem_brk s + size <= mem_max_addr s /\
   exists r s' blk' fl',
     extend_heap size s = Ok r s' /\ grows s s' /\ INV s' blk' fl' /\
     blk' r /\ balloc s' r = 0 /\ size <= bsize s' r /\
     keeps nothing s blk s' blk' /\ mem_brk s' = mem_brk s + size).
Proof.
  intros I Hsz H16.
  destruct (extend_heap_full s blk fl size I Hsz H16)
    as [Hno|(Hroom & r & s' & blk' & fl' & X & G & I' & Hr & Hf & Hs & K & Hb & _)].
  - left. exact Hno.
  - right. split; [exact Hroom|]. exists r, s', blk', fl'. auto 10.
Qed.

(** ** The search under the invariant *)

Lemma no_fit_dec (s : state) (asize : Z) (l : list Z) :
  no_fit s asize l \/ exists x, In x l /\ asize <= bsize s x.
Proof.
  induction l as [|a l IH]; [left; intros x []|].
  destruct IH as [Hn|(x & Hx & Hf)].
  - destruct (Z_lt_le_dec (bsize s a) asize) as [Hlt|Hle].
    + left. intros x [<-|Hx]; [exact Hlt|apply Hn; exact Hx].
    + right. exists a. split; [left; reflexivity|exact Hle].
  - right. exists x. split; [right; exact Hx|exact Hf].
Qed.

Lemma first_fit (s : state) (asize : Z) (L : Z -> list Z) (n : nat) :
  forall c,
    (forall k, c <= k < c + Z.of_nat n -> no_fit s asize (L k)) \/
    (exists j, c <= j < c + Z.of_nat n /\
               (forall k, c <= k < j -> no_fit s asize (L k)) /\
               exists x, In x (L j) /\ asize <= bsize s x).
Proof.
  induction n as [|n IH]; intros c.
  - left. intros k Hk. lia.
  - destruct (no_fit_dec s asize (L c)) as [Hn|Hfit].
    + destruct (IH (c + 1)) as [Hall|(j & Hj & Hbefore & Hfit)].
      * left. intros k Hk. destruct (Z.eq_dec k c) as [->|Hne]; [exact Hn|].
        apply Hall. lia.
      * right. exists j. split; [lia|]. split; [|exact Hfit].
        intros k Hk. destruct (Z.eq_dec k c) as [->|Hne]; [exact Hn|].
        apply Hbefore. lia.
    + right. exists c. split; [lia|]. split; [intros k Hk; lia|exact Hfit].
Qed.

Lemma aligned_count (l : list Z) (lo n : Z) :
  NoDup l -> 0 <= n ->
  (forall x, In x l -> lo <= x /\ x < lo + 16 * n /\ (x - lo) mod 16 = 0) ->
  Z.of_nat (length l) <= n.
Proof.
  intros Hnd Hn Hx.
  assert (Hm : NoDup (map (fun x => Z.to_nat ((x - lo) / 16)) l)).
  { apply NoDup_map_NoDup_ForallPairs; [|exact Hnd].
    intros a b Ha Hb Heq. destruct (Hx a Ha) as (? & ? & ?). destruct (Hx b Hb) as (? & ? & ?).
    assert ((a - lo) / 16 = (b - lo) / 16) by zlia. zlia. }
  assert (Hi : incl (map (fun x => Z.to_nat ((x - lo) / 16)) l) (seq 0 (Z.to_nat n))).
  { intros y Hy. apply in_map_iff in Hy. destruct Hy as (x & <- & Hin).
    destruct (Hx x Hin) as (? & ? & ?). apply in_seq. zlia. }
  pose proof (NoDup_incl_length Hm Hi) as Hlen.
  rewrite length_map, length_seq in Hlen. lia.
Qed.

Lemma bucket_short (s : state) (blk : Z -> Prop) (fl : Z -> list Z) (fuel : nat) :
  INV s blk fl -> enough fuel s -> forall k, (length (fl k) < fuel)%nat.
Proof.
  intros [H L M N] Hf k. unfold enough in Hf.
  pose proof (hk_env s blk H) as [E1 E2 E3 E4 E5 E6 E7].
  assert (Hc : Z.of_nat (length (fl k)) <= (mem_brk s - heap_listp s) / 16).
  { apply (aligned_count (fl k) (heap_listp s)).
    - apply (lk_nodup s fl L).
    - zlia.
    - intros x Hx. destruct (lk_loc s fl L k x Hx) as (_ & ? & ? & ?). zlia. }
  lia.
Qed.

Lemma find_fit_result (s : state) (blk : Z -> Prop) (fl : Z -> list Z)
      (fuel : nat) (asize : Z) :
  INV s blk fl -> 0 <= asize < WORD_MAX -> enough fuel s ->
  exists r, find_fit fuel asize s = Ok r s /\
            (r = NULL \/ (blk r /\ balloc s r = 0 /\ asize <= bsize s r)).
Proof.
  intros I Hsz Hf. pose proof (bucket_short s blk fl fuel I Hf) as Hlen.
  destruct I as [H L M N].
  pose proof (hk_env s blk H) as [E1 E2 E3 E4 E5 E6 E7].
  assert (Hs : sane s) by (unfold sane; lia).
  assert (Hseg : in_heap_range s (seg_listp s) 96 = true) by inh.
  assert (Hb : forall k, 0 <= k < 12 -> bucket_ok s k (fl k)).
  { intros k Hk. split; [apply (lk_dll s fl L k Hk)|].
    intros x Hx. destruct (lk_loc s fl L k x Hx) as (_ & ? & ? & ?). lia. }
  pose proof (get_segclass_ind_range asize) as Hc.
  unfold find_fit, SEGLIST_CLASSES.
  remember (get_segclass_ind asize) as c eqn:Ec.
  destruct (first_fit s asize fl (Z.to_nat (12 - c)) c)
    as [Hall|(j & Hj & Hbefore & x & Hx & Hxfit)].
  - exists NULL. split; [|left; reflexivity].
    apply (find_fit_loop_exact s fuel asize fl Hs Hsz Hseg (Z.to_nat (12 - c)) c 12);
      try lia.
    intros k Hk. split; [apply Hb; lia|]. split; [apply Hlen|]. apply Hall. lia.
  - assert (Hbj : forall k, c <= k < j ->
                    bucket_ok s k (fl k) /\ (length (fl k) < fuel)%nat /\
                    no_fit s asize (fl k)).
    { intros k Hk. split; [apply Hb; lia|]. split; [apply Hlen|]. apply Hbefore. lia. }
    destruct (find_fit_loop_exact s fuel asize fl Hs Hsz Hseg (Z.to_nat (12 - c)) c j)
      as [_ Hfound]; try lia; [exact Hbj|].
    destruct Hfound as (r & E & Hin & Hfits & _).
    + lia.
    + apply Hb. lia.
    + apply Hlen.
    + intros Hno. specialize (Hno x Hx). lia.
    + exists r. split; [exact E|]. right.
      apply M in Hin. destruct Hin as (? & ? & _). auto.
Qed.

(** ** malloc *)

Lemma malloc_size (n : Z) :
  0 < n <= MAX_REQUEST ->
  32 <= align (wrap (n + DSIZE)) <= WORD_MAX - 16 /\
  align (wrap (n + DSIZE)) mod 16 = 0 /\ n + 16 <= align (wrap (n + DSIZE)).
Proof.
  unfold MAX_REQUEST, DSIZE. intros H.
  rewrite wrap_small by lia.
  destruct (align_facts (n + 16)) as (A1 & A2 & A3); [lia|].
  split; [|split; [exact A2|lia]]. zlia.
Qed.

Lemma blk_not_null (s : state) (blk : Z -> Prop) (a : Z) :
  heap_ok s blk -> blk a -> (a =? NULL) = false.
Proof.
  intros H Ha. destruct (hk_env s blk H). destruct (hk_blk s blk H a Ha) as (? & _).
  apply Z.eqb_neq. unfold NULL. lia.
Qed.

Lemma malloc_spec (fuel : nat) (s : state) (blk : Z -> Prop) (fl : Z -> list Z) (n : Z) :
  INV s blk fl -> 0 <= n <= MAX_REQUEST -> enough fuel s ->
  exists r s',
    malloc fuel n s = Ok r s' /\ grows s s' /\
    ((r = NULL /\ s' = s) \/
     (r <> NULL /\ exists blk' fl',
        INV s' blk' fl' /\ keeps nothing s blk s' blk' /\
        blk' r /\ balloc s' r = 1 /\ n + 16 <= bsize s' r /\
        ~ (blk r /\ balloc s r = 1))).
Proof.
  intros I Hn Hf. unfold malloc.
  destruct (Z.leb_spec n 0) as [H0|Hpos].
  { exists NULL, s. split; [reflexivity|]. split; [apply grows_refl|]. left. auto. }
  destruct (malloc_size n) as (A1 & A2 & A3); [lia|].
  remember (align (wrap (n + DSIZE))) as asize eqn:Easize. clear Easize.
  destruct (find_fit_result s blk fl fuel asize I ltac:(lia) Hf) as (r0 & Hfind & Hr0).
  rewrite (bind_ok _ _ _ _ _ Hfind).
  destruct Hr0 as [->|(Hb & Hfree & Hfit)].
  - change (negb (NULL =? NULL)) with false. cbv iota.
    destruct (extend_heap_spec s blk fl asize I A1 A2)
      as [[Hno X]|(Hroom & r & s1 & blk1 & fl1 & X & G1 & I1 & Hb1 & Hf1 & Hs1 & K1 & _)].
    + rewrite (bind_ok _ _ _ _ _ X). change (NULL =? NULL) with true. cbv iota.
      exists NULL, s. split; [reflexivity|]. split; [apply grows_refl|]. left. auto.
    + rewrite (bind_ok _ _ _ _ _ X).
      pose proof (blk_not_null s1 blk1 r (inv_heap _ _ _ I1) Hb1) as Hnn.
      rewrite Hnn.
      destruct (place_spec s1 blk1 fl1 r asize I1 Hb1 Hf1 ltac:(lia) A2 Hs1)
        as (s2 & blk2 & fl2 & X2 & F2 & I2 & Hb2 & Ha2 & Hs2 & K2).
      rewrite (bind_ok _ _ _ _ _ X2).
      exists r, s2. split; [reflexivity|].
      split; [apply (grows_trans s s1 s2 G1); apply same_frame_grows; exact F2|].
      right. split; [apply Z.eqb_neq; exact Hnn|].
      exists blk2, fl2. split; [exact I2|].
      split; [apply (keeps_trans nothing s s1 s2 blk blk1 blk2 K1 K2)|].
      split; [exact Hb2|]. split; [exact Ha2|]. split; [lia|].
      intros [Hold Hal]. destruct (K1 r Hold Hal) as (_ & Hal1 & _); [intros []|]. lia.
  - pose proof (blk_not_null s blk r0 (inv_heap _ _ _ I) Hb) as Hnn.
    rewrite Hnn. cbn [negb].
    destruct (place_spec s blk fl r0 asize I Hb Hfree ltac:(lia) A2 Hfit)
      as (s2 & blk2 & fl2 & X2 & F2 & I2 & Hb2 & Ha2 & Hs2 & K2).
    rewrite (bind_ok _ _ _ _ _ X2).
    exists r0, s2. split; [reflexivity|].
    split; [apply same_frame_grows; exact F2|].
    right. split; [apply Z.eqb_neq; exact Hnn|].
    exists blk2, fl2. split; [exact I2|]. split; [exact K2|].
    split; [exact Hb2|]. split; [exact Ha2|]. split; [lia|].
    intros [_ Hal]. lia.
Qed.

(** ** Stores into the payload of an allocated block *)

Lemma payload_write (s s' : state) (blk : Z -> Prop) (fl : Z -> list Z) (q : Z) :
  INV s blk fl -> blk q -> balloc s q = 1 -> same_frame s s' ->
  (forall x, x < q \/ q + bsize s q - 8 <= x -> mem_bytes s' x = mem_bytes s x) ->
  INV s' blk fl /\ keeps (only q) s blk s' blk /\
  (forall a, blk a \/ a = mem_brk s -> hdr s' a = hdr s a).
Proof.
  intros [H L M N] Hq Hal F Hout.
  destruct (hk_blk s blk H q Hq) as (Hq1 & Hq2 & Hq3 & Hq4 & Hq5).
  assert (Hh : forall a, blk a \/ a = mem_brk s -> word_at s' (a - 8) = word_at s (a - 8)).
  { intros a Ha. apply word_at_ext. intros x Hx. apply Hout.
    destruct (Z.eq_dec a q) as [->|Hne]; [lia|].
    destruct (single_zone s blk q a H Hq Ha Hne) as [[Hba Hlt]|Hgt]; [|lia].
    destruct (hk_blk s blk H a Hba) as (_ & _ & ? & _). lia. }
  assert (Hf : forall a, blk a -> balloc s a = 0 ->
                 word_at s' (a + bsize s a - 16) = word_at s (a + bsize s a - 16)).
  { intros a Ha Hfa. apply word_at_ext. intros x Hx. apply Hout.
    assert (Hne : a <> q) by (intros ->; lia).
    destruct (hk_blk s blk H a Ha) as (_ & _ & ? & _).
    destruct (single_zone s blk q a H Hq (or_introl Ha) Hne) as [[Hba Hlt]|Hgt]; lia. }
  assert (Hhdr : forall a, blk a \/ a = mem_brk s -> hdr s' a = hdr s a).
  { intros a Ha. unfold hdr, WSIZE. apply Hh. exact Ha. }
  assert (Hfld : forall a, blk a \/ a = mem_brk s ->
                   bsize s' a = bsize s a /\ balloc s' a = balloc s a /\
                   bprev s' a = bprev s a).
  { intros a Ha. apply hdr_same_fields. apply Hhdr. exact Ha. }
  assert (Hlisted : forall i y, In y (fl i) -> blk y).
  { intros i y Hy. apply M in Hy. apply Hy. }
  assert (Hnq : forall i, ~ In q (fl i)).
  { intros i Hy. apply M in Hy. destruct Hy as (_ & ? & _). lia. }
  split; [constructor|split; [|exact Hhdr]].
  - apply (heap_ok_frame s s' blk H F Hh Hf).
  - apply (lists_ok_frame s s' fl L F). intros x Hx. apply Hout.
    pose proof (link_vs_block s blk fl H Hlisted x q Hx Hq Hnq). lia.
  - intros i a. rewrite (M i a). split.
    + intros (Ha & Hfa & Hcl). destruct (Hfld a (or_introl Ha)) as (-> & -> & _). auto.
    + intros (Ha & Hfa & Hcl). destruct (Hfld a (or_introl Ha)) as (Es & Ea & _).
      rewrite Es in Hcl. rewrite Ea in Hfa. auto.
  - intros a Ha Hfa. destruct (Hfld a (or_introl Ha)) as (Es & Ea & _).
    rewrite Es. rewrite Ea in Hfa.
    destruct (Hfld _ (hk_next s blk H a Ha)) as (_ & -> & _). apply (N a Ha Hfa).
  - intros a Ha Hala Hex.
    assert (Hne : a <> q) by (intros ->; apply Hex; reflexivity).
    destruct (Hfld a (or_introl Ha)) as (Es & Ea & _).
    split; [exact Ha|]. split; [lia|]. split; [exact Es|].
    intros x Hx. apply Hout.
    destruct (hk_blk s blk H a Ha) as (_ & _ & ? & _).
    destruct (single_zone s blk q a H Hq (or_introl Ha) Hne) as [[Hba Hlt]|Hgt]; lia.
Qed.

Lemma memcpy_ok (dst src n : Z) (s : state) :
  0 <= n -> in_heap_range s dst n = true -> in_heap_range s src n = true ->
  exists s',
    memcpy dst src n s = Ok tt s' /\ same_frame s s' /\
    (forall x, x < dst \/ dst + n <= x -> mem_bytes s' x = mem_bytes s x) /\
    (forall i, 0 <= i < n -> mem_bytes s' (dst + i) = mem_bytes s (src + i)).
Proof.
  intros Hn H1 H2. unfold memcpy. rewrite H1, H2. cbn [andb].
  eexists. split; [reflexivity|]. split; [apply same_frame_set_bytes|].
  split.
  - intros x Hx. cbn. apply store_bytes_outside. rewrite load_bytes_length. lia.
  - intros i Hi. cbn. rewrite store_bytes_inside by (rewrite load_bytes_length; lia).
    rewrite load_bytes_nth by lia. f_equal. lia.
Qed.

Lemma memset_ok (dst : Z) (c : byte) (n : Z) (s : state) :
  0 <= n -> in_heap_range s dst n = true ->
  exists s',
    memset dst c n s = Ok tt s' /\ same_frame s s' /\
    (forall x, x < dst \/ dst + n <= x -> mem_bytes s' x = mem_bytes s x) /\
    (forall i, 0 <= i < n -> mem_bytes s' (dst + i) = c).
Proof.
  intros Hn H1. unfold memset. rewrite H1.
  eexists. split; [reflexivity|]. split; [apply same_frame_set_bytes|].
  split.
  - intros x Hx. cbn. apply store_bytes_outside. rewrite repeat_length. lia.
  - intros i Hi. cbn. rewrite store_bytes_inside by (rewrite repeat_length; lia).
    apply nth_repeat_lt. lia.
Qed.

Lemma poke_ok (x : Z) (b : byte) (s : state) :
  in_heap_range s x 1 = true ->
  exists s',
    poke x b s = Ok tt s' /\ same_frame s s' /\
    (forall y, y <> x -> mem_bytes s' y = mem_bytes s y) /\ mem_bytes s' x = b.
Proof.
  intros H1. unfold poke. rewrite H1.
  eexists. split; [reflexivity|]. split; [apply same_frame_set_bytes|].
  split.
  - intros y Hy. cbn. destruct (Z.eqb_spec y x); [contradiction|reflexivity].
  - cbn. rewrite Z.eqb_refl. reflexivity.
Qed.

(** ** realloc *)

Lemma align_request (n : Z) :
  0 <= n <= MAX_REQUEST -> n <= align n <= MAX_REQUEST.
Proof.
  unfold MAX_REQUEST. intros H.
  destruct (align_facts n) as (A1 & A2 & A3); [lia|].
  rewrite WORD_MAX_eq in *. zlia.
Qed.

Lemma realloc_full (fuel : nat) (s : state) (blk : Z -> Prop) (fl : Z -> list Z) (p n : Z) :
  INV s blk fl -> blk p -> balloc s p = 1 -> 0 <= n <= MAX_REQUEST -> enough fuel s ->
  exists r s',
    realloc fuel p n s = Ok r s' /\ grows s s' /\
    ((n = 0 /\ r = NULL /\
      exists blk' fl', INV s' blk' fl' /\ keeps (only p) s blk s' blk') \/
     (n <> 0 /\ r = NULL /\ s' = s) \/
     (n <> 0 /\ r <> NULL /\
      exists blk' fl',
        INV s' blk' fl' /\ keeps (only p) s blk s' blk' /\
        blk' r /\ balloc s' r = 1 /\ n + 16 <= bsize s' r /\
        (forall i, 0 <= i < n -> i < bsize s p - 8 ->
                   mem_bytes s' (r + i) = mem_bytes s (p + i)) /\
        r <> p /\
        exists f, blk' f /\ balloc s' f = 0 /\ f <= p /\
                  p + bsize s p <= f + bsize s' f)).
Proof.
  intros I Hp Hal Hn Hf.
  pose proof (inv_heap _ _ _ I) as H.
  pose proof (hk_env s blk H) as [E1 E2 E3 E4 E5 E6 E7].
  destruct (hk_blk s blk H p Hp) as (Hp1 & Hp2 & Hp3 & Hp4 & Hp5).
  unfold realloc.
  rewrite GET_SIZE_hdr by (try inh; lia).
  rewrite (blk_not_null s blk p H Hp).
  destruct (Z.eqb_spec n 0) as [->|Hn0].
  { destruct (free_spec s blk fl p I Hp Hal) as (s1 & blk1 & fl1 & X & F & I1 & K).
    rewrite (bind_ok _ _ _ _ _ X).
    exists NULL, s1. split; [reflexivity|]. split; [apply same_frame_grows; exact F|].
    left. split; [reflexivity|]. split; [reflexivity|]. exists blk1, fl1. auto. }
  destruct (align_request n Hn) as [An1 An2].
  destruct (malloc_spec fuel s blk fl (align n) I ltac:(lia) Hf)
    as (q & s1 & X & G & [[-> ->]|(Hqn & blk1 & fl1 & I1 & K1 & Hq & Hqa & Hqs & Hqnew)]).
  { rewrite (bind_ok _ _ _ _ _ X). change (NULL =? NULL) with true. cbv iota.
    exists NULL, s. split; [reflexivity|]. split; [apply grows_refl|].
    right. left. auto. }
  rewrite (bind_ok _ _ _ _ _ X).
  replace (q =? NULL) with false by (symmetry; apply Z.eqb_neq; exact Hqn).
  pose proof (inv_heap _ _ _ I1) as H1.
  pose proof (hk_env s1 blk1 H1) as [E1' E2' E3' E4' E5' E6' E7'].
  destruct (hk_blk s1 blk1 H1 q Hq) as (Hq1 & Hq2 & Hq3 & Hq4 & Hq5).
  destruct G as (G1 & G2 & G3 & G4 & G5).
  destruct (K1 p Hp Hal) as (Hp' & Hpa' & Hps' & Hpb'); [intros []|].
  assert (Hpq : p <> q) by (intros <-; apply Hqnew; auto).
  remember (if n <? bsize s p then n else bsize s p) as cnt eqn:Ecnt.
  assert (Hcnt : 0 <= cnt <= n /\ cnt <= bsize s p /\
                 forall i, 0 <= i < n -> i < bsize s p - 8 -> i < cnt).
  { rewrite Ecnt. destruct (Z.ltb_spec n (bsize s p)); repeat split; try lia; intros; lia. }
  destruct Hcnt as (Hc1 & Hc2 & Hc3).
  destruct (memcpy_ok q p cnt s1) as (s2 & X2 & F2 & B2o & B2i); [lia|inh|inh|].
  assert (Ecp : (if n <? bsize s p then memcpy q p n else memcpy q p (bsize s p)) =
                memcpy q p cnt).
  { rewrite Ecnt. destruct (n <? bsize s p); reflexivity. }
  rewrite Ecp, (bind_ok _ _ _ _ _ X2).
  destruct (payload_write s1 s2 blk1 fl1 q I1 Hq Hqa F2) as (I2 & K2 & Hh2).
  { intros x Hx. apply B2o. lia. }
  assert (Hfld2 : forall a, blk1 a ->
                    bsize s2 a = bsize s1 a /\ balloc s2 a = balloc s1 a).
  { intros a Ha. destruct (hdr_same_fields s1 s2 a) as (? & ? & _);
      [apply Hh2; left; exact Ha|auto]. }
  destruct (Hfld2 p Hp') as (Ep2s & Ep2a).
  destruct (Hfld2 q Hq) as (Eq2s & Eq2a).
  destruct (free_spec_full s2 blk1 fl1 p I2 Hp' ltac:(lia))
    as (s3 & blk3 & fl3 & X3 & F3 & I3 & K3 & f & Hf1 & Hf2 & Hf3 & Hf4).
  rewrite (bind_ok _ _ _ _ _ X3).
  exists q, s3. split; [reflexivity|].
  split.
  { apply (grows_trans s s1 s3); [unfold grows; auto|].
    apply same_frame_grows. apply (same_frame_trans s1 s2 s3 F2 F3). }
  right. right. split; [exact Hn0|]. split; [exact Hqn|].
  exists blk3, fl3. split; [exact I3|].
  destruct (K3 q Hq ltac:(lia)) as (Hq3' & Hqa3 & Hqs3 & Hqb3).
  { intros Hc. apply Hpq. symmetry. exact Hc. }
  split.
  { intros a Ha Hala Hex.
    destruct (K1 a Ha Hala) as (Ha1 & Hal1 & Hs1 & Hb1); [intros []|].
    assert (Haq : ~ only q a).
    { intros ->. apply Hqnew. auto. }
    destruct (K2 a Ha1 Hal1 Haq) as (_ & Hal2 & Hs2 & Hb2).
    destruct (K3 a Ha1 Hal2 Hex) as (Ha3 & Hal3 & Hs3 & Hb3).
    split; [exact Ha3|]. split; [exact Hal3|]. split; [lia|].
    intros x Hx. rewrite Hb3 by lia. rewrite Hb2 by lia. apply Hb1. exact Hx. }
  split; [exact Hq3'|]. split; [exact Hqa3|]. split; [lia|].
  split.
  { intros i Hi Hi2. pose proof (Hc3 i Hi Hi2) as Hic.
    rewrite Hqb3 by lia. rewrite B2i by lia. apply Hpb'. lia. }
  split; [intros Hc; apply Hpq; symmetry; exact Hc|].
  exists f. split; [exact Hf1|]. split; [exact Hf2|]. split; [exact Hf3|]. lia.
Qed.

Lemma realloc_spec (fuel : nat) (s : state) (blk : Z -> Prop) (fl : Z -> list Z) (p n : Z) :
  INV s blk fl -> blk p -> balloc s p = 1 -> 0 <= n <= MAX_REQUEST -> enough fuel s ->
  exists r s',
    realloc fuel p n s = Ok r s' /\ grows s s' /\
    ((n = 0 /\ r = NULL /\
      exists blk' fl', INV s' blk' fl' /\ keeps (only p) s blk s' blk') \/
     (n <> 0 /\ r = NULL /\ s' = s) \/
     (n <> 0 /\ r <> NULL /\
      exists blk' fl',
        INV s' blk' fl' /\ keeps (only p) s blk s' blk' /\
        blk' r /\ balloc s' r = 1 /\ n + 16 <= bsize s' r /\
        forall i, 0 <= i < n -> i < bsize s p - 8 ->
                  mem_bytes s' (r + i) = mem_bytes s (p + i))).
Proof.
  intros I Hp Hal Hn Hf.
  destruct (realloc_full fuel s blk fl p n I Hp Hal Hn Hf) as (r & s' & X & G & D).
  exists r, s'. split; [exact X|]. split; [exact G|].
  destruct D as [D|[D|(Hn0 & Hr & blk' & fl' & I' & K & Hb & Ha & Hs & Hc & _)]].
  - left. exact D.
  - right. left. exact D.
  - right. right. split; [exact Hn0|]. split; [exact Hr|]. exists blk', fl'. auto 10.
Qed.

(** ** calloc *)

Lemma calloc_spec (fuel : nat) (s : state) (blk : Z -> Prop) (fl : Z -> list Z)
      (nmemb size : Z) :
  INV s blk fl -> wrap (size * nmemb) <= MAX_REQUEST -> enough fuel s ->
  exists r s',
    calloc fuel nmemb size s = Ok r s' /\ grows s s' /\
    ((r = NULL /\ s' = s) \/
     (r <> NULL /\ exists blk' fl',
        INV s' blk' fl' /\ keeps nothing s blk s' blk' /\
        blk' r /\ balloc s' r = 1 /\ wrap (size * nmemb) + 16 <= bsize s' r /\
        ~ (blk r /\ balloc s r = 1) /\
        forall i, 0 <= i < wrap (size * nmemb) -> mem_bytes s' (r + i) = Byte.x00)).
Proof.
  intros I Hn Hf. unfold calloc.
  pose proof (wrap_range (size * nmemb)) as Hr.
  remember (wrap (size * nmemb)) as n eqn:En. clear En.
  destruct (malloc_spec fuel s blk fl n I ltac:(lia) Hf)
    as (q & s1 & X & G & [[-> ->]|(Hqn & blk1 & fl1 & I1 & K1 & Hq & Hqa & Hqs & Hqnew)]).
  { rewrite (bind_ok _ _ _ _ _ X). change (negb (NULL =? NULL)) with false. cbv iota.
    exists NULL, s. split; [reflexivity|]. split; [apply grows_refl|]. left. auto. }
  rewrite (bind_ok _ _ _ _ _ X).
  replace (q =? NULL) with false by (symmetry; apply Z.eqb_neq; exact Hqn).
  cbn [negb].
  pose proof (inv_heap _ _ _ I1) as H1.
  pose proof (hk_env s1 blk1 H1) as [E1' E2' E3' E4' E5' E6' E7'].
  destruct (hk_blk s1 blk1 H1 q Hq) as (Hq1 & Hq2 & Hq3 & Hq4 & Hq5).
  destruct (memset_ok q Byte.x00 n s1) as (s2 & X2 & F2 & B2o & B2i); [lia|inh|].
  rewrite (bind_ok _ _ _ _ _ X2).
  destruct (payload_write s1 s2 blk1 fl1 q I1 Hq Hqa F2) as (I2 & K2 & Hh2).
  { intros x Hx. apply B2o. lia. }
  destruct (hdr_same_fields s1 s2 q) as (Eq2s & Eq2a & _); [apply Hh2; left; exact Hq|].
  exists q, s2. split; [reflexivity|].
  split; [apply (grows_trans s s1 s2 G); apply same_frame_grows; exact F2|].
  right. split; [exact Hqn|]. exists blk1, fl1. split; [exact I2|].
  split.
  { intros a Ha Hala _.
    destruct (K1 a Ha Hala) as (Ha1 & Hal1 & Hs1 & Hb1); [intros []|].
    assert (Haq : ~ only q a).
    { intros ->. apply Hqnew. auto. }
    destruct (K2 a Ha1 Hal1 Haq) as (_ & Hal2 & Hs2 & Hb2).
    split; [exact Ha1|]. split; [exact Hal2|]. split; [lia|].
    intros x Hx. rewrite Hb2 by lia. apply Hb1. exact Hx. }
  split; [exact Hq|]. split; [lia|]. split; [lia|]. split; [exact Hqnew|].
  exact B2i.
Qed.

(** ** mm_init *)

Lemma set_bind {B} (f : state -> state) (k : unit -> M B) (s : state) :
  bind (fun s0 => Ok tt (f s0)) k s = k tt (f s).
Proof. reflexivity. Qed.

Lemma init_classes_spec (n : nat) :
  forall (i : Z) (s : state),
    0 <= mem_start_brk s -> seg_listp s = mem_start_brk s ->
    mem_start_brk s + 96 <= mem_brk s -> mem_brk s < WORD_MAX ->
    0 <= i -> i + Z.of_nat n <= 12 ->
    exists s',
      init_classes n i s = Ok tt s' /\ same_frame s s' /\
      (forall k, i <= k < i + Z.of_nat n -> word_at s' (seg_listp s + 8 * k) = 0) /\
      (forall x, x < seg_listp s + 8 * i \/ seg_listp s + 8 * (i + Z.of_nat n) <= x ->
                 mem_bytes s' x = mem_bytes s x).
Proof.
  induction n as [|n IH]; intros i s Hlo Hseg Hroom Htop Hi Hn.
  - exists s. split; [reflexivity|]. split; [apply same_frame_refl|].
    split; [intros k Hk; lia|reflexivity].
  - cbn [init_classes]. rewrite get_seg_listp_bind. unfold PUT_ADDR, WSIZE.
    rewrite wrap_small by lia.
    rewrite PUT_put by inh.
    pose proof (put_facts s (seg_listp s + i * 8) NULL) as (F1 & W1 & B1 & _ & V1).
    remember (put s (seg_listp s + i * 8) NULL) as s1 eqn:Es1. clear Es1.
    pose proof F1 as (F1a & F1b & F1c & F1d & F1e).
    destruct (IH (i + 1) s1) as (s2 & X2 & F2 & W2 & B2); try lia.
    exists s2. split; [exact X2|]. split; [apply (same_frame_trans s s1 s2 F1 F2)|].
    rewrite F1e in *. split.
    + intros k Hk. destruct (Z.eq_dec k i) as [->|Hne].
      * rewrite (word_at_ext s1 s2) by (intros x Hx; apply B2; lia).
        replace (seg_listp s + 8 * i) with (seg_listp s + i * 8) by lia.
        rewrite V1. reflexivity.
      * apply W2. lia.
    + intros x Hx. rewrite B2 by lia. apply B1. lia.
Qed.

(** The state in which [mm_init] calls [extend_heap]: index array cleared,
    prologue and epilogue in place, no block yet. *)
Lemma mm_init_run (s0 : state) :
  fresh s0 -> mem_start_brk s0 + 128 <= mem_max_addr s0 ->
  exists sp,
    mm_init s0 = (bp <- extend_heap (CHUNKSIZE / WSIZE) ;;
                  if bp =? NULL then ret false else ret true) sp /\
    mem_start_brk sp = mem_start_brk s0 /\ mem_max_addr sp = mem_max_addr s0 /\
    mem_brk sp = mem_start_brk s0 + 128 /\ heap_listp sp = mem_start_brk s0 + 128 /\
    seg_listp sp = mem_start_brk s0 /\
    (forall k, 0 <= k < 12 -> word_at sp (mem_start_brk s0 + 8 * k) = 0) /\
    word_at sp (mem_start_brk s0 + 120) = 3.
Proof.
  intros (Hlo & Hal & Hbrk & Hmax & Htop) Hroom.
  remember (mem_start_brk s0) as lo eqn:Elo.
  unfold mm_init, SEGLIST_CLASSES, WSIZE.
  rewrite mem_sbrk_bind, Hbrk.
  replace (lo + 12 * 8 <=? mem_max_addr s0) with true by (symmetry; apply Z.leb_le; lia).
  rewrite set_bind.
  replace (lo =? wrap (-1)) with false
    by (symmetry; apply Z.eqb_neq; change (wrap (-1)) with (WORD_MAX - 1); lia).
  remember (set_seg_listp (set_brk s0 (lo + 12 * 8)) lo) as sa eqn:Esa.
  assert (A1 : mem_start_brk sa = lo) by (rewrite Esa, Elo; reflexivity).
  assert (A2 : mem_brk sa = lo + 96) by (rewrite Esa; reflexivity).
  assert (A3 : mem_max_addr sa = mem_max_addr s0) by (rewrite Esa; reflexivity).
  assert (A4 : seg_listp sa = lo) by (rewrite Esa; reflexivity).
  clear Esa.
  destruct (init_classes_spec (Z.to_nat 12) 0 sa) as (sb & Xb & Fb & Wb & _);
    try lia.
  rewrite (bind_ok _ _ _ _ _ Xb).
  destruct Fb as (B1 & B2 & B3 & B4 & B5).
  rewrite mem_sbrk_bind, B2, B3, A2, A3.
  replace (lo + 96 + 4 * 8 <=? mem_max_addr s0) with true by (symmetry; apply Z.leb_le; lia).
  rewrite set_bind.
  replace (lo + 96 =? wrap (-1)) with false
    by (symmetry; apply Z.eqb_neq; change (wrap (-1)) with (WORD_MAX - 1); lia).
  remember (set_heap_listp (set_brk sb (lo + 96 + 4 * 8)) (lo + 96)) as sc eqn:Esc.
  assert (C1 : mem_start_brk sc = lo) by (rewrite Esc; cbn; congruence).
  assert (C2 : mem_brk sc = lo + 128) by (rewrite Esc; cbn; lia).
  assert (C3 : mem_max_addr sc = mem_max_addr s0) by (rewrite Esc; cbn; congruence).
  assert (C4 : seg_listp sc = lo) by (rewrite Esc; cbn; congruence).
  assert (C5 : forall w, word_at sc w = word_at sb w) by (rewrite Esc; reflexivity).
  clear Esc.
  rewrite !wrap_small by lia.
  rewrite PUT_put by inh.
  step_put s1 F1 W1 Bt1 Hh1 V1. pose proof F1 as (F1a & F1b & F1c & F1d & F1e).
  rewrite PUT_put by inh.
  step_put s2 F2 W2 Bt2 Hh2 V2. pose proof F2 as (F2a & F2b & F2c & F2d & F2e).
  rewrite PUT_put by inh.
  step_put s3 F3 W3 Bt3 Hh3 V3. pose proof F3 as (F3a & F3b & F3c & F3d & F3e).
  rewrite PUT_put by inh.
  step_put s4 F4 W4 Bt4 Hh4 V4. pose proof F4 as (F4a & F4b & F4c & F4d & F4e).
  rewrite set_bind.
  exists (set_heap_listp s4 (lo + 96 + 4 * 8)).
  split; [reflexivity|].
  split; [cbn; congruence|]. split; [cbn; congruence|]. split; [cbn; lia|].
  split; [cbn; lia|]. split; [cbn; congruence|]. split.
  - intros k Hk. change (word_at (set_heap_listp s4 (lo + 96 + 4 * 8)) (lo + 8 * k))
      with (word_at s4 (lo + 8 * k)).
    rewrite W4, W3, W2, W1, C5 by lia. rewrite <- A4. apply Wb. lia.
  - change (word_at (set_heap_listp s4 (lo + 96 + 4 * 8)) (lo + 120))
      with (word_at s4 (lo + 120)).
    replace (lo + 120) with (lo + 96 + 3 * 8) by lia. rewrite V4. reflexivity.
Qed.

Lemma mm_init_no_room (s0 : state) :
  fresh s0 -> mem_max_addr s0 < mem_start_brk s0 + 128 ->
  exists s, mm_init s0 = Ok false s.
Proof.
  intros (Hlo & Hal & Hbrk & Hmax & Htop) Hroom.
  remember (mem_start_brk s0) as lo eqn:Elo.
  unfold mm_init, SEGLIST_CLASSES, WSIZE.
  rewrite mem_sbrk_bind, Hbrk.
  destruct (Z.leb_spec (lo + 12 * 8) (mem_max_addr s0)) as [Hfit|Hno].
  - rewrite set_bind.
    replace (lo =? wrap (-1)) with false
      by (symmetry; apply Z.eqb_neq; change (wrap (-1)) with (WORD_MAX - 1); lia).
    remember (set_seg_listp (set_brk s0 (lo + 12 * 8)) lo) as sa eqn:Esa.
    assert (A1 : mem_start_brk sa = lo) by (rewrite Esa, Elo; reflexivity).
    assert (A2 : mem_brk sa = lo + 96) by (rewrite Esa; reflexivity).
    assert (A3 : mem_max_addr sa = mem_max_addr s0) by (rewrite Esa; reflexivity).
    assert (A4 : seg_listp sa = lo) by (rewrite Esa; reflexivity).
    clear Esa.
    destruct (init_classes_spec (Z.to_nat 12) 0 sa) as (sb & Xb & Fb & Wb & _);
      try lia.
    rewrite (bind_ok _ _ _ _ _ Xb).
    destruct Fb as (B1 & B2 & B3 & B4 & B5).
    rewrite mem_sbrk_bind, B2, B3, A2, A3.
    replace (lo + 96 + 4 * 8 <=? mem_max_addr s0) with false
      by (symmetry; apply Z.leb_gt; lia).
    rewrite set_bind. rewrite Z.eqb_refl. eexists. reflexivity.
  - rewrite set_bind. rewrite Z.eqb_refl. eexists. reflexivity.
Qed.

Lemma heap_empty_INV (sp : state) (lo : Z) :
  0 <= lo -> lo mod 16 = 0 ->
  mem_start_brk sp = lo -> mem_brk sp = lo + 128 -> heap_listp sp = lo + 128 ->
  seg_listp sp = lo -> mem_brk sp <= mem_max_addr sp -> mem_max_addr sp < WORD_MAX ->
  (forall k, 0 <= k < 12 -> word_at sp (lo + 8 * k) = 0) ->
  word_at sp (lo + 120) = 3 ->
  INV sp nothing (fun _ => []).
Proof.
  intros Hlo Hal A1 A2 A3 A4 A5 A6 Wk We.
  assert (Hh : hdr sp (lo + 128) = 3).
  { unfold hdr, WSIZE. replace (lo + 128 - 8) with (lo + 120) by lia. exact We. }
  constructor.
  - constructor.
    + constructor; rewrite ?A1, ?A2, ?A3, ?A4; try assumption; lia.
    + intros a [].
    + intros a [].
    + intros a b [].
    + right. congruence.
    + rewrite A3. unfold bprev. rewrite Hh. reflexivity.
    + intros a [[]| ->] Hne. congruence.
    + rewrite A2. unfold bsize, balloc. rewrite Hh. split; reflexivity.
    + intros a [].
    + intros a [].
  - constructor.
    + intros i Hi. cbn [dseg]. unfold slot_addr. rewrite A4. apply Wk. exact Hi.
    + intros i. constructor.
    + intros i x [].
    + intros i j x [].
  - intros i a. split; [intros []|intros ([] & _)].
  - intros a [].
Qed.

Lemma mm_init_spec (s0 : state) :
  fresh s0 ->
  exists b s,
    mm_init s0 = Ok b s /\
    (b = true ->
     mem_start_brk s0 + 640 <= mem_max_addr s0 /\
     mem_start_brk s = mem_start_brk s0 /\ mem_max_addr s = mem_max_addr s0 /\
     heap_listp s = mem_start_brk s0 + 128 /\ mem_brk s = mem_start_brk s0 + 640 /\
     bsize s (heap_listp s) = 512 /\ balloc s (heap_listp s) = 0 /\
     exists blk fl, INV s blk fl /\ forall a, blk a <-> a = heap_listp s) /\
    (mem_start_brk s0 + 640 <= mem_max_addr s0 -> b = true).
Proof.
  intros Hfresh. pose proof Hfresh as (Hlo & Hal & Hbrk & Hmax & Htop).
  destruct (Z_lt_le_dec (mem_max_addr s0) (mem_start_brk s0 + 128)) as [Hno|Hroom].
  { destruct (mm_init_no_room s0 Hfresh Hno) as (s & X).
    exists false, s. split; [exact X|]. split; [discriminate|lia]. }
  destruct (mm_init_run s0 Hfresh Hroom) as (sp & X & A1 & A3 & A2 & A4 & A5 & Wk & We).
  rewrite X.
  assert (Ip : INV sp nothing (fun _ => [])).
  { apply (heap_empty_INV sp (mem_start_brk s0)); try assumption; lia. }
  change (CHUNKSIZE / WSIZE) with 512.
  destruct (extend_heap_spec sp nothing (fun _ => []) 512 Ip)
    as [[Hfail Xe]|(Hfit & r & s & blk & fl & Xe & G & I & Hr & Hrf & Hrs & K & Hb)].
  { rewrite WORD_MAX_eq. lia. }
  { reflexivity. }
  - rewrite (bind_ok _ _ _ _ _ Xe). change (NULL =? NULL) with true. cbv iota.
    exists false, sp. split; [reflexivity|]. split; [discriminate|lia].
  - rewrite (bind_ok _ _ _ _ _ Xe).
    pose proof (inv_heap _ _ _ I) as H.
    rewrite (blk_not_null s blk r H Hr).
    exists true, s. split; [reflexivity|].
    destruct G as (G1 & G2 & G3 & G4 & G5).
    destruct (hk_blk s blk H r Hr) as (R1 & R2 & R3 & R4 & R5).
    assert (Er : r = heap_listp s) by lia.
    split; [|lia]. intros _.
    split; [lia|]. split; [congruence|]. split; [congruence|]. split; [congruence|].
    split; [lia|]. rewrite <- Er. split; [lia|]. split; [exact Hrf|].
    exists blk, fl. split; [exact I|].
    intros a. split; [|intros ->; exact Hr].
    intros Ha. destruct (hk_blk s blk H a Ha) as (Q1 & Q2 & Q3 & Q4 & Q5).
    destruct (blk_pair s blk H a r Ha Hr) as [?|[?|?]]; lia.
Qed.

(** ** More fuel never changes a result *)

Lemma bind_mono {A B} (c c' : M A) (k k' : A -> M B) (s : state) (r : B) (s' : state) :
  (forall a s1, c s = Ok a s1 -> c' s = Ok a s1) ->
  (forall a s1, c s = Ok a s1 -> k a s1 = Ok r s' -> k' a s1 = Ok r s') ->
  bind c k s = Ok r s' -> bind c' k' s = Ok r s'.
Proof.
  intros Hc Hk. unfold bind. destruct (c s) as [a s1| |] eqn:E; try discriminate.
  rewrite (Hc a s1 eq_refl). apply Hk. reflexivity.
Qed.

Lemma seglist_search_loop_mono (fuel : nat) :
  forall (fuel' : nat) (size curr best diff : Z) (s : state) (r : Z) (s' : state),
    (fuel <= fuel')%nat ->
    seglist_search_loop fuel size curr best diff s = Ok r s' ->
    seglist_search_loop fuel' size curr best diff s = Ok r s'.
Proof.
  induction fuel as [|fuel IH]; intros fuel' size curr best diff s r s' Hle H;
    [discriminate|].
  destruct fuel' as [|fuel']; [lia|].
  cbn [seglist_search_loop] in *.
  destruct (curr =? NULL); [exact H|].
  revert H. apply bind_mono; [auto|]. intros csz s1 _.
  destruct (size <=? csz).
  - destruct ((best =? NULL) || (wrap (csz - size) <? diff)).
    + cbv zeta. destruct (wrap (csz - size) =? 0); [auto|].
      apply bind_mono; [auto|]. intros nxt s2 _. apply IH. lia.
    + apply bind_mono; [auto|]. intros nxt s2 _. apply IH. lia.
  - apply bind_mono; [auto|]. intros nxt s2 _. apply IH. lia.
Qed.

Lemma seglist_search_mono (fuel fuel' : nat) (i size : Z) (s : state) (r : Z) (s' : state) :
  (fuel <= fuel')%nat ->
  seglist_search fuel i size s = Ok r s' -> seglist_search fuel' i size s = Ok r s'.
Proof.
  intros Hle. unfold seglist_search.
  apply bind_mono; [auto|]. intros seg s1 _.
  apply bind_mono; [auto|]. intros curr s2 _.
  apply seglist_search_loop_mono. exact Hle.
Qed.

Lemma find_fit_loop_mono (fuel fuel' : nat) (n : nat) :
  forall (i asize : Z) (s : state) (r : Z) (s' : state),
    (fuel <= fuel')%nat ->
    find_fit_loop fuel n i asize s = Ok r s' -> find_fit_loop fuel' n i asize s = Ok r s'.
Proof.
  induction n as [|n IH]; intros i asize s r s' Hle; [auto|].
  cbn [find_fit_loop].
  apply bind_mono; [intros a s1; apply seglist_search_mono; exact Hle|].
  intros bp s1 _. destruct (negb (bp =? NULL)); [auto|]. apply IH. exact Hle.
Qed.

Lemma malloc_mono (fuel fuel' : nat) (n : Z) (s : state) (r : Z) (s' : state) :
  (fuel <= fuel')%nat -> malloc fuel n s = Ok r s' -> malloc fuel' n s = Ok r s'.
Proof.
  intros Hle. unfold malloc. destruct (n <=? 0); [auto|].
  apply bind_mono; [|auto]. intros a s1. unfold find_fit.
  apply find_fit_loop_mono. exact Hle.
Qed.

Lemma realloc_mono (fuel fuel' : nat) (p n : Z) (s : state) (r : Z) (s' : state) :
  (fuel <= fuel')%nat -> realloc fuel p n s = Ok r s' -> realloc fuel' p n s = Ok r s'.
Proof.
  intros Hle. unfold realloc. apply bind_mono; [auto|]. intros sz s1 _.
  destruct (p =? NULL); [apply malloc_mono; exact Hle|].
  destruct (n =? 0); [auto|].
  apply bind_mono; [|auto]. intros a s2. apply malloc_mono. exact Hle.
Qed.

Lemma calloc_mono (fuel fuel' : nat) (nmemb size : Z) (s : state) (r : Z) (s' : state) :
  (fuel <= fuel')%nat ->
  calloc fuel nmemb size s = Ok r s' -> calloc fuel' nmemb size s = Ok r s'.
Proof.
  intros Hle. unfold calloc. cbv zeta.
  apply bind_mono; [|auto]. intros a s2. apply malloc_mono. exact Hle.
Qed.

(** Fuel that is enough for [s] and not less than [fuel]. *)
Lemma more_fuel (fuel : nat) (s : state) :
  exists fuel', (fuel <= fuel')%nat /\ enough fuel' s.
Proof.
  exists (Nat.max fuel (S (Z.to_nat ((mem_brk s - heap_listp s) / 16)))).
  split; [lia|]. unfold enough. lia.
Qed.

(** ** What a returned call has done *)

Lemma malloc_sound (fuel : nat) (s : state) (blk : Z -> Prop) (fl : Z -> list Z)
      (n r : Z) (s' : state) :
  INV s blk fl -> 0 <= n <= MAX_REQUEST -> malloc fuel n s = Ok r s' ->
  grows s s' /\
  ((r = NULL /\ s' = s) \/
   (r <> NULL /\ exists blk' fl',
      INV s' blk' fl' /\ keeps nothing s blk s' blk' /\
      blk' r /\ balloc s' r = 1 /\ n + 16 <= bsize s' r /\
      ~ (blk r /\ balloc s r = 1))).
Proof.
  intros I Hn X. destruct (more_fuel fuel s) as (f' & Hle & Hen).
  destruct (malloc_spec f' s blk fl n I Hn Hen) as (r1 & s1 & X1 & G & D).
  rewrite (malloc_mono fuel f' n s r s' Hle X) in X1. injection X1 as <- <-. auto.
Qed.

Lemma realloc_sound (fuel : nat) (s : state) (blk : Z -> Prop) (fl : Z -> list Z)
      (p n r : Z) (s' : state) :
  INV s blk fl -> blk p -> balloc s p = 1 -> 0 <= n <= MAX_REQUEST ->
  realloc fuel p n s = Ok r s' ->
  grows s s' /\
  ((n = 0 /\ r = NULL /\
    exists blk' fl', INV s' blk' fl' /\ keeps (only p) s blk s' blk') \/
   (n <> 0 /\ r = NULL /\ s' = s) \/
   (n <> 0 /\ r <> NULL /\
    exists blk' fl',
      INV s' blk' fl' /\ keeps (only p) s blk s' blk' /\
      blk' r /\ balloc s' r = 1 /\ n + 16 <= bsize s' r /\
      forall i, 0 <= i < n -> i < bsize s p - 8 ->
                mem_bytes s' (r + i) = mem_bytes s (p + i))).
Proof.
  intros I Hp Hal Hn X. destruct (more_fuel fuel s) as (f' & Hle & Hen).
  destruct (realloc_spec f' s blk fl p n I Hp Hal Hn Hen) as (r1 & s1 & X1 & G & D).
  rewrite (realloc_mono fuel f' p n s r s' Hle X) in X1. injection X1 as <- <-. auto.
Qed.

Lemma calloc_sound (fuel : nat) (s : state) (blk : Z -> Prop) (fl : Z -> list Z)
      (nmemb size r : Z) (s' : state) :
  INV s blk fl -> wrap (size * nmemb) <= MAX_REQUEST ->
  calloc fuel nmemb size s = Ok r s' ->
  grows s s' /\
  ((r = NULL /\ s' = s) \/
   (r <> NULL /\ exists blk' fl',
      INV s' blk' fl' /\ keeps nothing s blk s' blk' /\
      blk' r /\ balloc s' r = 1 /\ wrap (size * nmemb) + 16 <= bsize s' r /\
      ~ (blk r /\ balloc s r = 1) /\
      forall i, 0 <= i < wrap (size * nmemb) -> mem_bytes s' (r + i) = Byte.x00)).
Proof.
  intros I Hn X. destruct (more_fuel fuel s) as (f' & Hle & Hen).
  destruct (calloc_spec f' s blk fl nmemb size I Hn Hen) as (r1 & s1 & X1 & G & D).
  rewrite (calloc_mono fuel f' nmemb size s r s' Hle X) in X1. injection X1 as <- <-. auto.
Qed.

(** ** The client's bookkeeping *)

Lemma size_t_b_true (n : Z) : size_t_b n = true -> 0 <= n < WORD_MAX.
Proof.
  unfold size_t_b. intros H. apply andb_prop in H. destruct H as [H1 H2].
  apply Z.leb_le in H1. apply Z.ltb_lt in H2. lia.
Qed.

Lemma held_b_true (live : list (Z * Z)) (p : Z) :
  held_b live p = true -> exists n, In (p, n) live.
Proof.
  unfold held_b. intros H. apply existsb_exists in H. destruct H as ([a n] & Hin & Heq).
  cbn in Heq. apply Z.eqb_eq in Heq. subst a. exists n. exact Hin.
Qed.

Lemma owns_b_true (live : list (Z * Z)) (x : Z) :
  owns_b live x = true -> exists p n, In (p, n) live /\ p <= x < p + n.
Proof.
  unfold owns_b. intros H. apply existsb_exists in H. destruct H as ([a n] & Hin & Heq).
  cbn in Heq. apply andb_prop in Heq. destruct Heq as [H1 H2].
  apply Z.leb_le in H1. apply Z.ltb_lt in H2. exists a, n. split; [exact Hin|lia].
Qed.

Lemma In_drop (live : list (Z * Z)) (p a m : Z) :
  In (a, m) (drop p live) -> In (a, m) live /\ a <> p.
Proof.
  unfold drop. intros H. apply filter_In in H. destruct H as [Hin Hne].
  split; [exact Hin|]. cbn in Hne. apply negb_true_iff in Hne.
  apply Z.eqb_neq in Hne. exact Hne.
Qed.

Lemma Linv_brk (s : state) (live : list (Z * Z)) :
  Linv s live -> 0 <= mem_start_brk s /\ mem_brk s < WORD_MAX.
Proof.
  intros (blk & fl & I & _). destruct (hk_env s blk (inv_heap _ _ _ I)). lia.
Qed.

(** Every legal request with bounded sizes keeps the invariant and the
    client's bookkeeping sound. *)
Lemma serve_Linv (fuel : nat) (rq : request) (s : state) (live : list (Z * Z))
      (st' : state * list (Z * Z)) :
  Linv s live -> bounded rq -> serve fuel rq (s, live) = Some st' ->
  Linv (fst st') (snd st').
Proof.
  intros HL Hb. pose proof (Linv_brk s live HL) as Hsane.
  destruct HL as (blk & fl & I & Hlive).
  unfold serve. cbn [fst snd].
  destruct (legal_b live rq) eqn:Hlegal; [|discriminate].
  destruct rq as [n|p|p n|nmemb size|x b]; cbn [legal_b bounded] in *.
  - apply size_t_b_true in Hlegal.
    destruct (malloc fuel n s) as [r s1| |] eqn:X; cbn [through]; try discriminate.
    intros [= <-]. cbn [fst snd].
    destruct (malloc_sound fuel s blk fl n r s1 I ltac:(lia) X)
      as (_ & [[-> ->]|(Hrn & blk1 & fl1 & I1 & K1 & Hr & Hra & Hrs & _)]).
    + exists blk, fl. auto.
    + unfold gain. replace (r =? NULL) with false by (symmetry; apply Z.eqb_neq; exact Hrn).
      exists blk1, fl1. split; [exact I1|].
      intros a m [[= <- <-]|Hin].
      * split; [exact Hr|]. split; [exact Hra|]. lia.
      * destruct (Hlive a m Hin) as (Ha & Hal & Hm).
        destruct (K1 a Ha Hal) as (Ha1 & Hal1 & Hs1 & _); [intros []|].
        split; [exact Ha1|]. split; [exact Hal1|]. lia.
  - destruct (Z.eqb_spec p NULL) as [->|Hpn].
    + cbn [free]. change (NULL =? NULL) with true. cbn [through].
      unfold free. change (NULL =? NULL) with true. cbv iota. cbn [ret through].
      intros [= <-]. cbn [fst snd]. exists blk, fl. split; [exact I|].
      intros a m Hin. apply In_drop in Hin. apply Hlive. apply Hin.
    + cbn [orb] in Hlegal. apply held_b_true in Hlegal. destruct Hlegal as (n & Hin).
      destruct (Hlive p n Hin) as (Hp & Hal & _).
      destruct (free_spec s blk fl p I Hp Hal) as (s1 & blk1 & fl1 & X & F & I1 & K).
      rewrite X. cbn [through]. intros [= <-]. cbn [fst snd].
      exists blk1, fl1. split; [exact I1|].
      intros a m Hin'. apply In_drop in Hin'. destruct Hin' as [Hin' Hne].
      destruct (Hlive a m Hin') as (Ha & Hala & Hm).
      destruct (K a Ha Hala Hne) as (Ha1 & Hal1 & Hs1 & _).
      split; [exact Ha1|]. split; [exact Hal1|]. lia.
  - apply andb_prop in Hlegal. destruct Hlegal as [Hsz Hheld].
    apply size_t_b_true in Hsz.
    destruct (Z.eqb_spec p NULL) as [->|Hpn].
    + unfold realloc. rewrite header_of_null_faults by lia. discriminate.
    + cbn [orb] in Hheld. apply held_b_true in Hheld. destruct Hheld as (n0 & Hin).
      destruct (Hlive p n0 Hin) as (Hp & Hal & _).
      destruct (realloc fuel p n s) as [r s1| |] eqn:X; cbn [through]; try discriminate.
      intros [= <-]. cbn [fst snd].
      destruct (realloc_sound fuel s blk fl p n r s1 I Hp Hal ltac:(lia) X)
        as (_ & [(-> & -> & blk1 & fl1 & I1 & K)|
                 [(Hn0 & -> & ->)|(Hn0 & Hrn & blk1 & fl1 & I1 & K & Hr & Hra & Hrs & _)]]).
      * change (0 =? 0) with true. cbv iota.
        exists blk1, fl1. split; [exact I1|].
        intros a m Hin'. apply In_drop in Hin'. destruct Hin' as [Hin' Hne].
        destruct (Hlive a m Hin') as (Ha & Hala & Hm).
        destruct (K a Ha Hala Hne) as (Ha1 & Hal1 & Hs1 & _).
        split; [exact Ha1|]. split; [exact Hal1|]. lia.
      * replace (n =? 0) with false by (symmetry; apply Z.eqb_neq; exact Hn0).
        change (NULL =? NULL) with true. cbv iota. exists blk, fl. auto.
      * replace (n =? 0) with false by (symmetry; apply Z.eqb_neq; exact Hn0).
        replace (r =? NULL) with false by (symmetry; apply Z.eqb_neq; exact Hrn).
        exists blk1, fl1. split; [exact I1|].
        intros a m [[= <- <-]|Hin'].
        -- split; [exact Hr|]. split; [exact Hra|]. lia.
        -- apply In_drop in Hin'. destruct Hin' as [Hin' Hne].
           destruct (Hlive a m Hin') as (Ha & Hala & Hm).
           destruct (K a Ha Hala Hne) as (Ha1 & Hal1 & Hs1 & _).
           split; [exact Ha1|]. split; [exact Hal1|]. lia.
  - apply andb_prop in Hlegal. destruct Hlegal as [Hsz1 Hsz2].
    apply size_t_b_true in Hsz1. apply size_t_b_true in Hsz2.
    assert (Hw : wrap (size * nmemb) = nmemb * size).
    { rewrite Z.mul_comm. apply wrap_small. unfold MAX_REQUEST in Hb. nia. }
    destruct (calloc fuel nmemb size s) as [r s1| |] eqn:X; cbn [through]; try discriminate.
    intros [= <-]. cbn [fst snd].
    destruct (calloc_sound fuel s blk fl nmemb size r s1 I ltac:(lia) X)
      as (_ & [[-> ->]|(Hrn & blk1 & fl1 & I1 & K1 & Hr & Hra & Hrs & _)]).
    + exists blk, fl. auto.
    + unfold gain. replace (r =? NULL) with false by (symmetry; apply Z.eqb_neq; exact Hrn).
      exists blk1, fl1. split; [exact I1|].
      intros a m [[= <- <-]|Hin].
      * split; [exact Hr|]. split; [exact Hra|]. nia.
      * destruct (Hlive a m Hin) as (Ha & Hal & Hm).
        destruct (K1 a Ha Hal) as (Ha1 & Hal1 & Hs1 & _); [intros []|].
        split; [exact Ha1|]. split; [exact Hal1|]. lia.
  - apply owns_b_true in Hlegal. destruct Hlegal as (p & n & Hin & Hx).
    destruct (Hlive p n Hin) as (Hp & Hal & Hm).
    pose proof (inv_heap _ _ _ I) as H.
    destruct (hk_env s blk H) as [E1 E2 E3 E4 E5 E6 E7].
    destruct (hk_blk s blk H p Hp) as (Hp1 & Hp2 & Hp3 & Hp4 & Hp5).
    destruct (poke_ok x b s) as (s1 & X & F & Bo & _); [inh|].
    rewrite X. cbn [through]. intros [= <-]. cbn [fst snd].
    destruct (payload_write s s1 blk fl p I Hp Hal F) as (I1 & _ & Hh).
    { intros y Hy. apply Bo. lia. }
    exists blk, fl. split; [exact I1|].
    intros a m Hin'. destruct (Hlive a m Hin') as (Ha & Hala & Hma).
    destruct (hdr_same_fields s s1 a (Hh a (or_introl Ha))) as (-> & -> & _). auto.
Qed.

(** ** Client histories *)

Lemma reachable_Linv (st : state * list (Z * Z)) :
  reachable bounded st -> Linv (fst st) (snd st).
Proof.
  induction 1 as [s0 s Hf X|st st' rq fuel _ IH Hb X].
  - destruct (mm_init_spec s0 Hf) as (b & s1 & X1 & Ht & _).
    rewrite X in X1. injection X1 as <- <-.
    destruct (Ht eq_refl) as (_ & _ & _ & _ & _ & _ & _ & blk & fl & I & _).
    exists blk, fl. split; [exact I|]. intros p n [].
  - destruct st as [s live]. apply (serve_Linv fuel rq s live st' IH Hb X).
Qed.

Lemma returned_Ok {A} (o : outcome A) : returned o = true -> exists r s', o = Ok r s'.
Proof. destruct o as [r s'| |]; [eauto|discriminate|discriminate]. Qed.

Lemma free_null (s : state) : free NULL s = Ok tt s.
Proof. reflexivity. Qed.

(** Every legal request with bounded sizes returns, given enough fuel; the
    one exception is [realloc] with a null old pointer. *)
Lemma serve_returns (fuel : nat) (rq : request) (s : state) (live : list (Z * Z)) :
  Linv s live -> bounded rq -> legal_b live rq = true -> null_resize rq = false ->
  enough fuel s ->
  exists st', serve fuel rq (s, live) = Some st'.
Proof.
  intros (blk & fl & I & Hlive) Hb Hlegal Hnr Hen.
  unfold serve. cbn [fst snd]. rewrite Hlegal.
  destruct rq as [n|p|p n|nmemb size|x b]; cbn [legal_b bounded null_resize] in *.
  - apply size_t_b_true in Hlegal.
    destruct (malloc_spec fuel s blk fl n I ltac:(lia) Hen) as (r & s1 & X & _).
    rewrite X. eexists. reflexivity.
  - destruct (Z.eqb_spec p NULL) as [->|Hpn].
    + rewrite free_null. eexists. reflexivity.
    + cbn [orb] in Hlegal. apply held_b_true in Hlegal. destruct Hlegal as (n & Hin).
      destruct (Hlive p n Hin) as (Hp & Hal & _).
      destruct (free_spec s blk fl p I Hp Hal) as (s1 & blk1 & fl1 & X & _).
      rewrite X. eexists. reflexivity.
  - apply andb_prop in Hlegal. destruct Hlegal as [Hsz Hheld].
    apply size_t_b_true in Hsz. rewrite Hnr in Hheld. cbn [orb] in Hheld.
    apply held_b_true in Hheld. destruct Hheld as (n0 & Hin).
    destruct (Hlive p n0 Hin) as (Hp & Hal & _).
    destruct (realloc_spec fuel s blk fl p n I Hp Hal ltac:(lia) Hen) as (r & s1 & X & _).
    rewrite X. eexists. reflexivity.
  - apply andb_prop in Hlegal. destruct Hlegal as [Hsz1 Hsz2].
    apply size_t_b_true in Hsz1. apply size_t_b_true in Hsz2.
    assert (Hw : wrap (size * nmemb) = nmemb * size).
    { rewrite Z.mul_comm. apply wrap_small. unfold MAX_REQUEST in Hb. nia. }
    destruct (calloc_spec fuel s blk fl nmemb size I ltac:(lia) Hen) as (r & s1 & X & _).
    rewrite X. eexists. reflexivity.
  - apply owns_b_true in Hlegal. destruct Hlegal as (p & n & Hin & Hx).
    destruct (Hlive p n Hin) as (Hp & Hal & Hm).
    pose proof (inv_heap _ _ _ I) as H.
    destruct (hk_env s blk H) as [E1 E2 E3 E4 E5 E6 E7].
    destruct (hk_blk s blk H p Hp) as (Hp1 & Hp2 & Hp3 & Hp4 & Hp5).
    destruct (poke_ok x b s) as (s1 & X & _); [inh|].
    rewrite X. eexists. reflexivity.
Qed.

Lemma served_reachable (ok : request -> Prop) (fuel : nat) (rqs : list request) :
  forall st, reachable ok st -> Forall ok rqs -> reachable ok (served fuel rqs st).
Proof.
  induction rqs as [|rq rqs IH]; intros st R F; [exact R|].
  inversion F as [|? ? Hrq Hrest]; subst.
  change (served fuel (rq :: rqs) st)
    with (served fuel rqs (match serve fuel rq st with Some st' => st' | None => st end)).
  apply IH; [|exact Hrest].
  destruct (serve fuel rq st) as [st'|] eqn:E; [|exact R].
  apply (after_request ok st st' rq fuel R Hrq E).
Qed.

(** The concrete heap. *)

Lemma fresh_fresh0 : fresh fresh0.
Proof. vm_compute. repeat split; try reflexivity; intros C; discriminate C. Qed.

Lemma init0 : mm_init fresh0 = Ok true heap0.
Proof.
  assert (B : match mm_init fresh0 with Ok b _ => b | _ => false end = true)
    by (vm_compute; reflexivity).
  unfold heap0, started. destruct (mm_init fresh0) as [b s| |]; try discriminate.
  rewrite B. reflexivity.
Qed.

Lemma heap0_reachable (ok : request -> Prop) : reachable ok (heap0, []).
Proof. apply (after_init ok fresh0 heap0 fresh_fresh0 init0). Qed.

Lemma any_requests (rqs : list request) : Forall any_request rqs.
Proof. apply Forall_forall. intros rq _. exact I. Qed.

(** ** C1: the heap after mm_init *)

(** C1. When the provider has room for the index array, the prologue and
    the first extension, [mm_init] returns true and leaves exactly one
    block, which is free.  Its size is 512 bytes, the value of
    [CHUNKSIZE / WSIZE] that [mm_init] passes to [extend_heap], and not the
    4096 bytes of [CHUNKSIZE]. *)
Theorem mm_init_first_block (s0 : state) :
  fresh s0 -> mem_start_brk s0 + 640 <= mem_max_addr s0 ->
  exists s,
    mm_init s0 = Ok true s /\
    (forall a, is_block s a <-> a = heap_listp s) /\
    is_free_block s (heap_listp s) /\
    bsize s (heap_listp s) = 512 /\
    CHUNKSIZE = 4096.
Proof.
  intros Hf Hroom.
  destruct (mm_init_spec s0 Hf) as (b & s & X & Ht & Hb).
  rewrite (Hb Hroom) in *. exists s. split; [exact X|].
  destruct (Ht eq_refl) as (_ & _ & _ & _ & _ & Hs & Ha & blk & fl & I & Hblk).
  pose proof (inv_heap _ _ _ I) as H.
  assert (Hiff : forall a, is_block s a <-> a = heap_listp s).
  { intros a. rewrite (is_block_blk s blk H a). apply Hblk. }
  split; [exact Hiff|]. split; [|split; [exact Hs|reflexivity]].
  split; [apply Hiff; reflexivity|exact Ha].
Qed.

Lemma mm_init_first_block_witness :
  fresh fresh0 /\ mem_start_brk fresh0 + 640 <= mem_max_addr fresh0 /\
  heap_walk 10 heap0 (heap_listp heap0) = [(4224, 512, 0)] /\
  exists s,
    mm_init fresh0 = Ok true s /\
    (forall a, is_block s a <-> a = heap_listp s) /\
    is_free_block s (heap_listp s) /\
    bsize s (heap_listp s) = 512 /\
    CHUNKSIZE = 4096.
Proof.
  assert (Hf : fresh fresh0).
  { vm_compute. repeat split; try reflexivity; intros C; discriminate C. }
  assert (Hr : mem_start_brk fresh0 + 640 <= mem_max_addr fresh0).
  { vm_compute. intros C; discriminate C. }
  split; [exact Hf|]. split; [exact Hr|]. split; [vm_compute; reflexivity|].
  apply (mm_init_first_block fresh0 Hf Hr).
Defined.

(** ** C3: immediate coalescing along client histories *)

(** C3. After a successful [mm_init] and any sequence of legal requests
    whose sizes are at most [MAX_REQUEST] = 2^64 - 32, no free block is
    followed by a free block.  Every such request also returns when the
    fuel outlasts the free lists, except [realloc] with a null pointer. *)
Theorem bounded_requests_no_adjacent_free (st : state * list (Z * Z)) :
  reachable bounded st ->
  no_adjacent_free (fst st) /\
  forall rq fuel,
    bounded rq -> legal_b (snd st) rq = true -> null_resize rq = false ->
    enough fuel (fst st) ->
    exists st', serve fuel rq st = Some st'.
Proof.
  intros R. pose proof (reachable_Linv st R) as HL. split.
  - destruct HL as (blk & fl & I & _). apply Inv_no_adjacent_free. exists blk, fl. exact I.
  - intros rq fuel Hb Hl Hn He. destruct st as [s live].
    apply (serve_returns fuel rq s live HL Hb Hl Hn He).
Qed.

Lemma trace_class2_reachable : reachable bounded trace_class2.
Proof.
  apply served_reachable; [apply heap0_reachable|].
  repeat constructor; vm_compute; intros C; discriminate C.
Qed.

Lemma bounded_requests_no_adjacent_free_witness :
  reachable bounded trace_class2 /\
  no_adjacent_free (fst trace_class2) /\
  exists st',
    serve 40 (Free 4352) trace_class2 = Some st' /\
    bsize (fst st') 4224 = 256 /\ balloc (fst st') 4224 = 0 /\
    no_adjacent_free (fst st').
Proof.
  pose proof trace_class2_reachable as R.
  split; [exact R|].
  destruct (bounded_requests_no_adjacent_free trace_class2 R) as [N Hserve].
  split; [exact N|].
  destruct (Hserve (Free 4352) 40%nat) as (st' & X).
  - exact I.
  - vm_compute. reflexivity.
  - reflexivity.
  - unfold enough. vm_compute. reflexivity.
  - exists st'. split; [exact X|].
    assert (E : match serve 40 (Free 4352) trace_class2 with
                | Some st => (bsize (fst st) 4224, balloc (fst st) 4224)
                | None => (0, 1)
                end = (256, 0)) by (vm_compute; reflexivity).
    rewrite X in E. injection E as E1 E2.
    split; [exact E1|]. split; [exact E2|].
    apply (bounded_requests_no_adjacent_free st').
    apply (after_request bounded trace_class2 st' (Free 4352) 40%nat R I X).
Defined.

(** Counterexample to C3 as stated: [malloc (2^64 - 8)] computes the
    adjusted size 16 and hands out a block of 16 bytes; when it is freed its
    prev-link is written over the header that follows.  The block at 4224
    is then free, and the header after it reads as size 0 with the
    allocation bit clear. *)
Lemma wrapped_request_adjacent_free :
  reachable any_request trace_wrap_free /\
  is_free_block (fst trace_wrap_free) 4224 /\
  bsize (fst trace_wrap_free) 4224 = 16 /\
  balloc (fst trace_wrap_free) (4224 + 16) = 0 /\
  ~ no_adjacent_free (fst trace_wrap_free).
Proof.
  assert (F : is_free_block (fst trace_wrap_free) 4224).
  { assert (E : heap_listp (fst trace_wrap_free) = 4224) by (vm_compute; reflexivity).
    pose proof (reach_first (fst trace_wrap_free)) as R. rewrite E in R.
    split; [split; [exact R|]|].
    - vm_compute. intros C; discriminate C.
    - vm_compute. reflexivity. }
  split; [apply served_reachable; [apply heap0_reachable|apply any_requests]|].
  split; [exact F|]. split; [vm_compute; reflexivity|]. split; [vm_compute; reflexivity|].
  intros N. specialize (N 4224 F). vm_compute in N. discriminate N.
Qed.

(** ** C5: alignment of the addresses handed out *)

Lemma INV_aligned (s : state) (blk : Z -> Prop) (fl : Z -> list Z) (r : Z) :
  INV s blk fl -> blk r -> r mod 16 = 0.
Proof.
  intros I Hr. destruct (hk_blk s blk (inv_heap _ _ _ I) r Hr) as (_ & ? & _). assumption.
Qed.

Lemma held_block (s : state) (live : list (Z * Z)) (p : Z) :
  Linv s live -> held_b live p = true ->
  exists blk fl, INV s blk fl /\ blk p /\ balloc s p = 1.
Proof.
  intros (blk & fl & I & Hlive) Hh. apply held_b_true in Hh. destruct Hh as (n & Hin).
  destruct (Hlive p n Hin) as (Hp & Hal & _). exists blk, fl. auto.
Qed.

(** C5. After a successful [mm_init] on a region that starts at a multiple
    of 16, and legal requests whose sizes are at most [MAX_REQUEST], every
    address returned by [malloc], [realloc] or [calloc] for a size of at
    most [MAX_REQUEST] is a multiple of 16 (null included), and with enough
    fuel these calls return. *)
Theorem bounded_requests_aligned (st : state * list (Z * Z)) (fuel : nat) :
  reachable bounded st ->
  (forall n r s', 0 <= n <= MAX_REQUEST ->
                  malloc fuel n (fst st) = Ok r s' -> r mod 16 = 0) /\
  (forall p n r s', held_b (snd st) p = true -> 0 <= n <= MAX_REQUEST ->
                    realloc fuel p n (fst st) = Ok r s' -> r mod 16 = 0) /\
  (forall nmemb size r s', wrap (size * nmemb) <= MAX_REQUEST ->
                           calloc fuel nmemb size (fst st) = Ok r s' -> r mod 16 = 0) /\
  (enough fuel (fst st) ->
   (forall n, 0 <= n <= MAX_REQUEST -> returned (malloc fuel n (fst st)) = true) /\
   (forall p n, held_b (snd st) p = true -> 0 <= n <= MAX_REQUEST ->
                returned (realloc fuel p n (fst st)) = true) /\
   (forall nmemb size, wrap (size * nmemb) <= MAX_REQUEST ->
                       returned (calloc fuel nmemb size (fst st)) = true)).
Proof.
  intros R. pose proof (reachable_Linv st R) as HL.
  destruct st as [s live]. cbn [fst snd] in *.
  pose proof HL as (blk & fl & I & Hlive).
  split; [|split; [|split]].
  - intros n r s' Hn X.
    destruct (malloc_sound fuel s blk fl n r s' I Hn X)
      as (_ & [[-> _]|(_ & blk1 & fl1 & I1 & _ & Hr & _)]); [reflexivity|].
    apply (INV_aligned s' blk1 fl1 r I1 Hr).
  - intros p n r s' Hh Hn X.
    destruct (held_block s live p HL Hh) as (blk0 & fl0 & I0 & Hp & Hal).
    destruct (realloc_sound fuel s blk0 fl0 p n r s' I0 Hp Hal Hn X)
      as (_ & [(_ & -> & _)|[(_ & -> & _)|(_ & _ & blk1 & fl1 & I1 & _ & Hr & _)]]);
      [reflexivity|reflexivity|].
    apply (INV_aligned s' blk1 fl1 r I1 Hr).
  - intros nmemb size r s' Hn X.
    destruct (calloc_sound fuel s blk fl nmemb size r s' I Hn X)
      as (_ & [[-> _]|(_ & blk1 & fl1 & I1 & _ & Hr & _)]); [reflexivity|].
    apply (INV_aligned s' blk1 fl1 r I1 Hr).
  - intros He. split; [|split].
    + intros n Hn. destruct (malloc_spec fuel s blk fl n I Hn He) as (r & s1 & X & _).
      rewrite X. reflexivity.
    + intros p n Hh Hn.
      destruct (held_block s live p HL Hh) as (blk0 & fl0 & I0 & Hp & Hal).
      destruct (realloc_spec fuel s blk0 fl0 p n I0 Hp Hal Hn He) as (r & s1 & X & _).
      rewrite X. reflexivity.
    + intros nmemb size Hn.
      destruct (calloc_spec fuel s blk fl nmemb size I Hn He) as (r & s1 & X & _).
      rewrite X. reflexivity.
Qed.

Lemma bounded_requests_aligned_witness :
  reachable bounded trace_one /\
  result (malloc 10 40 (fst trace_one)) mod 16 = 0 /\
  result (malloc 10 40 (fst trace_one)) <> NULL.
Proof.
  assert (R : reachable bounded trace_one).
  { apply served_reachable; [apply (after_init bounded fresh0 heap0)|].
    - vm_compute. repeat split; try reflexivity; intros C; discriminate C.
    - apply init0.
    - constructor; [|constructor]. vm_compute. intros C; discriminate C. }
  split; [exact R|]. split; [|vm_compute; intros C; discriminate C].
  destruct (bounded_requests_aligned trace_one 10%nat R) as (Hm & _).
  destruct (malloc 10 40 (fst trace_one)) as [r s'| |] eqn:X; [|reflexivity|reflexivity].
  cbn [result]. apply (Hm 40 r s'); [|exact X].
  vm_compute. split; intros C; discriminate C.
Defined.

(** Counterexample to C5 as stated: after [malloc (2^64 - 16)], whose
    adjusted size wraps to 0, the block at 4224 is handed out while it stays
    on its free list; the client writes into it, and the next [malloc 1]
    follows the overwritten link and returns 4264, which is 8 modulo 16. *)
Lemma wrapped_request_misaligned :
  reachable any_request trace_wrap_poke /\
  exists r s',
    malloc 10 1 (fst trace_wrap_poke) = Ok r s' /\ r = 4264 /\ r mod 16 <> 0.
Proof.
  split; [apply served_reachable; [apply heap0_reachable|apply any_requests]|].
  assert (E : result (malloc 10 1 (fst trace_wrap_poke)) = 4264) by (vm_compute; reflexivity).
  destruct (malloc 10 1 (fst trace_wrap_poke)) as [r s'| |]; cbn [result] in E;
    [|discriminate E|discriminate E].
  exists r, s'. split; [reflexivity|]. split; [exact E|].
  rewrite E. vm_compute. intros C; discriminate C.
Qed.

(** ** C8: contents across realloc *)

(** C8. After a successful [mm_init] and legal requests with sizes at most
    [MAX_REQUEST]: for a held block [p] and a size [n] with 0 < n <=
    [MAX_REQUEST], if [realloc p n] returns a non-null [q], then the first
    min(capacity of p, n) bytes at [q] are the bytes that were at [p], the
    capacity being the block size less the header word.  With enough fuel
    the call returns. *)
Theorem realloc_keeps_contents (st : state * list (Z * Z)) (fuel : nat) (p n : Z) :
  reachable bounded st -> held_b (snd st) p = true -> 0 < n <= MAX_REQUEST ->
  (enough fuel (fst st) -> returned (realloc fuel p n (fst st)) = true) /\
  forall q s',
    realloc fuel p n (fst st) = Ok q s' -> q <> NULL ->
    forall i, 0 <= i < Z.min (bsize (fst st) p - 8) n ->
              mem_bytes s' (q + i) = mem_bytes (fst st) (p + i).
Proof.
  intros R Hh Hn. pose proof (reachable_Linv st R) as HL.
  destruct st as [s live]. cbn [fst snd] in *.
  destruct (held_block s live p HL Hh) as (blk & fl & I & Hp & Hal).
  split.
  - intros He.
    destruct (realloc_spec fuel s blk fl p n I Hp Hal ltac:(lia) He) as (r & s1 & X & _).
    rewrite X. reflexivity.
  - intros q s' X Hq i Hi.
    destruct (realloc_sound fuel s blk fl p n q s' I Hp Hal ltac:(lia) X)
      as (_ & [(_ & -> & _)|[(_ & -> & _)|(_ & _ & blk1 & fl1 & _ & _ & _ & _ & _ & Hc)]]);
      [contradiction|contradiction|].
    apply Hc; lia.
Qed.

Lemma realloc_keeps_contents_witness :
  reachable bounded trace_three /\ held_b (snd trace_three) 4288 = true /\
  mem_bytes (fst trace_three) (4288 + 8) = Byte.xff /\
  exists q s',
    realloc 10 4288 40 (fst trace_three) = Ok q s' /\ q = 4320 /\
    mem_bytes s' (q + 8) = Byte.xff /\
    forall i, 0 <= i < 24 ->
              mem_bytes s' (q + i) = mem_bytes (fst trace_three) (4288 + i).
Proof.
  assert (R : reachable bounded trace_three).
  { apply served_reachable; [apply heap0_reachable|].
    repeat constructor; vm_compute; intros C; discriminate C. }
  assert (Hh : held_b (snd trace_three) 4288 = true) by (vm_compute; reflexivity).
  assert (Hn : 0 < 40 <= MAX_REQUEST) by (vm_compute; split; [reflexivity|intros C; discriminate C]).
  assert (Hb : mem_bytes (fst trace_three) (4288 + 8) = Byte.xff) by (vm_compute; reflexivity).
  assert (Hm : Z.min (bsize (fst trace_three) 4288 - 8) 40 = 24) by (vm_compute; reflexivity).
  split; [exact R|]. split; [exact Hh|]. split; [exact Hb|].
  destruct (realloc_keeps_contents trace_three 10%nat 4288 40 R Hh Hn) as [_ Hc].
  assert (E : result (realloc 10 4288 40 (fst trace_three)) = 4320)
    by (vm_compute; reflexivity).
  destruct (realloc 10 4288 40 (fst trace_three)) as [q s'| |] eqn:X;
    cbn [result] in E; [|discriminate E|discriminate E].
  assert (Hq : q <> NULL) by (rewrite E; discriminate).
  pose proof (Hc q s' eq_refl Hq) as Hcopy. rewrite Hm in Hcopy.
  exists q, s'. split; [reflexivity|]. split; [exact E|].
  split; [rewrite (Hcopy 8) by lia; exact Hb|exact Hcopy].
Defined.

(** Counterexample to C8 as stated: with blocks at 4224 (free), 4256 and
    4288 (held, 24 bytes of capacity, byte 8 set to 0xff),
    [realloc 4288 (2^64 - 16)] asks [malloc] for a size that wraps to the
    adjusted size 0; it returns the free block 4224 without taking it off
    its list, and the release of 4288 then rewrites the links of 4224.
    Byte 8 of the result is 0, not the 0xff of the old block. *)
Lemma wrapped_resize_loses_contents :
  reachable any_request trace_three /\
  held_b (snd trace_three) 4288 = true /\
  exists q s',
    realloc 10 4288 (2 ^ 64 - 16) (fst trace_three) = Ok q s' /\
    q = 4224 /\
    0 <= 8 < Z.min (bsize (fst trace_three) 4288 - 8) (2 ^ 64 - 16) /\
    mem_bytes (fst trace_three) (4288 + 8) = Byte.xff /\
    mem_bytes s' (q + 8) = Byte.x00.
Proof.
  split; [apply served_reachable; [apply heap0_reachable|apply any_requests]|].
  split; [vm_compute; reflexivity|].
  assert (E : result (realloc 10 4288 (2 ^ 64 - 16) (fst trace_three)) = 4224)
    by (vm_compute; reflexivity).
  assert (B : mem_bytes (state_after (realloc 10 4288 (2 ^ 64 - 16) (fst trace_three))
                                     (fst trace_three)) (4224 + 8) = Byte.x00)
    by (vm_compute; reflexivity).
  destruct (realloc 10 4288 (2 ^ 64 - 16) (fst trace_three)) as [q s'| |];
    cbn [result state_after] in E, B; [|discriminate E|discriminate E].
  exists q, s'. split; [reflexivity|]. split; [exact E|].
  split; [vm_compute; split; [intros C; discriminate C|reflexivity]|].
  split; [vm_compute; reflexivity|]. rewrite E. exact B.
Qed.

(** ** C9: the size requested by calloc *)

(** C9. [calloc nmemb size] asks [malloc] for the product reduced modulo
    2^64.  After a successful [mm_init] and legal requests with sizes at
    most [MAX_REQUEST]: when the reduced product is at most [MAX_REQUEST],
    a non-null result is an allocated block whose capacity is at least the
    reduced product, and that many bytes of it are zero; with enough fuel
    the call returns. *)
Theorem calloc_wrapped_size (st : state * list (Z * Z)) (fuel : nat) (nmemb size : Z) :
  reachable bounded st -> wrap (size * nmemb) <= MAX_REQUEST ->
  (enough fuel (fst st) -> returned (calloc fuel nmemb size (fst st)) = true) /\
  forall r s',
    calloc fuel nmemb size (fst st) = Ok r s' -> r <> NULL ->
    is_alloc_block s' r /\ wrap (size * nmemb) <= bsize s' r - 8 /\
    forall i, 0 <= i < wrap (size * nmemb) -> mem_bytes s' (r + i) = Byte.x00.
Proof.
  intros R Hn. pose proof (reachable_Linv st R) as HL.
  destruct st as [s live]. cbn [fst snd] in *.
  destruct HL as (blk & fl & I & _).
  split.
  - intros He. destruct (calloc_spec fuel s blk fl nmemb size I Hn He) as (r & s1 & X & _).
    rewrite X. reflexivity.
  - intros r s' X Hr.
    destruct (calloc_sound fuel s blk fl nmemb size r s' I Hn X)
      as (_ & [[-> _]|(_ & blk1 & fl1 & I1 & _ & Hb & Ha & Hs & _ & Hz)]);
      [contradiction|].
    split; [|split; [lia|exact Hz]].
    split; [|exact Ha]. apply (is_block_blk s' blk1 (inv_heap _ _ _ I1)). exact Hb.
Qed.

Lemma calloc_wrapped_size_witness :
  reachable bounded trace_refill /\ wrap (2 * (2 ^ 63 + 12)) = 24 /\
  mem_bytes (fst trace_refill) (4224 + 20) = Byte.xff /\
  exists r s',
    calloc 10 (2 ^ 63 + 12) 2 (fst trace_refill) = Ok r s' /\ r = 4224 /\
    is_alloc_block s' r /\ 24 <= bsize s' r - 8 /\
    mem_bytes s' (r + 20) = Byte.x00 /\
    forall i, 0 <= i < 24 -> mem_bytes s' (r + i) = Byte.x00.
Proof.
  assert (R : reachable bounded trace_refill).
  { apply served_reachable; [apply heap0_reachable|].
    repeat constructor; vm_compute; intros C; discriminate C. }
  assert (Ew : wrap (2 * (2 ^ 63 + 12)) = 24) by (vm_compute; reflexivity).
  assert (Hn : wrap (2 * (2 ^ 63 + 12)) <= MAX_REQUEST)
    by (vm_compute; intros C; discriminate C).
  split; [exact R|]. split; [exact Ew|]. split; [vm_compute; reflexivity|].
  destruct (calloc_wrapped_size trace_refill 10%nat (2 ^ 63 + 12) 2 R Hn) as [_ Hres].
  assert (E : result (calloc 10 (2 ^ 63 + 12) 2 (fst trace_refill)) = 4224)
    by (vm_compute; reflexivity).
  destruct (calloc 10 (2 ^ 63 + 12) 2 (fst trace_refill)) as [r s'| |] eqn:X;
    cbn [result] in E; [|discriminate E|discriminate E].
  destruct (Hres r s' eq_refl) as (A & B & Z0).
  - rewrite E. discriminate.
  - rewrite Ew in B, Z0.
    exists r, s'. split; [reflexivity|]. split; [exact E|]. split; [exact A|].
    split; [exact B|]. split; [apply Z0; lia|exact Z0].
Defined.

(** Counterexample to C9 as stated: [calloc (2^63 + 1) 2] on the fresh heap
    multiplies to 2^64 + 2, which [size_t] arithmetic reduces to 2; the
    result is a block of 32 bytes, far less than the product. *)
Lemma calloc_product_wraps :
  reachable any_request (heap0, []) /\
  exists r s',
    calloc 10 (2 ^ 63 + 1) 2 heap0 = Ok r s' /\ r <> NULL /\
    bsize s' r = 32 /\ bsize s' r - 8 < (2 ^ 63 + 1) * 2.
Proof.
  split; [apply heap0_reachable|].
  assert (E : result (calloc 10 (2 ^ 63 + 1) 2 heap0) = 4224) by (vm_compute; reflexivity).
  assert (B : bsize (state_after (calloc 10 (2 ^ 63 + 1) 2 heap0) heap0) 4224 = 32)
    by (vm_compute; reflexivity).
  destruct (calloc 10 (2 ^ 63 + 1) 2 heap0) as [r s'| |];
    cbn [result state_after] in E, B; [|discriminate E|discriminate E].
  exists r, s'. split; [reflexivity|]. rewrite E. split; [discriminate|].
  split; [exact B|]. rewrite B. vm_compute. reflexivity.
Qed.

(** ** Instances on the concrete heap *)

Lemma realloc_null_reads_header_witness :
  mem_brk heap0 < WORD_MAX /\ realloc 10 NULL 24 heap0 = Fault /\
  returned (malloc 10 24 heap0) = true.
Proof.
  assert (H : mem_brk heap0 < WORD_MAX) by (vm_compute; reflexivity).
  split; [exact H|]. split; [|vm_compute; reflexivity].
  apply (realloc_null_reads_header 10%nat heap0 24 H).
Defined.

Lemma find_fit_best_fit_witness :
  sane (fst trace_class2) /\ class_of_spec 64 = 1 /\
  bsize (fst trace_class2) 4624 = 48 /\
  exists r,
    find_fit 10 64 (fst trace_class2) = Ok r (fst trace_class2) /\
    r = 4512 /\ bsize (fst trace_class2) r = 80 /\
    forall x, In x [4224; 4384; 4512] -> 64 <= bsize (fst trace_class2) x ->
              bsize (fst trace_class2) r <= bsize (fst trace_class2) x.
Proof.
  assert (H1 : sane (fst trace_class2))
    by (vm_compute; split; [intros C; discriminate C|reflexivity]).
  assert (H2 : 0 <= 64 < WORD_MAX) by (vm_compute; split; [intros C; discriminate C|reflexivity]).
  assert (H3 : in_heap_range (fst trace_class2) (seg_listp (fst trace_class2)) 96 = true)
    by (vm_compute; reflexivity).
  split; [exact H1|]. split; [reflexivity|]. split; [vm_compute; reflexivity|].
  destruct (find_fit_best_fit (fst trace_class2) 10%nat 64
              (fun k => if k =? 1 then [4624]
                        else if k =? 2 then [4224; 4384; 4512] else [])
              H1 H2 H3) as [_ Hsome].
  destruct (Hsome 2) as (r & X & Hin & Hfit & Hbest).
  - vm_compute. split; [intros C; discriminate C|reflexivity].
  - intros k Hk. change (class_of_spec 64) with 1 in Hk.
    assert (Hc : k = 1) by lia. subst k. cbn [Z.eqb Pos.eqb].
    split; [split|split].
    + vm_compute. repeat split; try reflexivity; intros C; discriminate C.
    + intros x [<-|[]]. vm_compute. split; intros C; discriminate C.
    + cbn. lia.
    + intros x [<-|[]]. vm_compute. reflexivity.
  - cbn [Z.eqb Pos.eqb]. split.
    + vm_compute. repeat split; try reflexivity; intros C; discriminate C.
    + intros x [<-|[<-|[<-|[]]]]; vm_compute; split; intros C; discriminate C.
  - cbn. lia.
  - exists 4512. split; [right; right; left; reflexivity|].
    vm_compute. intros C; discriminate C.
  - cbn [Z.eqb Pos.eqb] in Hin, Hbest.
    assert (E : result (find_fit 10 64 (fst trace_class2)) = 4512)
      by (vm_compute; reflexivity).
    rewrite X in E. cbn [result] in E.
    exists r. split; [exact X|]. split; [exact E|].
    split; [rewrite E; vm_compute; reflexivity|exact Hbest].
Defined.

Lemma seglist_delete_sole_element_witness :
  sane heap0 /\ in_heap_range heap0 4224 16 = true /\
  in_heap_range heap0 (seg_listp heap0) (SEGLIST_CLASSES * WSIZE) = true /\
  word_at heap0 4224 = NULL /\ word_at heap0 (4224 + WSIZE) = NULL /\
  exists s',
    seglist_delete 4224 512 heap0 = Ok tt s' /\
    word_at s' (class_slot heap0 (get_segclass_ind 512)) = NULL.
Proof.
  assert (H1 : sane heap0) by (vm_compute; split; [intros C; discriminate C|reflexivity]).
  assert (H2 : in_heap_range heap0 4224 16 = true) by (vm_compute; reflexivity).
  assert (H3 : in_heap_range heap0 (seg_listp heap0) (SEGLIST_CLASSES * WSIZE) = true)
    by (vm_compute; reflexivity).
  assert (H4 : word_at heap0 4224 = NULL) by (vm_compute; reflexivity).
  assert (H5 : word_at heap0 (4224 + WSIZE) = NULL) by (vm_compute; reflexivity).
  split; [exact H1|]. split; [exact H2|]. split; [exact H3|]. split; [exact H4|].
  split; [exact H5|].
  destruct (seglist_delete_sole_element heap0 4224 512 H1 H2 H3 H4 H5)
    as (s' & X & _ & W & _).
  exists s'. split; [exact X|exact W].
Defined.

Lemma place_no_split_next_header_witness :
  sane (fst trace_hole) /\
  wrap (bsize (fst trace_hole) 4224 - 32) < 2 * DSIZE /\
  0 < bsize (fst trace_hole) 4224 /\
  bprev (fst trace_hole) 4256 = 0 /\
  exists s',
    place 4224 32 (fst trace_hole) = Ok tt s' /\
    bprev s' 4256 = 2 /\ bsize s' 4256 = 32 /\ balloc s' 4256 = 1.
Proof.
  assert (H1 : sane (fst trace_hole))
    by (vm_compute; split; [intros C; discriminate C|reflexivity]).
  assert (H2 : wrap (bsize (fst trace_hole) 4224 - 32) < 2 * DSIZE) by (vm_compute; reflexivity).
  assert (H3 : 0 < bsize (fst trace_hole) 4224) by (vm_compute; reflexivity).
  assert (H4 : in_heap_range (fst trace_hole) (4224 - WSIZE) 24 = true)
    by (vm_compute; reflexivity).
  assert (H5 : in_heap_range (fst trace_hole)
                 (4224 + bsize (fst trace_hole) 4224 - WSIZE) 8 = true)
    by (vm_compute; reflexivity).
  assert (H6 : forall w, In w (unlink_writes (fst trace_hole) 4224
                                 (bsize (fst trace_hole) 4224)) ->
                 in_heap_range (fst trace_hole) w 8 = true /\
                 word_disjoint (4224 - WSIZE) w /\
                 word_disjoint (4224 + bsize (fst trace_hole) 4224 - WSIZE) w).
  { intros w Hw.
    assert (Ew : unlink_writes (fst trace_hole) 4224 (bsize (fst trace_hole) 4224) = [4096])
      by (vm_compute; reflexivity).
    rewrite Ew in Hw. destruct Hw as [<-|[]].
    split; [vm_compute; reflexivity|].
    split; vm_compute; right; intros C; discriminate C. }
  split; [exact H1|]. split; [exact H2|]. split; [exact H3|].
  split; [vm_compute; reflexivity|].
  destruct (place_no_split_next_header (fst trace_hole) 4224 32 H1 H2 H3 H4 H5 H6)
    as (s' & X & _ & Hp & Hs & Ha).
  assert (E : 4224 + bsize (fst trace_hole) 4224 = 4256) by (vm_compute; reflexivity).
  rewrite E in Hp, Hs, Ha.
  exists s'. split; [exact X|]. split; [exact Hp|].
  split; [rewrite Hs; vm_compute; reflexivity|rewrite Ha; vm_compute; reflexivity].
Defined.

(** * Further properties of mm.c *)

(** ** align and aligned *)

Lemma align_wraps (x : Z) : WORD_MAX - 16 < x < WORD_MAX -> align x = 0.
Proof.
  intros H. unfold align, ALIGNMENT. pose proof WORD_MAX_eq as HW.
  assert (E : wrap (x + 16) = x + 16 - WORD_MAX).
  { unfold wrap. symmetry. apply (Z.mod_unique (x + 16) WORD_MAX 1); lia. }
  rewrite E. rewrite (wrap_small (x + 16 - WORD_MAX - 1)) by lia.
  rewrite Z.div_small by lia. reflexivity.
Qed.

(** X1. [align] rounds a [size_t] value up to the next multiple of 16 as
    long as that multiple fits in 64 bits, that is up to 2^64 - 16; on the
    fifteen values above, [x + ALIGNMENT - 1] wraps around and the result
    is 0. *)
Theorem align_rounds_up (x : Z) :
  0 <= x < WORD_MAX ->
  (x <= WORD_MAX - 16 ->
   x <= align x < x + 16 /\ align x mod 16 = 0 /\
   forall m, x <= m -> m mod 16 = 0 -> align x <= m) /\
  (WORD_MAX - 16 < x -> align x = 0).
Proof.
  intros Hx. split.
  - intros Hle. destruct (align_facts x) as (A1 & A2 & A3); [lia|].
    split; [lia|]. split; [exact A2|].
    intros m Hm Hm16. zlia.
  - intros Hgt. apply align_wraps. lia.
Qed.

Lemma align_rounds_up_witness :
  0 <= 17 < WORD_MAX /\ align 17 = 32 /\ align 32 = 32 /\
  align (WORD_MAX - 16) = WORD_MAX - 16 /\ align (WORD_MAX - 15) = 0.
Proof.
  assert (H : 0 <= 17 < WORD_MAX) by (vm_compute; split; [intros C; discriminate C|reflexivity]).
  split; [exact H|].
  destruct (align_rounds_up 17 H) as [Hup _].
  split; [|vm_compute; auto].
  destruct Hup as (A1 & A2 & A3); [vm_compute; intros C; discriminate C|].
  vm_compute. reflexivity.
Defined.

(** X2. [aligned p] holds exactly when the pointer value is a multiple of
    16, over the whole 64-bit range: on the top fifteen values, where
    [align] wraps to 0, the value is not a multiple of 16 either. *)
Theorem aligned_iff_multiple_of_16 (p : Z) :
  0 <= p < WORD_MAX -> (aligned p = true <-> p mod 16 = 0).
Proof.
  intros Hp. unfold aligned. rewrite Z.eqb_eq.
  destruct (Z_le_gt_dec p (WORD_MAX - 16)) as [Hle|Hgt].
  - destruct (align_facts p) as (A1 & A2 & A3); [lia|].
    split; [intros E; rewrite <- E; exact A2|].
    intros Hm. rewrite align_exact by (assumption || lia). reflexivity.
  - rewrite align_wraps by lia. rewrite WORD_MAX_eq in *. split; intros E; zlia.
Qed.

Lemma aligned_iff_multiple_of_16_witness :
  0 <= 4224 < WORD_MAX /\ (aligned 4224 = true <-> 4224 mod 16 = 0) /\
  aligned 4224 = true /\ aligned 4232 = false.
Proof.
  assert (H : 0 <= 4224 < WORD_MAX)
    by (vm_compute; split; [intros C; discriminate C|reflexivity]).
  split; [exact H|]. split; [exact (aligned_iff_multiple_of_16 4224 H)|].
  vm_compute. auto.
Defined.

(** ** Size classes *)

Lemma get_segclass_ind_mono (a b : Z) :
  a <= b -> get_segclass_ind a <= get_segclass_ind b.
Proof.
  intros H. unfold get_segclass_ind.
  repeat match goal with
         | |- context [?x <=? ?y] => destruct (Z.leb_spec x y)
         end; lia.
Qed.

(** X3. [get_segclass_ind] maps every size to one of the twelve classes:
    class 0 holds the sizes up to 32, class i for 0 < i < 11 the sizes in
    (16 * 2^i, 32 * 2^i], class 11 the sizes above 32768; a larger size
    never gets a smaller class. *)
Theorem get_segclass_ind_classes :
  (forall size,
     0 <= get_segclass_ind size < 12 /\
     (get_segclass_ind size = 0 <-> size <= 32) /\
     (get_segclass_ind size = 11 <-> 32768 < size) /\
     (0 < get_segclass_ind size < 11 ->
      16 * 2 ^ get_segclass_ind size < size <= 32 * 2 ^ get_segclass_ind size)) /\
  (forall a b, a <= b -> get_segclass_ind a <= get_segclass_ind b).
Proof.
  split; [|exact get_segclass_ind_mono].
  intros size. unfold get_segclass_ind.
  repeat match goal with
         | |- context [?x <=? ?y] => destruct (Z.leb_spec x y)
         end;
    (split; [lia|]; split; [split; intros; lia|]; split; [split; intros; lia|];
     intros Hi; cbn; lia).
Qed.

(** ** Header words *)

Lemma GET_SIZE_run (p : Z) (s : state) :
  in_heap_range s p 8 = true -> GET_SIZE p s = Ok (Z.land (word_at s p) SIZE_MASK) s.
Proof. intros H. unfold GET_SIZE. rewrite GET_bind by exact H. reflexivity. Qed.

Lemma GET_ALLOC_run (p : Z) (s : state) :
  in_heap_range s p 8 = true -> GET_ALLOC p s = Ok (Z.land (word_at s p) 1) s.
Proof. intros H. unfold GET_ALLOC. rewrite GET_bind by exact H. reflexivity. Qed.

Lemma PREV_ALLOC_run (p : Z) (s : state) :
  in_heap_range s p 8 = true -> PREV_ALLOC p s = Ok (Z.land (word_at s p) 2) s.
Proof. intros H. unfold PREV_ALLOC. rewrite GET_bind by exact H. reflexivity. Qed.

(** X4. A header word round trip: after [PUT p (PACK size flags)] with a
    size that is a multiple of 8 and flags below 8, [GET_SIZE] reads the
    size back, [GET_ALLOC] the bit 0 and [PREV_ALLOC] the bit 1 of the
    flags, and every word that does not overlap [p] is unchanged. *)
Theorem header_round_trip (s : state) (p size flags : Z) :
  in_heap_range s p 8 = true ->
  0 <= size < WORD_MAX -> size mod 8 = 0 -> 0 <= flags < 8 ->
  exists s',
    PUT p (PACK size flags) s = Ok tt s' /\
    GET_SIZE p s' = Ok size s' /\
    GET_ALLOC p s' = Ok (Z.land flags 1) s' /\
    PREV_ALLOC p s' = Ok (Z.land flags 2) s' /\
    forall w, word_disjoint w p -> word_at s' w = word_at s w.
Proof.
  intros Hr Hs Hm Hf. exists (put s p (PACK size flags)).
  assert (Hr' : in_heap_range (put s p (PACK size flags)) p 8 = true) by exact Hr.
  assert (W : word_at (put s p (PACK size flags)) p = PACK size flags).
  { apply put_word_same. apply pack_range; assumption. }
  split; [apply PUT_put_ok; exact Hr|].
  split; [rewrite GET_SIZE_run, W by exact Hr'; f_equal; apply pack_size; assumption|].
  split; [rewrite GET_ALLOC_run, W by exact Hr'; f_equal; apply pack_low; lia|].
  split; [rewrite PREV_ALLOC_run, W by exact Hr'; f_equal; apply pack_low; lia|].
  intros w Hw. apply put_word_other. unfold word_disjoint in Hw. lia.
Qed.

Lemma header_round_trip_witness :
  in_heap_range heap0 4216 8 = true /\
  exists s',
    PUT 4216 (PACK 48 3) heap0 = Ok tt s' /\
    GET_SIZE 4216 s' = Ok 48 s' /\
    GET_ALLOC 4216 s' = Ok 1 s' /\
    PREV_ALLOC 4216 s' = Ok 2 s'.
Proof.
  assert (H : in_heap_range heap0 4216 8 = true) by (vm_compute; reflexivity).
  split; [exact H|].
  destruct (header_round_trip heap0 4216 48 3 H) as (s' & X & A & B & C & _).
  - vm_compute. split; [intros C; discriminate C|reflexivity].
  - vm_compute. reflexivity.
  - vm_compute. split; [intros C; discriminate C|reflexivity].
  - exists s'. auto.
Defined.

(** ** The heap along client histories *)

Lemma reachable_INV (st : state * list (Z * Z)) :
  reachable bounded st ->
  exists blk fl,
    INV (fst st) blk fl /\
    (forall a, is_block (fst st) a <-> blk a) /\
    (forall p n, In (p, n) (snd st) ->
                 blk p /\ balloc (fst st) p = 1 /\ 0 <= n <= bsize (fst st) p - 8).
Proof.
  intros R. destruct (reachable_Linv st R) as (blk & fl & I & Hlive).
  exists blk, fl. split; [exact I|]. split; [|exact Hlive].
  intros a. apply (is_block_blk (fst st) blk (inv_heap _ _ _ I)).
Qed.

Lemma bounded_small (rqs : list request) :
  forallb (fun rq => match rq with
                     | Malloc n | Realloc _ n => n <=? MAX_REQUEST
                     | Calloc a b => a * b <=? MAX_REQUEST
                     | Free _ | Poke _ _ => true
                     end) rqs = true ->
  Forall bounded rqs.
Proof.
  intros H. apply Forall_forall. intros rq Hin.
  rewrite forallb_forall in H. specialize (H rq Hin).
  destruct rq; cbn [bounded]; try exact I; apply Z.leb_le; exact H.
Qed.

Lemma trace_two_freed_reachable : reachable bounded trace_two_freed.
Proof.
  apply served_reachable; [apply heap0_reachable|].
  apply bounded_small. vm_compute. reflexivity.
Qed.

Lemma trace_one_bounded : reachable bounded trace_one.
Proof.
  apply served_reachable; [apply heap0_reachable|].
  apply bounded_small. vm_compute. reflexivity.
Qed.

(** X5. After a successful [mm_init] and legal requests of bounded size the
    blocks tile the heap: the traversal from [heap_listp] meets blocks at
    multiples of 16, of sizes that are multiples of 16 and at least 32,
    each ending where the next one or the epilogue starts, inside the
    region; the prev-alloc bit of the following header mirrors the
    allocation bit, the footer of a free block repeats its size, and the
    epilogue at the break has size 0 and is marked allocated. *)
Theorem reachable_heap_layout (st : state * list (Z * Z)) :
  reachable bounded st ->
  (forall a, is_block (fst st) a ->
     heap_listp (fst st) <= a /\ a mod 16 = 0 /\
     32 <= bsize (fst st) a /\ bsize (fst st) a mod 16 = 0 /\
     a + bsize (fst st) a <= mem_brk (fst st) /\
     (is_block (fst st) (a + bsize (fst st) a) \/
      a + bsize (fst st) a = mem_brk (fst st)) /\
     bprev (fst st) (a + bsize (fst st) a) = 2 * balloc (fst st) a /\
     (balloc (fst st) a = 0 ->
      Z.land (word_at (fst st) (a + bsize (fst st) a - 16)) SIZE_MASK =
      bsize (fst st) a)) /\
  (is_block (fst st) (heap_listp (fst st)) \/ heap_listp (fst st) = mem_brk (fst st)) /\
  bprev (fst st) (heap_listp (fst st)) = 2 /\
  bsize (fst st) (mem_brk (fst st)) = 0 /\ balloc (fst st) (mem_brk (fst st)) = 1 /\
  mem_brk (fst st) <= mem_max_addr (fst st).
Proof.
  intros R. destruct (reachable_INV st R) as (blk & fl & I & Hb & _).
  pose proof (inv_heap _ _ _ I) as H.
  split; [|split; [|split; [|split; [|split]]]].
  - intros a Ha. apply Hb in Ha.
    destruct (hk_blk _ _ H a Ha) as (A1 & A2 & A3 & A4 & A5).
    split; [exact A1|]. split; [exact A2|]. split; [exact A3|]. split; [exact A4|].
    split; [exact A5|].
    split; [destruct (hk_next _ _ H a Ha) as [Hn|Hn]; [left; apply Hb; exact Hn|right; exact Hn]|].
    split; [apply (hk_prev_bit _ _ H a Ha)|apply (hk_footer _ _ H a Ha)].
  - destruct (hk_first _ _ H) as [Hf|Hf]; [left; apply Hb; exact Hf|right; exact Hf].
  - apply (hk_first_prev _ _ H).
  - apply (hk_epi _ _ H).
  - apply (hk_epi _ _ H).
  - destruct (hk_env _ _ H) as [_ _ _ _ _ Hmax _]. exact Hmax.
Qed.

Lemma reachable_heap_layout_witness :
  reachable bounded trace_two_freed /\
  heap_walk 10 (fst trace_two_freed) 4224 =
    [(4224, 32, 1); (4256, 128, 0); (4384, 32, 1); (4416, 320, 0)] /\
  bsize (fst trace_two_freed) (mem_brk (fst trace_two_freed)) = 0 /\
  balloc (fst trace_two_freed) (mem_brk (fst trace_two_freed)) = 1.
Proof.
  assert (R : reachable bounded trace_two_freed).
  { apply served_reachable; [apply heap0_reachable|].
    apply bounded_small. vm_compute. reflexivity. }
  split; [exact R|]. split; [vm_compute; reflexivity|].
  destruct (reachable_heap_layout trace_two_freed R) as (_ & _ & _ & E1 & E2 & _).
  split; [exact E1|exact E2].
Defined.

(** X6. After a successful [mm_init] and legal requests of bounded size the
    twelve buckets are null-terminated doubly linked lists without
    repetition, and together they hold exactly the free blocks of the heap,
    each in the bucket of its size class. *)
Theorem reachable_free_lists_exact (st : state * list (Z * Z)) :
  reachable bounded st ->
  exists fl,
    lists_ok (fst st) fl /\
    forall i a, In a (fl i) <->
                (is_free_block (fst st) a /\ get_segclass_ind (bsize (fst st) a) = i).
Proof.
  intros R. destruct (reachable_INV st R) as (blk & fl & I & Hb & _).
  exists fl. split; [apply (inv_lists _ _ _ I)|].
  intros i a. rewrite (inv_match _ _ _ I i a). unfold is_free_block. rewrite Hb.
  split; intros H; [destruct H as (? & ? & ?)|destruct H as ((? & ?) & ?)]; auto.
Qed.

Lemma reachable_free_lists_exact_witness :
  reachable bounded trace_two_freed /\
  exists fl,
    lists_ok (fst trace_two_freed) fl /\
    (forall i a, In a (fl i) <->
                 (is_free_block (fst trace_two_freed) a /\
                  get_segclass_ind (bsize (fst trace_two_freed) a) = i)) /\
    word_at (fst trace_two_freed) (slot_addr (fst trace_two_freed) 2) = 4256.
Proof.
  assert (R : reachable bounded trace_two_freed).
  { apply served_reachable; [apply heap0_reachable|].
    apply bounded_small. vm_compute. reflexivity. }
  split; [exact R|].
  destruct (reachable_free_lists_exact trace_two_freed R) as (fl & L & M).
  exists fl. split; [exact L|]. split; [exact M|]. vm_compute. reflexivity.
Defined.





(** ** Moving between neighbouring blocks *)




(** ** The search over the whole heap *)




(** ** Taking a block *)

(** [place] in both of its branches. *)
Lemma place_full (s : state) (blk : Z -> Prop) (fl : Z -> list Z) (bp asize : Z) :
  INV s blk fl -> blk bp -> balloc s bp = 0 ->
  32 <= asize -> asize mod 16 = 0 -> asize <= bsize s bp ->
  exists s' blk' fl',
    place bp asize s = Ok tt s' /\ same_frame s s' /\ INV s' blk' fl' /\
    blk' bp /\ balloc s' bp = 1 /\ keeps nothing s blk s' blk' /\
    ((bsize s bp < asize + 32 /\ bsize s' bp = bsize s bp) \/
     (asize + 32 <= bsize s bp /\ bsize s' bp = asize /\
      blk' (bp + asize) /\ balloc s' (bp + asize) = 0 /\
      bsize s' (bp + asize) = bsize s bp - asize)).
Proof.
  intros I Hbp Hfree H32 H16 Hfit.
  destruct (Z_lt_le_dec (bsize s bp) (asize + 32)) as [Hns|Hsp].
  - assert (Hr : 0 <= asize <= bsize s bp) by lia.
    destruct (place_nosplit_spec s blk fl bp asize I Hbp Hfree Hr Hns)
      as (s' & fl' & X & F & I' & Ha & Hs & K).
    exists s', blk, fl'.
    split; [exact X|]. split; [exact F|]. split; [exact I'|]. split; [exact Hbp|].
    split; [exact Ha|]. split; [exact K|]. left. split; [exact Hns|exact Hs].
  - destruct (place_split_full s blk fl bp asize I Hbp Hfree H32 H16 Hsp)
      as (s' & blk' & fl' & X & F & I' & Hb & Ha & Hs & K & Hrb & Hrs & Hra).
    exists s', blk', fl'.
    split; [exact X|]. split; [exact F|]. split; [exact I'|]. split; [exact Hb|].
    split; [exact Ha|]. split; [exact K|]. right.
    split; [exact Hsp|]. split; [exact Hs|]. split; [exact Hrb|].
    split; [exact Hra|exact Hrs].
Qed.

(** X11. [place bp asize] on a free block of a heap reached by legal
    requests, for an [asize] that is a multiple of 16, at least 32 and at
    most the size of the block (what [malloc] passes): the block is marked
    allocated and the heap stays well formed.  [place] splits exactly when
    the block exceeds [asize] by at least 32 bytes: then the block gets
    size [asize] and the rest becomes a free block right behind it;
    otherwise the block keeps its whole size. *)
Theorem place_splits_iff_room (st : state * list (Z * Z)) (bp asize : Z) :
  reachable bounded st -> is_free_block (fst st) bp ->
  32 <= asize -> asize mod 16 = 0 -> asize <= bsize (fst st) bp ->
  exists s',
    place bp asize (fst st) = Ok tt s' /\ Inv s' /\ is_alloc_block s' bp /\
    (bsize (fst st) bp - asize < 32 -> bsize s' bp = bsize (fst st) bp) /\
    (32 <= bsize (fst st) bp - asize ->
     bsize s' bp = asize /\ is_free_block s' (bp + asize) /\
     bsize s' (bp + asize) = bsize (fst st) bp - asize).
Proof.
  intros R [Hbp Hfree] H32 H16 Hfit.
  destruct (reachable_INV st R) as (blk & fl & I & Hb & _).
  apply Hb in Hbp.
  destruct (place_full (fst st) blk fl bp asize I Hbp Hfree H32 H16 Hfit)
    as (s' & blk' & fl' & X & F & I' & Hb' & Ha' & K & Hcases).
  pose proof (is_block_blk s' blk' (inv_heap _ _ _ I')) as Hb2.
  exists s'. split; [exact X|]. split; [exists blk', fl'; exact I'|].
  split; [split; [apply Hb2; exact Hb'|exact Ha']|].
  destruct Hcases as [(Hns & Hs)|(Hsp & Hs & Hrb & Hra & Hrs)].
  - split; [intros _; exact Hs|]. intros Hc. lia.
  - split; [intros Hc; lia|]. intros _. split; [exact Hs|].
    split; [split; [apply Hb2; exact Hrb|exact Hra]|exact Hrs].
Qed.

Lemma free_block_4256 : is_free_block (fst trace_two_freed) 4256.
Proof.
  assert (E : heap_listp (fst trace_two_freed) = 4224) by (vm_compute; reflexivity).
  assert (N : 4224 + bsize (fst trace_two_freed) 4224 = 4256) by (vm_compute; reflexivity).
  pose proof (reach_first (fst trace_two_freed)) as R0. rewrite E in R0.
  pose proof (reach_next (fst trace_two_freed) 4224 R0) as R1. rewrite N in R1.
  split; [split; [apply R1|]|].
  - vm_compute. intros C; discriminate C.
  - vm_compute. intros C; discriminate C.
  - vm_compute. reflexivity.
Qed.

Lemma place_splits_iff_room_witness :
  exists s',
    place 4256 48 (fst trace_two_freed) = Ok tt s' /\
    bsize s' 4256 = 48 /\ is_free_block s' 4304 /\ bsize s' 4304 = 80.
Proof.
  assert (Hs : bsize (fst trace_two_freed) 4256 = 128) by (vm_compute; reflexivity).
  destruct (place_splits_iff_room trace_two_freed 4256 48 trace_two_freed_reachable
              free_block_4256 ltac:(lia) ltac:(reflexivity) ltac:(rewrite Hs; lia))
    as (s' & X & _ & _ & _ & Hsplit).
  rewrite Hs in Hsplit. destruct (Hsplit ltac:(lia)) as (A & B & C).
  exists s'. split; [exact X|]. split; [exact A|]. split; [exact B|exact C].
Defined.

(** ** Growing the heap *)

(** X12. [extend_heap size], for a multiple of 16 of at least 32 bytes, on a
    heap reached by legal requests: when the region has no room for [size]
    more bytes it returns null and changes nothing; otherwise the break
    moves up by exactly [size], the heap stays well formed, and the result
    is a free block that ends at the new break.  That block starts at the
    old break when the last block was allocated (the prev-alloc bit of the
    old epilogue is set), and below the old break when the last block was
    free (the bit is clear) and the new space was merged with it. *)
Theorem extend_heap_grows_by_size (st : state * list (Z * Z)) (size : Z) :
  reachable bounded st -> 32 <= size <= WORD_MAX - 16 -> size mod 16 = 0 ->
  (mem_max_addr (fst st) < mem_brk (fst st) + size ->
   extend_heap size (fst st) = Ok NULL (fst st)) /\
  (mem_brk (fst st) + size <= mem_max_addr (fst st) ->
   exists r s',
     extend_heap size (fst st) = Ok r s' /\ Inv s' /\
     mem_brk s' = mem_brk (fst st) + size /\
     is_free_block s' r /\ r <= mem_brk (fst st) /\ r + bsize s' r = mem_brk s' /\
     (bprev (fst st) (mem_brk (fst st)) = 2 -> r = mem_brk (fst st)) /\
     (bprev (fst st) (mem_brk (fst st)) = 0 ->
      r < mem_brk (fst st) /\ size < bsize s' r)).
Proof.
  intros R Hsz H16.
  destruct (reachable_INV st R) as (blk & fl & I & Hb & _).
  pose proof (inv_heap _ _ _ I) as H.
  destruct (extend_heap_full (fst st) blk fl size I Hsz H16)
    as [(Hno & X)|(Hroom & r & s' & blk' & fl' & X & G & I' & Hr & Hf & Hs & K & Hbrk & Hle &
                  Hend & Hlow)].
  - split; [intros _; exact X|]. intros Hc. lia.
  - split; [intros Hc; lia|]. intros _.
    pose proof (inv_heap _ _ _ I') as H'.
    exists r, s'. split; [exact X|]. split; [exists blk', fl'; exact I'|].
    split; [exact Hbrk|].
    split; [split; [apply (is_block_blk s' blk' H'); exact Hr|exact Hf]|].
    split; [exact Hle|]. split; [exact Hend|].
    split; [|intros Hp; assert (Hlt : r < mem_brk (fst st)) by (apply Hlow; lia); lia].
    intros Hp.
    destruct (Z.eq_dec (mem_brk (fst st)) (heap_listp (fst st))) as [E|E].
    + destruct (hk_blk s' blk' H' r Hr) as (Hlo & _).
      destruct G as (_ & _ & _ & Ghl & _). lia.
    + destruct (hk_pred _ _ H (mem_brk (fst st)) (or_intror eq_refl) E) as (b & Hbb & Hbe).
      pose proof (hk_prev_bit _ _ H b Hbb) as Hbit. rewrite Hbe, Hp in Hbit.
      assert (Hal : balloc (fst st) b = 1) by lia.
      destruct (K b Hbb Hal) as (Hb' & Hal' & Hsz' & _); [intros []|].
      destruct (hk_blk _ _ H b Hbb) as (_ & _ & Hb32 & _).
      destruct (blk_pair s' blk' H' r b Hr Hb') as [->|[Hd|Hd]]; lia.
Qed.

Lemma extend_heap_grows_by_size_witness :
  bprev (fst trace_one) (mem_brk (fst trace_one)) = 0 /\
  exists r s',
    extend_heap 64 (fst trace_one) = Ok r s' /\
    mem_brk s' = mem_brk (fst trace_one) + 64 /\
    is_free_block s' r /\ r + bsize s' r = mem_brk s' /\
    r < mem_brk (fst trace_one) /\ 64 < bsize s' r.
Proof.
  assert (Hp : bprev (fst trace_one) (mem_brk (fst trace_one)) = 0)
    by (vm_compute; reflexivity).
  split; [exact Hp|].
  assert (Hsz : 32 <= 64 <= WORD_MAX - 16) by (pose proof WORD_MAX_eq; lia).
  destruct (extend_heap_grows_by_size trace_one 64 trace_one_bounded Hsz eq_refl)
    as (_ & Hgrow).
  destruct Hgrow as (r & s' & X & _ & Hb & Hf & _ & He & _ & Hm).
  - vm_compute. intros C; discriminate C.
  - destruct (Hm Hp) as (A & B).
    exists r, s'. split; [exact X|]. split; [exact Hb|]. split; [exact Hf|].
    split; [exact He|]. split; [exact A|exact B].
Defined.

(** ** malloc, path by path *)







(** ** What a call leaves alone *)





(** ** Releasing and resizing *)







(** ** Start-up *)

(** X19. On a provider that has handed out nothing yet, [mm_init] always
    returns, and it returns true exactly when the region has room for the
    640 bytes it asks for (96 for the bucket array, 32 for padding and
    prologue, 512 for the first block).  On success the bucket array sits
    at the start of the region, the first block 128 bytes above it, and the
    break 640 bytes above it. *)
Theorem mm_init_succeeds_iff_room (s0 : state) :
  fresh s0 ->
  exists b s,
    mm_init s0 = Ok b s /\
    (b = true <-> mem_start_brk s0 + 640 <= mem_max_addr s0) /\
    (b = true ->
     Inv s /\ mem_start_brk s = mem_start_brk s0 /\
     heap_listp s = mem_start_brk s0 + 128 /\ mem_brk s = mem_start_brk s0 + 640).
Proof.
  intros Hf. destruct (mm_init_spec s0 Hf) as (b & s & X & Ht & Hb).
  exists b, s. split; [exact X|]. split.
  - split; [intros E; apply (Ht E)|exact Hb].
  - intros E. destruct (Ht E) as (_ & A1 & _ & A2 & A3 & _ & _ & blk & fl & I & _).
    split; [exists blk, fl; exact I|]. auto.
Qed.

Lemma mm_init_succeeds_iff_room_witness :
  exists b s, mm_init fresh0 = Ok b s /\ b = true /\ mem_brk s = 4096 + 640.
Proof.
  destruct (mm_init_succeeds_iff_room fresh0 fresh_fresh0) as (b & s & X & Hiff & Hlay).
  assert (Hb : b = true).
  { apply Hiff. vm_compute. intros C; discriminate C. }
  exists b, s. split; [exact X|]. split; [exact Hb|].
  destruct (Hlay Hb) as (_ & _ & _ & A). exact A.
Defined.

(** ** The bucket operations on a heap in use *)

Lemma lists_ok_ext (s : state) (fl fl' : Z -> list Z) :
  (forall i, fl' i = fl i) -> lists_ok s fl -> lists_ok s fl'.
Proof.
  intros E [L1 L2 L3 L4]. constructor.
  - intros i Hi. rewrite E. apply L1. exact Hi.
  - intros i. rewrite E. apply L2.
  - intros i x. rewrite E. apply L3.
  - intros i j x. rewrite !E. apply L4.
Qed.

(** The buckets of a reachable heap, with the facts the bucket operations
    need. *)
Lemma reachable_buckets (st : state * list (Z * Z)) :
  reachable bounded st ->
  exists blk fl,
    INV (fst st) blk fl /\
    (forall a, is_block (fst st) a <-> blk a) /\
    (forall i a, In a (fl i) <->
                 (is_free_block (fst st) a /\ get_segclass_ind (bsize (fst st) a) = i)).
Proof.
  intros R. destruct (reachable_INV st R) as (blk & fl & I & Hb & _).
  exists blk, fl. split; [exact I|]. split; [exact Hb|].
  intros i a. rewrite (inv_match _ _ _ I i a). unfold is_free_block. rewrite Hb.
  split; intros H; [destruct H as (? & ? & ?)|destruct H as ((? & ?) & ?)]; auto.
Qed.

(** X20. [seglist_delete] on a free block of a heap reached by legal
    requests, with the block's size, takes the block out of the bucket of
    its size class wherever it stands in it: the other blocks of the bucket
    keep their order, the other buckets are as before, and no block header
    and no byte of an allocated block changes. *)
Theorem seglist_delete_unlinks_free_block (st : state * list (Z * Z)) (bp : Z) :
  reachable bounded st -> is_free_block (fst st) bp ->
  exists fl s',
    lists_ok (fst st) fl /\
    (forall i a, In a (fl i) <->
                 (is_free_block (fst st) a /\ get_segclass_ind (bsize (fst st) a) = i)) /\
    seglist_delete bp (bsize (fst st) bp) (fst st) = Ok tt s' /\
    lists_ok s' (upd_fl fl (get_segclass_ind (bsize (fst st) bp))
                   (remove Z.eq_dec bp (fl (get_segclass_ind (bsize (fst st) bp))))) /\
    (forall a, is_block (fst st) a -> hdr s' a = hdr (fst st) a) /\
    (forall a x, is_alloc_block (fst st) a -> a <= x < a + bsize (fst st) a - 8 ->
                 mem_bytes s' x = mem_bytes (fst st) x).
Proof.
  intros R Hfree.
  destruct (reachable_buckets st R) as (blk & fl & I & Hb & Hfl).
  destruct I as [H L M N].
  assert (Hin : In bp (fl (get_segclass_ind (bsize (fst st) bp)))).
  { apply Hfl. split; [exact Hfree|reflexivity]. }
  assert (Hlf : forall i y, In y (fl i) -> blk y /\ balloc (fst st) y = 0).
  { intros i y Hy. apply M in Hy. destruct Hy as (? & ? & _). auto. }
  destruct (seglist_delete_spec (fst st) fl bp (bsize (fst st) bp) (hk_env _ _ H) L Hin)
    as (s1 & X1 & F1 & L1 & B1).
  destruct (heap_ok_links (fst st) s1 blk fl H F1 (fun i y Hy => proj1 (Hlf i y Hy)) B1)
    as (H1 & Hh1 & _).
  exists fl, s1. split; [exact L|]. split; [exact Hfl|]. split; [exact X1|].
  split; [exact L1|]. split.
  - intros a Ha. apply Hh1. left. apply Hb. exact Ha.
  - intros a x [Ha Hal] Hx. apply Hb in Ha.
    destruct (keeps_links (fst st) s1 blk fl H Hlf Hh1 B1 a Ha Hal) as (_ & _ & _ & Hbytes);
      [intros []|]. apply Hbytes. exact Hx.
Qed.

Lemma free_block_4384 : is_free_block (fst trace_class2) 4384.
Proof.
  assert (E : heap_listp (fst trace_class2) = 4224) by (vm_compute; reflexivity).
  assert (N1 : 4224 + bsize (fst trace_class2) 4224 = 4352) by (vm_compute; reflexivity).
  assert (N2 : 4352 + bsize (fst trace_class2) 4352 = 4384) by (vm_compute; reflexivity).
  pose proof (reach_first (fst trace_class2)) as R0. rewrite E in R0.
  assert (R1 : reach (fst trace_class2) 4352).
  { rewrite <- N1. apply (reach_next _ _ R0). vm_compute. intros C; discriminate C. }
  assert (R2 : reach (fst trace_class2) 4384).
  { rewrite <- N2. apply (reach_next _ _ R1). vm_compute. intros C; discriminate C. }
  split; [split; [exact R2|]|].
  - vm_compute. intros C; discriminate C.
  - vm_compute. reflexivity.
Qed.

Lemma seglist_delete_unlinks_free_block_witness :
  word_at (fst trace_class2) (slot_addr (fst trace_class2) 2) = 4224 /\
  word_at (fst trace_class2) 4224 = 4384 /\
  word_at (fst trace_class2) 4384 = 4512 /\
  exists fl s',
    lists_ok (fst trace_class2) fl /\
    seglist_delete 4384 (bsize (fst trace_class2) 4384) (fst trace_class2) = Ok tt s' /\
    lists_ok s' (upd_fl fl (get_segclass_ind (bsize (fst trace_class2) 4384))
                   (remove Z.eq_dec 4384
                      (fl (get_segclass_ind (bsize (fst trace_class2) 4384))))) /\
    word_at s' (slot_addr s' 2) = 4224 /\
    word_at s' 4224 = 4512 /\ word_at s' (4512 + 8) = 4224.
Proof.
  split; [vm_compute; reflexivity|]. split; [vm_compute; reflexivity|].
  split; [vm_compute; reflexivity|].
  destruct (seglist_delete_unlinks_free_block trace_class2 4384
              trace_class2_reachable free_block_4384)
    as (fl & s' & A & _ & B & C & _).
  assert (E : match seglist_delete 4384 (bsize (fst trace_class2) 4384) (fst trace_class2) with
              | Ok _ s1 => (word_at s1 (slot_addr s1 2), word_at s1 4224, word_at s1 (4512 + 8))
              | Fault | Diverge => (0, 0, 0)
              end = (4224, 4512, 4224)) by (vm_compute; reflexivity).
  rewrite B in E. injection E as E1 E2 E3.
  exists fl, s'. split; [exact A|]. split; [exact B|]. split; [exact C|].
  split; [exact E1|]. split; [exact E2|exact E3].
Defined.

(** X21. Taking a free block of a reachable heap out of its bucket with
    [seglist_delete] and putting it back with [seglist_add] moves it to the
    front of the same bucket: [seglist_add] inserts at the head.  The rest
    of the bucket keeps its order, the other buckets and all block headers
    are unchanged, and the heap is well formed again. *)
Theorem seglist_delete_add_moves_to_front (st : state * list (Z * Z)) (bp : Z) :
  reachable bounded st -> is_free_block (fst st) bp ->
  exists fl s',
    lists_ok (fst st) fl /\
    (forall i a, In a (fl i) <->
                 (is_free_block (fst st) a /\ get_segclass_ind (bsize (fst st) a) = i)) /\
    (seglist_delete bp (bsize (fst st) bp) ;;;
     seglist_add bp (bsize (fst st) bp)) (fst st) = Ok tt s' /\
    lists_ok s' (upd_fl fl (get_segclass_ind (bsize (fst st) bp))
                   (bp :: remove Z.eq_dec bp
                            (fl (get_segclass_ind (bsize (fst st) bp))))) /\
    Inv s' /\
    (forall a, is_block (fst st) a -> hdr s' a = hdr (fst st) a).
Proof.
  intros R Hfree.
  destruct (reachable_buckets st R) as (blk & fl & I & Hb & Hfl).
  destruct I as [H L M N].
  remember (fst st) as s eqn:Es.
  remember (bsize s bp) as size eqn:Esize.
  remember (get_segclass_ind size) as c eqn:Ec.
  assert (Hbp : blk bp) by (apply Hb; apply Hfree).
  assert (Hbf : balloc s bp = 0) by apply Hfree.
  assert (Hin : In bp (fl c)).
  { apply Hfl. split; [exact Hfree|]. rewrite Ec, Esize. reflexivity. }
  assert (Hlf : forall i y, In y (fl i) -> blk y /\ balloc s y = 0).
  { intros i y Hy. apply M in Hy. destruct Hy as (? & ? & _). auto. }
  destruct (hk_blk s blk H bp Hbp) as (Hb1 & Hb2 & Hb3 & Hb4 & Hb5).
  rewrite Ec in Hin.
  destruct (seglist_delete_spec s fl bp size (hk_env _ _ H) L Hin)
    as (s1 & X1 & F1 & L1 & B1).
  rewrite <- Ec in Hin, L1.
  destruct (heap_ok_links s s1 blk fl H F1 (fun i y Hy => proj1 (Hlf i y Hy)) B1)
    as (H1 & Hh1 & _).
  remember (upd_fl fl c (remove Z.eq_dec bp (fl c))) as fl1 eqn:Efl1.
  assert (Hmem1 : forall i a, In a (fl1 i) <-> In a (fl i) /\ a <> bp).
  { intros i a. rewrite Efl1, in_fl_remove. split.
    - intros [Hy Hn]. split; [exact Hy|]. intros ->. apply Hn. split; [|reflexivity].
      apply (lk_disj s fl L i c bp Hy Hin).
    - intros [Hy Hn]. split; [exact Hy|]. intros [_ Heq]. contradiction. }
  assert (Hnew : forall i, ~ In bp (fl1 i)).
  { intros i Hy. apply Hmem1 in Hy. destruct Hy as [_ Hy]. apply Hy. reflexivity. }
  pose proof F1 as (F1a & F1b & F1c & F1d & F1e).
  destruct (seglist_add_spec s1 fl1 bp size (hk_env _ _ H1) L1) as (s2 & X2 & F2 & L2 & B2);
    rewrite ?F1b, ?F1d; try assumption; try lia.
  rewrite <- Ec in L2, B2.
  remember (upd_fl fl1 c (bp :: fl1 c)) as fl2 eqn:Efl2.
  assert (Hmem2 : forall i a, In a (fl2 i) <-> In a (fl i)).
  { intros i a. rewrite Efl2, in_fl_add, !Hmem1. split.
    - intros [[-> ->]|[Hy _]]; assumption.
    - intros Hy. destruct (Z.eq_dec a bp) as [->|Hne]; [|right; auto].
      left. split; [reflexivity|]. apply (lk_disj s fl L i c bp Hy Hin). }
  assert (Hl2 : forall i y, In y (fl2 i) -> blk y).
  { intros i y Hy. apply Hmem2 in Hy. apply (Hlf i y Hy). }
  destruct (heap_ok_links s1 s2 blk fl2 H1 F2 Hl2 B2) as (H2 & Hh2 & _).
  assert (Hh : forall a, blk a \/ a = mem_brk s -> hdr s2 a = hdr s a).
  { intros a Ha. rewrite Hh2; [apply Hh1; exact Ha|].
    destruct Ha as [Ha| ->]; [left; exact Ha|right; symmetry; exact F1b]. }
  exists fl, s2. split; [exact L|]. split; [exact Hfl|].
  split.
  { rewrite (bind_ok _ _ _ _ _ X1). exact X2. }
  split.
  { apply (lists_ok_ext s2 fl2); [|exact L2].
    intros i. rewrite Efl2, Efl1. unfold upd_fl.
    destruct (i =? c) eqn:Eic; [rewrite Z.eqb_refl|]; reflexivity. }
  split.
  { exists blk, fl2. constructor.
    - exact H2.
    - exact L2.
    - intros i a. rewrite Hmem2, (M i a).
      split; intros (Ha & Hfa & Hcl); (split; [exact Ha|]);
        destruct (hdr_same_fields s s2 a (Hh a (or_introl Ha))) as (Es2 & Ea2 & _);
        rewrite ?Es2, ?Ea2 in *; auto.
    - intros a Ha Hfa.
      destruct (hdr_same_fields s s2 a (Hh a (or_introl Ha))) as (Es2 & Ea2 & _).
      rewrite Es2. rewrite Ea2 in Hfa.
      destruct (hdr_same_fields s s2 (a + bsize s a)) as (_ & Ean & _).
      { apply Hh. destruct (hk_next s blk H a Ha); auto. }
      rewrite Ean. apply (N a Ha Hfa). }
  intros a Ha. apply Hh. left. apply Hb. exact Ha.
Qed.

Lemma seglist_delete_add_moves_to_front_witness :
  word_at (fst trace_class2) (slot_addr (fst trace_class2) 2) = 4224 /\
  word_at (fst trace_class2) 4224 = 4384 /\
  exists fl s',
    lists_ok (fst trace_class2) fl /\
    (seglist_delete 4384 (bsize (fst trace_class2) 4384) ;;;
     seglist_add 4384 (bsize (fst trace_class2) 4384)) (fst trace_class2) = Ok tt s' /\
    Inv s' /\
    word_at s' (slot_addr s' 2) = 4384 /\ word_at s' 4384 = 4224 /\
    word_at s' 4224 = 4512.
Proof.
  split; [vm_compute; reflexivity|]. split; [vm_compute; reflexivity|].
  destruct (seglist_delete_add_moves_to_front trace_class2 4384
              trace_class2_reachable free_block_4384)
    as (fl & s' & A & _ & B & _ & C & _).
  assert (E : match (seglist_delete 4384 (bsize (fst trace_class2) 4384) ;;;
                     seglist_add 4384 (bsize (fst trace_class2) 4384)) (fst trace_class2) with
              | Ok _ s1 => (word_at s1 (slot_addr s1 2), word_at s1 4384, word_at s1 4224)
              | Fault | Diverge => (0, 0, 0)
              end = (4384, 4224, 4512)) by (vm_compute; reflexivity).
  rewrite B in E. injection E as E1 E2 E3.
  exists fl, s'. split; [exact A|]. split; [exact B|]. split; [exact C|].
  split; [exact E1|]. split; [exact E2|exact E3].
Defined.

From Stdlib Require Import Permutation.

(** ** The heap checker of the debugging build *)

(** *** The blocks in address order *)

Lemma heap_chain_from (s : state) (blk : Z -> Prop) :
  heap_ok s blk ->
  forall (n : nat) (a : Z),
    blk a \/ a = mem_brk s -> mem_brk s - a < 32 * Z.of_nat n ->
    exists l, chain s a l (mem_brk s) /\
              (forall x, In x l <-> blk x /\ a <= x) /\
              NoDup l /\ 32 * Z.of_nat (length l) <= mem_brk s - a.
Proof.
  intros H. induction n as [|n IH]; intros a Ha Hn.
  - destruct (node_bounds s blk H a Ha) as [Hb _]. lia.
  - destruct Ha as [Ha| ->].
    + destruct (hk_blk s blk H a Ha) as (A1 & A2 & A3 & A4 & A5).
      destruct (IH (a + bsize s a) (hk_next s blk H a Ha) ltac:(lia))
        as (l & Hc & Hin & Hnd & Hlen).
      exists (a :: l). split; [split; [reflexivity|exact Hc]|].
      split; [|split].
      * intros x. cbn [In]. rewrite Hin. split.
        -- intros [<-|[Hx Hle]]; [split; [exact Ha|lia]|split; [exact Hx|lia]].
        -- intros [Hx Hle]. destruct (Z.eq_dec a x) as [E|E]; [left; exact E|right].
           split; [exact Hx|]. apply (hk_order s blk H a x Ha Hx). lia.
      * constructor; [|exact Hnd]. intros Hc'. apply Hin in Hc'. lia.
      * cbn [length]. lia.
    + exists []. split; [reflexivity|]. split; [|split; [constructor|cbn; lia]].
      intros x. split; [intros []|]. intros [Hx Hle].
      pose proof (blk_lt_brk s blk H x Hx). lia.
Qed.

Lemma heap_chain (s : state) (blk : Z -> Prop) :
  heap_ok s blk ->
  exists l, chain s (heap_listp s) l (mem_brk s) /\
            (forall x, In x l <-> blk x) /\
            NoDup l /\ 32 * Z.of_nat (length l) <= mem_brk s - heap_listp s.
Proof.
  intros H. pose proof (hk_env s blk H) as [E1 E2 E3 E4 E5 E6 E7].
  destruct (heap_chain_from s blk H (S (Z.to_nat (mem_brk s - heap_listp s)))
              (heap_listp s)) as (l & Hc & Hin & Hnd & Hlen).
  - destruct (hk_first s blk H) as [Hf|Hf]; [left; exact Hf|right; exact Hf].
  - lia.
  - exists l. split; [exact Hc|]. split; [|split; [exact Hnd|exact Hlen]].
    intros x. rewrite Hin. split; [intros [Hx _]; exact Hx|].
    intros Hx. split; [exact Hx|]. destruct (hk_blk s blk H x Hx) as (? & _). assumption.
Qed.

(** *** The three walks over the heap *)

Section Walks.

Variables (s : state) (blk : Z -> Prop).
Hypothesis H : heap_ok s blk.

Lemma count_heap_free_run (l : list Z) :
  forall (a ct : Z) (fuel : nat),
    chain s a l (mem_brk s) -> (forall x, In x l -> blk x) ->
    (length l < fuel)%nat -> 0 <= ct -> ct + Z.of_nat (length l) < WORD_MAX ->
    count_heap_free fuel a ct s = Ok (ct + Z.of_nat (length (free_of s l))) s.
Proof.
  pose proof (hk_env s blk H) as [E1 E2 E3 E4 E5 E6 E7].
  induction l as [|x l IH]; intros a ct fuel Hc Hl Hf Hct Hmax;
    (destruct fuel as [|fuel]; [cbn in Hf; lia|]); cbn [count_heap_free].
  - cbn in Hc. subst a.
    replace (mem_brk s =? NULL) with false by (symmetry; apply Z.eqb_neq; unfold NULL; lia).
    rewrite GET_SIZE_hdr by (try inh; lia).
    destruct (hk_epi s blk H) as [-> _]. cbn [Z.eqb].
    unfold free_of. cbn [filter length Z.of_nat]. rewrite Z.add_0_r. reflexivity.
  - destruct Hc as [-> Hc].
    assert (Ha : blk a) by (apply Hl; left; reflexivity).
    destruct (hk_blk s blk H a Ha) as (A1 & A2 & A3 & A4 & A5).
    replace (a =? NULL) with false by (symmetry; apply Z.eqb_neq; unfold NULL; lia).
    rewrite GET_SIZE_hdr by (try inh; lia).
    replace (bsize s a =? 0) with false by (symmetry; apply Z.eqb_neq; lia).
    rewrite GET_ALLOC_hdr by (try inh; lia).
    rewrite NEXT_BLKP_bind by (try inh; lia).
    cbn [length] in Hf, Hmax.
    rewrite (IH (a + bsize s a)); try assumption.
    + f_equal. unfold free_of. cbn [filter].
      destruct (balloc s a =? 0); cbn [length].
      * rewrite wrap_small by lia. lia.
      * reflexivity.
    + intros y Hy. apply Hl. right. exact Hy.
    + lia.
    + destruct (balloc s a =? 0); [rewrite wrap_small by lia|]; lia.
    + destruct (balloc s a =? 0); [rewrite wrap_small by lia|]; lia.
Qed.

Lemma check_no_overlap_run (l : list Z) :
  forall (a : Z) (fuel : nat),
    chain s a l (mem_brk s) -> (forall x, In x l -> blk x) ->
    (length l < fuel)%nat ->
    check_no_overlap fuel a s = Ok true s.
Proof.
  pose proof (hk_env s blk H) as [E1 E2 E3 E4 E5 E6 E7].
  induction l as [|x l IH]; intros a fuel Hc Hl Hf;
    (destruct fuel as [|fuel]; [cbn in Hf; lia|]); cbn [check_no_overlap].
  - cbn in Hc. subst a.
    replace (mem_brk s =? NULL) with false by (symmetry; apply Z.eqb_neq; unfold NULL; lia).
    rewrite GET_SIZE_hdr by (try inh; lia).
    destruct (hk_epi s blk H) as [-> _]. reflexivity.
  - destruct Hc as [-> Hc].
    assert (Ha : blk a) by (apply Hl; left; reflexivity).
    destruct (hk_blk s blk H a Ha) as (A1 & A2 & A3 & A4 & A5).
    replace (a =? NULL) with false by (symmetry; apply Z.eqb_neq; unfold NULL; lia).
    rewrite GET_SIZE_hdr by (try inh; lia).
    replace (bsize s a =? 0) with false by (symmetry; apply Z.eqb_neq; lia).
    rewrite GET_ALLOC_hdr by (try inh; lia).
    cbn [length] in Hf.
    assert (Hrec : check_no_overlap fuel (a + bsize s a) s = Ok true s).
    { apply IH; [exact Hc| |lia]. intros y Hy. apply Hl. right. exact Hy. }
    destruct (balloc s a =? 0); cbn [negb].
    + rewrite NEXT_BLKP_bind by (try inh; lia). exact Hrec.
    + rewrite GET_SIZE_hdr by (try inh; lia).
      rewrite NEXT_BLKP_bind by (try inh; lia).
      unfold WSIZE. rewrite (wrap_small (a + bsize s a)) by lia.
      rewrite (wrap_small (a + bsize s a - 8)) by lia.
      replace (a + bsize s a <=? a + bsize s a - 8) with false
        by (symmetry; apply Z.leb_gt; lia).
      rewrite NEXT_BLKP_bind by (try inh; lia). exact Hrec.
Qed.

Lemma check_heap_pointers_run (l : list Z) :
  forall (a : Z) (fuel : nat),
    chain s a l (mem_brk s) -> (forall x, In x l -> blk x) ->
    (length l < fuel)%nat ->
    check_heap_pointers fuel a s = Ok true s.
Proof.
  pose proof (hk_env s blk H) as [E1 E2 E3 E4 E5 E6 E7].
  induction l as [|x l IH]; intros a fuel Hc Hl Hf;
    (destruct fuel as [|fuel]; [cbn in Hf; lia|]); cbn [check_heap_pointers].
  - cbn in Hc. subst a.
    replace (mem_brk s =? NULL) with false by (symmetry; apply Z.eqb_neq; unfold NULL; lia).
    rewrite GET_SIZE_hdr by (try inh; lia).
    destruct (hk_epi s blk H) as [-> _]. reflexivity.
  - destruct Hc as [-> Hc].
    assert (Ha : blk a) by (apply Hl; left; reflexivity).
    destruct (hk_blk s blk H a Ha) as (A1 & A2 & A3 & A4 & A5).
    replace (a =? NULL) with false by (symmetry; apply Z.eqb_neq; unfold NULL; lia).
    rewrite GET_SIZE_hdr by (try inh; lia).
    replace (bsize s a =? 0) with false by (symmetry; apply Z.eqb_neq; lia).
    unfold mem_heap_hi, mem_heap_lo. unfold bind at 1.
    rewrite (wrap_small (mem_brk s - 1)) by lia.
    replace (mem_brk s - 1 <? a) with false by (symmetry; apply Z.ltb_ge; lia).
    unfold bind at 1.
    replace (a <? mem_start_brk s) with false by (symmetry; apply Z.ltb_ge; lia).
    rewrite NEXT_BLKP_bind by (try inh; lia).
    cbn [length] in Hf.
    apply IH; [exact Hc| |lia]. intros y Hy. apply Hl. right. exact Hy.
Qed.

End Walks.

(** *** The two walks over the buckets *)

Section Buckets.

Variables (s : state) (blk : Z -> Prop) (fl : Z -> list Z).
Hypothesis I : INV s blk fl.

Lemma check_freelist_marked_run (l : list Z) :
  forall (head prev ct : Z) (fuel : nat),
    dseg s head prev l NULL -> (forall x, In x l -> blk x /\ balloc s x = 0) ->
    (length l < fuel)%nat -> 0 <= ct -> ct + Z.of_nat (length l) < WORD_MAX ->
    check_freelist_marked fuel head ct s = Ok (true, ct + Z.of_nat (length l)) s.
Proof.
  pose proof (inv_heap _ _ _ I) as H.
  pose proof (hk_env s blk H) as [E1 E2 E3 E4 E5 E6 E7].
  induction l as [|x l IH]; intros head prev ct fuel Hd Hl Hf Hct Hmax;
    (destruct fuel as [|fuel]; [cbn in Hf; lia|]); cbn [check_freelist_marked].
  - cbn in Hd. subst head. change (NULL =? NULL) with true. cbv iota.
    cbn [length Z.of_nat]. rewrite Z.add_0_r. reflexivity.
  - destruct Hd as (-> & Hx0 & _ & Hd).
    destruct (Hl x (or_introl eq_refl)) as [Hx Hfree].
    destruct (hk_blk s blk H x Hx) as (A1 & A2 & A3 & A4 & A5).
    replace (x =? NULL) with false by (symmetry; apply Z.eqb_neq; exact Hx0).
    rewrite GET_ALLOC_hdr by (try inh; lia).
    rewrite Hfree. cbn [Z.eqb negb].
    unfold NEXT_FREE_ADDR. rewrite GET_bind by inh.
    cbn [length] in Hf, Hmax.
    rewrite (IH (word_at s x) x); try assumption.
    + rewrite wrap_small by lia. f_equal. f_equal. cbn [length]. lia.
    + intros y Hy. apply Hl. right. exact Hy.
    + lia.
    + rewrite wrap_small by lia. lia.
    + rewrite wrap_small by lia. lia.
Qed.

Lemma check_freelist_valid_run (l : list Z) :
  forall (head prev : Z) (fuel : nat),
    dseg s head prev l NULL -> (forall x, In x l -> blk x) ->
    (length l < fuel)%nat ->
    check_freelist_valid fuel head s = Ok true s.
Proof.
  pose proof (inv_heap _ _ _ I) as H.
  pose proof (hk_env s blk H) as [E1 E2 E3 E4 E5 E6 E7].
  induction l as [|x l IH]; intros head prev fuel Hd Hl Hf;
    (destruct fuel as [|fuel]; [cbn in Hf; lia|]); cbn [check_freelist_valid].
  - cbn in Hd. subst head. reflexivity.
  - destruct Hd as (-> & Hx0 & _ & Hd).
    pose proof (Hl x (or_introl eq_refl)) as Hx.
    destruct (hk_blk s blk H x Hx) as (A1 & A2 & A3 & A4 & A5).
    replace (x =? NULL) with false by (symmetry; apply Z.eqb_neq; exact Hx0).
    rewrite GET_SIZE_hdr by (try inh; lia).
    replace (bsize s x =? 0) with false by (symmetry; apply Z.eqb_neq; lia).
    unfold mem_heap_hi, mem_heap_lo. unfold bind at 1.
    rewrite (wrap_small (mem_brk s - 1)) by lia.
    replace (mem_brk s - 1 <? x) with false by (symmetry; apply Z.ltb_ge; lia).
    unfold bind at 1.
    replace (x <? mem_start_brk s) with false by (symmetry; apply Z.ltb_ge; lia).
    unfold NEXT_FREE_ADDR. rewrite GET_bind by inh.
    cbn [length] in Hf.
    apply (IH (word_at s x) x); [exact Hd| |lia].
    intros y Hy. apply Hl. right. exact Hy.
Qed.

Lemma listed_free (i x : Z) : In x (fl i) -> blk x /\ balloc s x = 0.
Proof.
  intros Hx. apply (inv_match _ _ _ I) in Hx. destruct Hx as (? & ? & _). auto.
Qed.

Lemma check_seglist_marked_run (fuel : nat) :
  enough fuel s ->
  forall (n : nat) (i ct : Z),
    0 <= i -> i + Z.of_nat n <= 12 -> 0 <= ct ->
    ct + Z.of_nat (length (buckets_from fl n i)) < WORD_MAX ->
    check_seglist_marked fuel n i ct s =
    Ok (true, ct + Z.of_nat (length (buckets_from fl n i))) s.
Proof.
  intros Hf.
  pose proof (inv_heap _ _ _ I) as H.
  pose proof (inv_lists _ _ _ I) as L.
  pose proof (hk_env s blk H) as E.
  pose proof E as [E1 E2 E3 E4 E5 E6 E7].
  induction n as [|n IH]; intros i ct Hi Hn Hct Hmax; cbn [check_seglist_marked buckets_from].
  - cbn [length Z.of_nat]. rewrite Z.add_0_r. reflexivity.
  - cbn [buckets_from] in Hmax. rewrite length_app, Nat2Z.inj_add in Hmax.
    rewrite get_seg_listp_bind.
    rewrite (class_slot_addr s i E) by lia.
    rewrite GET_bind by (apply in_heap_range_true; unfold slot_addr; lia).
    pose proof (check_freelist_marked_run (fl i) (word_at s (slot_addr s i)) NULL ct fuel
                  (lk_dll s fl L i ltac:(lia)) (listed_free i)
                  (bucket_short s blk fl fuel I Hf i) Hct ltac:(lia)) as X.
    rewrite (bind_ok _ _ _ _ _ X). cbn [fst snd].
    rewrite IH by lia.
    rewrite length_app, Nat2Z.inj_add. f_equal. f_equal. lia.
Qed.

Lemma check_seglist_valid_run (fuel : nat) :
  enough fuel s ->
  forall (n : nat) (i : Z),
    0 <= i -> i + Z.of_nat n <= 12 ->
    check_seglist_valid fuel n i s = Ok true s.
Proof.
  intros Hf.
  pose proof (inv_heap _ _ _ I) as H.
  pose proof (inv_lists _ _ _ I) as L.
  pose proof (hk_env s blk H) as E.
  pose proof E as [E1 E2 E3 E4 E5 E6 E7].
  induction n as [|n IH]; intros i Hi Hn; cbn [check_seglist_valid].
  - reflexivity.
  - rewrite get_seg_listp_bind.
    rewrite (class_slot_addr s i E) by lia.
    rewrite GET_bind by (apply in_heap_range_true; unfold slot_addr; lia).
    pose proof (check_freelist_valid_run (fl i) (word_at s (slot_addr s i)) NULL fuel
                  (lk_dll s fl L i ltac:(lia)) (fun x Hx => proj1 (listed_free i x Hx))
                  (bucket_short s blk fl fuel I Hf i)) as X.
    rewrite (bind_ok _ _ _ _ _ X). apply IH; lia.
Qed.

(** The buckets taken together hold the free blocks of the heap, each once. *)
Lemma In_buckets_from (n : nat) :
  forall (i x : Z),
    In x (buckets_from fl n i) <-> exists k, i <= k < i + Z.of_nat n /\ In x (fl k).
Proof.
  induction n as [|n IH]; intros i x; cbn [buckets_from].
  - split; [intros []|]. intros (k & Hk & _). lia.
  - rewrite in_app_iff, IH. split.
    + intros [Hx|(k & Hk & Hx)]; [exists i; split; [lia|exact Hx]|exists k; split; [lia|exact Hx]].
    + intros (k & Hk & Hx). destruct (Z.eq_dec k i) as [->|Hne]; [left; exact Hx|right].
      exists k. split; [lia|exact Hx].
Qed.

Lemma NoDup_buckets_from (n : nat) :
  forall i, NoDup (buckets_from fl n i).
Proof.
  pose proof (inv_lists _ _ _ I) as L.
  induction n as [|n IH]; intros i; cbn [buckets_from]; [constructor|].
  apply NoDup_app; [apply (lk_nodup s fl L)|apply IH|].
  intros x Hx Hx'. apply In_buckets_from in Hx'. destruct Hx' as (k & Hk & Hxk).
  pose proof (lk_disj s fl L i k x Hx Hxk). lia.
Qed.

Lemma buckets_count (l : list Z) :
  NoDup l -> (forall x, In x l <-> blk x) ->
  length (buckets_from fl 12 0) = length (free_of s l).
Proof.
  intros Hnd Hin. apply Permutation_length. apply NoDup_Permutation.
  - apply NoDup_buckets_from.
  - unfold free_of. apply NoDup_filter. exact Hnd.
  - intros x. rewrite In_buckets_from. unfold free_of. rewrite filter_In, Hin. split.
    + intros (k & _ & Hx). destruct (listed_free k x Hx) as [Hb Hfree].
      split; [exact Hb|]. apply Z.eqb_eq. exact Hfree.
    + intros [Hb Hfree]. apply Z.eqb_eq in Hfree.
      pose proof (get_segclass_ind_range (bsize s x)) as Hr.
      exists (get_segclass_ind (bsize s x)). split; [lia|].
      apply (inv_match _ _ _ I). auto.
Qed.

End Buckets.

(** *** The checker on a well-formed heap *)

Lemma checkheap_debug_INV (s : state) (blk : Z -> Prop) (fl : Z -> list Z)
      (fuel : nat) (lineno : Z) :
  INV s blk fl -> enough fuel s -> mm_checkheap_debug fuel lineno s = Ok true s.
Proof.
  intros I Hf. pose proof (inv_heap _ _ _ I) as H.
  pose proof (hk_env s blk H) as [E1 E2 E3 E4 E5 E6 E7].
  destruct (heap_chain s blk H) as (l & Hc & Hin & Hnd & Hlen).
  pose proof (buckets_count s blk fl I l Hnd Hin) as Hcount.
  assert (Hfree : (length (free_of s l) <= length l)%nat)
    by (unfold free_of; apply filter_length_le).
  assert (Hshort : (length l < fuel)%nat).
  { unfold enough in Hf. zlia. }
  assert (Hall : forall x, In x l -> blk x) by (intros x Hx; apply Hin; exact Hx).
  unfold mm_checkheap_debug. change (Z.to_nat SEGLIST_CLASSES) with 12%nat.
  rewrite (bind_ok _ _ _ _ _
             (check_seglist_marked_run s blk fl I fuel Hf 12 0 0
                ltac:(lia) ltac:(lia) ltac:(lia) ltac:(rewrite Hcount; lia))).
  cbn [fst snd negb]. unfold get_heap_listp. unfold bind at 1.
  rewrite (bind_ok _ _ _ _ _
             (count_heap_free_run s blk H l (heap_listp s) 0 fuel Hc Hall Hshort
                ltac:(lia) ltac:(lia))).
  rewrite Hcount, Z.eqb_refl. cbn [negb].
  rewrite (bind_ok _ _ _ _ _
             (check_seglist_valid_run s blk fl I fuel Hf 12 0 ltac:(lia) ltac:(lia))).
  cbn [negb]. unfold bind at 1.
  rewrite (bind_ok _ _ _ _ _
             (check_no_overlap_run s blk H l (heap_listp s) fuel Hc Hall Hshort)).
  cbn [negb]. unfold bind at 1.
  rewrite (bind_ok _ _ _ _ _
             (check_heap_pointers_run s blk H l (heap_listp s) fuel Hc Hall Hshort)).
  reflexivity.
Qed.

(** X22. With DEBUG defined, [mm_checkheap] accepts every heap that legal
    requests of bounded size can reach: the five checks of its body pass
    and it returns true, leaving the heap as it is. *)
Theorem checkheap_debug_accepts_reachable (st : state * list (Z * Z)) (fuel : nat)
        (lineno : Z) :
  reachable bounded st -> enough fuel (fst st) ->
  mm_checkheap_debug fuel lineno (fst st) = Ok true (fst st).
Proof.
  intros R Hf. destruct (reachable_INV st R) as (blk & fl & I & _).
  apply (checkheap_debug_INV (fst st) blk fl fuel lineno I Hf).
Qed.

Lemma checkheap_debug_accepts_reachable_witness :
  mm_checkheap_debug 40 0 (fst trace_two_freed) = Ok true (fst trace_two_freed).
Proof.
  apply (checkheap_debug_accepts_reachable trace_two_freed 40 0 trace_two_freed_reachable).
  unfold enough. vm_compute. reflexivity.
Defined.

(** *** The checker only reads *)

Lemma reads_ret {A} (a : A) : reads (ret a).
Proof. intros s r s' E. unfold ret in E. injection E as _ <-. reflexivity. Qed.

Lemma reads_bind {A B} (c : M A) (k : A -> M B) :
  reads c -> (forall a, reads (k a)) -> reads (bind c k).
Proof.
  intros Hc Hk s r s' E. unfold bind in E.
  destruct (c s) as [a s1| |] eqn:X; try discriminate.
  apply Hc in X. subst s1. apply (Hk a s r s' E).
Qed.

Lemma reads_GET (p : Z) : reads (GET p).
Proof.
  intros s r s' E. unfold GET in E.
  destruct (in_heap_range s p 8); [|discriminate]. injection E as _ <-. reflexivity.
Qed.

Lemma reads_stop {A} : reads (fun _ : state => @Diverge A).
Proof. intros s r s' E. discriminate E. Qed.

Lemma reads_field {A} (f : state -> A) : reads (fun s => Ok (f s) s).
Proof. intros s r s' E. injection E as _ <-. reflexivity. Qed.

Ltac rd :=
  repeat first
    [ apply reads_ret
    | apply reads_GET
    | apply reads_stop
    | apply (reads_field mem_start_brk)
    | apply (reads_field (fun s => wrap (mem_brk s - 1)))
    | apply (reads_field seg_listp)
    | apply (reads_field heap_listp)
    | apply reads_bind; [|intros ?]
    | match goal with
      | |- reads (if ?b then _ else _) => destruct b
      end ].

Lemma reads_GET_SIZE (p : Z) : reads (GET_SIZE p).
Proof. unfold GET_SIZE. rd. Qed.

Lemma reads_GET_ALLOC (p : Z) : reads (GET_ALLOC p).
Proof. unfold GET_ALLOC. rd. Qed.

Lemma reads_NEXT_BLKP (p : Z) : reads (NEXT_BLKP p).
Proof. unfold NEXT_BLKP, GET_SIZE. rd. Qed.

Lemma reads_check_freelist_marked (fuel : nat) :
  forall curr ct, reads (check_freelist_marked fuel curr ct).
Proof.
  induction fuel as [|fuel IH]; intros curr ct; cbn [check_freelist_marked]; [rd|].
  destruct (curr =? NULL); [rd|].
  apply reads_bind; [apply reads_GET_ALLOC|intros al].
  destruct (negb (al =? 0)); [rd|].
  apply reads_bind; [apply reads_GET|intros nxt]. apply IH.
Qed.

Lemma reads_check_seglist_marked (fuel : nat) (n : nat) :
  forall i ct, reads (check_seglist_marked fuel n i ct).
Proof.
  induction n as [|n IH]; intros i ct; cbn [check_seglist_marked]; [rd|].
  apply reads_bind; [apply (reads_field seg_listp)|intros seg].
  apply reads_bind; [apply reads_GET|intros curr].
  apply reads_bind; [apply reads_check_freelist_marked|intros r].
  destruct (fst r); [apply IH|rd].
Qed.

Lemma reads_count_heap_free (fuel : nat) :
  forall bp ct, reads (count_heap_free fuel bp ct).
Proof.
  induction fuel as [|fuel IH]; intros bp ct; cbn [count_heap_free]; [rd|].
  destruct (bp =? NULL); [rd|].
  apply reads_bind; [apply reads_GET_SIZE|intros sz].
  destruct (sz =? 0); [rd|].
  apply reads_bind; [apply reads_GET_ALLOC|intros al].
  apply reads_bind; [apply reads_NEXT_BLKP|intros nb]. apply IH.
Qed.

Lemma reads_check_freelist_valid (fuel : nat) :
  forall curr, reads (check_freelist_valid fuel curr).
Proof.
  induction fuel as [|fuel IH]; intros curr; cbn [check_freelist_valid]; [rd|].
  destruct (curr =? NULL); [rd|].
  apply reads_bind; [apply reads_GET_SIZE|intros sz].
  destruct (sz =? 0); [rd|].
  apply reads_bind; [apply (reads_field (fun s => wrap (mem_brk s - 1)))|intros hi].
  destruct (hi <? curr); [rd|].
  apply reads_bind; [apply (reads_field mem_start_brk)|intros lo].
  destruct (curr <? lo); [rd|].
  apply reads_bind; [apply reads_GET|intros nxt]. apply IH.
Qed.

Lemma reads_check_seglist_valid (fuel : nat) (n : nat) :
  forall i, reads (check_seglist_valid fuel n i).
Proof.
  induction n as [|n IH]; intros i; cbn [check_seglist_valid]; [rd|].
  apply reads_bind; [apply (reads_field seg_listp)|intros seg].
  apply reads_bind; [apply reads_GET|intros curr].
  apply reads_bind; [apply reads_check_freelist_valid|intros ok].
  destruct ok; [apply IH|rd].
Qed.

Lemma reads_check_no_overlap (fuel : nat) :
  forall bp, reads (check_no_overlap fuel bp).
Proof.
  induction fuel as [|fuel IH]; intros bp; cbn [check_no_overlap]; [rd|].
  destruct (bp =? NULL); [rd|].
  apply reads_bind; [apply reads_GET_SIZE|intros sz].
  destruct (sz =? 0); [rd|].
  apply reads_bind; [apply reads_GET_ALLOC|intros al].
  destruct (negb (al =? 0)).
  - apply reads_bind; [apply reads_GET_SIZE|intros size].
    apply reads_bind; [apply reads_NEXT_BLKP|intros nb].
    destruct (nb <=? wrap (wrap (bp + size) - WSIZE)); [rd|].
    apply reads_bind; [apply reads_NEXT_BLKP|intros nb']. apply IH.
  - apply reads_bind; [apply reads_NEXT_BLKP|intros nb']. apply IH.
Qed.

Lemma reads_check_heap_pointers (fuel : nat) :
  forall bp, reads (check_heap_pointers fuel bp).
Proof.
  induction fuel as [|fuel IH]; intros bp; cbn [check_heap_pointers]; [rd|].
  destruct (bp =? NULL); [rd|].
  apply reads_bind; [apply reads_GET_SIZE|intros sz].
  destruct (sz =? 0); [rd|]. cbv iota.
  apply reads_bind; [apply (reads_field (fun s => wrap (mem_brk s - 1)))|intros hi].
  destruct (hi <? bp); [rd|].
  apply reads_bind; [apply (reads_field mem_start_brk)|intros lo].
  destruct (bp <? lo); [rd|].
  apply reads_bind; [apply reads_NEXT_BLKP|intros nb]. apply IH.
Qed.

Lemma reads_mm_checkheap_debug (fuel : nat) (lineno : Z) :
  reads (mm_checkheap_debug fuel lineno).
Proof.
  unfold mm_checkheap_debug.
  apply reads_bind; [apply reads_check_seglist_marked|intros r].
  destruct (negb (fst r)); [rd|].
  apply reads_bind; [apply (reads_field heap_listp)|intros bp1].
  apply reads_bind; [apply reads_count_heap_free|intros ct].
  destruct (negb (ct =? snd r)); [rd|].
  apply reads_bind; [apply reads_check_seglist_valid|intros ok3].
  destruct (negb ok3); [rd|].
  apply reads_bind; [apply (reads_field heap_listp)|intros bp2].
  apply reads_bind; [apply reads_check_no_overlap|intros ok4].
  destruct (negb ok4); [rd|].
  apply reads_bind; [apply (reads_field heap_listp)|intros bp3].
  apply reads_bind; [apply reads_check_heap_pointers|intros ok5].
  destruct (negb ok5); rd.
Qed.

(** X23. With DEBUG defined, [mm_checkheap] only reads: whatever heap it is
    called on and whatever verdict it returns, the heap after the call is
    the heap before it, byte for byte. *)
Theorem checkheap_debug_reads_only (fuel : nat) (lineno : Z) (s s' : state) (r : bool) :
  mm_checkheap_debug fuel lineno s = Ok r s' -> s' = s.
Proof. apply reads_mm_checkheap_debug. Qed.

Lemma checkheap_debug_reads_only_witness :
  returned (mm_checkheap_debug 40 0 (fst trace_wrap_poke)) = true /\
  state_after (mm_checkheap_debug 40 0 (fst trace_wrap_poke)) (fst trace_wrap_poke) =
  fst trace_wrap_poke.
Proof.
  split; [vm_compute; reflexivity|].
  destruct (mm_checkheap_debug 40 0 (fst trace_wrap_poke)) as [r s'| |] eqn:X;
    cbn [state_after]; try reflexivity.
  apply (checkheap_debug_reads_only 40 0 (fst trace_wrap_poke) s' r X).
Defined.

(** *** What a verdict of true says *)

Lemma wrap_add_l (a b : Z) : wrap (wrap a + b) = wrap (a + b).
Proof. unfold wrap. apply Z.add_mod_idemp_l. pose proof WORD_MAX_eq. lia. Qed.

Lemma GET_SIZE_fault {B} (p : Z) (k : Z -> M B) (s : state) :
  in_heap_range s p 8 = false -> bind (GET_SIZE p) k s = Fault.
Proof. intros H. unfold GET_SIZE. rewrite bind_assoc, GET_fault_bind by exact H. reflexivity. Qed.

Lemma GET_ALLOC_fault {B} (p : Z) (k : Z -> M B) (s : state) :
  in_heap_range s p 8 = false -> bind (GET_ALLOC p) k s = Fault.
Proof. intros H. unfold GET_ALLOC. rewrite bind_assoc, GET_fault_bind by exact H. reflexivity. Qed.

(** A header that can be read belongs to a payload address of at least 8. *)
Lemma header_readable_inv (s : state) (x : Z) :
  sane s -> 0 <= x < WORD_MAX -> in_heap_range s (HDRP x) 8 = true ->
  8 <= x /\ HDRP x = x - 8 /\ mem_start_brk s + 8 <= x <= mem_brk s.
Proof.
  intros [S1 S2] Hx Hr. apply in_heap_range_inv in Hr.
  unfold HDRP, WSIZE, wrap in *. pose proof WORD_MAX_eq as HW.
  rewrite HW in *. zlia.
Qed.

Lemma nseg_det (s : state) (l1 : list Z) :
  forall h l2, nseg s h l1 -> nseg s h l2 -> l1 = l2.
Proof.
  induction l1 as [|x l1 IH]; intros h l2 H1 H2; destruct l2 as [|y l2]; cbn in *.
  - reflexivity.
  - destruct H2 as (<- & Hy & _). contradiction.
  - destruct H1 as (<- & Hx & _). contradiction.
  - destruct H1 as (<- & _ & H1), H2 as (<- & _ & H2). f_equal. apply (IH _ _ H1 H2).
Qed.

Lemma buckets_from_ext (fl fl' : Z -> list Z) (n : nat) :
  forall i, (forall k, i <= k -> fl k = fl' k) ->
            buckets_from fl n i = buckets_from fl' n i.
Proof.
  induction n as [|n IH]; intros i E; cbn [buckets_from]; [reflexivity|].
  rewrite (E i) by lia. f_equal. apply IH. intros k Hk. apply E. lia.
Qed.

Section Verdict.

Variable s : state.
Hypothesis Hs : sane s.

Lemma marked_sound (fuel : nat) :
  forall (curr ct ct' : Z) (s' : state),
    0 <= curr < WORD_MAX -> 0 <= ct < WORD_MAX ->
    check_freelist_marked fuel curr ct s = Ok (true, ct') s' ->
    exists l, nseg s curr l /\
              (forall x, In x l ->
                         mem_start_brk s + 8 <= x <= mem_brk s /\ balloc s x = 0) /\
              ct' = wrap (ct + Z.of_nat (length l)).
Proof.
  induction fuel as [|fuel IH]; intros curr ct ct' s' Hcurr Hct E;
    cbn [check_freelist_marked] in E; [discriminate E|].
  destruct (Z.eqb_spec curr NULL) as [Hn|Hn].
  - exists []. injection E as <- _. split; [exact Hn|]. split; [intros x []|].
    cbn [length Z.of_nat]. rewrite Z.add_0_r, wrap_small by lia. reflexivity.
  - destruct (in_heap_range s (HDRP curr) 8) eqn:Hr;
      [|rewrite GET_ALLOC_fault in E by exact Hr; discriminate E].
    destruct (header_readable_inv s curr Hs Hcurr Hr) as (H8 & Eh & Hin).
    rewrite GET_ALLOC_bind in E by exact Hr. rewrite Eh in E.
    change (Z.land (word_at s (curr - 8)) 1) with (balloc s curr) in E.
    destruct (Z.eqb_spec (balloc s curr) 0) as [Hfree|Hal]; cbn [negb] in E;
      [|discriminate E].
    unfold NEXT_FREE_ADDR in E.
    destruct (in_heap_range s curr 8) eqn:Hr2;
      [|rewrite GET_fault_bind in E by exact Hr2; discriminate E].
    rewrite GET_bind in E by exact Hr2.
    destruct (IH (word_at s curr) (wrap (ct + 1)) ct' s' (word_at_range s curr)
                (wrap_range (ct + 1)) E) as (l & Hl & Hall & Ect).
    exists (curr :: l). split; [split; [reflexivity|split; [exact Hn|exact Hl]]|].
    split.
    + intros x [<-|Hx]; [split; [exact Hin|exact Hfree]|apply Hall; exact Hx].
    + rewrite Ect, wrap_add_l. f_equal. cbn [length]. lia.
Qed.

Lemma valid_sound (fuel : nat) :
  forall (curr : Z) (s' : state),
    0 <= curr < WORD_MAX ->
    check_freelist_valid fuel curr s = Ok true s' ->
    exists l, nseg s curr l /\ forall x, In x l -> bsize s x <> 0.
Proof.
  induction fuel as [|fuel IH]; intros curr s' Hcurr E;
    cbn [check_freelist_valid] in E; [discriminate E|].
  destruct (Z.eqb_spec curr NULL) as [Hn|Hn].
  - exists []. split; [exact Hn|intros x []].
  - destruct (in_heap_range s (HDRP curr) 8) eqn:Hr;
      [|rewrite GET_SIZE_fault in E by exact Hr; discriminate E].
    destruct (header_readable_inv s curr Hs Hcurr Hr) as (H8 & Eh & Hin).
    rewrite GET_SIZE_bind in E by exact Hr. rewrite Eh in E.
    change (Z.land (word_at s (curr - 8)) SIZE_MASK) with (bsize s curr) in E.
    destruct (Z.eqb_spec (bsize s curr) 0) as [Hz|Hnz]; [discriminate E|].
    unfold mem_heap_hi, mem_heap_lo in E. unfold bind at 1 in E.
    destruct (wrap (mem_brk s - 1) <? curr); [discriminate E|].
    unfold bind at 1 in E.
    destruct (curr <? mem_start_brk s); [discriminate E|].
    unfold NEXT_FREE_ADDR in E.
    destruct (in_heap_range s curr 8) eqn:Hr2;
      [|rewrite GET_fault_bind in E by exact Hr2; discriminate E].
    rewrite GET_bind in E by exact Hr2.
    destruct (IH (word_at s curr) s' (word_at_range s curr) E) as (l & Hl & Hall).
    exists (curr :: l). split; [split; [reflexivity|split; [exact Hn|exact Hl]]|].
    intros x [<-|Hx]; [exact Hnz|apply Hall; exact Hx].
Qed.

Lemma seglist_marked_sound (fuel : nat) (n : nat) :
  forall (i ct ct' : Z) (s' : state),
    0 <= ct < WORD_MAX ->
    check_seglist_marked fuel n i ct s = Ok (true, ct') s' ->
    exists fl,
      (forall k, i <= k < i + Z.of_nat n ->
         nseg s (word_at s (class_slot s k)) (fl k) /\
         forall x, In x (fl k) ->
                   mem_start_brk s + 8 <= x <= mem_brk s /\ balloc s x = 0) /\
      ct' = wrap (ct + Z.of_nat (length (buckets_from fl n i))).
Proof.
  induction n as [|n IH]; intros i ct ct' s' Hct E; cbn [check_seglist_marked] in E.
  - exists (fun _ => []). injection E as <- _. split; [intros k Hk; lia|].
    cbn [buckets_from length Z.of_nat]. rewrite Z.add_0_r, wrap_small by lia. reflexivity.
  - rewrite get_seg_listp_bind in E.
    change (wrap (seg_listp s + i * WSIZE)) with (class_slot s i) in E.
    destruct (in_heap_range s (class_slot s i) 8) eqn:Hr;
      [|rewrite GET_fault_bind in E by exact Hr; discriminate E].
    rewrite GET_bind in E by exact Hr. unfold bind at 1 in E.
    destruct (check_freelist_marked fuel (word_at s (class_slot s i)) ct s)
      as [[b c1] s1| |] eqn:X; try discriminate E.
    cbn [fst snd] in E. destruct b; [|discriminate E].
    pose proof (reads_check_freelist_marked fuel _ _ _ _ _ X) as ->.
    destruct (marked_sound fuel _ ct c1 s (word_at_range s _) Hct X) as (l & Hl & Hall & Ec1).
    destruct (IH (i + 1) c1 ct' s' ltac:(rewrite Ec1; apply wrap_range) E)
      as (fl & Hfl & Ect).
    exists (upd_fl fl i l). split.
    + intros k Hk. destruct (Z.eq_dec k i) as [->|Hne].
      * rewrite upd_fl_same. split; [exact Hl|exact Hall].
      * rewrite upd_fl_other by exact Hne. apply Hfl. lia.
    + cbn [buckets_from]. rewrite upd_fl_same.
      rewrite (buckets_from_ext (upd_fl fl i l) fl n (i + 1))
        by (intros k Hk; apply upd_fl_other; lia).
      rewrite Ect, Ec1, wrap_add_l, length_app, Nat2Z.inj_add. f_equal. lia.
Qed.

Lemma seglist_valid_sound (fuel : nat) (n : nat) :
  forall (i : Z) (s' : state),
    check_seglist_valid fuel n i s = Ok true s' ->
    forall k, i <= k < i + Z.of_nat n ->
      exists l, nseg s (word_at s (class_slot s k)) l /\
                forall x, In x l -> bsize s x <> 0.
Proof.
  induction n as [|n IH]; intros i s' E k Hk; cbn [check_seglist_valid] in E; [lia|].
  rewrite get_seg_listp_bind in E.
  change (wrap (seg_listp s + i * WSIZE)) with (class_slot s i) in E.
  destruct (in_heap_range s (class_slot s i) 8) eqn:Hr;
    [|rewrite GET_fault_bind in E by exact Hr; discriminate E].
  rewrite GET_bind in E by exact Hr. unfold bind at 1 in E.
  destruct (check_freelist_valid fuel (word_at s (class_slot s i)) s)
    as [b s1| |] eqn:X; try discriminate E.
  destruct b; [|discriminate E].
  pose proof (reads_check_freelist_valid fuel _ _ _ _ X) as ->.
  destruct (Z.eq_dec k i) as [->|Hne].
  - apply (valid_sound fuel _ s (word_at_range s _) X).
  - apply (IH (i + 1) s' E). lia.
Qed.

Lemma checkheap_debug_true (fuel : nat) (lineno : Z) (s' : state) :
  mm_checkheap_debug fuel lineno s = Ok true s' ->
  exists fl,
    (forall i, 0 <= i < 12 ->
       nseg s (word_at s (class_slot s i)) (fl i) /\
       forall x, In x (fl i) ->
                 mem_start_brk s + 8 <= x <= mem_brk s /\
                 balloc s x = 0 /\ bsize s x <> 0) /\
    count_heap_free fuel (heap_listp s) 0 s =
    Ok (wrap (Z.of_nat (length (buckets_from fl 12 0)))) s.
Proof.
  intros E. unfold mm_checkheap_debug in E.
  change (Z.to_nat SEGLIST_CLASSES) with 12%nat in E.
  unfold bind at 1 in E.
  destruct (check_seglist_marked fuel 12 0 0 s) as [[b c] s1| |] eqn:X1; try discriminate E.
  cbn [fst snd] in E. destruct b; cbn [negb] in E; [|discriminate E].
  pose proof (reads_check_seglist_marked fuel 12 _ _ _ _ _ X1) as ->.
  unfold get_heap_listp in E. unfold bind at 1 in E. unfold bind at 1 in E.
  destruct (count_heap_free fuel (heap_listp s) 0 s) as [c2 s2| |] eqn:X2;
    try discriminate E.
  pose proof (reads_count_heap_free fuel _ _ _ _ _ X2) as ->.
  destruct (Z.eqb_spec c2 c) as [Ec2|Hne]; cbn [negb] in E; [|discriminate E].
  unfold bind at 1 in E.
  destruct (check_seglist_valid fuel 12 0 s) as [b3 s3| |] eqn:X3; try discriminate E.
  destruct b3; cbn [negb] in E; [|discriminate E].
  destruct (seglist_marked_sound fuel 12 0 0 c s ltac:(pose proof WORD_MAX_eq; lia) X1)
    as (fl & Hfl & Ec).
  exists fl. split.
  - intros i Hi. destruct (Hfl i ltac:(lia)) as (Hl & Hall). split; [exact Hl|].
    intros x Hx. destruct (Hall x Hx) as (Hb & Hf).
    split; [exact Hb|]. split; [exact Hf|].
    destruct (seglist_valid_sound fuel 12 0 s3 X3 i ltac:(lia)) as (l3 & Hl3 & Hall3).
    rewrite <- (nseg_det s _ _ _ Hl Hl3) in Hall3. apply Hall3. exact Hx.
  - rewrite <- Ec2 in Ec. rewrite Ec. rewrite Z.add_0_l. reflexivity.
Qed.

End Verdict.

(** X24. With DEBUG defined, a verdict of true from [mm_checkheap] on a heap
    whose region lies inside the address space means: each of the twelve
    bucket roots starts a null-terminated chain of next-links; every block
    on these chains has a readable header inside the region, its
    allocation bit clear and a size other than 0; and the walk over the
    heap from [heap_listp] counts as many free blocks as the chains hold
    blocks (as 64-bit counters).  So a bucket with an allocated block, or a
    free block missing from the buckets, is never passed as true. *)
Theorem checkheap_debug_true_means (fuel : nat) (lineno : Z) (s s' : state) :
  sane s -> mm_checkheap_debug fuel lineno s = Ok true s' ->
  exists fl,
    (forall i, 0 <= i < 12 ->
       nseg s (word_at s (class_slot s i)) (fl i) /\
       forall x, In x (fl i) ->
                 mem_start_brk s + 8 <= x <= mem_brk s /\
                 balloc s x = 0 /\ bsize s x <> 0) /\
    count_heap_free fuel (heap_listp s) 0 s =
    Ok (wrap (Z.of_nat (length (buckets_from fl 12 0)))) s.
Proof.
  intros Hs E. apply (checkheap_debug_true s Hs fuel lineno s' E).
Qed.

Lemma trace_two_freed_sane : sane (fst trace_two_freed).
Proof. unfold sane. vm_compute. split; [intros C; discriminate C|reflexivity]. Qed.

Lemma checkheap_debug_true_means_witness :
  exists fl,
    (forall i, 0 <= i < 12 ->
       nseg (fst trace_two_freed)
            (word_at (fst trace_two_freed) (class_slot (fst trace_two_freed) i)) (fl i) /\
       forall x, In x (fl i) -> balloc (fst trace_two_freed) x = 0) /\
    result (count_heap_free 40 (heap_listp (fst trace_two_freed)) 0 (fst trace_two_freed)) = 2.
Proof.
  assert (F : enough 40 (fst trace_two_freed)) by (unfold enough; vm_compute; reflexivity).
  destruct (reachable_INV _ trace_two_freed_reachable) as (blk & fl0 & I & _).
  pose proof (checkheap_debug_INV (fst trace_two_freed) blk fl0 40 0 I F) as X.
  destruct (checkheap_debug_true_means 40 0 (fst trace_two_freed) (fst trace_two_freed)
              trace_two_freed_sane X) as (fl & Hfl & _).
  exists fl. split.
  - intros i Hi. destruct (Hfl i Hi) as (A & B). split; [exact A|].
    intros x Hx. apply (B x Hx).
  - vm_compute. reflexivity.
Defined.

(** *** The overlap check *)

Lemma NEXT_BLKP_wrap {B} (bp : Z) (k : Z -> M B) (s : state) :
  8 <= bp < WORD_MAX -> in_heap_range s (bp - 8) 8 = true ->
  bind (NEXT_BLKP bp) k s = k (wrap (bp + bsize s bp)) s.
Proof.
  intros H1 H2. unfold NEXT_BLKP, WSIZE. rewrite bind_assoc.
  rewrite (wrap_small (bp - 8)) by lia.
  rewrite GET_SIZE_bind by exact H2. reflexivity.
Qed.

(** X25. The overlap check of the debugging [mm_checkheap] (its fourth
    loop) compares [bp + size - 8] with [NEXT_BLKP(bp)], which is
    [bp + size]: it answers false only at an allocated block whose header
    size carries [bp + size] past the end of the 64-bit address space, and
    for no other block layout. *)
Theorem check_no_overlap_false_means_overflow (fuel : nat) (bp : Z) (s s' : state) :
  sane s -> 0 <= bp < WORD_MAX ->
  check_no_overlap fuel bp s = Ok false s' ->
  exists a, mem_start_brk s + 8 <= a <= mem_brk s /\ balloc s a <> 0 /\
            WORD_MAX <= a + bsize s a.
Proof.
  intros Hs. revert bp.
  induction fuel as [|fuel IH]; intros bp Hbp E; cbn [check_no_overlap] in E;
    [discriminate E|].
  destruct (Z.eqb_spec bp NULL) as [Hn|Hn]; [discriminate E|].
  destruct (in_heap_range s (HDRP bp) 8) eqn:Hr;
    [|rewrite GET_SIZE_fault in E by exact Hr; discriminate E].
  destruct (header_readable_inv s bp Hs Hbp Hr) as (H8 & Eh & Hin).
  rewrite GET_SIZE_bind in E by exact Hr. rewrite Eh in *.
  change (Z.land (word_at s (bp - 8)) SIZE_MASK) with (bsize s bp) in E.
  destruct (Z.eqb_spec (bsize s bp) 0) as [Hz|Hnz]; [discriminate E|].
  rewrite GET_ALLOC_bind in E by exact Hr.
  change (Z.land (word_at s (bp - 8)) 1) with (balloc s bp) in E.
  destruct (Z.eqb_spec (balloc s bp) 0) as [Hfree|Hal]; cbn [negb] in E.
  - rewrite NEXT_BLKP_wrap in E by (assumption || lia).
    apply (IH _ (wrap_range _) E).
  - rewrite GET_SIZE_bind in E by exact Hr.
    change (Z.land (word_at s (bp - 8)) SIZE_MASK) with (bsize s bp) in E.
    rewrite NEXT_BLKP_wrap in E by (assumption || lia).
    destruct (Z.leb_spec (wrap (bp + bsize s bp)) (wrap (wrap (bp + bsize s bp) - WSIZE)))
      as [Hle|Hgt].
    + exists bp. split; [exact Hin|]. split; [exact Hal|].
      destruct (Z_lt_le_dec (bp + bsize s bp) WORD_MAX) as [Hlt|Hge]; [|exact Hge].
      exfalso. destruct (bsize_facts s bp) as [Hb _]. unfold WSIZE in Hle.
      rewrite (wrap_small (bp + bsize s bp)) in Hle by lia.
      rewrite wrap_small in Hle by lia. lia.
    + rewrite NEXT_BLKP_wrap in E by (assumption || lia).
      apply (IH _ (wrap_range _) E).
Qed.

Lemma check_no_overlap_false_means_overflow_witness :
  match check_no_overlap 5 4224 heap_huge_size with
  | Ok b _ => b
  | Fault | Diverge => true
  end = false /\
  exists a, balloc heap_huge_size a <> 0 /\ WORD_MAX <= a + bsize heap_huge_size a.
Proof.
  split; [vm_compute; reflexivity|].
  assert (Hs : sane heap_huge_size).
  { unfold sane. vm_compute. split; [intros C; discriminate C|reflexivity]. }
  assert (Hbp : 0 <= 4224 < WORD_MAX) by (pose proof WORD_MAX_eq; lia).
  assert (Hb : match check_no_overlap 5 4224 heap_huge_size with
               | Ok b _ => b
               | Fault | Diverge => true
               end = false) by (vm_compute; reflexivity).
  destruct (check_no_overlap 5 4224 heap_huge_size) as [b s'| |] eqn:X;
    try discriminate Hb.
  subst b.
  destruct (check_no_overlap_false_means_overflow 5 4224 heap_huge_size s' Hs Hbp X)
    as (a & _ & A & B).
  exists a. split; [exact A|exact B].
Defined.

(** ** Safety of the interface *)

(** A request that is served moves the break up or not at all, and leaves
    the bounds of the region and the two global pointers alone. *)
Lemma serve_grows (fuel : nat) (rq : request) (s : state) (live : list (Z * Z))
      (st' : state * list (Z * Z)) :
  Linv s live -> bounded rq -> serve fuel rq (s, live) = Some st' ->
  grows s (fst st').
Proof.
  intros HL Hb. pose proof (Linv_brk s live HL) as Hsane.
  destruct HL as (blk & fl & I & Hlive).
  unfold serve. cbn [fst snd].
  destruct (legal_b live rq) eqn:Hlegal; [|discriminate].
  destruct rq as [n|p|p n|nmemb size|x b]; cbn [legal_b bounded] in *.
  - apply size_t_b_true in Hlegal.
    destruct (malloc fuel n s) as [r s1| |] eqn:X; cbn [through]; try discriminate.
    intros [= <-]. cbn [fst snd].
    apply (malloc_sound fuel s blk fl n r s1 I ltac:(lia) X).
  - destruct (Z.eqb_spec p NULL) as [->|Hpn].
    + rewrite free_null. cbn [through]. intros [= <-]. apply grows_refl.
    + cbn [orb] in Hlegal. apply held_b_true in Hlegal. destruct Hlegal as (n & Hin).
      destruct (Hlive p n Hin) as (Hp & Hal & _).
      destruct (free_spec s blk fl p I Hp Hal) as (s1 & blk1 & fl1 & X & F & _).
      rewrite X. cbn [through]. intros [= <-]. cbn [fst snd].
      apply same_frame_grows. exact F.
  - apply andb_prop in Hlegal. destruct Hlegal as [Hsz Hheld].
    apply size_t_b_true in Hsz.
    destruct (Z.eqb_spec p NULL) as [->|Hpn].
    + unfold realloc. rewrite header_of_null_faults by lia. discriminate.
    + cbn [orb] in Hheld. apply held_b_true in Hheld. destruct Hheld as (n0 & Hin).
      destruct (Hlive p n0 Hin) as (Hp & Hal & _).
      destruct (realloc fuel p n s) as [r s1| |] eqn:X; cbn [through]; try discriminate.
      intros [= <-]. cbn [fst snd].
      apply (realloc_sound fuel s blk fl p n r s1 I Hp Hal ltac:(lia) X).
  - apply andb_prop in Hlegal. destruct Hlegal as [Hsz1 Hsz2].
    apply size_t_b_true in Hsz1. apply size_t_b_true in Hsz2.
    assert (Hw : wrap (size * nmemb) = nmemb * size).
    { rewrite Z.mul_comm. apply wrap_small. unfold MAX_REQUEST in Hb. nia. }
    destruct (calloc fuel nmemb size s) as [r s1| |] eqn:X; cbn [through]; try discriminate.
    intros [= <-]. cbn [fst snd].
    apply (calloc_sound fuel s blk fl nmemb size r s1 I ltac:(lia) X).
  - unfold poke. destruct (in_heap_range s x 1); cbn [through]; [|discriminate].
    intros [= <-]. cbn [fst snd]. apply same_frame_grows. apply same_frame_set_bytes.
Qed.

(** X26. After a successful [mm_init], every legal request of bounded size
    other than [realloc] with a null pointer is served: with fuel for the
    longest walk the call returns, without reading or writing outside the
    region, and leaves a heap on which the same holds again.  The break
    never moves down and never passes the limit of the region; the start
    of the region, [heap_listp] and the bucket array stay where they are. *)
Theorem legal_requests_are_served (st : state * list (Z * Z)) (fuel : nat) (rq : request) :
  reachable bounded st -> bounded rq -> legal_b (snd st) rq = true ->
  null_resize rq = false -> enough fuel (fst st) ->
  exists st',
    serve fuel rq st = Some st' /\ reachable bounded st' /\
    mem_brk (fst st) <= mem_brk (fst st') <= mem_max_addr (fst st) /\
    mem_start_brk (fst st') = mem_start_brk (fst st) /\
    mem_max_addr (fst st') = mem_max_addr (fst st) /\
    heap_listp (fst st') = heap_listp (fst st) /\
    seg_listp (fst st') = seg_listp (fst st).
Proof.
  intros R Hb Hlegal Hnr Hf. pose proof (reachable_Linv st R) as HL.
  destruct st as [s live]. cbn [fst snd] in *.
  destruct (serve_returns fuel rq s live HL Hb Hlegal Hnr Hf) as (st' & X).
  exists st'. split; [exact X|].
  pose proof (after_request bounded (s, live) st' rq fuel R Hb X) as R'.
  split; [exact R'|].
  destruct (serve_grows fuel rq s live st' HL Hb X) as (G1 & G2 & G3 & G4 & G5).
  destruct (reachable_INV st' R') as (blk' & fl' & I' & _).
  destruct (hk_env _ _ (inv_heap _ _ _ I')) as [E1 E2 E3 E4 E5 E6 E7].
  repeat split; try assumption. lia.
Qed.

Lemma legal_requests_are_served_witness :
  exists st',
    serve 40 (Realloc 4256 200) trace_three = Some st' /\ reachable bounded st' /\
    mem_brk (fst trace_three) <= mem_brk (fst st').
Proof.
  assert (R : reachable bounded trace_three).
  { apply served_reachable; [apply heap0_reachable|].
    apply bounded_small. vm_compute. reflexivity. }
  assert (Hb : bounded (Realloc 4256 200))
    by (cbn; unfold MAX_REQUEST; pose proof WORD_MAX_eq; lia).
  assert (Hl : legal_b (snd trace_three) (Realloc 4256 200) = true)
    by (vm_compute; reflexivity).
  assert (F : enough 40 (fst trace_three)) by (unfold enough; vm_compute; reflexivity).
  destruct (legal_requests_are_served trace_three 40 (Realloc 4256 200) R Hb Hl eq_refl F)
    as (st' & X & R' & (A & _) & _).
  exists st'. split; [exact X|]. split; [exact R'|exact A].
Defined.

(** ** Release followed by allocation *)


